(* ===== verification/_CoqProject ===== *)
-Q . S2P
Prelude.v
GoInt.v
GoTime.v
HibTimer.v
Scheduler.v
SchedulerFacts.v
SchedThreads.v
SchedThreadFacts.v
Fsm.v
Inhibitor.v
Connections.v
LastDitch.v
GoFloat.v
GoText.v
GoDuration.v
GoFlag.v
GoJson.v
JsonFacts.v
FloatRound.v
FloatCanon.v
FloatText.v
FloatShortest.v
ClockProto.v
Systemd.v
ClockClient.v
ClockEngine.v
ChronyAdapter.v
ClockEngineFacts.v
ClockEngineSafety.v
ClockEngineTypes.v
ClockContract.v
Handshake.v
ChronyFacts.v
Server.v
WireFormat.v
InhibitorRuns.v
Daemon.v
SvcState.v
SvcGuards.v
SvcActions.v
Issuing.v
SvcFacts.v
IssuingFacts.v
WakeFacts.v
ActionFacts.v
ClockGuard.v
Handlers.v
HandlerFacts.v
Machine.v
Runs.v
MachineFacts.v
MachineSafety.v
Liveness.v
Typing.v
CommandLine.v
