(* ===== verification/Prelude.v ===== *)
(** * A verification library for the LibreScoot power-management service

    The service decides when the scooter's computer sleeps, hibernates, reboots
    or powers off.  The Go program has two processes.  [pm-service] runs a state
    machine, driven by Redis watchers, settings, a hibernation timer and a cron
    schedule, that counts down, waits for inhibitors and finally commands
    logind.  [clock-coordinator] owns the system clock: it admits or refuses
    clock steps by chrony, relays time samples to a reference clock, and takes
    part in every suspend through the [prepare]/[resume] messages of its
    socket.

    ** Files

    The language and its library, as far as the sources use them:
    - [Prelude]: record update, the state monad [ST] with its tactics ([minv]
      decomposes a run, [split_if] a test), [wp], frames ([steps]) and runs.
    - [GoInt]: fixed-width integers with their wrap-around, [strings], [strconv].
    - [GoTime]: [time.Duration], [time.Time] with wall and monotonic readings.
    - [GoFloat]: binary64 on [SpecFloat].  [GoText]: [strings.Split], [Fields],
      hexadecimal numbers and [strconv.ParseFloat].  [GoDuration]:
      [time.ParseDuration].  [GoFlag]: the [flag] package.
    - [FloatRound], [FloatCanon]: rounding is to the nearest, and every
      operation and reader gives a binary64 of bounded magnitude.
    - [GoJson]: [encoding/json]: UTF-8, the parser with its nesting limit, the
      members of structs, and the writer with its shortest floats.  [JsonFacts],
      [FloatText]: what is written is read back.  [FloatShortest]: every finite
      number is written, seventeen digits are enough.

    [internal/hibernation]:
    - [HibTimer]: [timer.go].
    - [Scheduler], [SchedulerFacts]: [scheduler.go], one definition per method.
      A method returns the new [Scheduler] and the argument of the [onFire]
      call it makes, if any.
    - [SchedThreads], [SchedThreadFacts]: the same methods as the goroutines run
      them, split where they hold the mutex, with the cron engine, the monitor
      of clock jumps, [Close] and the validator ([cstep]).

    [internal/fsm]:
    - [Fsm]: the states, events, payloads and data of [types.go]; the table
      [NewDefinition] of [definition.go], transition by transition in
      declaration order, guards and actions by name.

    [internal/inhibitor]:
    - [Inhibitor]: [inhibitor.go] and [redis.go].  Sockets are numbers and a
      pointer comparison is a comparison of identities.  [Connections]: accept
      loop, handlers, clients and [Close] interleaved ([sys_step]).
      [InhibitorRuns]: the errors of the accept loop and the subscription to the
      channel of the hash.

    [internal/systemd]:
    - [Systemd]: the logind client, with the suspend wait as a function of the
      signals that become ready, and [NotifyReady] of [notify.go].

    [internal/clockcontrol]:
    - [ClockProto]: messages and the SOCK sample of [protocol.go].
    - [ClockEngine]: [engine.go] and the dispatcher [handle] of [server.go].
      The state is [Engine]; an operation is a computation in [ST Engine] whose
      questions to clock, chrony, reference clock and file system are answered
      by an oracle.  Operations that give up the mutex are split there:
      [Submit] into [observe] and [submitLocked], [refresh] into the query and
      [refreshLocked], [Prepare] into [prepareBegin], [prepareCancelled] and
      [prepareFinish]; the goroutine of a chrony step ends in [stepDone].
    - [ClockEngineFacts], [ClockEngineSafety]: interleaved runs ([estep],
      [ereachable]), crashes included, and the theorems about them.
      [ClockEngineTypes]: the values of a run have their Go types, so that
      answers and state files can be written.  [ClockContract]: what the
      coordinator promises to a client, request by request ([served]), and that
      [handle] keeps it.
    - [ChronyAdapter], [ChronyFacts]: [adapters.go].  The output of a program
      is an input; [ChronycTracking] parses the three reports of [chronyc],
      [stepConfirmed] the answer to a step, and [refclockDatagram] is what
      [Send] writes.  [ec_tracking] of the engine's oracle is instantiated with
      [ChronycTracking] where the two are composed.
    - [Handshake]: a preparation and its resume, with everything the
      coordinator attends to in between.
    - [Server]: the accept loop of [server.go] as a machine of slots, and the
      bytes of a connection up to the dispatcher, for any decoder of requests.
    - [WireFormat]: the JSON texts of both processes, of the state file and of
      the Redis hash.  Its decoders are the ones that [Server], [ClockClient],
      [ClockEngine] and [Inhibitor] leave open; [callOver] connects a call of
      the service with the coordinator that serves it.

    [cmd/clock-coordinator]:
    - [Daemon]: [main.go] and [lock.go]: the waiting mode, the checks before the
      lock, the lock, and several processes on one host ([hstep]).

    [internal/service] and [internal/config]:
    - [SvcState]: the [Service] struct as [World], with the configuration and
      the environment [Env]: one answer per tick, every interaction takes the
      next tick, and each is recorded in [trace].
    - [LastDitch]: the emergency inputs, their latch and their trigger.
    - [ClockClient]: [clock_coordinator.go].  [ClockGuard]: calendar trust.
    - [SvcGuards], [SvcActions], [Issuing]: the methods that the table names;
      [eval_guard], [run_action] and [run_entry] map the names to them.
      [Issuing] holds the issuing entry, with its waits and the wake-up path.
    - [Handlers]: watchers, commands, settings, callbacks and start-up.
    - [CommandLine]: the flags of both programs, [service.New] and [main].
    - [Machine]: the whole service.  [librefsm] delivers events by its
      documented rule (class [LibreFSM] and its law), the other callbacks run
      beside it ([mstep], [reachable]).  [Runs] executes scripts of such steps.
    - [SvcFacts], [IssuingFacts], [WakeFacts], [ActionFacts], [HandlerFacts],
      [MachineFacts], [MachineSafety], [Liveness], [Typing]: the theorems.

    A definition has the name of the Go function it translates; a prime marks
    the method behind a name of the table, and a piece of a long function has a
    name of its own.

    ** What the theorems show

    - Commanding logind: [MachineSafety] carries the order of checks inside the
      issuing entry to every step of every run ([suspend_safety],
      [poweroff_safety]); [machine_invariant] says what a countdown is for.
    - Progress: the entry of the issuing state sends the event that leaves it
      again, unless a poweroff or reboot was issued (also one that failed), the
      service stops, the run is dry or the target has no command; "run" works
      from every state, and the documented suspended state is never entered
      ([Liveness]).
    - Types: [typed] bounds every field that comes from outside; each guard,
      action, entry, callback and the start-up preserve it ([Typing]).
    - Waking up: the wait for telemetry ends and the machine is told once that
      the system is awake, with the reason the kernel gives ([WakeFacts]).
    - Requests: priorities, outcome of an explicit hibernation for every answer
      of Redis and the inhibitors ([Refused], [Eligible], [Outcome]), restoration
      after a last-ditch, the modem wait ([ActionFacts]), the parser of the
      command list ([HandlerFacts]), and the table's own gates ([Fsm]).
    - Clock steps: their number and evidence, samples, suspend cycles and
      restarts ([ClockEngineSafety]); the answer and the effect of every request
      ([ClockContract]); what the service accepts as clock quality
      ([ClockClient], [ClockGuard]).
    - Suspending: the token of a preparation survives everything up to its
      resume, and no step is started meanwhile ([Handshake]).
    - Between the processes: a call over the socket is the coordinator's
      operation on the request that was meant, and its answer is judged as it
      was given; what a crash leaves on disk is read back as it was written
      ([WireFormat]).
    - Chrony: what a tracking report stands for, that a step rests on the report
      of its own round and on a source that report names, what confirms a step
      ([ChronyFacts]).
    - The coordinator as a process: one owner of its state, the wait for
      quality, at most sixteen connections and one answer to each ([Daemon],
      [Server]).
    - Schedule and timer: gates, caps, the search for a missed occurrence,
      deadlines ([SchedulerFacts], [HibTimer]); under every interleaving a
      target is spent once and nothing happens before the clock is validated,
      and an undisturbed call does what the atomic method does
      ([SchedThreadFacts]).
    - Command lines: every configuration that differs from the default only where
      there are flags can be given and is read back, and the service that is
      started is well typed ([CommandLine]).
    - Inhibitors: what blocks, the mirror of the hash entry by entry
      ([Inhibitor]), and what the acknowledgement promises a client
      ([Connections]); SOCK samples are read back exactly ([ClockProto]).
    - Some theorems state behaviour that differs from the intent:
      [stale_activation_expires], [sync_keeps_stale],
      [deferred_wake_overshoots], [fire_races_duration], [startup_gap] and
      [default_state_flag_unchecked].

    ** Bounds and fuel

    - [previousOccurrence] and [validateCronSchedule] loop at most 100000 and
      1000 times in Go as well; [previousOccurrence_spec] shows that the first
      bound suffices for two months of a schedule that does not fire more than
      once a minute.
    - [telemetry_fuel] is 17 turns of 200 ms for a wait of 3 s; the code has no
      bound, and [telemetry_wait_ends] shows that the model's is never hit
      while the clock advances by the poll interval.
    - [wait_fuel] is 3001 turns of 100 ms for a wait of at most five minutes;
      [wait_ends] shows that it is never hit while every turn sleeps.
    - [ParseDuration], [FormatUint], [Fields], [TrimSpace] and the parser of
      JSON recurse on fuel that the length or the width of the input bounds;
      the nesting limit of 10000 is that of Go.
    - [shortest] tries one to 17 digits; [FormatFloat_correct] shows that one
      of them is found for every finite number.
    - [int] is 32 bits wide (the target is ARM, [GoInt.intSize]); durations and
      boot times wrap at 64 bits.

    ** What is abstracted or left out

    - Third-party code is a parameter or an oracle: [librefsm], the Redis
      client, the cron library, D-Bus.  The text of an error that a library
      returns is a fixed string.
    - A wait of the issuing entry is one step whose outcome the environment
      chooses; what arrives meanwhile is a later event.
    - The critical sections of mutexes are atomic, and waiting for a mutex is
      not modelled: the handlers of [Handlers] run between the machine's steps,
      and nothing is claimed about deadlocks.
    - Files, sockets and programs are inputs: the text of /proc/uptime, the
      outcome of opening, checking and locking the lock file, the bytes of a
      connection, the output of [chronyc].  [flock] is a parameter of [Daemon]
      with the law that a held lock is not granted to another process.
    - [Run]'s goroutines are the steps beside the machine; of its end only the
      timers it stops have state here ([shutdown]).
    - Not modelled: logging and the texts that are only logged
      ([loadHWClock], [formatOptionalTime]), the actions that only log, the
      handler of termination signals (it cancels the context), the logind
      client's [Close], and [ntpSynced] with [isPseudoRefID], which only tests
      call. *)

From stdpp Require Export base tactics numbers list option strings gmap.
From Stdlib Require Export ZArith Lia.

#[global] Set Default Goal Selector "!".

Declare Scope pm_scope.
Delimit Scope pm_scope with pm.
#[global] Open Scope string_scope.
#[global] Open Scope list_scope.
#[global] Open Scope Z_scope.
#[global] Open Scope pm_scope.

(** ** Record update

    Go code assigns one field of a struct at a time.  [Eta] lists the fields
    of a record once; [Setter] is then found by the hint below, and
    [r <| f := v |>] reads like [r.f = v]. *)

Class Eta (R : Type) := eta : R → R.

Class Setter {R E : Type} (get : R → E) := upd : (E → E) → R → R.
Arguments upd {R E} get {_} _ _ /.

Ltac solve_setter :=
  lazymatch goal with
  | |- @Setter ?R ?E ?get =>
      exact (fun (f : E → E) (r : R) =>
               ltac:(let body := eval hnf in (@eta R _ r) in
                     match body with
                     | context C [get r] =>
                         let body' := context C [f (get r)] in exact body'
                     end))
  end.

#[export] Hint Extern 1 (Setter _) => solve_setter : typeclass_instances.

Notation "r <| f := v |>" := (upd f (λ _, v) r)
  (at level 1, left associativity, f at level 1, v at level 200,
   format "r  <| f  :=  v |>") : pm_scope.

(** ** String tests

    The Go sources dispatch on string constants; [=s] is the boolean test and
    [streq] splits every such test in the context. *)

Infix "=s" := String.eqb (at level 70, no associativity) : pm_scope.

Lemma streq_refl (s : string) : (s =s s) = true.
Proof. apply String.eqb_refl. Qed.

Lemma streq_true (a b : string) : (a =s b) = true ↔ a = b.
Proof. apply String.eqb_eq. Qed.

Lemma streq_false (a b : string) : (a =s b) = false ↔ a ≠ b.
Proof. apply String.eqb_neq. Qed.

(** Membership of a string in a literal list: the model of a Go [case] with
    several constants. *)
Definition one_of (s : string) (l : list string) : bool := existsb (String.eqb s) l.

Lemma one_of_spec s l : one_of s l = true ↔ s ∈ l.
Proof.
  unfold one_of. rewrite existsb_exists. setoid_rewrite streq_true.
  setoid_rewrite <- list_elem_of_In.
  split; [by intros (x & ? & ->)|eauto].
Qed.

(** Split the first boolean string test found in the goal or a hypothesis. *)
Ltac streq_case :=
  match goal with
  | |- context [String.eqb ?a ?b] =>
      first [is_var a | is_var b | idtac]; destruct (String.eqb_spec a b)
  | H : context [String.eqb ?a ?b] |- _ => destruct (String.eqb_spec a b)
  end.

Ltac streq := repeat (streq_case; simplify_eq/=; try done).

(** Boolean bookkeeping shared by every file. *)
Ltac bools :=
  repeat match goal with
  | H : context [andb _ _ = true] |- _ => setoid_rewrite andb_true_iff in H
  | H : context [orb _ _ = true] |- _ => setoid_rewrite orb_true_iff in H
  | H : context [negb _ = true] |- _ => setoid_rewrite negb_true_iff in H
  | H : context [andb _ _ = false] |- _ => setoid_rewrite andb_false_iff in H
  | H : context [orb _ _ = false] |- _ => setoid_rewrite orb_false_iff in H
  | H : context [negb _ = false] |- _ => setoid_rewrite negb_false_iff in H
  | H : _ ∧ _ |- _ => destruct H
  end.

Ltac split_if :=
  match goal with
  | |- context [if ?b then _ else _] => destruct b eqn:?
  | H : context [if ?b then _ else _] |- _ => destruct b eqn:?
  end.

(** Settle the integer tests of the goal that [lia] can decide. *)
Ltac ztests :=
  repeat match goal with
  | |- context [Z.ltb ?a ?b] =>
      first [rewrite (proj2 (Z.ltb_lt a b)) by lia | rewrite (proj2 (Z.ltb_ge a b)) by lia]
  | |- context [Z.leb ?a ?b] =>
      first [rewrite (proj2 (Z.leb_le a b)) by lia | rewrite (proj2 (Z.leb_gt a b)) by lia]
  | |- context [Z.eqb ?a ?b] =>
      first [rewrite (proj2 (Z.eqb_eq a b)) by lia | rewrite (proj2 (Z.eqb_neq a b)) by lia]
  end.

(** ** State monad

    Stateful Go code threads one world through its calls.  [ST W A] is that
    threading, [wp] its weakest precondition and [steps R m] says that every
    run of [m] stays inside the relation [R]. *)

Definition ST (W A : Type) : Type := W → A * W.

#[global] Instance ST_ret {W} : MRet (ST W) := λ A a w, (a, w).
#[global] Instance ST_bind {W} : MBind (ST W) := λ A B k m w, let '(a, w') := m w in k a w'.

(** Conversion unfolds the program before the monad. *)
#[global] Strategy 1000 [mbind ST_bind mret ST_ret].

Definition get_st {W} : ST W W := λ w, (w, w).
Definition gets {W A} (f : W → A) : ST W A := λ w, (f w, w).
Definition modify {W} (f : W → W) : ST W unit := λ w, (tt, f w).
Definition skip {W} : ST W unit := mret tt.

Notation "'when' b 'do' m" := (if b then m else skip)
  (at level 90, b at level 89, m at level 90) : pm_scope.

Definition wp {W A} (m : ST W A) (Q : A → W → Prop) (w : W) : Prop :=
  Q (m w).1 (m w).2.

Definition steps {W A} (R : relation W) (m : ST W A) : Prop := ∀ w, R w (m w).2.

Section monad_laws.
Context {W : Type}.
Implicit Types w : W.

Lemma run_bind {A B} (m : ST W A) (k : A → ST W B) w :
  (m ≫= k) w = k (m w).1 (m w).2.
Proof. unfold mbind, ST_bind. by destruct (m w). Qed.

Lemma run_ret {A} (a : A) w : (mret a : ST W A) w = (a, w).
Proof. done. Qed.

(** Running the first step of a sequence. *)
Lemma get_st_bind {B} (k : W → ST W B) w : (get_st ≫= k) w = k w w.
Proof. done. Qed.

Lemma gets_bind {A B} (f : W → A) (k : A → ST W B) w : (gets f ≫= k) w = k (f w) w.
Proof. done. Qed.

Lemma ret_bind {A B} (a : A) (k : A → ST W B) w : ((mret a : ST W A) ≫= k) w = k a w.
Proof. done. Qed.

Lemma modify_bind {B} f (k : unit → ST W B) w : (modify f ≫= k) w = k tt (f w).
Proof. done. Qed.

Lemma bind_inv {A B} (m : ST W A) (k : A → ST W B) w r :
  (m ≫= k) w = r → ∃ a w', m w = (a, w') ∧ k a w' = r.
Proof. rewrite run_bind. destruct (m w) as [a w']. eauto. Qed.

Lemma steps_inv (R : relation W) {A} (m : ST W A) w a w' : steps R m → m w = (a, w') → R w w'.
Proof. intros H E. specialize (H w). by rewrite E in H. Qed.

Lemma wp_ret {A} (a : A) Q w : Q a w → wp (mret a) Q w.
Proof. done. Qed.

Lemma wp_bind {A B} (m : ST W A) (k : A → ST W B) Q w :
  wp m (λ a, wp (k a) Q) w → wp (m ≫= k) Q w.
Proof. unfold wp. by rewrite run_bind. Qed.

Lemma wp_gets {A} (f : W → A) Q w : Q (f w) w → wp (gets f) Q w.
Proof. done. Qed.

Lemma wp_modify f (Q : unit → W → Prop) w : Q tt (f w) → wp (modify f) Q w.
Proof. done. Qed.

Lemma wp_skip (Q : unit → W → Prop) w : Q tt w → wp skip Q w.
Proof. done. Qed.

Lemma wp_conseq {A} (m : ST W A) (P Q : A → W → Prop) w :
  wp m P w → (∀ a w', P a w' → Q a w') → wp m Q w.
Proof. unfold wp. auto. Qed.

Lemma wp_run {A} (m : ST W A) (Q : A → W → Prop) w : wp m Q w → Q (m w).1 (m w).2.
Proof. done. Qed.

Lemma wp_and {A} (m : ST W A) (P Q : A → W → Prop) w :
  wp m P w → wp m Q w → wp m (λ a w', P a w' ∧ Q a w') w.
Proof. done. Qed.

Context (R : relation W) `{!PreOrder R}.

Lemma steps_ret {A} (a : A) : steps R (mret a).
Proof. intros w. reflexivity. Qed.

Lemma steps_skip : steps R skip.
Proof. intros w. reflexivity. Qed.

Lemma steps_gets {A} (f : W → A) : steps R (gets f).
Proof. intros w. reflexivity. Qed.

Lemma steps_bind {A B} (m : ST W A) (k : A → ST W B) :
  steps R m → (∀ a, steps R (k a)) → steps R (m ≫= k).
Proof. intros Hm Hk w. rewrite run_bind. etrans; [apply Hm | apply Hk]. Qed.

Lemma steps_modify f : (∀ w, R w (f w)) → steps R (modify f).
Proof. intros H w. apply H. Qed.

Lemma steps_if {A} (b : bool) (m1 m2 : ST W A) :
  steps R m1 → steps R m2 → steps R (if b then m1 else m2).
Proof. by destruct b. Qed.
End monad_laws.

Create HintDb pm.
#[export] Hint Resolve steps_ret steps_skip steps_gets steps_bind steps_modify steps_if : pm.

(** Drive a [wp] goal through returns, binds, reads, writes and branches. *)
Ltac wp_step :=
  lazymatch goal with
  | |- wp (mret _) _ _ => apply wp_ret
  | |- wp skip _ _ => apply wp_skip
  | |- wp (_ ≫= _) _ _ => apply wp_bind
  | |- wp (gets _) _ _ => apply wp_gets
  | |- wp (modify _) _ _ => apply wp_modify
  | |- wp (if ?b then _ else _) _ _ => destruct b eqn:?
  end.
Ltac wp_steps := repeat (wp_step; cbn beta).

(** Invert the run [H : m w = (a, w')] step by step: reads and returns are
    executed, a branch is split, and a call leaves its own run as a hypothesis.
    The rest of the program is never unfolded. *)
Ltac minv1 H :=
  lazymatch type of H with
  | mbind _ get_st _ = _ => rewrite get_st_bind in H
  | mbind _ (gets _) _ = _ => rewrite gets_bind in H
  | mbind _ (mret _) _ = _ => rewrite ret_bind in H
  | mbind _ _ _ = _ =>
      let a := fresh "a" in let w := fresh "w" in let E := fresh "E" in
      apply bind_inv in H as (a & w & E & H)
  | mret _ _ = _ => rewrite run_ret in H
  | skip _ = _ => unfold skip in H; rewrite run_ret in H
  end; cbv beta iota in H.
Ltac minv H := repeat minv1 H.

(** Split a [steps] goal along the structure of the computation. *)
Ltac steps_step :=
  lazymatch goal with
  | |- steps _ (_ ≫= _) => apply steps_bind; [| intros ?]
  | |- steps _ (mret _) => apply steps_ret
  | |- steps _ skip => apply steps_skip
  | |- steps _ (gets _) => apply steps_gets
  | |- steps _ (if ?b then _ else _) => destruct b
  | |- steps _ (match ?x with _ => _ end) => destruct x
  end.

(** ** Reachability

    [star step] is the reflexive transitive closure used for runs. *)

Section reach.
Context {S E : Type} (step : S → E → S).

(** The state after a sequence of events. *)
Definition run (s : S) (es : list E) : S := fold_left step es s.

Lemma run_app s es1 es2 : run s (es1 ++ es2) = run (run s es1) es2.
Proof. apply fold_left_app. Qed.

Lemma run_invariant (P : S → Prop) (ok : E → Prop) :
  (∀ s e, P s → ok e → P (step s e)) →
  ∀ es s, P s → Forall ok es → P (run s es).
Proof.
  intros Hstep es. induction es as [|e es IH]; intros s Hs Hok; [done|].
  inversion Hok; subst. apply IH; auto.
Qed.
End reach.

(** ** Lists *)

Lemma existsb_app_false {A} (p : A → bool) l : (∀ x, x ∈ l → p x = false) → existsb p l = false.
Proof.
  intros H. apply not_true_iff_false. rewrite existsb_exists.
  intros (x & Hin & Hp). rewrite <- list_elem_of_In in Hin. by rewrite (H x Hin) in Hp.
Qed.

Lemma existsb_perm {A} (p : A → bool) l1 l2 : l1 ≡ₚ l2 → existsb p l1 = existsb p l2.
Proof.
  induction 1; simpl; [done|congruence| |congruence].
  repeat match goal with |- context [p ?x] => destruct (p x) end; done.
Qed.
