(* ===== verification/GoInt.v ===== *)
(** * Go's fixed-width integers and decimal conversions

    [int64]/[uint32]/[uint64] arithmetic as [Z] with its wrap-around, and the
    parts of [strings] and [strconv] the service uses: [TrimSpace],
    [CutPrefix], [Cut], [Atoi], [ParseInt], [ParseUint] and [FormatUint].
    Go strings are byte strings; a [string] here is that byte sequence. *)

From S2P Require Import Prelude.
From Stdlib Require Ascii.

(** ** Widths *)

Definition i64 (z : Z) : Z := (z + 2 ^ 63) `mod` 2 ^ 64 - 2 ^ 63.
Definition u64 (z : Z) : Z := z `mod` 2 ^ 64.
Definition u32 (z : Z) : Z := z `mod` 2 ^ 32.
Definition i32 (z : Z) : Z := (z + 2 ^ 31) `mod` 2 ^ 32 - 2 ^ 31.

Definition maxInt64 : Z := 2 ^ 63 - 1.
Definition minInt64 : Z := - 2 ^ 63.

Definition is_i64 (z : Z) : Prop := minInt64 ≤ z ≤ maxInt64.
Definition is_u32 (z : Z) : Prop := 0 ≤ z < 2 ^ 32.
Definition is_u64 (z : Z) : Prop := 0 ≤ z < 2 ^ 64.

Lemma i64_id z : is_i64 z → i64 z = z.
Proof. unfold is_i64, i64, minInt64, maxInt64. intros. rewrite Z.mod_small; lia. Qed.

Lemma i64_range z : is_i64 (i64 z).
Proof.
  unfold is_i64, i64, minInt64, maxInt64.
  pose proof (Z.mod_pos_bound (z + 2 ^ 63) (2 ^ 64) ltac:(lia)). lia.
Qed.

Lemma u32_id z : is_u32 z → u32 z = z.
Proof. unfold is_u32, u32. intros. by rewrite Z.mod_small. Qed.

Lemma u32_range z : is_u32 (u32 z).
Proof. unfold is_u32, u32. apply Z.mod_pos_bound. lia. Qed.

Lemma u64_id z : is_u64 z → u64 z = z.
Proof. unfold is_u64, u64. intros. by rewrite Z.mod_small. Qed.

Lemma u64_range z : is_u64 (u64 z).
Proof. unfold is_u64, u64. apply Z.mod_pos_bound. lia. Qed.

Create Rewrite HintDb gonum.
#[export] Hint Resolve i64_range u32_range u64_range : pm.
#[export] Hint Rewrite i64_id u32_id u64_id using (unfold is_i64, is_u32, is_u64, minInt64, maxInt64; lia) : gonum.

(** ** Strings *)

Definition code (c : Ascii.ascii) : Z := Z.of_N (Ascii.N_of_ascii c).
Definition chr (z : Z) : Ascii.ascii := Ascii.ascii_of_N (Z.to_N z).

(** [strings.TrimSpace] removes Unicode white space at both ends.  The UTF-8
    encodings of the [White_Space] code points are listed here. *)
Definition space_seqs : list (list Z) :=
  [[9]; [10]; [11]; [12]; [13]; [32]; [194; 133]; [194; 160]; [225; 154; 128];
   [226; 128; 128]; [226; 128; 129]; [226; 128; 130]; [226; 128; 131]; [226; 128; 132];
   [226; 128; 133]; [226; 128; 134]; [226; 128; 135]; [226; 128; 136]; [226; 128; 137];
   [226; 128; 138]; [226; 128; 168]; [226; 128; 169]; [226; 128; 175]; [226; 129; 159];
   [227; 128; 128]].

Fixpoint drop_prefix (p l : list Z) : option (list Z) :=
  match p, l with
  | [], _ => Some l
  | x :: p', y :: l' => if x =? y then drop_prefix p' l' else None
  | _ :: _, [] => None
  end.

Fixpoint drop_any (ps : list (list Z)) (l : list Z) : option (list Z) :=
  match ps with
  | [] => None
  | p :: ps' => match drop_prefix p l with Some l' => Some l' | None => drop_any ps' l end
  end.

Fixpoint trim_left (fuel : nat) (ps : list (list Z)) (l : list Z) : list Z :=
  match fuel with
  | O => l
  | S n => match drop_any ps l with Some l' => trim_left n ps l' | None => l end
  end.

Fixpoint bytes (s : string) : list Z :=
  match s with
  | EmptyString => []
  | String c s' => code c :: bytes s'
  end.

Fixpoint unbytes (l : list Z) : string :=
  match l with
  | [] => EmptyString
  | z :: l' => String (chr z) (unbytes l')
  end.

(** Each round removes at least one byte, so the length is enough fuel. *)
Definition TrimSpace (s : string) : string :=
  let l := bytes s in
  let l1 := trim_left (length l) space_seqs l in
  let l2 := trim_left (length l1) (map (@rev Z) space_seqs) (rev l1) in
  unbytes (rev l2).

Fixpoint CutPrefix (s prefix : string) {struct prefix} : option string :=
  match prefix, s with
  | EmptyString, _ => Some s
  | String c p', String d s' => if Ascii.eqb c d then CutPrefix s' p' else None
  | String _ _, EmptyString => None
  end.

Definition HasPrefix (s prefix : string) : bool :=
  match CutPrefix s prefix with Some _ => true | None => false end.

(** [strings.Cut] with a one-byte separator, given by its code. *)
Fixpoint Cut (s : string) (sep : Z) : option (string * string) :=
  match s with
  | EmptyString => None
  | String c s' =>
      if code c =? sep then Some (EmptyString, s')
      else match Cut s' sep with
           | Some (a, b) => Some (String c a, b)
           | None => None
           end
  end.

(** ** Decimal conversion

    The error results of [strconv] carry a reason the service never inspects:
    [None] stands for every error. *)

Definition is_digit (c : Ascii.ascii) : bool := (48 <=? code c) && (code c <=? 57).

Fixpoint digits (acc : Z) (s : string) : option Z :=
  match s with
  | EmptyString => Some acc
  | String c s' => if is_digit c then digits (acc * 10 + (code c - 48)) s' else None
  end.

Definition ParseUint (bits : Z) (s : string) : option Z :=
  match s with
  | EmptyString => None
  | _ => match digits 0 s with
         | Some v => if v <? 2 ^ bits then Some v else None
         | None => None
         end
  end.

Definition ParseInt (bits : Z) (s : string) : option Z :=
  match s with
  | EmptyString => None
  | String c s' =>
      let neg := code c =? 45 in
      let body := if neg || (code c =? 43) then s' else s in
      match ParseUint bits body with
      | None => None
      | Some v =>
          if negb neg && (2 ^ (bits - 1) <=? v) then None
          else if neg && (2 ^ (bits - 1) <? v) then None
          else Some (if neg then - v else v)
      end
  end.

(** The production build targets ARMv7 ([GOARCH=arm] in the Makefile), where
    [int] has 32 bits. *)
Definition intSize : Z := 32.
Definition Atoi (s : string) : option Z := ParseInt intSize s.

Definition digit (z : Z) : Ascii.ascii := chr (48 + z).

Fixpoint format_loop (fuel : nat) (v : Z) (acc : string) : string :=
  match fuel with
  | O => acc
  | S n =>
      let acc' := String (digit (v `mod` 10)) acc in
      if v <? 10 then acc' else format_loop n (v `div` 10) acc'
  end.

(** [strconv.FormatUint(v, 10)]; a [uint64] has at most 20 decimal digits. *)
Definition FormatUint (v : Z) : string := format_loop 20 v EmptyString.

(** ** Lemmas *)

Lemma code_chr z : 0 ≤ z < 256 → code (chr z) = z.
Proof.
  intros. unfold code, chr. rewrite Ascii.N_ascii_embedding by lia. lia.
Qed.

Lemma digit_code z : 0 ≤ z < 10 → code (digit z) = 48 + z.
Proof. intros. unfold digit. apply code_chr. lia. Qed.

Lemma is_digit_digit z : 0 ≤ z < 10 → is_digit (digit z) = true.
Proof. intros. unfold is_digit. rewrite digit_code by done. lia. Qed.

Lemma digits_nonneg s : ∀ acc v, 0 ≤ acc → digits acc s = Some v → 0 ≤ v.
Proof.
  induction s as [|c s IH]; intros acc v Hacc H; simpl in H; [by simplify_eq|].
  unfold is_digit in H. split_if; [|done]. eapply IH; [|exact H]. bools. lia.
Qed.

Lemma ParseUint_range bits s v : ParseUint bits s = Some v → 0 ≤ v < 2 ^ bits.
Proof.
  unfold ParseUint. destruct s as [|c s]; [done|].
  destruct (digits _ _) as [v'|] eqn:E; [|done]. split_if; intros; simplify_eq.
  split; [by eapply digits_nonneg in E|lia].
Qed.

Lemma ParseInt_range bits s v :
  0 < bits → ParseInt bits s = Some v → - 2 ^ (bits - 1) ≤ v < 2 ^ (bits - 1).
Proof.
  unfold ParseInt. destruct s as [|c s]; [done|]. intros Hb.
  destruct (ParseUint _ _) as [n|] eqn:E; [|done]. apply ParseUint_range in E.
  assert (0 < 2 ^ (bits - 1)) by (apply Z.pow_pos_nonneg; lia).
  destruct (code c =? 45); simpl; repeat split_if; intros; simplify_eq; lia.
Qed.

Lemma format_loop_digits n : ∀ v acc a,
  0 ≤ v < 10 ^ Z.of_nat n →
  ∃ k, digits a (format_loop n v acc) = digits (a * 10 ^ k + v) acc.
Proof.
  induction n as [|n IH]; intros v acc a Hv.
  { simpl in Hv. exists 0. simpl. f_equal. lia. }
  rewrite Nat2Z.inj_succ, Z.pow_succ_r in Hv by lia.
  pose proof (Z.mod_pos_bound v 10 ltac:(lia)) as Hm.
  pose proof (Z.div_mod v 10 ltac:(lia)) as Hdm.
  simpl. destruct (v <? 10) eqn:Hlt.
  - exists 1. simpl. rewrite is_digit_digit, digit_code by lia.
    rewrite Z.mod_small by lia. f_equal. lia.
  - destruct (IH (v `div` 10) (String (digit (v `mod` 10)) acc) a) as [k Hk].
    { split; [apply Z.div_pos; lia|apply Z.div_lt_upper_bound; lia]. }
    destruct (decide (0 ≤ k)).
    + exists (Z.succ k). rewrite Hk. simpl. rewrite is_digit_digit, digit_code by lia.
      rewrite Z.pow_succ_r by done. f_equal. lia.
    + exists k. rewrite Hk. simpl. rewrite is_digit_digit, digit_code by lia.
      rewrite Z.pow_neg_r by lia. f_equal. lia.
Qed.

Lemma format_loop_nonempty n : ∀ v acc, acc ≠ EmptyString → format_loop n v acc ≠ EmptyString.
Proof. induction n; intros v acc Hacc; simpl; [done|]. destruct (v <? 10); [done|]. by apply IHn. Qed.

Lemma format_loop_S_nonempty n v : format_loop (S n) v EmptyString ≠ EmptyString.
Proof. simpl. destruct (v <? 10); [done|]. by apply format_loop_nonempty. Qed.

Lemma FormatUint_nonempty v : FormatUint v ≠ EmptyString.
Proof. apply (format_loop_S_nonempty 19). Qed.

(** What [FormatUint] prints, [ParseUint] reads back. *)
Lemma ParseUint_FormatUint bits v :
  0 ≤ v < 2 ^ bits → v < 10 ^ 20 → ParseUint bits (FormatUint v) = Some v.
Proof.
  intros Hv Hlen.
  assert (Hd : digits 0 (FormatUint v) = Some v).
  { destruct (format_loop_digits 20 v EmptyString 0) as [k Hk]; [simpl; lia|].
    unfold FormatUint. by rewrite Hk, Z.mul_0_l. }
  unfold ParseUint. destruct (FormatUint v) as [|c s] eqn:E; [by apply FormatUint_nonempty in E|].
  rewrite Hd. by rewrite (proj2 (Z.ltb_lt _ _)) by lia.
Qed.

Lemma CutPrefix_app p s : CutPrefix (p +:+ s) p = Some s.
Proof. induction p as [|c p IH]; simpl; [done|]. by rewrite Ascii.eqb_refl, IH. Qed.

Example TrimSpace_ex : TrimSpace "  42 " = "42".
Proof. reflexivity. Qed.
Example Atoi_ex : Atoi "-17" = Some (-17).
Proof. reflexivity. Qed.
Example FormatUint_ex : FormatUint 604800 = "604800".
Proof. reflexivity. Qed.
