(* ===== verification/GoTime.v ===== *)
(** * Go's [time.Duration] and [time.Time]

    A [Duration] is an [int64] count of nanoseconds.  A [Time] carries a wall
    reading and, when it comes from [time.Now], a monotonic reading: [Sub],
    [After] and [Before] use the monotonic readings when both operands have
    one, [Add] shifts both readings and [Round(0)] strips the monotonic one.
    Wall readings are unbounded integers here (Go counts seconds in an
    [int64]). *)

From S2P Require Import Prelude GoInt.

(** ** Durations *)

Definition Nanosecond : Z := 1.
Definition Millisecond : Z := 1000000.
Definition Second : Z := 1000000000.
Definition Minute : Z := 60 * Second.
Definition Hour : Z := 60 * Minute.

(** [time.Duration(n) * time.Second]. *)
Definition seconds (n : Z) : Z := i64 (n * Second).

(** Saturation to the [Duration] range, as [Time.Sub] does. *)
Definition sat64 (z : Z) : Z := Z.max minInt64 (Z.min maxInt64 z).

Lemma sat64_id z : is_i64 z → sat64 z = z.
Proof. unfold is_i64, sat64. lia. Qed.

Lemma sat64_range z : is_i64 (sat64 z).
Proof. unfold is_i64, sat64, minInt64, maxInt64. lia. Qed.

Lemma sat64_pos z : 0 < sat64 z ↔ 0 < z.
Proof. unfold sat64, minInt64, maxInt64. lia. Qed.

(** ** Instants *)

Record Time := mkTime { wall : Z; mono : option Z }.
#[export] Instance eta_Time : Eta Time := λ t, mkTime (wall t) (mono t).
#[export] Instance Time_eq_dec : EqDecision Time.
Proof. solve_decision. Defined.

(** [time.Time{}] is midnight of January 1 of year 1. *)
Definition zeroTime : Time := mkTime (- 62135596800 * Second) None.
Definition IsZero (t : Time) : bool := wall t =? wall zeroTime.

Definition Round0 (t : Time) : Time := mkTime (wall t) None.

Definition Add (t : Time) (d : Z) : Time :=
  mkTime (wall t + d)
    (match mono t with
     | Some m => if decide (is_i64 (m + d)) then Some (m + d) else None
     | None => None
     end).

(** The pair of readings a comparison uses. *)
Definition readings (t u : Time) : Z * Z :=
  match mono t, mono u with
  | Some a, Some b => (a, b)
  | _, _ => (wall t, wall u)
  end.

Definition Sub (t u : Time) : Z := sat64 ((readings t u).1 - (readings t u).2).
Definition After (t u : Time) : bool := (readings t u).2 <? (readings t u).1.
Definition Before (t u : Time) : bool := (readings t u).1 <? (readings t u).2.

(** [time.Unix(0, ns)] has no monotonic reading. *)
Definition UnixNs (ns : Z) : Time := mkTime ns None.

(** Arithmetic on durations: unfold the units, then [lia]. *)
Ltac tlia :=
  unfold Hour, Minute, Second, Millisecond, Nanosecond, is_i64, is_u32, is_u64, minInt64, maxInt64 in *; lia.

(** ** Lemmas *)

Lemma readings_swap t u : readings u t = ((readings t u).2, (readings t u).1).
Proof. unfold readings. by destruct (mono t), (mono u). Qed.

Lemma After_Before t u : After t u = Before u t.
Proof. unfold After, Before. by rewrite (readings_swap t u). Qed.

Lemma After_Sub t u : After t u = (0 <? Sub t u).
Proof.
  unfold After, Sub. pose proof (sat64_pos ((readings t u).1 - (readings t u).2)).
  apply eq_true_iff_eq. rewrite !Z.ltb_lt. lia.
Qed.

Lemma Sub_range t u : is_i64 (Sub t u).
Proof. apply sat64_range. Qed.

Lemma readings_Round0 t u : readings (Round0 t) (Round0 u) = (wall t, wall u).
Proof. done. Qed.

Lemma IsZero_spec t : IsZero t = true ↔ wall t = wall zeroTime.
Proof. apply Z.eqb_eq. Qed.

Lemma mono_Add_id t d m : mono t = Some m → is_i64 (m + d) → mono (Add t d) = Some (m + d).
Proof. intros Hm Hr. simpl. rewrite Hm. by rewrite decide_True. Qed.

Lemma mono_Add_None t d : mono t = None → mono (Add t d) = None.
Proof. intros Hm. simpl. by rewrite Hm. Qed.

#[export] Hint Resolve sat64_range Sub_range : pm.

(** Between two readings of the clock at least [d] has passed.  Go documents
    that of the monotonic readings (the process is younger than 146 years); the
    wall clock may be set in between and counts only without them. *)
Definition elapsed (t u : Time) (d : Z) : Prop :=
  match mono t, mono u with
  | Some a, Some b => 0 ≤ a < 2 ^ 62 ∧ a + d ≤ b
  | _, _ => wall t + d ≤ wall u
  end.

Lemma elapsed_not_Before t u d e : elapsed t u d → 0 ≤ e ≤ d → e ≤ 2 ^ 62 → Before u (Add t e) = false.
Proof.
  unfold elapsed, Before, readings, Add. destruct (mono t) as [a|], (mono u) as [b|]; cbn; intros He Hd Hr; try (apply Z.ltb_ge; lia).
  rewrite decide_True; [apply Z.ltb_ge; cbn; lia|]. unfold is_i64, minInt64, maxInt64. lia.
Qed.
