(* ===== verification/HibTimer.v ===== *)
(** * The hibernation timer

    [internal/hibernation/timer.go]: a timer that asks for hibernation after
    the vehicle has been idle for the configured time.  [time.AfterFunc] is
    modelled by the deadline of the pending timer; the runtime calls
    [onTimer] at or after that deadline. *)

From S2P Require Import Prelude GoInt GoTime.

Definition MinTimerSeconds : Z := 300.

(** [pending] is the deadline (monotonic reading) of [t.timer], [None] when
    the field is nil.  The logger, the mutex and the context have no effect
    on the state. *)
Record Timer := mkTimer {
  pending : option Z;
  timerDuration : Z;
  lastActivateTime : Time;
  active : bool;
  enabled : bool;
}.
#[export] Instance eta_Timer : Eta Timer :=
  λ t, mkTimer (pending t) (timerDuration t) (lastActivateTime t) (active t) (enabled t).

(** A monotonic reading of [time.Now]: every [Now] has one. *)
Definition monoOf (now : Time) : Z := default 0 (mono now).

Definition NewTimer (defaultDuration : Z) : Timer :=
  let floor := seconds MinTimerSeconds in
  let d := if (0 <? defaultDuration) && (defaultDuration <? floor) then floor else defaultDuration in
  mkTimer None d zeroTime false (0 <? d).

Definition stopTimer (t : Timer) : Timer := t <| pending := None |>.

Definition startTimer (now : Time) (duration : Z) (t : Timer) : Timer :=
  (stopTimer t) <| pending := Some (monoOf now + duration) |>.

(** [onTimer] runs the hibernation callback only while the timer is active;
    the result tells whether the callback ran. *)
Definition onTimer (t : Timer) : bool := active t.

(** [SetTimerValue]; the flag tells whether [go t.onTimer()] was started, the
    immediate expiry path. *)
Definition SetTimerValue (now : Time) (timerValueSeconds : Z) (t : Timer) : Timer * bool :=
  if timerValueSeconds <? 0 then (t, false) else
  let v := if (0 <? timerValueSeconds) && (timerValueSeconds <? MinTimerSeconds)
           then MinTimerSeconds else timerValueSeconds in
  let t := t <| timerDuration := seconds v |> in
  if v =? 0 then (stopTimer (t <| enabled := false |>), false)
  else
    let wasEnabled := enabled t in
    let t := t <| enabled := true |> in
    if active t then
      if wasEnabled then
        let timeSinceLastActivate := Sub now (lastActivateTime t) in
        if timeSinceLastActivate <? timerDuration t
        then (startTimer now (i64 (timerDuration t - timeSinceLastActivate)) t, false)
        else (t, true)
      else (startTimer now (timerDuration t) t, false)
    else (t, false).

Definition ResetTimer (now : Time) (activate : bool) (t : Timer) : Timer :=
  if negb (enabled t) then t <| active := activate |>
  else
    let t :=
      if activate then startTimer now (timerDuration t) (t <| lastActivateTime := now |>)
      else if active t then stopTimer t
      else t in
    t <| active := activate |>.

Definition GetActive (t : Timer) : bool := active t.
Definition GetTimerDuration (t : Timer) : Z := timerDuration t.
Definition Close (t : Timer) : Timer := (stopTimer t) <| active := false |>.

(** The runtime fires the pending timer once its deadline has passed; the
    fired timer is not stopped, so [t.timer] keeps its (spent) value. *)
Definition expire (now : Time) (t : Timer) : bool :=
  match pending t with
  | Some d => (d <=? monoOf now) && onTimer t
  | None => false
  end.

(** ** Invariant

    The configured duration is zero or at least the floor, the timer is
    enabled exactly when it is non-zero, and a pending deadline exists only
    for an enabled and active timer. *)

Definition floorNs : Z := MinTimerSeconds * Second.

Record timer_ok (t : Timer) : Prop := {
  ok_floor : timerDuration t = 0 ∨ floorNs ≤ timerDuration t;
  ok_enabled : enabled t = (0 <? timerDuration t);
  ok_pending : pending t ≠ None → active t = true ∧ enabled t = true;
}.

Lemma seconds_pos v : 0 ≤ v < 2 ^ 31 → seconds v = v * Second.
Proof. intros. apply i64_id. tlia. Qed.

Lemma NewTimer_ok d : 0 ≤ d → timer_ok (NewTimer d).
Proof.
  intros Hd. unfold NewTimer, floorNs, MinTimerSeconds. rewrite seconds_pos by lia.
  destruct (_ && _) eqn:E; split; cbn; unfold floorNs, MinTimerSeconds; bools; try done; tlia.
Qed.

(** The value [SetTimerValue] stores: zero, or clamped up to the floor. *)
Definition clampTimer (v : Z) : Z :=
  if (0 <? v) && (v <? MinTimerSeconds) then MinTimerSeconds else v.

Lemma clampTimer_range v :
  0 ≤ v < 2 ^ 31 → clampTimer v = 0 ∨ MinTimerSeconds ≤ clampTimer v < 2 ^ 31.
Proof. unfold clampTimer, MinTimerSeconds. intros. destruct (_ && _) eqn:E; bools; lia. Qed.

Lemma clampTimer_pos v : 0 < v < 2 ^ 31 → 300 ≤ clampTimer v < 2 ^ 31.
Proof. unfold clampTimer, MinTimerSeconds. intros. destruct (_ && _) eqn:E; bools; lia. Qed.

Lemma SetTimerValue_ok now v t :
  v < 2 ^ 31 → timer_ok t → timer_ok (SetTimerValue now v t).1.
Proof.
  intros Hv [Hf He Hp]. unfold SetTimerValue. fold (clampTimer v).
  destruct (v <? 0) eqn:Hneg; [by split|].
  destruct (clampTimer_range v) as [Hw|Hw]; [lia|rewrite Hw; split; cbn; naive_solver|].
  set (w := clampTimer v) in *. clearbody w.
  rewrite (seconds_pos w) by (unfold MinTimerSeconds in *; lia).
  assert (Hfl : floorNs ≤ w * Second) by (unfold floorNs, MinTimerSeconds in *; tlia).
  assert (Hpos : (0 <? w * Second) = true) by (unfold MinTimerSeconds in *; tlia).
  destruct (w =? 0) eqn:E0; [unfold MinTimerSeconds in *; lia|]. cbn.
  destruct (active t), (enabled t); repeat split_if; split; cbn; rewrite ?Hpos; naive_solver.
Qed.

Lemma ResetTimer_ok now b t : timer_ok t → timer_ok (ResetTimer now b t).
Proof.
  intros [Hf He Hp]. unfold ResetTimer.
  destruct (enabled t) eqn:Het, b, (active t) eqn:Ha; split; cbn; try done; naive_solver.
Qed.

Lemma Close_ok t : timer_ok t → timer_ok (Close t).
Proof. intros [Hf He Hp]. split; cbn; naive_solver. Qed.

(** ** Runs *)

Inductive timer_op :=
| OpSet (now : Time) (v : Z)
| OpReset (now : Time) (activate : bool)
| OpClose.

Definition apply_op (t : Timer) (o : timer_op) : Timer :=
  match o with
  | OpSet now v => (SetTimerValue now v t).1
  | OpReset now b => ResetTimer now b t
  | OpClose => Close t
  end.

(** Arguments of [SetTimerValue] are [int32]. *)
Definition op_ok (o : timer_op) : Prop :=
  match o with OpSet _ v => - 2 ^ 31 ≤ v < 2 ^ 31 | _ => True end.

Lemma apply_op_ok t o : timer_ok t → op_ok o → timer_ok (apply_op t o).
Proof.
  destruct o; intros Ht Ho; cbn; [|by apply ResetTimer_ok|by apply Close_ok].
  apply SetTimerValue_ok; [simpl in Ho; lia|done].
Qed.

(** C32: whatever the settings and vehicle events, the timer created by
    [NewTimer] keeps its invariant: its duration is zero (disabled) or at
    least five minutes, and a hibernation deadline is pending only while the
    timer is enabled and active. *)
Theorem timer_invariant (d : Z) (os : list timer_op) :
  0 ≤ d → Forall op_ok os → timer_ok (run apply_op (NewTimer d) os).
Proof.
  intros Hd Hos. apply (run_invariant apply_op timer_ok op_ok); auto using apply_op_ok, NewTimer_ok.
Qed.

Definition at_mono (w m : Z) : Time := mkTime w (Some m).

Lemma timer_invariant_witness :
  timer_ok (run apply_op (NewTimer (72 * Hour))
    [OpReset (at_mono 0 5) true; OpSet (at_mono 9 9) 30; OpReset (at_mono 10 10) false]).
Proof.
  apply (timer_invariant (72 * Hour)); [tlia|].
  repeat constructor; simpl; lia.
Defined.

(** [n] is a moment of an uptime below 146 years. *)
Definition uptime (n : Time) (m : Z) : Prop := mono n = Some m ∧ 0 ≤ m < 2 ^ 62.

(** Changing the duration of a running timer moves its deadline to the
    activation instant plus the new duration; when that instant has passed,
    hibernation is triggered at once. *)
Theorem SetTimerValue_deadline (now : Time) (v m0 m : Z) (t : Timer) :
  enabled t = true → active t = true → 0 < v < 2 ^ 31 →
  uptime (lastActivateTime t) m0 → uptime now m →
  let due := m0 + clampTimer v * Second in
  if m <? due
  then pending (SetTimerValue now v t).1 = Some due ∧ (SetTimerValue now v t).2 = false
  else (SetTimerValue now v t).2 = true.
Proof.
  intros He Ha Hv [Hm0 R0] [Hm R] due.
  pose proof (clampTimer_pos v Hv) as Hc.
  assert (Hs : Sub now (lastActivateTime t) = m - m0).
  { unfold Sub, readings. rewrite Hm, Hm0. apply sat64_id. tlia. }
  unfold SetTimerValue. fold (clampTimer v). unfold due. clear due.
  set (w := clampTimer v) in *. clearbody w.
  ztests. cbn. rewrite Ha, He, Hs, seconds_pos by lia.
  destruct (m <? _) eqn:E, (m - m0 <? w * Second) eqn:E2; try lia; cbn; [|done].
  unfold monoOf. rewrite Hm, i64_id by tlia. cbn. split; [f_equal; lia|done].
Qed.

Lemma SetTimerValue_deadline_witness :
  let t := ResetTimer (at_mono 0 1000) true (NewTimer (72 * Hour)) in
  pending (SetTimerValue (at_mono 5 5000) 3600 t).1 = Some (1000 + 3600 * Second).
Proof.
  intros t.
  pose proof (SetTimerValue_deadline (at_mono 5 5000) 3600 1000 5000 t
    eq_refl eq_refl ltac:(lia) ltac:(split; [done|lia]) ltac:(split; [done|lia])) as H.
  exact (proj1 H).
Defined.

(** A timer that is switched off while the vehicle is idle never asks for
    hibernation, and neither does one stopped by the vehicle becoming active:
    neither a pending deadline nor an already running expiry reaches the
    callback. *)
Theorem no_expiry_when_stopped (now now' : Time) (t : Timer) :
  expire now' (SetTimerValue now 0 t).1 = false ∧
  onTimer (ResetTimer now false t) = false ∧
  expire now' (ResetTimer now false t) = false ∧
  onTimer (Close t) = false.
Proof.
  assert (Hr : active (ResetTimer now false t) = false).
  { unfold ResetTimer. by destruct (enabled t), (active t). }
  repeat split; [done| ].
  - unfold expire, onTimer. rewrite Hr. destruct (pending _); [by rewrite andb_false_r|done].
Qed.

(** [ResetTimer] leaves [lastActivateTime] untouched while the timer is
    disabled, so a later [SetTimerValue] pair measures the idle time from the
    zero time: enabling the timer and then adjusting it asks for hibernation
    immediately, however short the vehicle has been idle. *)
Theorem stale_activation_expires (n0 n1 n2 : Time) (v1 v2 : Z) :
  0 ≤ wall n2 → 0 < v1 < 2 ^ 31 → 0 < v2 < 2 ^ 31 →
  let t0 := ResetTimer n0 true (NewTimer 0) in
  let t1 := (SetTimerValue n1 v1 t0).1 in
  pending t1 = Some (monoOf n1 + clampTimer v1 * Second) ∧
  (SetTimerValue n2 v2 t1).2 = true.
Proof.
  intros Hw H1 H2 t0 t1.
  pose proof (clampTimer_pos v1 H1) as Hc1. pose proof (clampTimer_pos v2 H2) as Hc2.
  unfold t1, t0, SetTimerValue. fold (clampTimer v1) (clampTimer v2).
  set (w1 := clampTimer v1) in *. set (w2 := clampTimer v2) in *. clearbody w1 w2.
  ztests. cbn. rewrite !seconds_pos by lia.
  assert (Hs : Sub n2 zeroTime = maxInt64).
  { unfold Sub, readings. destruct (mono n2); cbn; unfold sat64; tlia. }
  rewrite Hs. unfold maxInt64, Second. ztests. done.
Qed.

Lemma stale_activation_expires_witness :
  (SetTimerValue (at_mono 1700000000000000000 90000000000) 7200
     (SetTimerValue (at_mono 1700000000000000000 60000000000) 3600
        (ResetTimer (at_mono 1700000000000000000 1000000000) true (NewTimer 0))).1).2 = true.
Proof.
  apply (stale_activation_expires (at_mono 1700000000000000000 1000000000)
    (at_mono 1700000000000000000 60000000000) (at_mono 1700000000000000000 90000000000) 3600 7200);
  cbn; lia.
Defined.
