(* ===== verification/Scheduler.v ===== *)
(** * Scheduled hibernation

    [internal/hibernation/scheduler.go].  The cron library is third-party: the
    parser, the [Next] method of a schedule and the acceptance test of the
    engine's own parser are parameters of the section.  Every [time.Now()] of a
    method is one of its arguments, and so are the answers of the injected
    callbacks: [cap] is what [maxSeconds] returns and [ok] what the clock
    validator returns.  A method returns the new state and the argument of the
    [onFire] call it makes, if any.  Each method is one atomic step. *)

From S2P Require Import Prelude GoInt GoTime.

Definition FireCooldown : Z := 15 * Minute.
Definition MinScheduleInterval : Z := FireCooldown.
Definition wallJumpThreshold : Z := 60 * Second.
Definition catchUpWindow : Z := 48 * Hour.

Record Scheduler := mkScheduler {
  cronExpr : string;
  duration : Z;
  schedEnabled : bool;
  timeSynced : bool;
  vehicleStandby : bool;
  pendingWake : option Time;
  lastFired : Time;
  suppressUntil : Time;
  cronEntry : option string;  (* the expression of the installed entry *)
  lastWall : Time;
  lastMono : Time;
  startedWall : Time;
  startedMono : Time;
}.
#[export] Instance eta_Scheduler : Eta Scheduler := λ s,
  mkScheduler (cronExpr s) (duration s) (schedEnabled s) (timeSynced s) (vehicleStandby s)
    (pendingWake s) (lastFired s) (suppressUntil s) (cronEntry s) (lastWall s) (lastMono s)
    (startedWall s) (startedMono s).

Definition NewScheduler : Scheduler :=
  mkScheduler "" 0 false false false None zeroTime zeroTime None zeroTime zeroTime zeroTime zeroTime.

(** The readings [Start] records. *)
Definition Start (now : Time) (s : Scheduler) : Scheduler :=
  s <| lastWall := Round0 now |> <| lastMono := now |>
    <| startedWall := Round0 now |> <| startedMono := now |>.

(** Seconds until the target, at least one, clamped to the cap; 0 when the
    target has passed. *)
Definition pendingWakeSeconds (target now : Time) (cap : Z) : Z :=
  if negb (After target now) then 0
  else
    let secs := u64 (Z.quot (Sub target now) Second) in
    if (0 <? cap) && (cap <? secs) then cap
    else if secs =? 0 then 1
    else u32 secs.

Definition SuppressScheduledFiresFor (now : Time) (d : Z) (s : Scheduler) : Scheduler :=
  let base := if IsZero (startedMono s) then now else startedMono s in
  s <| suppressUntil := Add base d |>.

Definition SetDuration (d : Z) (s : Scheduler) : Scheduler :=
  if duration s =? d then s else s <| duration := d |>.

(** The startup cooldown test shared by [fire] and [catchUpMissed]. *)
Definition suppressed (now : Time) (s : Scheduler) : bool :=
  negb (IsZero (suppressUntil s)) && Before now (suppressUntil s).

Definition is_standby (state : string) : bool := one_of state ["stand-by"; "standby"].

Definition OnVehicleStateChanged (state : string) (now : Time) (ok : bool) (cap : Z) (s : Scheduler)
  : Scheduler * option Z :=
  let standby := is_standby state in
  let prev := vehicleStandby s in
  let s := s <| vehicleStandby := standby |> in
  match pendingWake s with
  | Some target =>
      if standby && negb prev then
        if negb (schedEnabled s) || negb (timeSynced s) then (s <| pendingWake := None |>, None)
        else if negb ok then (s, None)
        else
          let s := s <| pendingWake := None |> in
          let wakeSec := pendingWakeSeconds target now cap in
          if wakeSec =? 0 then (s, None) else (s, Some wakeSec)
      else (s, None)
  | None => (s, None)
  end.

Definition fire (now : Time) (ok : bool) (cap : Z) (s : Scheduler) : Scheduler * option Z :=
  if negb (schedEnabled s) || negb (timeSynced s) || (duration s <=? 0) then (s, None)
  else if negb ok then (s, None)
  else if suppressed now s then (s, None)
  else if negb (IsZero (lastFired s)) && (Sub now (lastFired s) <? FireCooldown) then (s, None)
  else
    let s := s <| lastFired := now |> in
    let target := Add now (duration s) in
    if vehicleStandby s then
      let wakeSec := u32 (Z.quot (duration s) Second) in
      let wakeSec := if wakeSec =? 0 then 1 else wakeSec in
      let wakeSec := if (0 <? cap) && (cap <? wakeSec) then cap else wakeSec in
      (s <| pendingWake := None |>, Some wakeSec)
    else (s <| pendingWake := Some target |>, None).

Definition dispatchPending (now : Time) (ok : bool) (cap : Z) (s : Scheduler) : Scheduler * option Z :=
  match pendingWake s with
  | Some target =>
      if negb (schedEnabled s) || negb (timeSynced s) || negb (vehicleStandby s) || negb ok
      then (s, None)
      else
        let s := s <| pendingWake := None |> in
        let wakeSec := pendingWakeSeconds target now cap in
        if wakeSec =? 0 then (s, None) else (s, Some wakeSec)
  | None => (s, None)
  end.

Definition detectWallJump (lastWall lastMono wallNow monoNow : Time) : Z :=
  let wallElapsed := Sub (Round0 wallNow) (Round0 lastWall) in
  let monoElapsed := Sub monoNow lastMono in
  i64 (wallElapsed - monoElapsed).

Section cron.
Context {Schedule : Type}
  (ParseStandard : string → option Schedule)
  (Next : Schedule → Time → Time)
  (engineAccepts : string → bool).

(** The loop of [validateCronSchedule]: [true] when no gap is too short. *)
Fixpoint validate_loop (n : nat) (sched : Schedule) (prev : Time) : bool :=
  match n with
  | O => true
  | S n =>
      let next := Next sched prev in
      if IsZero next then true
      else if Sub next prev <? MinScheduleInterval then false
      else validate_loop n sched next
  end.

Definition validateCronSchedule (now : Time) (expr : string) : bool :=
  match ParseStandard expr with
  | None => false
  | Some sched => validate_loop 1000 sched (Next sched now)
  end.

Definition rebuild (s : Scheduler) : Scheduler :=
  let s := s <| cronEntry := None |> in
  if negb (schedEnabled s) || (cronExpr s =s "") then s
  else if engineAccepts (cronExpr s) then s <| cronEntry := Some (cronExpr s) |> else s.

Definition SetEnabled (b : bool) (s : Scheduler) : Scheduler :=
  if Bool.eqb (schedEnabled s) b then s else rebuild (s <| schedEnabled := b |>).

Definition SetCron (now : Time) (expr : string) (s : Scheduler) : Scheduler :=
  if negb (expr =s "") && negb (validateCronSchedule now expr) then s
  else if cronExpr s =s expr then s
  else rebuild (s <| cronExpr := expr |>).

(** The loop of [previousOccurrence] runs at most 100000 times. *)
Fixpoint prev_loop (n : nat) (sched : Schedule) (now last next : Time) : Time :=
  match n with
  | O => last
  | S n =>
      if negb (IsZero next) && negb (After next now)
      then prev_loop n sched now next (Next sched next)
      else last
  end.

Definition prev_fuel : nat := N.to_nat 100000.

Definition previousOccurrence (sched : Schedule) (now : Time) (lookback : Z) : option Time :=
  let start := Add (Add now (- lookback)) (- Second) in
  let last := prev_loop prev_fuel sched now zeroTime (Next sched start) in
  if IsZero last then None else Some last.

(** [guard] and [now] are the two clock readings of the method. *)
Definition catchUpMissed (guard now : Time) (ok : bool) (cap : Z) (s : Scheduler)
  : Scheduler * option Z :=
  if negb (schedEnabled s) || negb (timeSynced s) || (cronExpr s =s "") || (duration s <=? 0)
     || suppressed guard s || negb ok then (s, None)
  else match ParseStandard (cronExpr s) with
  | None => (s, None)
  | Some sched =>
      match previousOccurrence sched now catchUpWindow with
      | None => (s, None)
      | Some prev =>
          if negb (After prev (startedWall s)) then (s, None)
          else if negb (IsZero (lastFired s)) && negb (After prev (lastFired s)) then (s, None)
          else
            let target := Add prev (duration s) in
            if negb (After target now) then (s, None)
            else if vehicleStandby s then
              let wakeSec := pendingWakeSeconds target now cap in
              if wakeSec =? 0 then (s, None)
              else (s <| lastFired := now |> <| pendingWake := None |>, Some wakeSec)
            else (s <| pendingWake := Some target |>, None)
      end
  end.

(** A pending target that the wall clock has passed is dropped. *)
Definition dropStale (now : Time) (s : Scheduler) : Scheduler :=
  match pendingWake s with
  | Some target => if After now target then s <| pendingWake := None |> else s
  | None => s
  end.

(** [now1] is read for the stale-target test, [now2] and [now3] by
    [catchUpMissed]. *)
Definition SetTimeSynced (synced : bool) (now1 now2 now3 : Time) (ok : bool) (cap : Z) (s : Scheduler)
  : Scheduler * option Z :=
  if negb synced then (s, None)
  else if timeSynced s then (s, None)
  else
    let s := s <| timeSynced := true |> in
    let s := rebuild s in
    let s := dropStale now1 s in
    catchUpMissed now2 now3 ok cap s.

(** [wallNow] and [monoNow] are two readings of the same clock. *)
Definition checkClockJump (wallNow monoNow now2 now3 now4 : Time) (ok : bool) (cap : Z) (s : Scheduler)
  : Scheduler * list Z :=
  let jump := detectWallJump (lastWall s) (lastMono s) wallNow monoNow in
  let s := s <| lastWall := Round0 wallNow |> <| lastMono := monoNow |> in
  if (- wallJumpThreshold <=? jump) && (jump <=? wallJumpThreshold) then (s, [])
  else
    let s := rebuild s in
    let s := dropStale wallNow s in
    if wallJumpThreshold <? jump then
      let '(s, f1) := catchUpMissed now2 now3 ok cap s in
      let '(s, f2) := dispatchPending now4 ok cap s in
      (s, option_list f1 ++ option_list f2)
    else (s, []).
End cron.
