(* ===== verification/SchedulerFacts.v ===== *)
(** * Scheduled hibernation: theorems

    Gates and cooldown of scheduled fires, the wake-by target of a deferred
    fire, the time-sync latch, and the search for a missed occurrence. *)

From S2P Require Import Prelude GoInt GoTime Scheduler.

(** ** Wake seconds *)

Lemma pendingWakeSeconds_past target now cap :
  After target now = false → pendingWakeSeconds target now cap = 0.
Proof. intros H. unfold pendingWakeSeconds. by rewrite H. Qed.

Lemma remaining_quot target now :
  After target now = true →
  0 < Sub target now ∧ 0 ≤ Z.quot (Sub target now) Second < 2 ^ 63 ∧
  Z.quot (Sub target now) Second * Second ≤ Sub target now < (Z.quot (Sub target now) Second + 1) * Second.
Proof.
  intros H. rewrite After_Sub in H. pose proof (Sub_range target now) as Hr.
  assert (0 < Sub target now) as Hp by lia.
  rewrite Z.quot_div_nonneg by tlia.
  pose proof (Z.div_mod (Sub target now) Second ltac:(tlia)).
  pose proof (Z.mod_pos_bound (Sub target now) Second ltac:(tlia)).
  pose proof (Z.div_pos (Sub target now) Second ltac:(lia) ltac:(tlia)).
  pose proof (Z.div_le_upper_bound (Sub target now) Second (2 ^ 63 - 1) ltac:(tlia) ltac:(tlia)).
  tlia.
Qed.

(** The wake request of a pending target is 0 exactly when the target has
    passed; otherwise it is between one second and the cap, it never exceeds
    the remaining time (except for the one-second minimum), and it falls short
    of it by less than a second unless the cap cut it. *)
Theorem pendingWakeSeconds_bounds (target now : Time) (cap : Z) :
  is_u32 cap → 0 < cap ∨ Sub target now < 2 ^ 32 * Second →
  let r := pendingWakeSeconds target now cap in
  (r = 0 ↔ After target now = false) ∧
  (r ≠ 0 →
     1 ≤ r < 2 ^ 32 ∧ (0 < cap → r ≤ cap) ∧
     (r = 1 ∨ r * Second ≤ Sub target now) ∧
     (r = cap ∨ Sub target now < (r + 1) * Second)).
Proof.
  intros Hcap Hsmall r. unfold r, pendingWakeSeconds.
  destruct (After target now) eqn:Ha; cbn [negb]; [|tauto].
  destruct (remaining_quot target now Ha) as (Hp & Hq & Hb).
  set (secs := Z.quot (Sub target now) Second) in *.
  rewrite (u64_id secs) by tlia.
  destruct (0 <? cap) eqn:Hc, (cap <? secs) eqn:Hcs; cbn [andb].
  1: { split; [split; [lia|done]|]. tlia. }
  all: destruct (secs =? 0) eqn:H0; [split; [split; [lia|done]|]; tlia|].
  all: rewrite u32_id by tlia; split; [split; [lia|done]|]; tlia.
Qed.

Lemma pendingWakeSeconds_bounds_witness :
  let r := pendingWakeSeconds (mkTime (90 * Second) None) (mkTime (30 * Second + 1) None) 604800 in
  r ≠ 0 ∧ r ≤ 604800.
Proof.
  intros r.
  destruct (pendingWakeSeconds_bounds (mkTime (90 * Second) None) (mkTime (30 * Second + 1) None) 604800
    ltac:(tlia) ltac:(left; lia)) as [_ H].
  assert (Hr : r ≠ 0) by (vm_compute; discriminate).
  split; [exact Hr|]. apply (H Hr). lia.
Defined.

(** ** The gates of [fire] *)

(** Every condition the cron callback checks before it acts. *)
Definition fire_admitted (now : Time) (ok : bool) (s : Scheduler) : bool :=
  schedEnabled s && timeSynced s && (0 <? duration s) && ok && negb (suppressed now s)
  && (IsZero (lastFired s) || (FireCooldown <=? Sub now (lastFired s))).

Lemma fire_split now ok cap s :
  if fire_admitted now ok s
  then lastFired (fire now ok cap s).1 = now ∧
       (if vehicleStandby s
        then pendingWake (fire now ok cap s).1 = None ∧ is_Some (fire now ok cap s).2
        else pendingWake (fire now ok cap s).1 = Some (Add now (duration s)) ∧
             (fire now ok cap s).2 = None)
  else fire now ok cap s = (s, None).
Proof.
  unfold fire_admitted, fire.
  destruct (schedEnabled s), (timeSynced s); cbn; try done.
  replace (duration s <=? 0) with (negb (0 <? duration s)) by lia.
  destruct (0 <? duration s); cbn; [|done].
  destruct ok; cbn; [|done]. destruct (suppressed now s); cbn; [done|].
  replace (FireCooldown <=? Sub now (lastFired s)) with (negb (Sub now (lastFired s) <? FireCooldown)) by lia.
  destruct (IsZero (lastFired s)), (Sub now (lastFired s) <? FireCooldown); cbn; try done;
    destruct (vehicleStandby s) eqn:Hv; cbn; eauto.
Qed.

(** The cron callback acts only when the schedule is enabled, the clock
    was validated and is still plausible, the duration is positive, the startup
    hold-off is over and the cooldown since the last fire has elapsed; then it
    asks for hibernation at once in stand-by and otherwise keeps the wake-by
    target [now + duration] for the next stand-by.  In every other case it does
    nothing at all. *)
Theorem fire_functional (now : Time) (ok : bool) (cap : Z) (s : Scheduler) :
  (fire_admitted now ok s = false → fire now ok cap s = (s, None)) ∧
  (fire_admitted now ok s = true →
     (vehicleStandby s = true → ∃ w, fire now ok cap s =
        (s <| lastFired := now |> <| pendingWake := None |>, Some w)) ∧
     (vehicleStandby s = false → fire now ok cap s =
        (s <| lastFired := now |> <| pendingWake := Some (Add now (duration s)) |>, None))).
Proof.
  pose proof (fire_split now ok cap s) as Hs. destruct (fire_admitted now ok s) eqn:Ha.
  - split; [done|]. intros _. revert Hs. unfold fire_admitted in Ha. bools.
    unfold fire. repeat match goal with H : _ = true |- _ => rewrite H end. cbn.
    destruct (duration s <=? 0) eqn:?; [lia|].
    destruct (suppressed now s); [done|].
    destruct (negb (IsZero (lastFired s)) && _) eqn:Hc.
    { exfalso. bools. destruct H0; [congruence|lia]. }
    intros _. split; intros ->; eauto.
  - split; [done|]. done.
Qed.

(** ** Operations and runs *)

Local Ltac fields :=
  repeat first [split_if | case_match]; cbn; repeat split; intros; try done; try congruence; auto.

Section ops.
Context {Schedule : Type}
  (ParseStandard : string → option Schedule)
  (Next : Schedule → Time → Time)
  (engineAccepts : string → bool).

Inductive sched_op :=
| OFire (now : Time) (ok : bool) (cap : Z)
| OVehicle (state : string) (now : Time) (ok : bool) (cap : Z)
| ODispatch (now : Time) (ok : bool) (cap : Z)
| OCatchUp (guard now : Time) (ok : bool) (cap : Z)
| OSync (synced : bool) (now1 now2 now3 : Time) (ok : bool) (cap : Z)
| OJump (wallNow monoNow now2 now3 now4 : Time) (ok : bool) (cap : Z)
| OSetEnabled (b : bool)
| OSetCron (now : Time) (expr : string)
| OSetDuration (d : Z)
| OSuppress (now : Time) (d : Z).

(** The state and the requests handed to [onFire]. *)
Definition sched_step (s : Scheduler) (o : sched_op) : Scheduler * list Z :=
  let one (r : Scheduler * option Z) := (r.1, option_list r.2) in
  match o with
  | OFire now ok cap => one (fire now ok cap s)
  | OVehicle st now ok cap => one (OnVehicleStateChanged st now ok cap s)
  | ODispatch now ok cap => one (dispatchPending now ok cap s)
  | OCatchUp g now ok cap => one (catchUpMissed ParseStandard Next g now ok cap s)
  | OSync b n1 n2 n3 ok cap => one (SetTimeSynced ParseStandard Next engineAccepts b n1 n2 n3 ok cap s)
  | OJump w m n2 n3 n4 ok cap => checkClockJump ParseStandard Next engineAccepts w m n2 n3 n4 ok cap s
  | OSetEnabled b => (SetEnabled engineAccepts b s, [])
  | OSetCron now e => (SetCron ParseStandard Next engineAccepts now e s, [])
  | OSetDuration d => (SetDuration d s, [])
  | OSuppress now d => (SuppressScheduledFiresFor now d s, [])
  end.

Lemma rebuild_fields s :
  timeSynced (rebuild engineAccepts s) = timeSynced s ∧
  lastFired (rebuild engineAccepts s) = lastFired s ∧
  pendingWake (rebuild engineAccepts s) = pendingWake s ∧
  schedEnabled (rebuild engineAccepts s) = schedEnabled s ∧
  vehicleStandby (rebuild engineAccepts s) = vehicleStandby s ∧
  startedWall (rebuild engineAccepts s) = startedWall s.
Proof. unfold rebuild. by repeat split_if. Qed.

Lemma rebuild_synced s : timeSynced (rebuild engineAccepts s) = timeSynced s.
Proof. apply rebuild_fields. Qed.

Lemma dropStale_synced now s : timeSynced (dropStale now s) = timeSynced s.
Proof. unfold dropStale. fields. Qed.

Lemma catchUp_fields g now ok cap s :
  let r := catchUpMissed ParseStandard Next g now ok cap s in
  timeSynced r.1 = timeSynced s ∧
  (lastFired r.1 = lastFired s ∨ lastFired r.1 = now) ∧
  (timeSynced s = false → r = (s, None)).
Proof.
  unfold catchUpMissed. destruct (timeSynced s) eqn:Hts; cbn.
  - fields.
  - rewrite orb_true_r. fields.
Qed.

(** Everything a dispatch of the pending target can change. *)
Lemma dispatch_fields now ok cap s :
  let r := dispatchPending now ok cap s in
  timeSynced r.1 = timeSynced s ∧ lastFired r.1 = lastFired s ∧
  (timeSynced s = false → r = (s, None)).
Proof.
  unfold dispatchPending. destruct (pendingWake s); [|fields].
  destruct (timeSynced s) eqn:Hts; cbn; [fields|]. rewrite orb_true_r. fields.
Qed.

Lemma vehicle_fields st now ok cap s :
  let r := OnVehicleStateChanged st now ok cap s in
  timeSynced r.1 = timeSynced s ∧ lastFired r.1 = lastFired s ∧
  (timeSynced s = false → r.2 = None).
Proof.
  unfold OnVehicleStateChanged. cbn. destruct (timeSynced s) eqn:Hts; cbn.
  - fields.
  - rewrite orb_true_r. fields.
Qed.

Lemma fire_fields now ok cap s :
  let r := fire now ok cap s in
  timeSynced r.1 = timeSynced s ∧ (timeSynced s = false → r = (s, None)).
Proof.
  unfold fire. destruct (timeSynced s) eqn:Hts; cbn; [fields|].
  rewrite orb_true_r. fields.
Qed.

(** The latch survives every operation. *)
Lemma sched_step_synced s o : timeSynced s = true → timeSynced (sched_step s o).1 = true.
Proof.
  intros H. destruct o as [now ok cap|st now ok cap|now ok cap|g now ok cap|b n1 n2 n3 ok cap
                          |w m n2 n3 n4 ok cap|b|now e|d|now d]; cbn.
  - by rewrite (proj1 (fire_fields now ok cap s)).
  - by rewrite (proj1 (vehicle_fields st now ok cap s)).
  - by rewrite (proj1 (dispatch_fields now ok cap s)).
  - by rewrite (proj1 (catchUp_fields g now ok cap s)).
  - unfold SetTimeSynced. rewrite H. by destruct b.
  - unfold checkClockJump. cbn. split_if; [done|].
    set (s1 := dropStale w _).
    assert (H1 : timeSynced s1 = true) by (unfold s1; by rewrite dropStale_synced, rebuild_synced).
    split_if; [|done].
    pose proof (proj1 (catchUp_fields n2 n3 ok cap s1)) as Hc. cbn in Hc.
    destruct (catchUpMissed _ _ _ _ _ _ _) as [s2 f1]. cbn in Hc.
    pose proof (proj1 (dispatch_fields n4 ok cap s2)) as Hd. cbn in Hd.
    destruct (dispatchPending _ _ _ _) as [s3 f2]. cbn in *. congruence.
  - unfold SetEnabled. split_if; [done|]. by rewrite rebuild_synced.
  - unfold SetCron. repeat split_if; try done. by rewrite rebuild_synced.
  - unfold SetDuration. by split_if.
  - done.
Qed.

Definition is_sync (o : sched_op) : bool :=
  match o with OSync b _ _ _ _ _ => b | _ => false end.

(** Before the latch is set nothing is requested. *)
Lemma sched_step_unsynced s o :
  timeSynced s = false → is_sync o = false →
  timeSynced (sched_step s o).1 = false ∧ (sched_step s o).2 = [].
Proof.
  intros H Ho. destruct o as [now ok cap|st now ok cap|now ok cap|g now ok cap|b n1 n2 n3 ok cap
                          |w m n2 n3 n4 ok cap|b|now e|d|now d]; cbn in *.
  - by rewrite (proj2 (fire_fields now ok cap s) H).
  - destruct (vehicle_fields st now ok cap s) as (-> & _ & Hv). by rewrite (Hv H).
  - by rewrite (proj2 (proj2 (dispatch_fields now ok cap s)) H).
  - by rewrite (proj2 (proj2 (catchUp_fields g now ok cap s)) H).
  - subst b. done.
  - unfold checkClockJump. cbn. split_if; [done|].
    set (s1 := dropStale w _).
    assert (H1 : timeSynced s1 = false) by (unfold s1; by rewrite dropStale_synced, rebuild_synced).
    split_if; [|done].
    rewrite (proj2 (proj2 (catchUp_fields n2 n3 ok cap s1)) H1).
    by rewrite (proj2 (proj2 (dispatch_fields n4 ok cap s1)) H1).
  - unfold SetEnabled. split_if; [done|]. by rewrite rebuild_synced.
  - unfold SetCron. repeat split_if; try done. by rewrite rebuild_synced.
  - unfold SetDuration. by split_if.
  - done.
Qed.

Definition sched_run (s : Scheduler) (os : list sched_op) : Scheduler :=
  run (λ s o, (sched_step s o).1) s os.

Fixpoint requests (s : Scheduler) (os : list sched_op) : list Z :=
  match os with
  | [] => []
  | o :: os => (sched_step s o).2 ++ requests (sched_step s o).1 os
  end.

(** No scheduled hibernation is ever requested before the wall clock has
    been validated, and validation is a latch: once set, no operation clears
    it. *)
Theorem no_request_before_sync (os1 os2 : list sched_op) (s : Scheduler) :
  timeSynced s = false → Forall (λ o, is_sync o = false) os1 →
  requests s os1 = [] ∧
  (∀ o, timeSynced (sched_step (sched_run s os1) o).1 = true →
        timeSynced (sched_run (sched_step (sched_run s os1) o).1 os2) = true).
Proof.
  intros Hs Hos. split.
  - revert s Hs. induction Hos as [|o os Ho _ IH]; intros s Hs; simpl; [done|].
    destruct (sched_step_unsynced s o Hs Ho) as [H1 ->]. by apply IH.
  - intros o H. unfold sched_run.
    apply (run_invariant (λ s o, (sched_step s o).1) (λ s, timeSynced s = true) (λ _, True)); auto.
    + intros. by apply sched_step_synced.
    + by apply Forall_true.
Qed.
End ops.
Arguments sched_op : clear implicits.

Lemma no_request_before_sync_witness :
  requests (λ _, Some tt) (λ _ _, zeroTime) (λ _, true)
    (NewScheduler <| schedEnabled := true |> <| vehicleStandby := true |> <| duration := Hour |>)
    [OFire (mkTime Hour None) true 0; OFire (mkTime (2 * Hour) None) true 0] = [].
Proof.
  apply (no_request_before_sync (λ _, Some tt) (λ _ _, zeroTime) (λ _, true)
    [OFire (mkTime Hour None) true 0; OFire (mkTime (2 * Hour) None) true 0] []); [done|].
  by repeat constructor.
Defined.

(** ** Requests stay inside the cap *)

Lemma elem_of_option_list {A} (o : option A) x : x ∈ option_list o ↔ o = Some x.
Proof. destruct o; simpl; [rewrite list_elem_of_singleton; naive_solver|]. by rewrite elem_of_nil. Qed.

Definition cap_ok (cap wake : Z) : Prop := 1 ≤ wake < 2 ^ 32 ∧ (0 < cap → wake ≤ cap).

Lemma pendingWakeSeconds_cap target now cap :
  is_u32 cap → pendingWakeSeconds target now cap ≠ 0 → cap_ok cap (pendingWakeSeconds target now cap).
Proof.
  intros Hc. unfold pendingWakeSeconds, cap_ok.
  destruct (negb (After target now)); [done|].
  set (secs := u64 _).
  assert (0 ≤ secs) by (unfold secs, u64; apply Z.mod_pos_bound; lia).
  pose proof (u32_range secs) as Hr. unfold is_u32 in Hr.
  destruct ((0 <? cap) && (cap <? secs)) eqn:E; [bools; tlia|].
  destruct (secs =? 0) eqn:E0; [tlia|].
  intros Hn. split; [lia|]. intros Hcap. apply andb_false_iff in E as [E|E]; [lia|].
  rewrite u32_id by tlia. lia.
Qed.

Lemma fire_cap now ok cap s w : is_u32 cap → (fire now ok cap s).2 = Some w → cap_ok cap w.
Proof.
  intros Hc. unfold fire. repeat (destruct (_ || _)); [done|].
  destruct (negb ok); [done|]. destruct (suppressed now s); [done|].
  destruct (negb _ && _); [done|]. cbn. destruct (vehicleStandby s); [|done].
  pose proof (u32_range (Z.quot (duration s) Second)) as Hr. unfold is_u32 in Hr. set (q := u32 _) in *. cbn.
  destruct (q =? 0) eqn:E0; cbn;
    (destruct ((0 <? cap) && _) eqn:E; intros [= <-]; bools; unfold cap_ok; tlia).
Qed.

Lemma dispatch_cap now ok cap s w :
  is_u32 cap → (dispatchPending now ok cap s).2 = Some w → cap_ok cap w.
Proof.
  intros Hc. unfold dispatchPending. case_match; [|done]. destruct (_ || _); [done|].
  destruct (_ =? 0) eqn:E; [done|]. intros [= <-]. apply pendingWakeSeconds_cap; [done|lia].
Qed.

Lemma vehicle_cap st now ok cap s w :
  is_u32 cap → (OnVehicleStateChanged st now ok cap s).2 = Some w → cap_ok cap w.
Proof.
  intros Hc. unfold OnVehicleStateChanged. cbn. case_match; [|done]. destruct (_ && _); [|done].
  destruct (_ || _); [done|]. destruct (negb ok); [done|].
  destruct (_ =? 0) eqn:E; [done|]. intros [= <-]. apply pendingWakeSeconds_cap; [done|lia].
Qed.

Section cap.
Context {Schedule : Type}
  (ParseStandard : string → option Schedule)
  (Next : Schedule → Time → Time)
  (engineAccepts : string → bool).

Lemma catchUp_cap g now ok cap s w :
  is_u32 cap → (catchUpMissed ParseStandard Next g now ok cap s).2 = Some w → cap_ok cap w.
Proof.
  intros Hc. unfold catchUpMissed. destruct (_ || _); [done|].
  do 2 (case_match; [|done]). destruct (negb (After t _)); [done|].
  destruct (_ && _); [done|]. cbv zeta. destruct (negb _); [done|].
  destruct (vehicleStandby s); [|done].
  destruct (_ =? 0) eqn:E; [done|]. intros [= <-]. apply pendingWakeSeconds_cap; [done|lia].
Qed.

Definition op_cap (o : sched_op) : Z :=
  match o with
  | OFire _ _ cap | OVehicle _ _ _ cap | ODispatch _ _ cap | OCatchUp _ _ _ cap
  | OSync _ _ _ _ _ cap | OJump _ _ _ _ _ _ cap => cap
  | _ => 0
  end.

Lemma step_cap (o : sched_op) (s : Scheduler) :
  is_u32 (op_cap o) →
  Forall (cap_ok (op_cap o)) (sched_step ParseStandard Next engineAccepts s o).2.
Proof.
  intros Hc. apply Forall_forall. intros w.
  destruct o as [now ok cap|st now ok cap|now ok cap|g now ok cap|b n1 n2 n3 ok cap
                |w' m n2 n3 n4 ok cap|b|now e|d|now d]; cbn in *; try (by intros ?%elem_of_nil).
  - rewrite elem_of_option_list. eauto using fire_cap.
  - rewrite elem_of_option_list. eauto using vehicle_cap.
  - rewrite elem_of_option_list. eauto using dispatch_cap.
  - rewrite elem_of_option_list. eauto using catchUp_cap.
  - rewrite elem_of_option_list. unfold SetTimeSynced.
    destruct (negb b), (timeSynced s); try done. eauto using catchUp_cap.
  - unfold checkClockJump. cbn. destruct (_ && _); [by intros ?%elem_of_nil|].
    destruct (_ <? _); [|by intros ?%elem_of_nil].
    destruct (catchUpMissed _ _ _ _ _ _ _) as [s2 f1] eqn:E1.
    destruct (dispatchPending _ _ _ _) as [s3 f2] eqn:E2. cbn.
    rewrite elem_of_app, !elem_of_option_list. intros [->| ->].
    + eapply catchUp_cap; [done|by rewrite E1].
    + eapply dispatch_cap; [done|by rewrite E2].
Qed.

(** Whatever the scheduler does, every wake interval it asks for is at
    least one second, fits a 32-bit counter and respects the cap in force
    when the request was made. *)
Theorem requests_capped (o : sched_op) (s : Scheduler) :
  is_u32 (op_cap o) →
  Forall (cap_ok (op_cap o)) (sched_step ParseStandard Next engineAccepts s o).2.
Proof. apply step_cap. Qed.
End cap.

Lemma requests_capped_witness :
  Forall (cap_ok 600) (sched_step (λ _, Some tt) (λ _ _, zeroTime) (λ _, true)
    (NewScheduler <| schedEnabled := true |> <| timeSynced := true |> <| vehicleStandby := true |>
       <| duration := Hour |>) (OFire (mkTime Hour None) true 600)).2.
Proof.
  apply (requests_capped (λ _, Some tt) (λ _ _, zeroTime) (λ _, true) (OFire (mkTime Hour None) true 600)).
  cbn. tlia.
Defined.

(** ** The wake-by target of a deferred fire *)

(** The target of a deferred fire is compared through the monotonic clock.
    Time that the system spends suspended between the fire and the stand-by
    moves the wall clock by [D] and not the monotonic one, and the interval
    that is requested is the one of an uninterrupted run: the alarm rings
    [D] after the wake-by instant. *)
Theorem deferred_wake_overshoots (W M d x D cap : Z) :
  is_i64 (M + d) →
  pendingWakeSeconds (Add (mkTime W (Some M)) d) (mkTime (W + x + D) (Some (M + x))) cap =
  pendingWakeSeconds (Add (mkTime W (Some M)) d) (mkTime (W + x) (Some (M + x))) cap.
Proof.
  intros H. unfold pendingWakeSeconds, After, Sub, readings. cbn. by rewrite decide_True.
Qed.

Lemma deferred_wake_overshoots_witness :
  pendingWakeSeconds (Add (mkTime 0 (Some 0)) (8 * Hour)) (mkTime (7 * Hour) (Some Hour)) 0 = 7 * 3600.
Proof.
  etrans; [exact (deferred_wake_overshoots 0 0 (8 * Hour) Hour (6 * Hour) 0 ltac:(tlia))|].
  vm_compute. done.
Defined.

(** ** The latest missed occurrence *)

(** What the code relies on of a cron schedule: [Next] is the least activation
    after its argument, or the zero time when there is none for five years; the
    result has lost its monotonic reading or carries it along; activations are
    at least a minute apart. *)
Record NextLaws {Schedule : Type} (Next : Schedule → Time → Time) (act : Schedule → Z → Prop) : Prop := {
  next_zero : ∀ sc t a, IsZero (Next sc t) = true → act sc a → wall t < a → wall t + 43800 * Hour < a;
  next_act : ∀ sc t, IsZero (Next sc t) = false →
    act sc (wall (Next sc t)) ∧ wall t < wall (Next sc t) ∧
    ∀ a, act sc a → wall t < a → wall (Next sc t) ≤ a;
  next_mono : ∀ sc t, mono (Next sc t) = None ∨
    ∃ m, mono t = Some m ∧ mono (Next sc t) = Some (m + (wall (Next sc t) - wall t));
  act_minute : ∀ sc a b, act sc a → act sc b → a < b → a + Minute ≤ b;
}.

Section previous.
Context {Schedule : Type} (Next : Schedule → Time → Time) (act : Schedule → Z → Prop).
Context (laws : NextLaws Next act).

(** The readings of [t] differ from those of [now] by one and the same
    amount, or only the wall readings can be compared. *)
Definition aligned (now t : Time) : Prop :=
  ∀ a b, mono t = Some a → mono now = Some b → a - b = wall t - wall now.

Lemma aligned_After now t : aligned now t → After t now = (wall now <? wall t).
Proof.
  unfold aligned, After, readings. destruct (mono t) as [a|], (mono now) as [b|]; try done.
  intros H. specialize (H a b eq_refl eq_refl). cbn. lia.
Qed.

Lemma aligned_Add now t d : aligned now t → aligned now (Add t d).
Proof.
  unfold aligned, Add. cbn. destruct (mono t) as [a|]; [|done]. case_decide; [|done].
  intros H' ? b [= <-] Hb. specialize (H' a b eq_refl Hb). lia.
Qed.

Lemma aligned_Next now sc t : aligned now t → aligned now (Next sc t).
Proof.
  unfold aligned. intros H a b Ha Hb.
  destruct (next_mono _ _ laws sc t) as [Hn|(m & Hm & Hn)]; [congruence|].
  rewrite Hn in Ha. injection Ha as <-. specialize (H m b Hm Hb). lia.
Qed.

(** [r] is the latest activation in [(lo, hi]]. *)
Definition latest (sc : Schedule) (lo hi : Z) (r : Time) : Prop :=
  act sc (wall r) ∧ lo < wall r ≤ hi ∧ ∀ a, act sc a → lo < a ≤ hi → a ≤ wall r.

Lemma prev_loop_spec n sc now last t :
  aligned now t → wall now - wall t ≤ 43800 * Hour →
  IsZero (Next sc t) = true ∨ wall now - wall (Next sc t) < Z.of_nat n * Minute →
  let r := prev_loop Next n sc now last (Next sc t) in
  (latest sc (wall t) (wall now) r ∧ IsZero r = false) ∨
  (r = last ∧ ∀ a, act sc a → wall t < a → wall now < a).
Proof.
  revert last t. induction n as [|n IH]; intros last t Hal Hlb Hf; cbn [prev_loop].
  - right. split; [done|]. intros a Ha Hta.
    destruct (IsZero (Next sc t)) eqn:Hz.
    + pose proof (next_zero _ _ laws sc t a Hz Ha Hta). lia.
    + destruct Hf as [|Hf]; [done|].
      destruct (next_act _ _ laws sc t Hz) as (_ & _ & Hmin). specialize (Hmin a Ha Hta). lia.
  - destruct (IsZero (Next sc t)) eqn:Hz; cbn [negb andb].
    { right. split; [done|]. intros a Ha Hta. pose proof (next_zero _ _ laws sc t a Hz Ha Hta). lia. }
    destruct (next_act _ _ laws sc t Hz) as (Hact & Hlt & Hmin).
    rewrite aligned_After by by apply aligned_Next.
    destruct (Z.ltb_spec (wall now) (wall (Next sc t))); cbn [negb].
    { right. split; [done|]. intros a Ha Hta. specialize (Hmin a Ha Hta). lia. }
    destruct (IH (Next sc t) (Next sc t)) as [((Hr & Hb & Hg) & Hrz)|(-> & Hno)];
      [by apply aligned_Next|lia| | |].
    + destruct Hf as [|Hf]; [congruence|].
      destruct (IsZero (Next sc (Next sc t))) eqn:Hz2; [by left|right].
      destruct (next_act _ _ laws sc (Next sc t) Hz2) as (Ha2 & Hl2 & _).
      pose proof (act_minute _ _ laws sc _ _ Hact Ha2 Hl2). tlia.
    + left. split; [|done]. split; [done|]. split; [lia|]. intros a Ha Hta.
      destruct (decide (wall (Next sc t) < a)); [apply Hg; [done|lia]|lia].
    + left. split; [|done]. split; [done|]. split; [lia|]. intros a Ha Hta.
      destruct (decide (wall (Next sc t) < a)) as [Hn|]; [|lia]. specialize (Hno a Ha Hn). lia.
Qed.

(** C38: the search returns the latest activation of the schedule that is not
    later than now and at most the look-back (plus a second) old, and nothing
    only when there is none: its 100000 iterations are enough for every
    look-back of up to two months. *)
Theorem previousOccurrence_spec (sc : Schedule) (now : Time) (lookback : Z) :
  0 <= lookback <= 1440 * Hour → wall zeroTime < wall now - lookback - Second →
  match previousOccurrence Next sc now lookback with
  | Some r => latest sc (wall now - lookback - Second) (wall now) r
  | None => ∀ a, act sc a → wall now - lookback - Second < a → wall now < a
  end.
Proof.
  intros Hl H0. unfold previousOccurrence.
  set (start := Add (Add now (- lookback)) (- Second)).
  assert (wall start = wall now - lookback - Second) as Hw by (unfold start; cbn; lia).
  assert (aligned now start) as Hal.
  { unfold start. do 2 apply aligned_Add. unfold aligned. intros. simplify_eq. lia. }
  rewrite <- Hw in *.
  destruct (prev_loop_spec prev_fuel sc now zeroTime start Hal ltac:(tlia)) as [(Hr & ->)|(-> & Hno)].
  - destruct (IsZero (Next sc start)) eqn:Hz; [by left|right].
    destruct (next_act _ _ laws sc start Hz) as (_ & Hlt & _).
    unfold prev_fuel. rewrite N_nat_Z. tlia.
  - exact Hr.
  - exact Hno.
Qed.
End previous.

(** A daily schedule, as the witness: activations at every multiple of a day. *)
Definition daily_next (_ : unit) (t : Time) : Time :=
  let d := 24 * Hour in
  let n := (wall t / d + 1) * d in
  mkTime (if n =? wall zeroTime then n + d else n) None.

Lemma daily_laws : NextLaws daily_next (λ _ a, a mod (24 * Hour) = 0 ∧ a ≠ wall zeroTime).
Proof.
  assert (Hz : wall zeroTime = - 719162 * (24 * Hour)) by done.
  assert (Hd : ∀ a, a mod (24 * Hour) = 0 → a = a / (24 * Hour) * (24 * Hour)).
  { intros a Ha. pose proof (Z.div_mod a (24 * Hour) ltac:(tlia)). lia. }
  split.
  - intros sc t a H. exfalso. apply IsZero_spec in H. unfold daily_next in H. cbv zeta in H. cbn [wall] in H.
    case_match; rewrite ?Z.eqb_eq, ?Z.eqb_neq in *; tlia.
  - intros sc t _. unfold daily_next. cbv zeta. cbn [wall].
    pose proof (Z.div_mod (wall t) (24 * Hour) ltac:(tlia)).
    pose proof (Z.mod_pos_bound (wall t) (24 * Hour) ltac:(tlia)).
    set (q := wall t / (24 * Hour)) in *.
    case_match; rewrite ?Z.eqb_eq, ?Z.eqb_neq in *.
    + replace ((q + 1) * (24 * Hour) + 24 * Hour) with ((q + 2) * (24 * Hour)) by lia.
      split; [split; [by rewrite Z_mod_mult|tlia]|]. split; [tlia|].
      intros a [Ha Hne] Hlt. rewrite (Hd a Ha) in *. set (k := a / (24 * Hour)) in *.
      assert (q < k) by tlia. assert (k ≠ q + 1) by tlia. tlia.
    + split; [split; [by rewrite Z_mod_mult|tlia]|]. split; [tlia|].
      intros a [Ha Hne] Hlt. rewrite (Hd a Ha) in *. set (k := a / (24 * Hour)) in *.
      assert (q < k) by tlia. tlia.
  - intros sc t. by left.
  - intros sc a b [Ha _] [Hb _] Hlt. rewrite (Hd a Ha), (Hd b Hb) in *.
    set (k := a / (24 * Hour)) in *. set (l := b / (24 * Hour)) in *.
    assert (k + 1 ≤ l) by tlia. tlia.
Qed.

Lemma previousOccurrence_spec_witness :
  previousOccurrence daily_next () (mkTime (100 * Hour) (Some Hour)) catchUpWindow = Some (mkTime (96 * Hour) None) ∧
  latest (λ _ a, a mod (24 * Hour) = 0 ∧ a ≠ wall zeroTime) ()
    (100 * Hour - catchUpWindow - Second) (100 * Hour) (mkTime (96 * Hour) None).
Proof.
  split; [vm_compute; reflexivity|].
  exact (previousOccurrence_spec daily_next _ daily_laws () (mkTime (100 * Hour) (Some Hour)) catchUpWindow
    ltac:(unfold catchUpWindow; tlia) ltac:(unfold catchUpWindow, zeroTime; cbn; tlia)).
Defined.
