(* ===== verification/SchedThreads.v ===== *)
(** * Scheduled hibernation under concurrency

    [Scheduler] treats a method as one step.  In the program the methods run in
    goroutines of their own (Redis watchers, cron jobs, the clock monitor) and
    give up the mutex between their critical sections.  Here a goroutine is a
    program point [Pc]; one step of it is one critical section, or the code
    between two of them, in the order of the source.  The mutex itself, with
    what waiting for it may cost, has no state here.  Every clock reading and
    every answer of a callback belongs to the step that asks for it.

    The time a deferred target is stored at ([s.pendingWake = &target]) is a
    fresh allocation, here a number: it tells equal targets apart. *)

From S2P Require Import Prelude GoInt GoTime Scheduler.

(** ** Shared memory *)

Record Shared := mkShared {
  sch : Scheduler;
  pendingId : nat;             (* the allocation [pendingWake] points to *)
  nextId : nat;
  clockValid : bool;           (* a validator is installed *)
  cronRunning : bool;          (* the cron engine is started *)
  monitorCancel : option nat;  (* the context it cancels *)
  nextCtx : nat;
  cancelled : list nat;        (* the contexts that were cancelled *)
  parentDone : bool;           (* the context of the service is done, and every one derived from it *)
}.
#[export] Instance eta_Shared : Eta Shared := λ h,
  mkShared (sch h) (pendingId h) (nextId h) (clockValid h) (cronRunning h) (monitorCancel h)
    (nextCtx h) (cancelled h) (parentDone h).

Definition NewShared : Shared := mkShared NewScheduler 0 0 false false None 0 [] false.

Definition on (f : Scheduler → Scheduler) (h : Shared) : Shared := h <| sch := f (sch h) |>.

(** [s.pendingWake = &target]. *)
Definition defer (target : Time) (h : Shared) : Shared :=
  h <| sch := (sch h) <| pendingWake := Some target |> |> <| pendingId := nextId h |> <| nextId := S (nextId h) |>.

Definition forget (h : Shared) : Shared := on (λ s, s <| pendingWake := None |>) h.

(** The clock and the callbacks, as one step sees them. *)
Record Reading := mkReading {
  r_now : Time;
  r_mono : Time;   (* the second of two readings in one step *)
  r_ok : bool;     (* the answer of the validator *)
  r_cap : Z;       (* the answer of [maxSeconds] *)
}.

Definition clockOK (rd : Reading) (h : Shared) : bool := if clockValid h then r_ok rd else true.

(** ** Program points *)

Inductive Pc :=
| PStart
| PStartLock
| PClose
| PCloseStop
| PValidator
| PEnabled (enabled : bool)
| PCron (expr : string)
| PCronLock (expr : string)
| PDuration (d : Z)
| PSuppress (d : Z)
| PRebuild
| PFire
| PFireDuration
| PFireCap (wakeSec : Z)
| PVehicle (state : string)
| PDispatch
| PPending (id : nat) (target : Time) (maxSec : Z)
| PSync (synced : bool)
| PSyncRebuild (pending : option Time)
| PSyncStale (pending : option Time)
| PSyncDrop
| PCatch (dispatch : bool)
| PCatchFind (dispatch : bool) (expr : string) (duration : Z) (startedWall lastFired : Time) (maxSec : Z)
    (standby : bool)
| PCatchLock (dispatch : bool) (now : Time) (wakeSec maxSec : Z)
| PCatchSend (dispatch : bool) (wakeSec maxSec : Z)
| PCatchDefer (dispatch : bool) (expr : string) (target : Time)
| PJump
| PJumpSwap (wallNow monoNow : Time)
| PJumpRebuild (wallNow : Time) (jump : Z)
| PJumpPeek (wallNow : Time) (jump : Z)
| PJumpStale (pending : option Time) (wallNow : Time) (jump : Z)
| PJumpDrop (wallNow : Time) (jump : Z).

(** A call of [onFire]: its argument, the cap that was read for it, and the
    deferred target it spends. *)
Record Request := mkRequest { q_wake : Z; q_cap : Z; q_id : option nat }.

(** The outcome of a step: memory, calls, where the goroutine goes on ([None]:
    the method returns), and the context of a monitor it starts. *)
Record Outcome := mkOutcome {
  o_shared : Shared;
  o_requests : list Request;
  o_next : option Pc;
  o_monitor : option nat;
}.

Definition return_ (h : Shared) : Outcome := mkOutcome h [] None None.
Definition goto (p : Pc) (h : Shared) : Outcome := mkOutcome h [] (Some p) None.
Definition call_onFire (q : Request) (next : option Pc) (h : Shared) : Outcome := mkOutcome h [q] next None.

(** [catchUpMissed] is the last call of [SetTimeSynced]; in [checkClockJump] it
    is followed by [dispatchPending]. *)
Definition after_catch (dispatch : bool) : option Pc := if dispatch then Some PDispatch else None.
Definition leave_catch (dispatch : bool) (h : Shared) : Outcome := mkOutcome h [] (after_catch dispatch) None.

Section cron.
Context {Schedule : Type}
  (ParseStandard : string → option Schedule)
  (Next : Schedule → Time → Time)
  (engineAccepts : string → bool).

Definition StartLock (rd : Reading) (h : Shared) : Outcome :=
  mkOutcome
    ((on (Start (r_now rd)) h) <| monitorCancel := Some (nextCtx h) |> <| nextCtx := S (nextCtx h) |>)
    [] None (Some (nextCtx h)).

Definition CloseLock (h : Shared) : Shared :=
  match monitorCancel h with
  | Some c => h <| cancelled := c :: cancelled h |> <| monitorCancel := None |>
  | None => h
  end.

Definition EnabledLock (enabled : bool) (h : Shared) : Outcome :=
  if Bool.eqb (schedEnabled (sch h)) enabled then return_ h
  else goto PRebuild (on (λ s, s <| schedEnabled := enabled |>) h).

Definition CronValidate (rd : Reading) (expr : string) (h : Shared) : Outcome :=
  if negb (expr =s "") && negb (validateCronSchedule ParseStandard Next (r_now rd) expr) then return_ h
  else goto (PCronLock expr) h.

Definition CronLock (expr : string) (h : Shared) : Outcome :=
  if cronExpr (sch h) =s expr then return_ h
  else goto PRebuild (on (λ s, s <| cronExpr := expr |>) h).

(** [fire]: the critical section; then [s.duration] is read again without the
    mutex, and [maxSeconds] is asked. *)
Definition FireLock (rd : Reading) (h : Shared) : Outcome :=
  let s := sch h in
  let now := r_now rd in
  if negb (schedEnabled s) || negb (timeSynced s) || (duration s <=? 0) then return_ h
  else if negb (clockOK rd h) then return_ h
  else if suppressed now s then return_ h
  else if negb (IsZero (lastFired s)) && (Sub now (lastFired s) <? FireCooldown) then return_ h
  else
    let h := on (λ s, s <| lastFired := now |>) h in
    if vehicleStandby s then goto PFireDuration (forget h)
    else return_ (defer (Add now (duration s)) h).

Definition FireDuration (h : Shared) : Outcome :=
  let wakeSec := u32 (Z.quot (duration (sch h)) Second) in
  goto (PFireCap (if wakeSec =? 0 then 1 else wakeSec)) h.

Definition FireCap (rd : Reading) (wakeSec : Z) (h : Shared) : Outcome :=
  let cap := r_cap rd in
  call_onFire (mkRequest (if (0 <? cap) && (cap <? wakeSec) then cap else wakeSec) cap None) None h.

Definition VehicleLock (rd : Reading) (state : string) (h : Shared) : Outcome :=
  let standby := is_standby state in
  let prev := vehicleStandby (sch h) in
  let h := on (λ s, s <| vehicleStandby := standby |>) h in
  match pendingWake (sch h) with
  | Some target =>
      if standby && negb prev then
        if negb (schedEnabled (sch h)) || negb (timeSynced (sch h)) then return_ (forget h)
        else if negb (clockOK rd h) then return_ h
        else goto (PPending (pendingId h) target (r_cap rd)) (forget h)
      else return_ h
  | None => return_ h
  end.

Definition DispatchLock (rd : Reading) (h : Shared) : Outcome :=
  let s := sch h in
  match pendingWake s with
  | Some target =>
      if negb (schedEnabled s) || negb (timeSynced s) || negb (vehicleStandby s) || negb (clockOK rd h)
      then return_ h
      else goto (PPending (pendingId h) target (r_cap rd)) (forget h)
  | None => return_ h
  end.

(** After the mutex is given up: the remaining seconds of a consumed target. *)
Definition SendPending (rd : Reading) (id : nat) (target : Time) (maxSec : Z) (h : Shared) : Outcome :=
  let wakeSec := pendingWakeSeconds target (r_now rd) maxSec in
  if wakeSec =? 0 then return_ h else call_onFire (mkRequest wakeSec maxSec (Some id)) None h.

Definition SyncLock (synced : bool) (h : Shared) : Outcome :=
  if negb synced then return_ h
  else if timeSynced (sch h) then return_ h
  else goto (PSyncRebuild (pendingWake (sch h))) (on (λ s, s <| timeSynced := true |>) h).

(** The target is the one read in the first critical section. *)
Definition SyncStale (rd : Reading) (pending : option Time) (h : Shared) : Outcome :=
  match pending with
  | Some target => if After (r_now rd) target then goto PSyncDrop h else goto (PCatch false) h
  | None => goto (PCatch false) h
  end.

Definition CatchGate (rd : Reading) (dispatch : bool) (h : Shared) : Outcome :=
  let s := sch h in
  if negb (schedEnabled s) || negb (timeSynced s) || (cronExpr s =s "") || (duration s <=? 0)
     || suppressed (r_now rd) s || negb (clockOK rd h) then leave_catch dispatch h
  else goto (PCatchFind dispatch (cronExpr s) (duration s) (startedWall s) (lastFired s) (r_cap rd)
               (vehicleStandby s)) h.

(** The search works on the copies of the first critical section. *)
Definition CatchFind (rd : Reading) (dispatch : bool) (expr : string) (duration : Z)
    (startedWall lastFired : Time) (maxSec : Z) (standby : bool) (h : Shared) : Outcome :=
  match ParseStandard expr with
  | None => leave_catch dispatch h
  | Some sched =>
      let now := r_now rd in
      match previousOccurrence Next sched now catchUpWindow with
      | None => leave_catch dispatch h
      | Some prev =>
          if negb (After prev startedWall) then leave_catch dispatch h
          else if negb (IsZero lastFired) && negb (After prev lastFired) then leave_catch dispatch h
          else
            let target := Add prev duration in
            if negb (After target now) then leave_catch dispatch h
            else if standby then
              let wakeSec := pendingWakeSeconds target now maxSec in
              if wakeSec =? 0 then leave_catch dispatch h
              else goto (PCatchLock dispatch now wakeSec maxSec) h
            else goto (PCatchDefer dispatch expr target) h
      end
  end.

Definition CatchDefer (dispatch : bool) (expr : string) (target : Time) (h : Shared) : Outcome :=
  if negb (schedEnabled (sch h)) || negb (timeSynced (sch h)) || negb (cronExpr (sch h) =s expr)
  then leave_catch dispatch h
  else leave_catch dispatch (defer target h).

Definition JumpSwap (wallNow monoNow : Time) (h : Shared) : Outcome :=
  let jump := detectWallJump (lastWall (sch h)) (lastMono (sch h)) wallNow monoNow in
  let h := on (λ s, s <| lastWall := Round0 wallNow |> <| lastMono := monoNow |>) h in
  if (- wallJumpThreshold <=? jump) && (jump <=? wallJumpThreshold) then return_ h
  else goto (PJumpRebuild wallNow jump) h.

(** The end of [checkClockJump]: a forward step is a correction. *)
Definition jump_tail (jump : Z) (h : Shared) : Outcome :=
  if wallJumpThreshold <? jump then goto (PCatch true) h else return_ h.

Definition JumpStale (pending : option Time) (wallNow : Time) (jump : Z) (h : Shared) : Outcome :=
  match pending with
  | Some target => if After wallNow target then goto (PJumpDrop wallNow jump) h else jump_tail jump h
  | None => jump_tail jump h
  end.

Definition JumpDrop (wallNow : Time) (jump : Z) (h : Shared) : Outcome :=
  match pendingWake (sch h) with
  | Some target => if negb (After target wallNow) then jump_tail jump (forget h) else jump_tail jump h
  | None => jump_tail jump h
  end.

(** One step of a goroutine. *)
Definition exec (rd : Reading) (p : Pc) (h : Shared) : Outcome :=
  match p with
  | PStart => goto PStartLock (h <| cronRunning := true |>)
  | PStartLock => StartLock rd h
  | PClose => goto PCloseStop (CloseLock h)
  | PCloseStop => return_ (h <| cronRunning := false |>)
  | PValidator => return_ (h <| clockValid := true |>)
  | PEnabled b => EnabledLock b h
  | PCron expr => CronValidate rd expr h
  | PCronLock expr => CronLock expr h
  | PDuration d => return_ (on (SetDuration d) h)
  | PSuppress d => return_ (on (SuppressScheduledFiresFor (r_now rd) d) h)
  | PRebuild => return_ (on (rebuild engineAccepts) h)
  | PFire => FireLock rd h
  | PFireDuration => FireDuration h
  | PFireCap w => FireCap rd w h
  | PVehicle st => VehicleLock rd st h
  | PDispatch => DispatchLock rd h
  | PPending id target cap => SendPending rd id target cap h
  | PSync b => SyncLock b h
  | PSyncRebuild pending => goto (PSyncStale pending) (on (rebuild engineAccepts) h)
  | PSyncStale pending => SyncStale rd pending h
  | PSyncDrop => goto (PCatch false) (forget h)
  | PCatch k => CatchGate rd k h
  | PCatchFind k e d sw lf cap st => CatchFind rd k e d sw lf cap st h
  | PCatchLock k now w cap =>
      goto (PCatchSend k w cap) (forget (on (λ s, s <| lastFired := now |>) h))
  | PCatchSend k w cap => call_onFire (mkRequest w cap None) (after_catch k) h
  | PCatchDefer k e target => CatchDefer k e target h
  | PJump => goto (PJumpSwap (r_now rd) (r_mono rd)) h
  | PJumpSwap wallNow monoNow => JumpSwap wallNow monoNow h
  | PJumpRebuild wallNow jump => goto (PJumpPeek wallNow jump) (on (rebuild engineAccepts) h)
  | PJumpPeek wallNow jump => goto (PJumpStale (pendingWake (sch h)) wallNow jump) h
  | PJumpStale pending wallNow jump => JumpStale pending wallNow jump h
  | PJumpDrop wallNow jump => JumpDrop wallNow jump h
  end.

(** ** The program: goroutines over the shared memory *)

(** A goroutine with a context is the monitor: when [checkClockJump] returns it
    is back in the [select] of [monitorLoop]. *)
Record Thread := mkThread { t_pc : option Pc; t_ctx : option nat }.

Record Program := mkProgram {
  p_shared : Shared;
  p_threads : list Thread;
  p_requests : list Request;   (* every call of [onFire] so far *)
}.
#[export] Instance eta_Program : Eta Program := λ p, mkProgram (p_shared p) (p_threads p) (p_requests p).

(** The methods that other packages call. *)
Definition is_method (p : Pc) : bool :=
  match p with
  | PStart | PClose | PValidator | PEnabled _ | PCron _ | PDuration _ | PSuppress _ | PVehicle _
  | PSync _ => true
  | _ => false
  end.

Inductive Choice :=
| CCall (p : Pc)                  (* a method is called *)
| CCron                           (* the engine runs the installed job *)
| CStep (i : nat) (rd : Reading)  (* a goroutine takes its next step *)
| CTick (i : nat)                 (* [select]: the ticker *)
| CDone (i : nat)                 (* [select]: the context *)
| CShutdown.                      (* the context of the service is cancelled *)

Definition spawn (t : Thread) (c : Program) : Program := c <| p_threads := p_threads c ++ [t] |>.

Definition take_step (i : nat) (rd : Reading) (c : Program) : Program :=
  match p_threads c !! i with
  | Some (mkThread (Some p) ctx) =>
      let o := exec rd p (p_shared c) in
      mkProgram (o_shared o)
        (<[i := mkThread (o_next o) ctx]> (p_threads c)
         ++ option_list ((λ k, mkThread None (Some k)) <$> o_monitor o))
        (p_requests c ++ o_requests o)
  | _ => c
  end.

(** A choice that is not possible changes nothing. *)
Definition cstep (c : Program) (x : Choice) : Program :=
  match x with
  | CCall p => if is_method p then spawn (mkThread (Some p) None) c else c
  | CCron =>
      if cronRunning (p_shared c) && bool_decide (is_Some (cronEntry (sch (p_shared c))))
      then spawn (mkThread (Some PFire) None) c else c
  | CStep i rd => take_step i rd c
  | CTick i =>
      match p_threads c !! i with
      | Some (mkThread None (Some k)) => c <| p_threads := <[i := mkThread (Some PJump) (Some k)]> (p_threads c) |>
      | _ => c
      end
  | CDone i =>
      match p_threads c !! i with
      | Some (mkThread None (Some k)) =>
          if parentDone (p_shared c) || bool_decide (k ∈ cancelled (p_shared c))
          then c <| p_threads := <[i := mkThread None None]> (p_threads c) |> else c
      | _ => c
      end
  | CShutdown =>
      c <| p_shared := (p_shared c) <| parentDone := true |> |>
  end.

Definition initial : Program := mkProgram NewShared [] [].

(** ** A method without interruption *)

(** [rd] gives the reading each program point gets. *)
Fixpoint alone (rd : Pc → Reading) (fuel : nat) (p : option Pc) (h : Shared) (qs : list Request)
  : option Pc * Shared * list Request :=
  match fuel, p with
  | S fuel, Some q =>
      let o := exec (rd q) q h in alone rd fuel (o_next o) (o_shared o) (qs ++ o_requests o)
  | _, _ => (p, h, qs)
  end.
End cron.
