(* ===== verification/SchedThreadFacts.v ===== *)
(** * Scheduled hibernation under concurrency: theorems

    What holds for every interleaving of the scheduler's goroutines: a deferred
    target is spent once, nothing is requested before the clock was validated,
    every request respects its cap, every call returns.  A call that nobody
    interrupts is the method of [Scheduler].  Two interleavings that the code
    does not guard against. *)

From S2P Require Import Prelude GoInt GoTime Scheduler SchedulerFacts SchedThreads.

(** Every branch of a step. *)
Local Ltac outcome := repeat first [split_if | case_match]; simplify_eq/=.
Local Ltac each_step p :=
  destruct p; cbn [exec];
  unfold StartLock, EnabledLock, CronValidate, CronLock, FireLock, VehicleLock, DispatchLock, FireDuration,
    FireCap, SyncLock, SyncStale, CatchGate, CatchFind, CatchDefer, JumpSwap, JumpStale, JumpDrop, CloseLock,
    SendPending, SetDuration, jump_tail, leave_catch, return_, goto, call_onFire;
  outcome.

(** ** Deferred targets *)

(** The allocation a deferred target lives in, while it can still be spent. *)
Definition current (h : Shared) : list nat :=
  match pendingWake (sch h) with Some _ => [pendingId h] | None => [] end.

(** The target a goroutine has taken out of the memory and not yet reported. *)
Definition pc_ids (p : option Pc) : list nat :=
  match p with Some (PPending id _ _) => [id] | _ => [] end.

Definition held (ts : list Thread) : list nat := ts ≫= (λ t, pc_ids (t_pc t)).

Definition spent (qs : list Request) : list nat := omap q_id qs.

(** Every place where the identity of a target can be. *)
Definition tokens (c : Program) : list nat :=
  current (p_shared c) ++ held (p_threads c) ++ spent (p_requests c).

(** ** Gates *)

(** Program points behind the test of [timeSynced]. *)
Definition gated (p : Pc) : bool :=
  match p with
  | PFireDuration | PFireCap _ | PPending _ _ _ | PCatchFind _ _ _ _ _ _ _ | PCatchLock _ _ _ _
  | PCatchSend _ _ _ | PCatchDefer _ _ _ => true
  | _ => false
  end.

(** What the locals of a program point satisfy. *)
Definition locals_ok (p : Pc) : Prop :=
  match p with
  | PFireCap w => 1 ≤ w < 2 ^ 32
  | PPending _ _ cap | PCatchFind _ _ _ _ _ cap _ => is_u32 cap
  | PCatchLock _ _ w cap | PCatchSend _ w cap => cap_ok cap w
  | _ => True
  end.

Definition pc_ok (h : Shared) (p : Pc) : Prop :=
  locals_ok p ∧ (gated p = true → timeSynced (sch h) = true).

Definition request_ok (q : Request) : Prop := cap_ok (q_cap q) (q_wake q).

(** [maxSeconds] returns a [uint32]. *)
Definition choice_ok (x : Choice) : Prop :=
  match x with CStep _ rd => is_u32 (r_cap rd) | _ => True end.

(** How many of its own steps a goroutine has left, at most. *)
Definition rank (p : Pc) : nat :=
  let k (dispatch : bool) : nat := if dispatch then 2%nat else 0%nat in
  match p with
  | PStartLock | PCloseStop | PValidator | PDuration _ | PSuppress _ | PRebuild | PFireCap _
  | PPending _ _ _ => 1
  | PStart | PClose | PEnabled _ | PCronLock _ | PFireDuration | PVehicle _ | PDispatch => 2
  | PCron _ | PFire => 3
  | PCatchSend d _ _ | PCatchDefer d _ _ => 1 + k d
  | PCatchLock d _ _ _ => 2 + k d
  | PCatchFind d _ _ _ _ _ _ => 3 + k d
  | PCatch d => 4 + k d
  | PSyncDrop => 5 | PSyncStale _ => 6 | PSyncRebuild _ => 7 | PSync _ => 8
  | PJumpDrop _ _ => 7 | PJumpStale _ _ _ => 8 | PJumpPeek _ _ => 9 | PJumpRebuild _ _ => 10
  | PJumpSwap _ _ => 11 | PJump => 12
  end.

Definition rank' (p : option Pc) : nat := match p with Some p => rank p | None => 0 end.

Section threads.
Context {Schedule : Type}
  (ParseStandard : string → option Schedule)
  (Next : Schedule → Time → Time)
  (engineAccepts : string → bool).

Local Abbreviation exec := (exec ParseStandard Next engineAccepts).
Local Abbreviation cstep := (cstep ParseStandard Next engineAccepts).
Local Abbreviation take_step := (take_step ParseStandard Next engineAccepts).

(** ** One step of a goroutine *)

Lemma rebuild_pending s : pendingWake (rebuild engineAccepts s) = pendingWake s.
Proof. apply rebuild_fields. Qed.

(** A step moves the identities it finds, allocates at most one, and drops
    some. *)
Definition moves (h : Shared) (p : Pc) (o : Outcome) : Prop :=
  ∃ fresh, (fresh = [] ∧ nextId (o_shared o) = nextId h ∨
            fresh = [nextId h] ∧ nextId (o_shared o) = S (nextId h)) ∧
  current (o_shared o) ++ pc_ids (o_next o) ++ spent (o_requests o) ⊆+
    fresh ++ current h ++ pc_ids (Some p).

Lemma moves_keep h p o :
  nextId (o_shared o) = nextId h →
  current (o_shared o) ++ pc_ids (o_next o) ++ spent (o_requests o) ⊆+ current h ++ pc_ids (Some p) →
  moves h p o.
Proof. intros. exists []. auto. Qed.

Lemma moves_fresh h p o :
  nextId (o_shared o) = S (nextId h) →
  current (o_shared o) ++ pc_ids (o_next o) ++ spent (o_requests o) = [nextId h] →
  moves h p o.
Proof. intros Hn E. exists [nextId h]. split; [auto|]. rewrite E. by apply submseteq_inserts_r. Qed.

Lemma exec_moves rd p h : moves h p (exec rd p h).
Proof.
  each_step p.
  all: first
    [ apply moves_fresh; [done|]
    | apply moves_keep; [done|]; unfold after_catch, current, forget, on, spent; cbn;
      rewrite ?rebuild_pending; repeat split_if; rewrite ?app_nil_r; cbn ].
  all: try done; try congruence; try apply submseteq_nil_l; try (destruct dispatch; done).
  all: try by apply (submseteq_inserts_r _ [_] [_]).
  all: try by (case_match; [|done]).
Qed.

(** The latch is never cleared. *)
Lemma exec_synced rd p h :
  timeSynced (sch h) = true → timeSynced (sch (o_shared (exec rd p h))) = true.
Proof.
  intros Hs. each_step p.
  all: rewrite ?rebuild_synced; try done. by destruct (_ =? _).
Qed.

Lemma after_catch_ok d h q : after_catch d = Some q → pc_ok h q.
Proof. destruct d; cbn; [|done]. by intros [= <-]. Qed.

Lemma cap_ok_clamp cap w :
  is_u32 cap → 1 ≤ w < 2 ^ 32 → cap_ok cap (if (0 <? cap) && (cap <? w) then cap else w).
Proof. intros Hc Hw. destruct (_ && _) eqn:E; bools; unfold cap_ok; tlia. Qed.

(** The gates and the locals are kept. *)
Lemma exec_ok rd p h :
  is_u32 (r_cap rd) → pc_ok h p →
  (∀ q, o_next (exec rd p h) = Some q → pc_ok (o_shared (exec rd p h)) q) ∧
  Forall request_ok (o_requests (exec rd p h)) ∧
  (o_requests (exec rd p h) ≠ [] → timeSynced (sch h) = true).
Proof.
  intros Hc [Hl Hg]. each_step p.
  all: cbn in *; split_and!; try (intros ? [= <-]; split; cbn); try done; eauto using after_catch_ok.
  all: try (intros _; bools; by auto).
  all: try lazymatch goal with |- Forall _ _ => apply Forall_singleton; unfold request_ok; cbn end.
  - pose proof (u32_range (duration (sch h) ÷ Second)) as Hr. unfold is_u32 in Hr. set (u32 _) in *. lia.
  - pose proof (cap_ok_clamp (r_cap rd) wakeSec Hc Hl) as H. by rewrite Heqb in H.
  - pose proof (cap_ok_clamp (r_cap rd) wakeSec Hc Hl) as H. by rewrite Heqb in H.
  - apply pendingWakeSeconds_cap; [done|lia].
  - apply pendingWakeSeconds_cap; [done|lia].
Qed.

(** A target is stored only behind the gate. *)
Lemma exec_target rd p h :
  is_Some (pendingWake (sch (o_shared (exec rd p h)))) →
  is_Some (pendingWake (sch h)) ∨ timeSynced (sch h) = true.
Proof.
  each_step p; rewrite ?rebuild_pending; auto; bools; auto; try (by intros [? [=]]).
  1: destruct (_ =? _); auto.
  all: match goal with H : pendingWake _ = None |- _ => rewrite H; by intros [? [=]] end.
Qed.

(** Each step brings the return closer. *)
Lemma exec_rank rd p h : (rank' (o_next (exec rd p h)) < rank p)%nat.
Proof. each_step p. all: try (destruct dispatch); cbn; lia. Qed.

(** ** One step of the program *)

Lemma held_app ts us : held (ts ++ us) = held ts ++ held us.
Proof. apply bind_app. Qed.

(** The identities held by the goroutines when one of them is replaced. *)
Lemma held_insert ts i t u :
  ts !! i = Some t → ∃ rest, held ts ≡ₚ pc_ids (t_pc t) ++ rest ∧
                             held (<[i := u]> ts) ≡ₚ pc_ids (t_pc u) ++ rest.
Proof.
  intros Hi. exists (held (take i ts) ++ held (drop (S i) ts)).
  pose proof (take_drop_middle ts i t Hi) as Hm.
  pose proof (lookup_lt_Some ts i t Hi) as Hlt. split.
  - rewrite <- Hm at 1. rewrite held_app. cbn. solve_Permutation.
  - rewrite insert_take_drop, held_app by done. cbn. solve_Permutation.
Qed.

Lemma held_monitor o : held (option_list ((λ k, mkThread None (Some k)) <$> o)) = [].
Proof. by destruct o. Qed.

Definition tokens_ok (c : Program) : Prop :=
  NoDup (tokens c) ∧ ∀ id, id ∈ tokens c → (id < nextId (p_shared c))%nat.

(** Tokens that move, with at most one fresh one, stay distinct. *)
Lemma tokens_move (l l' : list nat) (fresh : list nat) n n' :
  NoDup l → (∀ id, id ∈ l → (id < n)%nat) →
  (fresh = [] ∧ n' = n ∨ fresh = [n] ∧ n' = S n) → l' ⊆+ fresh ++ l →
  NoDup l' ∧ ∀ id, id ∈ l' → (id < n')%nat.
Proof.
  intros Hnd Hlt Hf Hsub.
  assert (Hnd' : NoDup (fresh ++ l)).
  { destruct Hf as [[-> _]|[-> _]]; [done|]. apply NoDup_cons. split; [|done]. intros Hin%Hlt. lia. }
  split.
  - apply submseteq_Permutation in Hsub as [k Hk]. rewrite Hk in Hnd'. by apply NoDup_app in Hnd' as (? & _).
  - intros id Hid. eapply elem_of_submseteq in Hid; [|exact Hsub]. apply elem_of_app in Hid.
    destruct Hf as [[-> ->]|[-> ->]], Hid as [Hid|Hid]; [by apply elem_of_nil in Hid|auto| |apply Hlt in Hid; lia].
    apply list_elem_of_singleton in Hid. lia.
Qed.

(** The same memory and calls, the same identities in the goroutines. *)
Lemma tokens_frame c c' :
  p_requests c' = p_requests c → sch (p_shared c') = sch (p_shared c) →
  pendingId (p_shared c') = pendingId (p_shared c) → nextId (p_shared c') = nextId (p_shared c) →
  held (p_threads c') ≡ₚ held (p_threads c) → tokens_ok c → tokens_ok c'.
Proof.
  intros Hq Hs Hp Hn Ht [Hnd Hlt].
  assert (E : tokens c' ≡ₚ tokens c).
  { unfold tokens, current. by rewrite Hq, Hs, Hp, Ht. }
  split; [by rewrite E|]. intros id. rewrite E, Hn. apply Hlt.
Qed.

Lemma take_step_tokens i rd c : tokens_ok c → tokens_ok (take_step i rd c).
Proof.
  intros [Hnd Hlt]. unfold SchedThreads.take_step.
  destruct (p_threads c !! i) as [[[p|] ctx]|] eqn:Hi; [|done..]. cbv zeta.
  destruct (exec_moves rd p (p_shared c)) as (fresh & Hf & Hsub).
  destruct (held_insert _ i _ (mkThread (o_next (exec rd p (p_shared c))) ctx) Hi) as (rest & Hr & Hr').
  unfold tokens_ok, tokens in *. cbn -[held] in *. rewrite held_app, held_monitor, app_nil_r.
  eapply tokens_move; [exact Hnd|exact Hlt|exact Hf|].
  unfold spent in *. rewrite omap_app, Hr, Hr'.
  transitivity ((fresh ++ current (p_shared c) ++ pc_ids (Some p)) ++ rest ++ omap q_id (p_requests c)).
  - etrans; [|apply submseteq_app; [exact Hsub|reflexivity]].
    apply Permutation_submseteq. solve_Permutation.
  - apply Permutation_submseteq. solve_Permutation.
Qed.

Lemma cstep_tokens c x : tokens_ok c → tokens_ok (cstep c x).
Proof.
  intros Hc. destruct x as [p| |i rd|i|i|]; cbn; [| |by apply take_step_tokens|..].
  all: repeat (case_match; try done).
  all: eapply tokens_frame; try exact Hc; try done; cbn -[held].
  - rewrite held_app. destruct p; try done; cbn -[held]; by rewrite app_nil_r.
  - rewrite held_app. cbn -[held]. by rewrite app_nil_r.
  - by destruct (held_insert _ i _ (mkThread (Some PJump) (Some n)) H) as (rest & -> & ->).
  - by destruct (held_insert _ i _ (mkThread None None) H) as (rest & -> & ->).
Qed.

(** Gates, locals and calls. *)
Definition threads_ok (h : Shared) (ts : list Thread) : Prop :=
  Forall (λ t, ∀ p, t_pc t = Some p → pc_ok h p) ts.

Definition program_ok (c : Program) : Prop :=
  threads_ok (p_shared c) (p_threads c) ∧ Forall request_ok (p_requests c) ∧
  (p_requests c ≠ [] → timeSynced (sch (p_shared c)) = true) ∧
  (is_Some (pendingWake (sch (p_shared c))) → timeSynced (sch (p_shared c)) = true).

Lemma pc_ok_mono h h' p :
  (timeSynced (sch h) = true → timeSynced (sch h') = true) → pc_ok h p → pc_ok h' p.
Proof. intros Hm [Hl Hg]. split; auto. Qed.

Lemma threads_ok_mono h h' ts :
  (timeSynced (sch h) = true → timeSynced (sch h') = true) → threads_ok h ts → threads_ok h' ts.
Proof. intros Hm Ht. eapply Forall_impl; [exact Ht|]. eauto using pc_ok_mono. Qed.

Lemma take_step_ok i rd c : is_u32 (r_cap rd) → program_ok c → program_ok (take_step i rd c).
Proof.
  intros Hrd (Ht & Hq & Hs & Hw). unfold SchedThreads.take_step.
  destruct (p_threads c !! i) as [[[p|] ctx]|] eqn:Hi; [|done..]. cbv zeta.
  assert (Hp : pc_ok (p_shared c) p) by (eapply Forall_lookup_1 in Ht; [|exact Hi]; by apply Ht).
  destruct (exec_ok rd p (p_shared c) Hrd Hp) as (Hn & Ho & Hg).
  pose proof (exec_synced rd p (p_shared c)) as Hm.
  split_and!; cbn.
  - unfold threads_ok. apply Forall_app. split.
    + apply Forall_insert; [by eapply threads_ok_mono|]. cbn. apply Hn.
    + destruct (o_monitor _); cbn; by repeat constructor.
  - apply Forall_app. auto.
  - intros Hne. apply Hm. destruct (p_requests c); [apply Hg; intros E; by rewrite E in Hne|by apply Hs].
  - intros Hpw%exec_target. apply Hm. destruct Hpw; auto.
Qed.

Lemma cstep_ok c x : program_ok c → choice_ok x → program_ok (cstep c x).
Proof.
  intros Hc Hx. destruct x as [p| |i rd|i|i|]; cbn; [| |by apply take_step_ok|..].
  all: destruct Hc as (Ht & Hq & Hs & Hw).
  all: repeat (case_match; try done).
  all: split_and!; try done; unfold threads_ok; cbn.
  1-2: apply Forall_app; split; [done|]; apply Forall_singleton; cbn; intros ? [= <-].
  - split; by destruct p.
  - done.
  - apply Forall_insert; [done|]. cbn. by intros ? [= <-].
  - apply Forall_insert; [done|]. done.
Qed.

(** Runs from the start of the service. *)
Definition reach (xs : list Choice) : Program := run cstep initial xs.

Lemma reach_tokens xs : tokens_ok (reach xs).
Proof.
  apply (run_invariant cstep tokens_ok (λ _, True)); [by intros; apply cstep_tokens| |by apply Forall_true].
  split; [constructor|]. intros id Hid. by apply elem_of_nil in Hid.
Qed.

Lemma reach_ok xs : Forall choice_ok xs → program_ok (reach xs).
Proof.
  apply (run_invariant cstep program_ok choice_ok); [by apply cstep_ok|].
  split_and!; [constructor..|done|by intros [? [=]]].
Qed.

(** C34: under every interleaving of the scheduler's goroutines a deferred
    wake-by target is dispatched at most once, and one that can still be
    dispatched, because it is stored or because a goroutine has taken it, has
    not been. *)
Theorem target_spent_once (xs : list Choice) :
  NoDup (spent (p_requests (reach xs))) ∧
  (∀ id, id ∈ current (p_shared (reach xs)) ++ held (p_threads (reach xs)) →
         id ∉ spent (p_requests (reach xs))).
Proof.
  destruct (reach_tokens xs) as [Hnd _]. unfold tokens in Hnd. rewrite app_assoc in Hnd.
  apply NoDup_app in Hnd as (_ & Hd & Hs). eauto.
Qed.

(** C35: under every interleaving nothing is requested and no wake-by target is
    stored before the wall clock was validated (so the stale-target branch of
    [SetTimeSynced] finds none), and every interval that is requested is at
    least a second, fits 32 bits and respects the cap that was read for it. *)
Theorem requests_gated (xs : list Choice) :
  Forall choice_ok xs →
  (timeSynced (sch (p_shared (reach xs))) = false →
     p_requests (reach xs) = [] ∧ pendingWake (sch (p_shared (reach xs))) = None) ∧
  Forall request_ok (p_requests (reach xs)).
Proof.
  intros Hx. destruct (reach_ok xs Hx) as (_ & Hq & Hs & Hw). split; [|done]. intros Hf. rewrite Hf in Hs, Hw.
  split.
  - destruct (p_requests (reach xs)); [done|]. by ospecialize (Hs _).
  - destruct (pendingWake _); [|done]. by ospecialize (Hw _).
Qed.

(** ** A call that nobody interrupts *)

(** The first program point of a method, and the reading each point gets when
    the method of [Scheduler] is given the readings of [o]. *)
Definition entry (o : sched_op) : Pc :=
  match o with
  | OFire _ _ _ => PFire
  | OVehicle st _ _ _ => PVehicle st
  | ODispatch _ _ _ => PDispatch
  | OCatchUp _ _ _ _ => PCatch false
  | OSync b _ _ _ _ _ => PSync b
  | OJump _ _ _ _ _ _ _ => PJump
  | OSetEnabled b => PEnabled b
  | OSetCron _ e => PCron e
  | OSetDuration d => PDuration d
  | OSuppress _ d => PSuppress d
  end.

Definition given (o : sched_op) (p : Pc) : Reading :=
  match o with
  | OFire now ok cap | OVehicle _ now ok cap | ODispatch now ok cap => mkReading now now ok cap
  | OCatchUp g now ok cap => mkReading (match p with PCatch _ => g | _ => now end) now ok cap
  | OSync _ n1 n2 n3 ok cap =>
      mkReading (match p with PCatch _ => n2 | PCatchFind _ _ _ _ _ _ _ => n3 | _ => n1 end) n3 ok cap
  | OJump w m n2 n3 n4 ok cap =>
      match p with
      | PJump => mkReading w m ok cap
      | PCatch _ => mkReading n2 n3 ok cap
      | PCatchFind _ _ _ _ _ _ _ => mkReading n3 n3 ok cap
      | _ => mkReading n4 n4 ok cap
      end
  | OSetCron now _ | OSuppress now _ => mkReading now now true 0
  | _ => mkReading zeroTime zeroTime true 0
  end.

Section whole.
Context (rd : Pc → Reading).

Local Abbreviation alone := (alone ParseStandard Next engineAccepts rd).

Definition whole (p : option Pc) (h : Shared) (qs : list Request) : option Pc * Shared * list Request :=
  alone (rank' p) p h qs.
#[local] Arguments whole : simpl never.

Lemma alone_fuel n p h qs : (rank' p ≤ n)%nat → alone n p h qs = whole p h qs.
Proof.
  unfold whole. remember (rank' p) as m eqn:Hm. revert n p Hm h qs.
  induction (lt_wf m) as [m _ IH]. intros n [p|] Hm h qs Hle; cbn in Hm; [|subst; by destruct n].
  pose proof (exec_rank (rd p) p h) as Hr.
  destruct m as [|m]; [lia|]. destruct n as [|n]; [lia|]. cbn.
  rewrite (IH _ ltac:(rewrite Hm; exact Hr) n _ eq_refl) by lia.
  symmetry. apply (IH (rank' (o_next (exec (rd p) p h)))); [lia|done|lia].
Qed.

Lemma whole_step p h qs :
  whole (Some p) h qs =
  let o := exec (rd p) p h in whole (o_next o) (o_shared o) (qs ++ o_requests o).
Proof.
  pose proof (exec_rank (rd p) p h) as Hr. unfold whole at 1. cbn in *.
  destruct (rank p) as [|n] eqn:E; [lia|]. cbn. apply alone_fuel. lia.
Qed.

Lemma whole_none h qs : whole None h qs = (None, h, qs).
Proof. done. Qed.

(** [catchUpMissed] and [dispatchPending] from any point of a longer call. *)
Definition continues (p : option Pc) (h : Shared) (qs : list Request) (k : option Pc) (r : Scheduler * list Z) : Prop :=
  ∃ h' ws, whole p h qs = whole k h' (qs ++ ws) ∧ clockValid h' = clockValid h ∧
           sch h' = r.1 ∧ map q_wake ws = r.2.

Local Ltac settle_with ws :=
  eexists _, ws; split; [rewrite ?app_nil_r; reflexivity|]; cbn; split_and!; try done; try congruence.
Local Ltac settle := first [settle_with (@nil Request) | let q := open_constr:([_]) in settle_with q].

Lemma catch_alone d h qs ok cap :
  clockValid h = true → r_ok (rd (PCatch d)) = ok → r_cap (rd (PCatch d)) = cap →
  (∀ e du sw lf c st, r_now (rd (PCatchFind d e du sw lf c st)) = r_mono (rd (PCatch d))) →
  let r := catchUpMissed ParseStandard Next (r_now (rd (PCatch d))) (r_mono (rd (PCatch d))) ok cap (sch h) in
  continues (Some (PCatch d)) h qs (after_catch d) (r.1, option_list r.2).
Proof.
  intros Hv <- <- Hf. cbv zeta. unfold continues. rewrite whole_step. cbn [SchedThreads.exec].
  unfold CatchGate, clockOK, catchUpMissed. rewrite Hv. cbv zeta.
  destruct (_ || _) eqn:Hg; [settle|]. cbn. rewrite whole_step. cbn [SchedThreads.exec].
  unfold CatchFind. rewrite Hf.
  destruct (ParseStandard _); [|settle]. destruct (previousOccurrence _ _ _ _); [|settle].
  do 3 (split_if; [settle|]).
  destruct (vehicleStandby (sch h)) eqn:Hst.
  - split_if; [settle|]. cbn. do 2 (rewrite whole_step; cbn). settle.
  - cbn. rewrite whole_step. cbn. unfold CatchDefer.
    destruct (schedEnabled (sch h)) eqn:?, (timeSynced (sch h)) eqn:?; try done. rewrite streq_refl. settle.
Qed.

Lemma dispatch_alone h qs ok cap :
  clockValid h = true → r_ok (rd PDispatch) = ok → r_cap (rd PDispatch) = cap →
  (∀ id t, r_now (rd (PPending id t cap)) = r_now (rd PDispatch)) →
  let r := dispatchPending (r_now (rd PDispatch)) ok cap (sch h) in
  continues (Some PDispatch) h qs None (r.1, option_list r.2).
Proof.
  intros Hv <- <- Hp. cbv zeta. unfold continues. rewrite whole_step. cbn [SchedThreads.exec].
  unfold DispatchLock, clockOK, dispatchPending. rewrite Hv. cbv zeta.
  destruct (pendingWake (sch h)); [|settle]. destruct (_ || _) eqn:Hg; [settle|].
  cbn. rewrite whole_step. cbn. unfold SendPending. rewrite Hp. split_if; settle.
Qed.
End whole.
#[local] Arguments whole : simpl never.

Lemma stale_at target now : After now target = true → After target now = false.
Proof. unfold After. rewrite (readings_swap target now). cbn. lia. Qed.

(** The stale-target tests of [SetTimeSynced] and [checkClockJump]. *)
Lemma sync_stale_alone rd pending h qs :
  pendingWake (sch h) = pending → let p := PSyncStale pending in
  ∃ h', whole rd (Some p) h qs = whole rd (Some (PCatch false)) h' qs ∧
        clockValid h' = clockValid h ∧ sch h' = dropStale (r_now (rd p)) (sch h).
Proof.
  intros <-. cbv zeta. rewrite whole_step. cbn. unfold SyncStale, dropStale.
  destruct (pendingWake (sch h)); [|exists h; by rewrite app_nil_r].
  split_if; [|exists h; by rewrite app_nil_r].
  cbn. rewrite whole_step. cbn. rewrite !app_nil_r. by eexists.
Qed.

Lemma jump_stale_alone rd pending w jump h qs :
  pendingWake (sch h) = pending →
  ∃ h', whole rd (Some (PJumpStale pending w jump)) h qs =
          whole rd (o_next (jump_tail jump h')) (o_shared (jump_tail jump h')) (qs ++ o_requests (jump_tail jump h')) ∧
        clockValid h' = clockValid h ∧ sch h' = dropStale w (sch h).
Proof.
  intros <-. rewrite whole_step. cbn. unfold JumpStale, dropStale.
  destruct (pendingWake (sch h)) as [t|] eqn:Hp; [|by exists h].
  split_if; [|by exists h].
  cbn. rewrite whole_step. cbn. unfold JumpDrop. rewrite Hp, stale_at, app_nil_r by done. by exists (forget h).
Qed.

(** The end of [checkClockJump] behind the stale-target test. *)
Lemma jump_tail_alone w m n2 n3 n4 ok cap h qs jump :
  let o := OJump w m n2 n3 n4 ok cap in
  clockValid h = true →
  let r := if wallJumpThreshold <? jump then
             let '(s, f1) := catchUpMissed ParseStandard Next n2 n3 ok cap (sch h) in
             let '(s, f2) := dispatchPending n4 ok cap s in
             (s, option_list f1 ++ option_list f2)
           else (sch h, []) in
  ∃ h' ws, whole (given o) (o_next (jump_tail jump h)) (o_shared (jump_tail jump h))
             (qs ++ o_requests (jump_tail jump h)) = (None, h', qs ++ ws) ∧
           sch h' = r.1 ∧ map q_wake ws = r.2.
Proof.
  intros o Hv. cbv zeta. unfold jump_tail. destruct (wallJumpThreshold <? jump).
  - destruct (catch_alone (given o) true h qs ok cap Hv eq_refl eq_refl ltac:(done))
      as (h1 & ws1 & E1 & Hv1 & Hs1 & Hq1). cbn in *.
    destruct (dispatch_alone (given o) h1 (qs ++ ws1) ok cap ltac:(congruence) eq_refl eq_refl ltac:(done))
      as (h2 & ws2 & E2 & _ & Hs2 & Hq2). cbn in *.
    destruct (catchUpMissed _ _ _ _ _ _ _) as [s1 f1]. cbn in *. subst s1.
    destruct (dispatchPending _ _ _ _) as [s2 f2]. cbn in *. subst s2.
    exists h2, (ws1 ++ ws2). rewrite app_nil_r, E1, E2, whole_none, app_assoc. by rewrite map_app, Hq1, Hq2.
  - exists h, []. cbn. by rewrite whole_none, app_nil_r.
Qed.

Local Ltac walk := repeat (rewrite whole_step; cbn).

(** The uninterrupted call of [o] does what [Scheduler] says. *)
Definition agrees (o : sched_op) (h : Shared) : Prop :=
  let '(p, h', qs) := whole (given o) (Some (entry o)) h [] in
  p = None ∧ (sch h', map q_wake qs) = sched_step ParseStandard Next engineAccepts (sch h) o.

Lemma fire_alone now ok cap h : clockValid h = true → agrees (OFire now ok cap) h.
Proof.
  intros Hv. unfold agrees. rewrite whole_step. cbn. unfold FireLock, clockOK, fire. rewrite Hv. cbn.
  do 4 (split_if; [done|]). destruct (vehicleStandby (sch h)) eqn:Hst; cbn.
  - walk. unfold FireDuration. cbn. walk. unfold FireCap. cbn. split; [done|].
    unfold forget, on. cbn. by rewrite Hst.
  - split; [done|]. unfold defer, on. cbn. by rewrite Hst.
Qed.

Lemma vehicle_alone st now ok cap h : clockValid h = true → agrees (OVehicle st now ok cap) h.
Proof.
  intros Hv. unfold agrees. rewrite whole_step. cbn. unfold VehicleLock, clockOK, on, OnVehicleStateChanged. cbn.
  rewrite Hv. destruct (pendingWake (sch h)) eqn:Hp; [|done]. split_if; [|done]. do 2 (split_if; [done|]).
  cbn. walk. unfold SendPending. cbn. by split_if.
Qed.

Lemma sync_alone b n1 n2 n3 ok cap h : clockValid h = true → agrees (OSync b n1 n2 n3 ok cap) h.
Proof.
  intros Hv. unfold agrees. cbn [entry].
  do 2 (rewrite whole_step; cbn; unfold SyncLock, SetTimeSynced; repeat split_if; try done; cbn).
  set (h1 := on (rebuild engineAccepts) _).
  destruct (sync_stale_alone (given (OSync b n1 n2 n3 ok cap)) (pendingWake (sch h)) h1 []
    ltac:(etrans; [apply rebuild_pending|done])) as (h2 & -> & Hv2 & Hs2).
  destruct (catch_alone (given (OSync b n1 n2 n3 ok cap)) false h2 [] ok cap ltac:(by rewrite Hv2)
    eq_refl eq_refl ltac:(done)) as (h' & ws & -> & _ & Hs & Hq).
  rewrite whole_none. cbn in *. by rewrite Hs, Hq, Hs2.
Qed.

Lemma jump_alone w m n2 n3 n4 ok cap h : clockValid h = true → agrees (OJump w m n2 n3 n4 ok cap) h.
Proof.
  intros Hv. unfold agrees. cbn [entry sched_step]. do 2 (rewrite whole_step; cbn).
  unfold JumpSwap, checkClockJump. split_if; [done|].
  do 2 (cbn; rewrite whole_step). cbn. set (h1 := on (rebuild engineAccepts) _).
  edestruct (jump_stale_alone (given (OJump w m n2 n3 n4 ok cap))) with (h := h1) (qs := @nil Request)
    as (h2 & E & Hv2 & Hs2); [|rewrite E]; [reflexivity|].
  destruct (jump_tail_alone w m n2 n3 n4 ok cap h2 [] (detectWallJump (lastWall (sch h)) (lastMono (sch h)) w m)
    ltac:(by rewrite Hv2)) as (h' & ws & -> & Hs & Hq).
  rewrite Hs2 in Hs, Hq. split; [done|]. cbn in *. rewrite Hs, Hq. unfold h1, on. cbn.
  by destruct (if _ <? _ then _ else _).
Qed.

(** C36: a call of the scheduler that no other goroutine interrupts is the
    method of [Scheduler]: it returns, with the same state and the same calls
    of [onFire]. *)
Theorem uninterrupted_is_atomic (o : sched_op) (h : Shared) :
  clockValid h = true →
  let '(p, h', qs) := alone ParseStandard Next engineAccepts (given o) (rank (entry o)) (Some (entry o)) h [] in
  p = None ∧ (sch h', map q_wake qs) = sched_step ParseStandard Next engineAccepts (sch h) o.
Proof.
  intros Hv. change (agrees o h).
  destruct o as [now ok cap|st now ok cap|now ok cap|g now ok cap|b n1 n2 n3 ok cap
                |w m n2 n3 n4 ok cap|b|now e|d|now d];
    [by apply fire_alone|by apply vehicle_alone| | |by apply sync_alone|by apply jump_alone|..];
    unfold agrees; cbn [entry sched_step].
  - destruct (dispatch_alone (given (ODispatch now ok cap)) h [] ok cap Hv eq_refl eq_refl ltac:(done))
      as (h' & ws & -> & _ & Hs & Hq). rewrite whole_none. cbn in *. by rewrite Hs, Hq.
  - destruct (catch_alone (given (OCatchUp g now ok cap)) false h [] ok cap Hv eq_refl eq_refl ltac:(done))
      as (h' & ws & -> & _ & Hs & Hq). rewrite whole_none. cbn in *. by rewrite Hs, Hq.
  - rewrite whole_step. cbn. unfold EnabledLock, SetEnabled. split_if; [done|]. cbn. by walk.
  - rewrite whole_step. cbn. unfold CronValidate, SetCron. cbn [r_now given]. split_if; [done|]. cbn.
    rewrite whole_step. cbn. unfold CronLock. split_if; [done|]. cbn. by walk.
  - by walk.
  - by walk.
Qed.

(** ** Every call returns *)

(** How often goroutine [i] is scheduled. *)
Definition is_step (i : nat) (x : Choice) : bool :=
  match x with CStep j _ => (j =? i)%nat | _ => false end.

Fixpoint steps_of (i : nat) (xs : list Choice) : nat :=
  match xs with
  | [] => 0
  | x :: xs => if is_step i x then S (steps_of i xs) else steps_of i xs
  end.

(** Nobody else moves a goroutine that is inside a method. *)
Lemma other_step c x i p ctx :
  p_threads c !! i = Some (mkThread (Some p) ctx) →
  is_step i x = false → p_threads (cstep c x) !! i = Some (mkThread (Some p) ctx).
Proof.
  intros Hi Hx. pose proof (lookup_lt_Some _ _ _ Hi) as Hlt.
  assert (Hne : ∀ j t u, p_threads c !! j = Some t → t ≠ mkThread (Some p) ctx →
                <[j := u]> (p_threads c) !! i = Some (mkThread (Some p) ctx)).
  { intros j t u Hj Hn. rewrite list_lookup_insert_ne by congruence. done. }
  destruct x as [q| |j rd|j|j|]; cbn.
  - destruct (is_method q); [|done]. cbn. by rewrite lookup_app_l.
  - split_if; [|done]. cbn. by rewrite lookup_app_l.
  - cbn in Hx. apply Nat.eqb_neq in Hx. unfold SchedThreads.take_step.
    destruct (p_threads c !! j) as [[[q|] k]|] eqn:Hj; [|done..]. cbn.
    rewrite lookup_app_l by (by rewrite length_insert). by rewrite list_lookup_insert_ne.
  - destruct (p_threads c !! j) as [[[q|] [k|]]|] eqn:Hj; try done. cbn. by eapply Hne.
  - destruct (p_threads c !! j) as [[[q|] [k|]]|] eqn:Hj; try done. split_if; [|done]. cbn. by eapply Hne.
  - done.
Qed.

(** A call consists of at most twelve critical sections, whatever the other
    goroutines do in between: [rank] bounds those left from any point.  That the
    goroutine gets the mutex each time, and that the callbacks come back, is not
    part of the model. *)
Theorem calls_return (xs : list Choice) (c : Program) (i : nat) (p : Pc) (ctx : option nat) :
  p_threads c !! i = Some (mkThread (Some p) ctx) → (rank p ≤ steps_of i xs)%nat →
  (rank p ≤ 12)%nat ∧
  ∃ ys zs, xs = ys ++ zs ∧ p_threads (run cstep c ys) !! i = Some (mkThread None ctx).
Proof.
  intros Hi Hle. split; [destruct p; try destruct dispatch; cbn; lia|].
  revert c p Hi Hle. induction xs as [|x xs IH]; intros c p Hi Hle; cbn in Hle.
  { pose proof (exec_rank (mkReading zeroTime zeroTime true 0) p NewShared). lia. }
  destruct (is_step i x) eqn:Hx.
  - destruct x as [| |j rd| | |]; try done. cbn in Hx. apply Nat.eqb_eq in Hx as ->.
    pose proof (exec_rank rd p (p_shared c)) as Hr.
    assert (E : p_threads (cstep c (CStep i rd)) !! i = Some (mkThread (o_next (exec rd p (p_shared c))) ctx)).
    { cbn. unfold SchedThreads.take_step. rewrite Hi. cbn.
      pose proof (lookup_lt_Some _ _ _ Hi). rewrite lookup_app_l by (by rewrite length_insert).
      by rewrite list_lookup_insert_eq. }
    destruct (o_next (exec rd p (p_shared c))) as [q|] eqn:Hn.
    + destruct (IH _ q E) as (ys & zs & -> & Hy); [cbn in Hr; lia|]. by exists (CStep i rd :: ys), zs.
    + by exists [CStep i rd], xs.
  - destruct (IH (cstep c x) p) as (ys & zs & -> & Hy); [by apply other_step|done|]. by exists (x :: ys), zs.
Qed.
End threads.

(** ** Runs *)

Definition at_ (z : Z) : Reading := mkReading (mkTime z None) (mkTime z None) true 604800.
Definition steps_at (i : nat) (n : nat) (z : Z) : list Choice := replicate n (CStep i (at_ z)).

(** An eight-hour schedule, validated clock, stand-by, engine started: nine
    calls, one after the other; the monitor is the goroutine with number 1. *)
Definition scheduled : list Choice :=
  (CCall PStart :: steps_at 0 2 0) ++ (CCall (PEnabled true) :: steps_at 2 2 0) ++
  (CCall (PCron "0 22 * * *") :: steps_at 3 3 0) ++ (CCall (PDuration (8 * Hour)) :: steps_at 4 1 0) ++
  (CCall (PSync true) :: steps_at 5 6 0) ++ (CCall (PVehicle "stand-by") :: steps_at 6 1 0).

Definition demo (xs : list Choice) : Program := reach (λ _, Some tt) (λ _ _, zeroTime) (λ _, true) xs.

(** The job fires; before it reads the duration the setting turns the schedule
    off. *)
Definition shrunk : list Choice :=
  scheduled ++ [CCron; CStep 7 (at_ Hour)] ++ (CCall (PDuration 0) :: steps_at 8 1 Hour) ++ steps_at 7 2 Hour.

(** The vehicle is in use when the job fires, then returns to stand-by. *)
Definition deferred : list Choice :=
  scheduled ++ (CCall (PVehicle "parked") :: steps_at 7 1 0) ++ (CCron :: steps_at 8 1 Hour) ++
  (CCall (PVehicle "stand-by") :: steps_at 9 2 (2 * Hour)).

(** [fire] tests the duration under the mutex and reads it again without:
    when the setting is set to zero in between, a hibernation that wakes up
    after one second is requested instead of the eight hours the test saw, or
    of none. *)
Theorem fire_races_duration :
  p_requests (demo scheduled) = [] ∧
  duration (sch (p_shared (demo (scheduled ++ [CCron; CStep 7 (at_ Hour)])))) = 8 * Hour ∧
  duration (sch (p_shared (demo shrunk))) = 0 ∧ map q_wake (p_requests (demo shrunk)) = [1] ∧
  map q_wake (p_requests (demo (scheduled ++ CCron :: steps_at 7 3 Hour))) = [8 * 3600].
Proof. vm_compute. done. Qed.

Example deferred_once :
  map (λ q, (q_wake q, q_id q)) (p_requests (demo deferred)) = [(7 * 3600, Some 0%nat)].
Proof. vm_compute. done. Qed.

Lemma requests_gated_witness :
  Forall choice_ok deferred ∧ length (p_requests (demo deferred)) = 1%nat ∧
  Forall request_ok (p_requests (demo deferred)).
Proof.
  assert (H : Forall choice_ok deferred) by (repeat constructor; cbn; tlia).
  split; [exact H|]. split; [vm_compute; reflexivity|].
  apply (requests_gated (λ _, Some tt) (λ _ _, zeroTime) (λ _, true) deferred H).
Defined.

Lemma calls_return_witness :
  ∃ ys zs, steps_at 0 3 Hour = ys ++ zs ∧
    p_threads (run (cstep (λ _, Some tt) (λ _ _, zeroTime) (λ _, true))
      (mkProgram NewShared [mkThread (Some PFire) None] []) ys) !! 0%nat = Some (mkThread None None).
Proof.
  exact (proj2 (calls_return (λ _, Some tt) (λ _ _, zeroTime) (λ _, true) (steps_at 0 3 Hour)
    (mkProgram NewShared [mkThread (Some PFire) None] []) 0 PFire None eq_refl ltac:(cbn; lia))).
Defined.

Lemma uninterrupted_is_atomic_witness :
  let h := NewShared <| clockValid := true |> in
  let o := OFire (mkTime Hour None) true 600 in
  let '(p, h', qs) := alone (λ _, Some tt) (λ _ _, zeroTime) (λ _, true) (given o) (rank (entry o))
                        (Some (entry o)) h [] in
  p = None ∧ (sch h', map q_wake qs) = sched_step (λ _, Some tt) (λ _ _, zeroTime) (λ _, true) (sch h) o.
Proof.
  exact (uninterrupted_is_atomic (λ _, Some tt) (λ _ _, zeroTime) (λ _, true)
    (OFire (mkTime Hour None) true 600) (NewShared <| clockValid := true |>) eq_refl).
Defined.
