(* ===== verification/Fsm.v ===== *)
(** * States, events and transition table of the power-management machine

    [internal/fsm/types.go] and [internal/fsm/definition.go].  The builder of
    [librefsm] is third-party; what [NewDefinition] hands to it is data: the
    state declarations and the transitions in declaration order, each with
    its guards and its action.  The callbacks of the [Actions] interface are
    named here and interpreted by the service files. *)

From S2P Require Import Prelude GoInt GoTime.

(** ** types.go *)

Inductive StateID :=
| StateRunning
| StatePreSuspend
| StateSuspendImminent
| StateLowPowerImminent
| StateWaitingInhibitors
| StateIssuingLowPower
| StateSuspended.

Inductive EventID :=
| EvPowerRun
| EvPowerSuspend
| EvPowerHibernate
| EvPowerHibernateManual
| EvPowerHibernateTimer
| EvPowerHibernateFor
| EvPowerReboot
| EvHibernatePreparationFailed
| EvExplicitHibernate
| EvVehicleStateChanged
| EvBatteryBecameActive
| EvBatteryBecameInactive
| EvPowerEligibilityChanged
| EvSuspendCancelled
| EvInhibitorsChanged
| EvLateBlockingInhibitor
| EvInhibitorWaitTimeout
| EvLastDitchCheck
| EvLastDitchDisabled
| EvDefaultStateChanged
| EvPreSuspendTimeout
| EvSuspendImminentTimeout
| EvHibernationTimerExpired
| EvDelayInhibitorRemove
| EvWakeup
| EvWakeupRTC
| EvLowPowerIssued.

#[export] Instance StateID_eq_dec : EqDecision StateID.
Proof. solve_decision. Defined.
#[export] Instance EventID_eq_dec : EqDecision EventID.
Proof. solve_decision. Defined.

Definition TargetRun := "run".
Definition TargetSuspend := "suspend".
Definition TargetHibernate := "hibernate".
Definition TargetHibernateManual := "hibernate-manual".
Definition TargetHibernateTimer := "hibernate-timer".
Definition TargetHibernateFor := "hibernate-for".
Definition TargetReboot := "reboot".

(** The dynamic type of an event's [Payload]. *)
Inductive Payload :=
| NoPayload
| VehicleStatePayload (State : string)
| BatteryStatePayload (Slot State : string)
| WakeupPayload (Reason : string)
| PowerCommandPayload (TargetState : string) (Explicit : bool) (WakeSeconds : Z)
| HibernatePreparationResult (RequestID Error : string).

Record Event := mkEvent { evID : EventID; evPayload : Payload }.

#[export] Instance Payload_eq_dec : EqDecision Payload.
Proof. solve_decision. Defined.
#[export] Instance Event_eq_dec : EqDecision Event.
Proof. solve_decision. Defined.

Record FSMData := mkFSMData {
  HibernateRequestID : string;
  TargetPowerState : string;
  VehicleState : string;
  BatteryState : string;
  Battery0State : string;
  Battery1State : string;
  LowPowerStateIssued : bool;
  ModemDisabled : bool;
  WakeupReason : string;
  HibernateForWakeSeconds : Z;
  AutomaticLastDitch : bool;
  LastDitchFallbackTarget : string;
}.
#[export] Instance eta_FSMData : Eta FSMData := λ d,
  mkFSMData (HibernateRequestID d) (TargetPowerState d) (VehicleState d) (BatteryState d)
    (Battery0State d) (Battery1State d) (LowPowerStateIssued d) (ModemDisabled d)
    (WakeupReason d) (HibernateForWakeSeconds d) (AutomaticLastDitch d) (LastDitchFallbackTarget d).

(** The guards and callbacks of the [Actions] interface the table uses. *)
Inductive Guard :=
| CanEnterLowPowerState
| ShouldCancelLowPower
| CanAcceptExplicitHibernate
| HasNoBlockingInhibitors
| HasOnlyModemInhibitors
| CanProceedPastModemWait
| IsVehicleNotInStandby
| IsTargetSuspend
| IsTargetHibernate
| IsLastDitchTriggered
| IsLastDitchApplicableTarget
| IsAutomaticLastDitch
| IsPowerCommandHigherPriority.

Inductive Action :=
| OnSuspendImminentTimeout
| OnLowPowerCancelled
| OnWakeup
| OnDisableModem
| OnVehicleStateChanged
| OnVehicleLeftLowPowerState
| OnBatteryStateChanged
| OnPowerCommand
| OnHibernatePreparationFailed
| OnLastDitchTriggered
| OnLastDitchWakeup
| OnLastDitchDisabled
| OnLastDitchDefaultStateChanged
| OnDefaultStateChanged.

Inductive Entry :=
| EnterPreSuspend
| EnterSuspendImminent
| EnterLowPowerImminent
| EnterWaitingInhibitors
| EnterIssuingLowPower.

#[export] Instance Guard_eq_dec : EqDecision Guard.
Proof. solve_decision. Defined.

(** ** definition.go *)

Definition inhibitorWaitTimeout : Z := 15 * Second.

Record Transition := mkT {
  src : StateID;
  on : EventID;
  dst : StateID;
  guards : list Guard;
  action : option Action;
}.

(** The two loops at the head of [NewDefinition]. *)
Definition recheck_transitions : list Transition :=
  flat_map (λ state,
    map (λ event, mkT state event StateRunning [ShouldCancelLowPower] (Some OnLowPowerCancelled))
      [EvPowerEligibilityChanged; EvPreSuspendTimeout; EvSuspendImminentTimeout;
       EvInhibitorsChanged; EvInhibitorWaitTimeout])
    [StatePreSuspend; StateSuspendImminent; StateLowPowerImminent; StateWaitingInhibitors;
     StateIssuingLowPower]
  ++ map (λ state, mkT state EvSuspendCancelled StateRunning [IsTargetSuspend] (Some OnLowPowerCancelled))
       [StateWaitingInhibitors; StateIssuingLowPower].

(** State declarations: entry action, exit action present, timeout. *)
Record StateDecl := mkDecl {
  onEnter : option Entry;
  hasExit : bool;
  timeout : option (Z * EventID);
}.

Definition state_decl (preSuspendDelay suspendImminentDelay : Z) (s : StateID) : StateDecl :=
  match s with
  | StateRunning => mkDecl None false None
  | StatePreSuspend =>
      mkDecl (Some EnterPreSuspend) false (Some (preSuspendDelay, EvPreSuspendTimeout))
  | StateSuspendImminent =>
      mkDecl (Some EnterSuspendImminent) false (Some (suspendImminentDelay, EvSuspendImminentTimeout))
  | StateLowPowerImminent =>
      mkDecl (Some EnterLowPowerImminent) false (Some (suspendImminentDelay, EvSuspendImminentTimeout))
  | StateWaitingInhibitors =>
      mkDecl (Some EnterWaitingInhibitors) false (Some (inhibitorWaitTimeout, EvInhibitorWaitTimeout))
  | StateIssuingLowPower => mkDecl (Some EnterIssuingLowPower) true None
  | StateSuspended => mkDecl None false None
  end.

Definition prio_can : list Guard := [IsPowerCommandHigherPriority; CanEnterLowPowerState].
Definition last_ditch_guards : list Guard :=
  [IsLastDitchTriggered; IsLastDitchApplicableTarget; IsPowerCommandHigherPriority;
   CanEnterLowPowerState].
Definition last_ditch_wake_guards : list Guard :=
  [IsLastDitchTriggered; IsLastDitchApplicableTarget; CanEnterLowPowerState].

(** A command with its guarded transition and the fallback that only records
    the target. *)
Definition command_pair (from : StateID) (e : EventID) (to : StateID) : list Transition :=
  [mkT from e to prio_can (Some OnPowerCommand);
   mkT from e StateRunning [IsPowerCommandHigherPriority] (Some OnPowerCommand)].

Definition running_commands : list Transition :=
  command_pair StateRunning EvPowerSuspend StateSuspendImminent
  ++ command_pair StateRunning EvPowerHibernate StateLowPowerImminent
  ++ command_pair StateRunning EvPowerHibernateManual StateLowPowerImminent
  ++ command_pair StateRunning EvPowerHibernateFor StateLowPowerImminent
  ++ command_pair StateRunning EvPowerHibernateTimer StateLowPowerImminent
  ++ command_pair StateRunning EvPowerReboot StateLowPowerImminent
  ++ command_pair StateRunning EvHibernationTimerExpired StateLowPowerImminent.

Definition running_events : list Transition :=
  [mkT StateRunning EvPowerRun StateRunning [] (Some OnPowerCommand);
   mkT StateRunning EvHibernatePreparationFailed StateRunning [] (Some OnHibernatePreparationFailed);
   mkT StateRunning EvDefaultStateChanged StateRunning [] (Some OnDefaultStateChanged);
   mkT StateRunning EvLastDitchCheck StateLowPowerImminent last_ditch_guards (Some OnLastDitchTriggered);
   mkT StateRunning EvVehicleStateChanged StatePreSuspend [CanEnterLowPowerState; IsTargetSuspend]
     (Some OnVehicleStateChanged);
   mkT StateRunning EvVehicleStateChanged StateLowPowerImminent [CanEnterLowPowerState; IsTargetHibernate]
     (Some OnVehicleStateChanged);
   mkT StateRunning EvVehicleStateChanged StateRunning [] (Some OnVehicleStateChanged);
   mkT StateRunning EvBatteryBecameInactive StatePreSuspend [CanEnterLowPowerState; IsTargetSuspend]
     (Some OnBatteryStateChanged);
   mkT StateRunning EvBatteryBecameInactive StateRunning [] (Some OnBatteryStateChanged)].

(** Upgrades of a pending suspend to the hibernate path. *)
Definition upgrades (from : StateID) (es : list EventID) : list Transition :=
  map (λ e, mkT from e StateLowPowerImminent prio_can (Some OnPowerCommand)) es.

Definition hibernate_events : list EventID :=
  [EvPowerHibernate; EvPowerHibernateManual; EvPowerHibernateFor; EvPowerHibernateTimer;
   EvPowerReboot; EvHibernationTimerExpired].

Definition pre_suspend_transitions : list Transition :=
  [mkT StatePreSuspend EvPreSuspendTimeout StateSuspendImminent [CanEnterLowPowerState] None;
   mkT StatePreSuspend EvPowerRun StateRunning [] (Some OnPowerCommand);
   mkT StatePreSuspend EvVehicleStateChanged StateRunning [IsVehicleNotInStandby]
     (Some OnVehicleLeftLowPowerState);
   mkT StatePreSuspend EvBatteryBecameActive StateRunning [] (Some OnBatteryStateChanged)]
  ++ upgrades StatePreSuspend hibernate_events
  ++ [mkT StatePreSuspend EvLastDitchCheck StateLowPowerImminent last_ditch_guards
        (Some OnLastDitchTriggered)].

Definition suspend_imminent_transitions : list Transition :=
  [mkT StateSuspendImminent EvSuspendImminentTimeout StateWaitingInhibitors []
     (Some OnSuspendImminentTimeout);
   mkT StateSuspendImminent EvPowerRun StateRunning [] (Some OnPowerCommand);
   mkT StateSuspendImminent EvVehicleStateChanged StateRunning [IsVehicleNotInStandby]
     (Some OnVehicleLeftLowPowerState);
   mkT StateSuspendImminent EvBatteryBecameActive StateRunning [] (Some OnBatteryStateChanged)]
  ++ upgrades StateSuspendImminent hibernate_events
  ++ [mkT StateSuspendImminent EvLastDitchCheck StateLowPowerImminent last_ditch_guards
        (Some OnLastDitchTriggered)].

Definition low_power_imminent_transitions : list Transition :=
  [mkT StateLowPowerImminent EvSuspendImminentTimeout StateWaitingInhibitors []
     (Some OnSuspendImminentTimeout);
   mkT StateLowPowerImminent EvDefaultStateChanged StateLowPowerImminent [IsAutomaticLastDitch]
     (Some OnLastDitchDefaultStateChanged);
   mkT StateLowPowerImminent EvLastDitchDisabled StateRunning [IsAutomaticLastDitch]
     (Some OnLastDitchDisabled);
   mkT StateLowPowerImminent EvPowerRun StateRunning [] (Some OnPowerCommand);
   mkT StateLowPowerImminent EvVehicleStateChanged StateRunning [IsVehicleNotInStandby]
     (Some OnVehicleLeftLowPowerState)]
  ++ upgrades StateLowPowerImminent [EvPowerHibernate; EvPowerHibernateManual; EvPowerHibernateFor].

Definition waiting_transitions : list Transition :=
  [mkT StateWaitingInhibitors EvInhibitorsChanged StateIssuingLowPower [HasNoBlockingInhibitors] None;
   mkT StateWaitingInhibitors EvInhibitorsChanged StateWaitingInhibitors [HasOnlyModemInhibitors]
     (Some OnDisableModem);
   mkT StateWaitingInhibitors EvInhibitorWaitTimeout StateIssuingLowPower [CanProceedPastModemWait] None;
   mkT StateWaitingInhibitors EvDefaultStateChanged StateWaitingInhibitors [IsAutomaticLastDitch]
     (Some OnLastDitchDefaultStateChanged);
   mkT StateWaitingInhibitors EvLastDitchDisabled StateRunning [IsAutomaticLastDitch]
     (Some OnLastDitchDisabled);
   mkT StateWaitingInhibitors EvPowerRun StateRunning [] (Some OnPowerCommand);
   mkT StateWaitingInhibitors EvVehicleStateChanged StateRunning [IsVehicleNotInStandby]
     (Some OnVehicleLeftLowPowerState);
   mkT StateWaitingInhibitors EvBatteryBecameActive StateRunning [IsTargetSuspend]
     (Some OnBatteryStateChanged)]
  ++ upgrades StateWaitingInhibitors hibernate_events.

Definition issuing_transitions : list Transition :=
  [mkT StateIssuingLowPower EvLowPowerIssued StateSuspended [] None;
   mkT StateIssuingLowPower EvLateBlockingInhibitor StateWaitingInhibitors [] None]
  ++ command_pair StateIssuingLowPower EvPowerHibernate StateLowPowerImminent
  ++ command_pair StateIssuingLowPower EvPowerHibernateManual StateLowPowerImminent
  ++ command_pair StateIssuingLowPower EvPowerHibernateFor StateLowPowerImminent
  ++ [mkT StateIssuingLowPower EvDefaultStateChanged StateIssuingLowPower [IsAutomaticLastDitch]
        (Some OnLastDitchDefaultStateChanged);
      mkT StateIssuingLowPower EvLastDitchDisabled StateRunning [IsAutomaticLastDitch]
        (Some OnLastDitchDisabled);
      mkT StateIssuingLowPower EvPowerRun StateRunning [] (Some OnPowerCommand)].

(** Wake routing, the same for [StateIssuingLowPower] and [StateSuspended]. *)
Definition wake_last_ditch (from : StateID) : list Transition :=
  [mkT from EvWakeup StateLowPowerImminent last_ditch_wake_guards (Some OnLastDitchWakeup);
   mkT from EvWakeupRTC StateLowPowerImminent last_ditch_wake_guards (Some OnLastDitchWakeup)].

Definition wake_routes (from : StateID) : list Transition :=
  [mkT from EvWakeup StatePreSuspend [CanEnterLowPowerState; IsTargetSuspend] (Some OnWakeup);
   mkT from EvWakeup StateLowPowerImminent [CanEnterLowPowerState; IsTargetHibernate] (Some OnWakeup);
   mkT from EvWakeup StateRunning [] (Some OnWakeup);
   mkT from EvWakeupRTC StateSuspendImminent [CanEnterLowPowerState; IsTargetSuspend] (Some OnWakeup);
   mkT from EvWakeupRTC StateLowPowerImminent [CanEnterLowPowerState; IsTargetHibernate] (Some OnWakeup);
   mkT from EvWakeupRTC StateRunning [] (Some OnWakeup)].

Definition issuing_wake_transitions : list Transition :=
  wake_last_ditch StateIssuingLowPower ++ wake_routes StateIssuingLowPower.

Definition suspended_transitions : list Transition :=
  wake_last_ditch StateSuspended ++ wake_routes StateSuspended
  ++ [mkT StateSuspended EvBatteryBecameActive StateSuspended [] (Some OnBatteryStateChanged);
      mkT StateSuspended EvBatteryBecameInactive StateSuspended [] (Some OnBatteryStateChanged)].

Definition explicit_transitions : list Transition :=
  map (λ s, mkT s EvExplicitHibernate StateRunning
              [IsPowerCommandHigherPriority; CanAcceptExplicitHibernate] (Some OnPowerCommand))
    [StateRunning; StatePreSuspend; StateSuspendImminent; StateLowPowerImminent;
     StateWaitingInhibitors].

(** [NewDefinition]: the transitions in declaration order. *)
Definition NewDefinition : list Transition :=
  recheck_transitions ++ running_commands ++ running_events ++ pre_suspend_transitions
  ++ suspend_imminent_transitions ++ low_power_imminent_transitions ++ waiting_transitions
  ++ issuing_transitions ++ issuing_wake_transitions ++ suspended_transitions
  ++ explicit_transitions.

Definition InitialState : StateID := StateRunning.

(** ** Reading the table *)

(** The transitions the machine tries for an event, in order. *)
Definition candidates (s : StateID) (e : EventID) : list Transition :=
  List.filter (λ t, bool_decide (src t = s) && bool_decide (on t = e)) NewDefinition.

Lemma candidates_spec s e t :
  t ∈ candidates s e ↔ t ∈ NewDefinition ∧ src t = s ∧ on t = e.
Proof.
  unfold candidates. rewrite list_elem_of_In, filter_In, <- list_elem_of_In.
  by rewrite andb_true_iff, !bool_decide_eq_true.
Qed.

(** A property of every transition, decided on the table. *)
Lemma table_forall (P : Transition → Prop) `{!∀ t, Decision (P t)} :
  forallb (λ t, bool_decide (P t)) NewDefinition = true → ∀ t, t ∈ NewDefinition → P t.
Proof.
  rewrite forallb_forall. intros Hall t Ht. apply list_elem_of_In in Ht.
  by apply Hall, bool_decide_eq_true in Ht.
Qed.

(** States that count down towards a low-power transition. *)
Definition preparing (s : StateID) : bool :=
  match s with StatePreSuspend | StateSuspendImminent | StateLowPowerImminent => true | _ => false end.

Definition guarded_by (t : Transition) (g : Guard) : bool := bool_decide (g ∈ guards t).

#[export] Instance Action_eq_dec : EqDecision Action.
Proof. solve_decision. Defined.

(** C26: the gates of the table.  The issuing state is entered only from the
    inhibitor wait and only under an inhibitor guard (or re-entered by a
    fallback update of an automatic last-ditch); every transition that starts
    or restarts a countdown is guarded by [CanEnterLowPowerState], again with
    the fallback update as the only exception; the waiting state is entered
    only from a countdown, or back from the issuing state. *)
Theorem table_gates (t : Transition) :
  t ∈ NewDefinition →
  (dst t = StateIssuingLowPower →
     (src t = StateWaitingInhibitors ∧
      (guards t = [HasNoBlockingInhibitors] ∨ guards t = [CanProceedPastModemWait])) ∨
     (src t = StateIssuingLowPower ∧ action t = Some OnLastDitchDefaultStateChanged)) ∧
  (preparing (dst t) = true →
     CanEnterLowPowerState ∈ guards t ∨ action t = Some OnLastDitchDefaultStateChanged) ∧
  (dst t = StateWaitingInhibitors →
     preparing (src t) = true ∨ src t = StateWaitingInhibitors ∨
     (src t = StateIssuingLowPower ∧ on t = EvLateBlockingInhibitor)).
Proof. revert t. refine (table_forall _ _). vm_compute. reflexivity. Qed.

Lemma table_gates_witness :
  let t := mkT StateWaitingInhibitors EvInhibitorsChanged StateIssuingLowPower
             [HasNoBlockingInhibitors] None in
  t ∈ NewDefinition ∧ src t = StateWaitingInhibitors.
Proof.
  intros t. assert (Ht : t ∈ NewDefinition) by (apply list_elem_of_In; vm_compute; tauto).
  split; [exact Ht|].
  destruct (proj1 (table_gates t Ht) eq_refl) as [[H _]|[H _]]; [exact H|discriminate].
Defined.

(** Before a countdown or an inhibitor wait advances, the pending
    transition is rechecked: for every countdown state, every timeout,
    inhibitor and eligibility event first tries to cancel. *)
Theorem recheck_first (s : StateID) (e : EventID) :
  s ≠ StateRunning → s ≠ StateSuspended →
  e ∈ [EvPowerEligibilityChanged; EvPreSuspendTimeout; EvSuspendImminentTimeout;
       EvInhibitorsChanged; EvInhibitorWaitTimeout] →
  ∃ rest, candidates s e =
    mkT s e StateRunning [ShouldCancelLowPower] (Some OnLowPowerCancelled) :: rest.
Proof.
  intros H1 H2 He. rewrite !elem_of_cons, elem_of_nil in He.
  destruct s; try done; destruct He as [->|[->|[->|[->|[->|[]]]]]]; eexists; vm_compute; reflexivity.
Qed.

Lemma recheck_first_witness :
  ∃ rest, candidates StateWaitingInhibitors EvInhibitorWaitTimeout =
    mkT StateWaitingInhibitors EvInhibitorWaitTimeout StateRunning [ShouldCancelLowPower]
      (Some OnLowPowerCancelled) :: rest.
Proof. apply recheck_first; [discriminate|discriminate|set_solver]. Defined.
