(* ===== verification/Inhibitor.v ===== *)
(** * Inhibitor manager

    [internal/inhibitor/inhibitor.go] and [redis.go]: the inhibitors held by
    local socket connections, by the service itself and by the
    [power:inhibits] hash.  An [*Inhibitor] is a pointer that the code compares;
    [ptr] is its identity.  A connection is named by an integer. *)

From S2P Require Import Prelude GoInt.

Definition TypeBlock := "block".
Definition TypeDelay := "delay".
Definition TypeSuspendOnly := "suspend-only".

Record Inhibitor := mkInhibitor {
  ptr : Z;
  Who : string;
  What : string;
  Why : string;
  Typ : string;
  Conn : option Z;
  redisID : string;
}.

#[export] Instance Inhibitor_eq_dec : EqDecision Inhibitor.
Proof. solve_decision. Defined.

(** [fresh] is the next pointer the allocator hands out; [changes] counts the
    calls of [onChange]. *)
Record Manager := mkManager {
  inhibitors : gmap Z Inhibitor;
  manualInhibitors : list Inhibitor;
  fresh : Z;
  changes : nat;
}.
#[export] Instance eta_Manager : Eta Manager :=
  λ m, mkManager (inhibitors m) (manualInhibitors m) (fresh m) (changes m).

Definition NewManager : Manager := mkManager ∅ [] 0 0.

Definition onChange (m : Manager) : Manager := m <| changes := S (changes m) |>.

(** ** inhibitor.go *)

(** [handleConnection] as the sequence of its effects.  [ack_ok] tells whether
    the acknowledgement byte was written; the handler then blocks in
    [conn.Read] until the peer closes ([ReadEOF]). *)
Inductive conn_step :=
| Register (c : Z)
| WriteAck (c : Z) (ok : bool)
| Notify
| ReadEOF (c : Z)
| Unregister (c : Z)
| CloseConn (c : Z).

Definition handleConnection (c : Z) (ack_ok : bool) : list conn_step :=
  [Register c; WriteAck c ack_ok]
  ++ (if ack_ok then [Notify; ReadEOF c] else [])
  ++ [Unregister c; Notify; CloseConn c].

Definition connInhibitor (p c : Z) : Inhibitor :=
  mkInhibitor p "connection-based" "connection-based" "connection-based" TypeBlock (Some c) "".

Definition conn_exec (m : Manager) (s : conn_step) : Manager :=
  match s with
  | Register c =>
      m <| inhibitors := <[c := connInhibitor (fresh m) c]> (inhibitors m) |> <| fresh := fresh m + 1 |>
  | Unregister c => m <| inhibitors := delete c (inhibitors m) |>
  | Notify => onChange m
  | WriteAck _ _ | ReadEOF _ | CloseConn _ => m
  end.

Definition AddInhibitor (who what why inhibitType : string) (m : Manager) : Inhibitor * Manager :=
  let inh := mkInhibitor (fresh m) who what why inhibitType None "" in
  (inh, onChange (m <| manualInhibitors := manualInhibitors m ++ [inh] |> <| fresh := fresh m + 1 |>)).

(** [slices.Delete] of the first element with the given pointer. *)
Fixpoint remove_ptr (p : Z) (l : list Inhibitor) : list Inhibitor :=
  match l with
  | [] => []
  | x :: l' => if ptr x =? p then l' else x :: remove_ptr p l'
  end.

Definition RemoveInhibitor (inh : Inhibitor) (m : Manager) : Manager :=
  onChange (match Conn inh with
            | Some c => m <| inhibitors := delete c (inhibitors m) |>
            | None => m <| manualInhibitors := remove_ptr (ptr inh) (manualInhibitors m) |>
            end).

(** Go iterates a map in an unspecified order; [map_to_list] is one of them. *)
Definition GetInhibitors (m : Manager) : list Inhibitor :=
  map snd (map_to_list (inhibitors m)) ++ manualInhibitors m.

Definition IsHibernatePath (target : string) : bool :=
  one_of target ["hibernate"; "hibernate-manual"; "hibernate-timer"; "hibernate-for"; "reboot"].

(** The test of one inhibitor in the loops of [HasBlockingInhibitors]. *)
Definition blocks (isHibernatePath : bool) (inh : Inhibitor) : bool :=
  if (Typ inh =s TypeSuspendOnly) && isHibernatePath then false
  else (Typ inh =s TypeBlock) || (Typ inh =s TypeSuspendOnly).

Definition HasBlockingInhibitors (m : Manager) (targetPowerState : string) : bool :=
  let isHibernatePath := IsHibernatePath targetPowerState in
  if existsb (blocks isHibernatePath) (map snd (map_to_list (inhibitors m))) then true
  else existsb (blocks isHibernatePath) (manualInhibitors m).

(** [Close] forgets the connections (and closes them). *)
Definition CloseManager (m : Manager) : Manager := m <| inhibitors := ∅ |>.

(** ** redis.go *)

Record redisInhibitData := mkRedisInhibit {
  rWho : string;
  rWhat : string;
  rWhy : string;
  rType : string;
}.

Definition inhibTypeOf (t : string) : string :=
  if t =s "delay" then TypeDelay
  else if t =s "suspend-only" then TypeSuspendOnly
  else TypeBlock.

Section sync.
(** [json.Unmarshal] of one hash value. *)
Context (unmarshal : string → option redisInhibitData).

Definition wantIDs (entries : gmap string string) : gmap string redisInhibitData :=
  omap unmarshal entries.

(** The loop over the present inhibitors: what remains, the wanted entries
    not seen yet, and whether one was dropped. *)
Fixpoint keepWanted (l : list Inhibitor) (want : gmap string redisInhibitData)
  : list Inhibitor * gmap string redisInhibitData * bool :=
  match l with
  | [] => ([], want, false)
  | inh :: l' =>
      if redisID inh =s "" then
        let '(r, w, ch) := keepWanted l' want in (inh :: r, w, ch)
      else match want !! redisID inh with
           | Some _ =>
               let '(r, w, ch) := keepWanted l' (delete (redisID inh) want) in (inh :: r, w, ch)
           | None => let '(r, w, ch) := keepWanted l' want in (r, w, true)
           end
  end.

Definition mkRedisInhibitor (p : Z) (id : string) (d : redisInhibitData) : Inhibitor :=
  mkInhibitor p (rWho d) (rWhat d) (rWhy d) (inhibTypeOf (rType d)) None id.

Fixpoint addWanted (p : Z) (l : list (string * redisInhibitData)) : list Inhibitor :=
  match l with
  | [] => []
  | (id, d) :: l' => mkRedisInhibitor p id d :: addWanted (p + 1) l'
  end.

(** [entries] is [None] when [HGetAll] failed. *)
Definition syncRedisInhibitors (entries : option (gmap string string)) (m : Manager) : Manager :=
  match entries with
  | None => m
  | Some es =>
      let '(remaining, want, dropped) := keepWanted (manualInhibitors m) (wantIDs es) in
      let added := addWanted (fresh m) (map_to_list want) in
      let m' := m <| manualInhibitors := remaining ++ added |>
                  <| fresh := fresh m + Z.of_nat (length added) |> in
      if dropped || negb (bool_decide (added = [])) then onChange m' else m'
  end.
End sync.

(** ** What the manager promises to the service

    The service sees two queries of the manager; the law relates them. *)

Record InhibitorView := mkView {
  iv_list : list Inhibitor;
  iv_blocking : string → bool;
  iv_law : ∀ target, iv_blocking target = existsb (blocks (IsHibernatePath target)) iv_list;
}.

Lemma HasBlocking_existsb m target :
  HasBlockingInhibitors m target = existsb (blocks (IsHibernatePath target)) (GetInhibitors m).
Proof.
  unfold HasBlockingInhibitors, GetInhibitors. rewrite existsb_app.
  by destruct (existsb _ (map _ _)).
Qed.

Definition view_of (m : Manager) : InhibitorView :=
  mkView (GetInhibitors m) (HasBlockingInhibitors m) (HasBlocking_existsb m).

(** ** Lemmas *)

Lemma existsb_elem {A} (p : A → bool) l : existsb p l = true ↔ ∃ x, x ∈ l ∧ p x = true.
Proof.
  rewrite existsb_exists. split; intros (x & Hin & Hp); exists x; by rewrite list_elem_of_In in *.
Qed.

Lemma elem_of_GetInhibitors m inh :
  inh ∈ GetInhibitors m ↔ (∃ c, inhibitors m !! c = Some inh) ∨ inh ∈ manualInhibitors m.
Proof.
  unfold GetInhibitors. rewrite elem_of_app, list_elem_of_fmap. f_equiv. split.
  - intros ([c i] & -> & Hin). exists c. by apply elem_of_map_to_list in Hin.
  - intros [c Hc]. exists (c, inh). by rewrite elem_of_map_to_list.
Qed.

Lemma blocks_spec hib inh :
  blocks hib inh = true ↔ Typ inh = TypeBlock ∨ (Typ inh = TypeSuspendOnly ∧ hib = false).
Proof.
  assert (TypeBlock ≠ TypeSuspendOnly) by done. unfold blocks.
  destruct (String.eqb_spec (Typ inh) TypeSuspendOnly), (String.eqb_spec (Typ inh) TypeBlock), hib;
    cbn; intuition congruence.
Qed.

(** ** Theorems *)

(** Blocking is exactly the presence, among the inhibitors the manager
    lists, of a [block] inhibitor or of a [suspend-only] one when the target
    is not on the hibernate path; [delay] inhibitors never block. *)
Theorem HasBlockingInhibitors_spec (m : Manager) (target : string) :
  HasBlockingInhibitors m target = true ↔
  ∃ inh, inh ∈ GetInhibitors m ∧
    (Typ inh = TypeBlock ∨ (Typ inh = TypeSuspendOnly ∧ IsHibernatePath target = false)).
Proof.
  rewrite HasBlocking_existsb, existsb_elem. by setoid_rewrite blocks_spec.
Qed.

(** ** Synchronization with the hash *)

Definition has_id (l : list Inhibitor) (id : string) : bool := existsb (λ i, redisID i =s id) l.

(** The identifiers of the inhibitors that belong to the hash. *)
Definition redis_ids (l : list Inhibitor) : list string :=
  List.filter (λ id, negb (id =s "")) (map redisID l).

Definition own_inhibitors (l : list Inhibitor) : list Inhibitor :=
  List.filter (λ i, redisID i =s "") l.

Lemma has_id_elem l id : has_id l id = true ↔ ∃ i, i ∈ l ∧ redisID i = id.
Proof. unfold has_id. rewrite existsb_elem. by setoid_rewrite streq_true. Qed.

Lemma has_id_ids l id : id ≠ "" → has_id l id = true ↔ id ∈ redis_ids l.
Proof.
  intros Hne. unfold redis_ids. rewrite has_id_elem, list_elem_of_In, filter_In, in_map_iff.
  rewrite negb_true_iff, streq_false. setoid_rewrite list_elem_of_In. naive_solver.
Qed.

Lemma has_id_app l1 l2 id : has_id (l1 ++ l2) id = has_id l1 id || has_id l2 id.
Proof. apply existsb_app. Qed.

Lemma redis_ids_app l1 l2 : redis_ids (l1 ++ l2) = redis_ids l1 ++ redis_ids l2.
Proof. unfold redis_ids. by rewrite map_app, List.filter_app. Qed.

Lemma keepWanted_own l : ∀ want, own_inhibitors (keepWanted l want).1.1 = own_inhibitors l.
Proof.
  induction l as [|i l IH]; intros want; simpl; [done|].
  destruct (redisID i =s "") eqn:E.
  - specialize (IH want). destruct (keepWanted l want) as [[r w] ch]. simpl in *. by rewrite E, IH.
  - destruct (want !! redisID i) as [dat|].
    + specialize (IH (delete (redisID i) want)). destruct (keepWanted l _) as [[r w] ch].
      simpl in *. by rewrite E, IH.
    + specialize (IH want). by destruct (keepWanted l want) as [[r w] ch].
Qed.

Lemma keepWanted_want l : ∀ want id, id ≠ "" →
  (keepWanted l want).1.2 !! id = if has_id l id then None else want !! id.
Proof.
  induction l as [|i l IH]; intros want id Hid; simpl; [done|].
  destruct (String.eqb_spec (redisID i) "") as [E|E].
  - rewrite E, (proj2 (streq_false "" id)) by congruence. simpl.
    rewrite <- (IH want id Hid). by destruct (keepWanted l want) as [[r w] ch].
  - destruct (want !! redisID i) as [dat|] eqn:Hw.
    + specialize (IH (delete (redisID i) want) id Hid).
      destruct (keepWanted l _) as [[r w] ch]. simpl in *. rewrite IH.
      destruct (String.eqb_spec (redisID i) id) as [<-|Hne]; simpl.
      * rewrite lookup_delete_eq. by destruct (has_id l _).
      * by rewrite lookup_delete_ne.
    + specialize (IH want id Hid). destruct (keepWanted l want) as [[r w] ch]. simpl in *. rewrite IH.
      destruct (String.eqb_spec (redisID i) id) as [<-|Hne]; simpl; [|done].
      rewrite Hw. by destruct (has_id l _).
Qed.

Lemma keepWanted_ids l : ∀ want id, id ≠ "" →
  has_id (keepWanted l want).1.1 id = has_id l id && bool_decide (is_Some (want !! id)).
Proof.
  induction l as [|i l IH]; intros want id Hid; simpl; [done|].
  destruct (String.eqb_spec (redisID i) "") as [E|E].
  - specialize (IH want id Hid). destruct (keepWanted l want) as [[r w] ch]. simpl in *.
    by rewrite E, (proj2 (streq_false "" id)) by congruence.
  - destruct (want !! redisID i) as [dat|] eqn:Hw.
    + specialize (IH (delete (redisID i) want) id Hid).
      destruct (keepWanted l _) as [[r w] ch]. simpl in *. rewrite IH.
      destruct (String.eqb_spec (redisID i) id) as [<-|Hne]; simpl.
      * by rewrite Hw.
      * by rewrite lookup_delete_ne.
    + specialize (IH want id Hid). destruct (keepWanted l want) as [[r w] ch]. simpl in *. rewrite IH.
      destruct (String.eqb_spec (redisID i) id) as [<-|Hne]; simpl; [|done].
      rewrite Hw. simpl. by rewrite andb_false_r.
Qed.

Lemma keepWanted_empty_id l : ∀ want, want !! "" = None → (keepWanted l want).1.2 !! "" = None.
Proof.
  induction l as [|i l IH]; intros want Hw; simpl; [done|]. destruct (redisID i =s "").
  - specialize (IH want Hw). by destruct (keepWanted l want) as [[r w] ch].
  - destruct (want !! redisID i) as [dat|].
    + specialize (IH (delete (redisID i) want)). destruct (keepWanted l _) as [[r w] ch].
      apply IH. rewrite lookup_delete. by case_decide.
    + specialize (IH want Hw). by destruct (keepWanted l want) as [[r w] ch].
Qed.

Lemma own_inhibitors_app l1 l2 : own_inhibitors (l1 ++ l2) = own_inhibitors l1 ++ own_inhibitors l2.
Proof. apply List.filter_app. Qed.

Lemma own_inhibitors_nil l : has_id l "" = false → own_inhibitors l = [].
Proof.
  induction l as [|i l IH]; simpl; [done|]. destruct (redisID i =s ""); [done|]. by apply IH.
Qed.

(** An entry already mirrored is kept as it is. *)
Lemma keepWanted_kept l : ∀ want i,
  i ∈ l → redisID i ≠ "" → is_Some (want !! redisID i) → NoDup (redis_ids l) →
  i ∈ (keepWanted l want).1.1.
Proof.
  induction l as [|j l IH]; intros want i Hin Hne Hw Hnd; [by apply elem_of_nil in Hin|].
  unfold redis_ids in Hnd. simpl in *. destruct (String.eqb_spec (redisID j) "") as [E|E].
  - specialize (IH want i). destruct (keepWanted l want) as [[r w] ch]. simpl in *.
    apply elem_of_cons in Hin as [->|Hin]; [done|]. set_solver.
  - simpl in Hnd. apply NoDup_cons in Hnd as [Hnotin Hnd].
    destruct (want !! redisID j) as [dat|] eqn:Hwj.
    + specialize (IH (delete (redisID j) want) i). destruct (keepWanted l _) as [[r w] ch]. simpl in *.
      apply elem_of_cons in Hin as [->|Hin]; [set_solver|]. apply elem_of_cons. right.
      apply IH; try done. rewrite lookup_delete_ne; [done|]. intros Heq. apply Hnotin.
      apply has_id_ids; [done|]. apply has_id_elem. eauto.
    + specialize (IH want i). destruct (keepWanted l want) as [[r w] ch]. simpl in *.
      apply elem_of_cons in Hin as [->|Hin]; [|by apply IH]. rewrite Hwj in Hw. by destruct Hw.
Qed.

Lemma redis_ids_nonempty l id : id ∈ redis_ids l → id ≠ "".
Proof.
  unfold redis_ids. rewrite list_elem_of_In, filter_In. intros [_ H] ->. done.
Qed.

Lemma redis_ids_cons i l :
  redis_ids (i :: l) = if redisID i =s "" then redis_ids l else redisID i :: redis_ids l.
Proof. unfold redis_ids. simpl. by destruct (redisID i =s ""). Qed.

Lemma keepWanted_NoDup l : ∀ want, NoDup (redis_ids l) → NoDup (redis_ids (keepWanted l want).1.1).
Proof.
  induction l as [|i l IH]; intros want Hnd; simpl; [done|]. rewrite redis_ids_cons in Hnd.
  destruct (String.eqb_spec (redisID i) "") as [E|E].
  - specialize (IH want Hnd). destruct (keepWanted l want) as [[r w] ch]. simpl in *.
    by rewrite redis_ids_cons, E.
  - apply NoDup_cons in Hnd as [Hni Hnd]. destruct (want !! redisID i) as [dat|].
    + specialize (IH (delete (redisID i) want) Hnd).
      pose proof (keepWanted_ids l (delete (redisID i) want) (redisID i) E) as Hk.
      destruct (keepWanted l _) as [[r w] ch]. simpl in *.
      rewrite redis_ids_cons, (proj2 (streq_false _ _) E). apply NoDup_cons. split; [|done].
      intros Hin. apply has_id_ids in Hin; [|done]. rewrite Hk in Hin.
      apply andb_true_iff in Hin as [Hin _]. by apply has_id_ids in Hin.
    + specialize (IH want Hnd). by destruct (keepWanted l want) as [[r w] ch].
Qed.

(** When every mirrored identifier is wanted, nothing is dropped. *)
Lemma keepWanted_fix l : ∀ want,
  (∀ id, id ≠ "" → has_id l id = true → is_Some (want !! id)) → NoDup (redis_ids l) →
  ∃ w, keepWanted l want = (l, w, false) ∧
       ∀ id, id ≠ "" → w !! id = if has_id l id then None else want !! id.
Proof.
  intros want Hall Hnd. exists (keepWanted l want).1.2. split; [|intros; by apply keepWanted_want].
  revert want Hall Hnd. induction l as [|i l IH]; intros want Hall Hnd; simpl; [done|].
  rewrite redis_ids_cons in Hnd. simpl in Hall.
  destruct (String.eqb_spec (redisID i) "") as [E|E].
  - rewrite (IH want) at 1; [by destruct (keepWanted l want) as [[r w] ch]|..|done].
    intros id Hid Hl. apply Hall; [done|]. by rewrite Hl, orb_true_r.
  - apply NoDup_cons in Hnd as [Hni Hnd].
    destruct (Hall (redisID i)) as [d Hd]; [done|by rewrite streq_refl|]. rewrite Hd.
    rewrite (IH (delete (redisID i) want)) at 1; [by destruct (keepWanted l _) as [[r w] ch]|..|done].
    intros id Hid Hl. rewrite lookup_delete_ne; [apply Hall; [done|by rewrite Hl, orb_true_r]|].
    intros <-. apply Hni. by apply has_id_ids.
Qed.

Lemma addWanted_ids l : ∀ p, map redisID (addWanted p l) = map fst l.
Proof. induction l as [|[id d] l IH]; intros p; simpl; [done|]. by rewrite IH. Qed.

Lemma addWanted_nil p l : addWanted p l = [] ↔ l = [].
Proof. destruct l as [|[id d] l]; naive_solver. Qed.

Lemma has_id_addWanted p (w : gmap string redisInhibitData) id :
  has_id (addWanted p (map_to_list w)) id = bool_decide (is_Some (w !! id)).
Proof.
  apply eq_true_iff_eq. rewrite bool_decide_eq_true.
  assert (has_id (addWanted p (map_to_list w)) id = true ↔ id ∈ map redisID (addWanted p (map_to_list w))) as ->.
  { rewrite has_id_elem, list_elem_of_fmap. naive_solver. }
  rewrite addWanted_ids, list_elem_of_fmap. split.
  - intros ([k v] & -> & Hin). apply elem_of_map_to_list in Hin. by exists v.
  - intros [v Hv]. exists (id, v). by rewrite elem_of_map_to_list.
Qed.

Section sync_facts.
Context (unmarshal : string → option redisInhibitData).
Implicit Types (m : Manager) (es : gmap string string).

(** The list after a successful read of the hash. *)
Definition synced es m : list Inhibitor :=
  (keepWanted (manualInhibitors m) (wantIDs unmarshal es)).1.1
  ++ addWanted (fresh m) (map_to_list (keepWanted (manualInhibitors m) (wantIDs unmarshal es)).1.2).

Lemma sync_manual es m :
  manualInhibitors (syncRedisInhibitors unmarshal (Some es) m) = synced es m.
Proof.
  unfold syncRedisInhibitors, synced. destruct (keepWanted _ _) as [[r w] ch]. cbn.
  by destruct (_ || _).
Qed.

Lemma sync_connections entries m : inhibitors (syncRedisInhibitors unmarshal entries m) = inhibitors m.
Proof.
  destruct entries as [es|]; [|done]. unfold syncRedisInhibitors. destruct (keepWanted _ _) as [[r w] ch].
  by destruct (_ || _).
Qed.

Lemma synced_has_id es m id :
  id ≠ "" → has_id (synced es m) id = bool_decide (is_Some (wantIDs unmarshal es !! id)).
Proof.
  intros Hid. unfold synced. rewrite has_id_app, has_id_addWanted.
  rewrite keepWanted_ids by done. pose proof (keepWanted_want (manualInhibitors m) (wantIDs unmarshal es) id Hid) as ->.
  destruct (has_id _ _); [apply orb_false_r|done].
Qed.

Lemma synced_NoDup es m :
  wantIDs unmarshal es !! "" = None → NoDup (redis_ids (manualInhibitors m)) →
  NoDup (redis_ids (synced es m)).
Proof.
  intros Hempty Hnd. unfold synced. rewrite redis_ids_app. apply NoDup_app. split_and!.
  - by apply keepWanted_NoDup.
  - intros id Hin Hin'.
    assert (id ≠ "") as Hid by (by apply redis_ids_nonempty in Hin).
    apply has_id_ids in Hin, Hin'; [|done..].
    rewrite keepWanted_ids in Hin by done. apply andb_true_iff in Hin as [Hl _].
    rewrite has_id_addWanted, keepWanted_want, Hl, bool_decide_eq_true in Hin' by done.
    by destruct Hin'.
  - unfold redis_ids. rewrite addWanted_ids. apply NoDup_ListNoDup, List.NoDup_filter, NoDup_ListNoDup.
    apply NoDup_fst_map_to_list.
Qed.

Lemma keepWanted_subset l : ∀ want i,
  i ∈ (keepWanted l want).1.1 → i ∈ l ∧ (redisID i = "" ∨ is_Some (want !! redisID i)).
Proof.
  induction l as [|j l IH]; intros want i; simpl; [by intros ?%elem_of_nil|].
  destruct (String.eqb_spec (redisID j) "") as [E|E].
  - specialize (IH want i). destruct (keepWanted l want) as [[r w] ch]. simpl in *. set_solver.
  - destruct (want !! redisID j) as [dat|] eqn:Hw.
    + specialize (IH (delete (redisID j) want) i). destruct (keepWanted l _) as [[r w] ch]. simpl in *.
      rewrite elem_of_cons. intros [->|Hin]; [split; [by left|eauto]|].
      destruct (IH Hin) as [Hl [He|[d Hd]]]; (split; [by right|]); [by left|right].
      apply lookup_delete_Some in Hd as [_ Hd]. eauto.
    + specialize (IH want i). destruct (keepWanted l want) as [[r w] ch]. simpl in *. set_solver.
Qed.

(** Without a drop the list is untouched; a drop loses an entry no longer wanted. *)
Lemma keepWanted_dropped l : ∀ want, NoDup (redis_ids l) →
  if (keepWanted l want).2 then ∃ i, i ∈ l ∧ redisID i ≠ "" ∧ want !! redisID i = None
  else (keepWanted l want).1.1 = l.
Proof.
  induction l as [|j l IH]; intros want Hnd; simpl; [done|]. rewrite redis_ids_cons in Hnd.
  destruct (String.eqb_spec (redisID j) "") as [E|E].
  - specialize (IH want Hnd). destruct (keepWanted l want) as [[r w] []]; simpl in *; [set_solver|by rewrite IH].
  - apply NoDup_cons in Hnd as [Hni Hnd]. destruct (want !! redisID j) as [dat|] eqn:Hw.
    + specialize (IH (delete (redisID j) want) Hnd). destruct (keepWanted l _) as [[r w] []]; simpl in *; [|by rewrite IH].
      destruct IH as (i & Hi & Hne & Hd). exists i. split; [by right|]. split; [done|].
      rewrite lookup_delete_ne in Hd; [done|]. intros Heq. apply Hni, has_id_ids, has_id_elem; eauto.
    + destruct (keepWanted l want) as [[r w] ch]. simpl. exists j. split; [by left|done].
Qed.

Lemma elem_of_addWanted l : ∀ p i,
  i ∈ addWanted p l → ∃ q id d, (id, d) ∈ l ∧ p ≤ q ∧ i = mkRedisInhibitor q id d.
Proof.
  induction l as [|[id d] l IH]; intros p i; simpl; [by intros ?%elem_of_nil|].
  rewrite elem_of_cons. intros [->|Hin]; [exists p, id, d; split; [by left|done]|].
  destruct (IH (p + 1) i Hin) as (q & id' & d' & Hl & Hq & ->). exists q, id', d'.
  split; [by right|]. split; [lia|done].
Qed.

(** The inhibitor of a hash entry: the words of the entry, and its type, where
    anything that is not a delay or a suspend-only one blocks. *)
Definition mirrors (d : redisInhibitData) (i : Inhibitor) : Prop :=
  Who i = rWho d ∧ What i = rWhat d ∧ Why i = rWhy d ∧ Conn i = None ∧
  Typ i = (if rType d =s "delay" then "delay" else if rType d =s "suspend-only" then "suspend-only" else "block").

Lemma mkRedisInhibitor_mirrors p id d : mirrors d (mkRedisInhibitor p id d).
Proof. unfold mirrors, mkRedisInhibitor, inhibTypeOf. cbn. repeat split. Qed.

(** What the hash gets under an identifier. *)
Lemma synced_entry es m id :
  wantIDs unmarshal es !! "" = None → NoDup (redis_ids (manualInhibitors m)) → id ≠ "" →
  match wantIDs unmarshal es !! id with
  | None => ∀ i, i ∈ synced es m → redisID i ≠ id
  | Some d => ∃ i, i ∈ synced es m ∧ redisID i = id ∧
                if has_id (manualInhibitors m) id then i ∈ manualInhibitors m else mirrors d i ∧ fresh m ≤ ptr i
  end.
Proof.
  intros Hempty Hnd Hid. pose proof (synced_has_id es m id Hid) as Hs.
  destruct (wantIDs unmarshal es !! id) as [d|] eqn:Ed.
  2: { rewrite bool_decide_eq_false_2 in Hs by by intros []. intros i Hi <-. enough (has_id (synced es m) (redisID i) = true) by congruence. apply has_id_elem. eauto. }
  destruct (has_id (manualInhibitors m) id) eqn:Eh.
  { apply has_id_elem in Eh as (i & Hi & <-). exists i. split; [|done].
    unfold synced. apply elem_of_app. left. by apply keepWanted_kept. }
  rewrite bool_decide_eq_true_2 in Hs by done. apply has_id_elem in Hs as (i & Hi & Hid'). exists i.
  split; [done|]. split; [done|]. unfold synced in Hi. apply elem_of_app in Hi as [Hi|Hi].
  { apply keepWanted_subset in Hi as [Hi _]. exfalso.
    enough (has_id (manualInhibitors m) id = true) by congruence. apply has_id_elem. eauto. }
  apply elem_of_addWanted in Hi as (q & id' & d' & Hl & Hq & ->). cbn in Hid'. subst id'.
  apply elem_of_map_to_list in Hl. rewrite keepWanted_want, Eh, Ed in Hl by done. injection Hl as <-.
  split; [apply mkRedisInhibitor_mirrors|done].
Qed.

Lemma sync_changes es m :
  NoDup (redis_ids (manualInhibitors m)) → wantIDs unmarshal es !! "" = None →
  changes (syncRedisInhibitors unmarshal (Some es) m)
  = if bool_decide (synced es m = manualInhibitors m) then changes m else S (changes m).
Proof.
  intros Hnd Hempty. unfold syncRedisInhibitors.
  pose proof (keepWanted_dropped (manualInhibitors m) (wantIDs unmarshal es) Hnd) as Hd.
  assert (Hw : ∀ id, id ≠ "" → has_id (manualInhibitors m) id = true → (keepWanted (manualInhibitors m) (wantIDs unmarshal es)).1.2 !! id = None).
  { intros id Hid Hl. by rewrite keepWanted_want, Hl. }
  pose proof (keepWanted_empty_id (manualInhibitors m) _ Hempty) as He.
  assert (Hs : ∀ i, i ∈ synced es m → redisID i ≠ "" → is_Some (wantIDs unmarshal es !! redisID i)).
  { intros i Hi Hne. pose proof (synced_has_id es m (redisID i) Hne) as Hb.
    rewrite (proj2 (has_id_elem _ _)) in Hb by eauto. symmetry in Hb. by apply bool_decide_eq_true in Hb. }
  unfold synced in Hs |- *. destruct (keepWanted _ _) as [[r w] ch]. cbn in *.
  destruct ch; cbn.
  { rewrite bool_decide_eq_false_2; [done|]. intros Heq. destruct Hd as (i & Hi & Hne & Hn).
    rewrite <- Heq in Hi. destruct (Hs i Hi Hne) as [? Hx]. congruence. }
  subst r. case_bool_decide as Ha; cbn.
  - rewrite Ha, app_nil_r, bool_decide_eq_true_2; done.
  - rewrite bool_decide_eq_false_2; [done|]. intros Heq. apply Ha. apply (app_inv_head (manualInhibitors m)).
    by rewrite app_nil_r.
Qed.


(** Synchronizing twice with the same entries is synchronizing once:
    the second pass changes nothing and notifies nobody. *)
Theorem sync_idempotent (es : gmap string string) (m : Manager) :
  wantIDs unmarshal es !! "" = None → NoDup (redis_ids (manualInhibitors m)) →
  let m' := syncRedisInhibitors unmarshal (Some es) m in
  syncRedisInhibitors unmarshal (Some es) m' = m'.
Proof.
  intros Hempty Hnd m'.
  assert (Hids : ∀ id, id ≠ "" → has_id (manualInhibitors m') id = bool_decide (is_Some (wantIDs unmarshal es !! id))).
  { intros id Hid. unfold m'. rewrite sync_manual. by apply synced_has_id. }
  assert (Hnd' : NoDup (redis_ids (manualInhibitors m'))).
  { unfold m'. rewrite sync_manual. by apply synced_NoDup. }
  clearbody m'. clear m Hnd. unfold syncRedisInhibitors.
  destruct (keepWanted_fix (manualInhibitors m') (wantIDs unmarshal es)) as (w & Hk & Hw); [|done|].
  { intros id Hid. rewrite Hids by done. by rewrite bool_decide_eq_true. }
  rewrite Hk. assert (w = ∅) as ->.
  { apply map_eq. intros id. rewrite lookup_empty.
    destruct (decide (id = "")) as [->|Hne].
    - pose proof (keepWanted_empty_id (manualInhibitors m') _ Hempty) as He. by rewrite Hk in He.
    - rewrite Hw by done. rewrite Hids by done. case_bool_decide as Hs; [done|].
      by apply eq_None_not_Some. }
  rewrite map_to_list_empty. simpl. rewrite app_nil_r, Z.add_0_r. by destruct m'.
Qed.

(** An inhibitor that is already mirrored is never updated: whatever
    entry the hash now holds under its identifier (say, a [delay] that
    became a [block]), the old inhibitor stays, unchanged. *)
Theorem sync_keeps_stale (es : gmap string string) (m : Manager) (i : Inhibitor) :
  i ∈ manualInhibitors m → redisID i ≠ "" → NoDup (redis_ids (manualInhibitors m)) →
  is_Some (wantIDs unmarshal es !! redisID i) →
  let l := manualInhibitors (syncRedisInhibitors unmarshal (Some es) m) in
  i ∈ l ∧ (wantIDs unmarshal es !! "" = None → NoDup (redis_ids l)).
Proof.
  intros Hin Hne Hnd Hw l. unfold l. rewrite sync_manual. split.
  - unfold synced. apply elem_of_app. left. by apply keepWanted_kept.
  - intros Hempty. by apply synced_NoDup.
Qed.
End sync_facts.

(** A hash with one entry, and a decoder that reads the type only. *)
Definition demo_unmarshal (raw : string) : option redisInhibitData :=
  if raw =s "bad" then None else Some (mkRedisInhibit "ota" "install" "update" raw).
Definition demo_manager : Manager :=
  syncRedisInhibitors demo_unmarshal (Some {["ota" := "delay"]})
    (AddInhibitor "pm-service" "default delay" "delay" TypeDelay NewManager).2.


Lemma sync_idempotent_witness :
  let m' := syncRedisInhibitors demo_unmarshal (Some {["gps" := "block"]}) demo_manager in
  syncRedisInhibitors demo_unmarshal (Some {["gps" := "block"]}) m' = m'.
Proof.
  apply (sync_idempotent demo_unmarshal {["gps" := "block"]} demo_manager).
  - reflexivity.
  - apply (bool_decide_unpack _). vm_compute. exact I.
Defined.

Lemma sync_keeps_stale_witness :
  let i := mkInhibitor 1 "ota" "install" "update" TypeDelay None "ota" in
  i ∈ manualInhibitors (syncRedisInhibitors demo_unmarshal (Some {["ota" := "block"]}) demo_manager) ∧
  (∃ d, wantIDs demo_unmarshal {["ota" := "block"]} !! "ota" = Some d ∧ rType d = "block").
Proof.
  intros i. split.
  - apply (sync_keeps_stale demo_unmarshal {["ota" := "block"]} demo_manager i).
    + apply list_elem_of_In. vm_compute. tauto.
    + done.
    + apply (bool_decide_unpack _). vm_compute. exact I.
    + eexists. vm_compute. reflexivity.
  - eexists. vm_compute. split; reflexivity.
Defined.
