(* ===== verification/Connections.v ===== *)
(** * The connections of the inhibitor manager

    [internal/inhibitor/inhibitor.go] as it runs: the accept loop, one handler
    per connection, the clients, the service's own inhibitors, the mirror of the
    hash, and [Close], in any interleaving.  A critical section of [m.mutex] is
    one step. *)

From S2P Require Import Prelude GoInt Inhibitor.

(** [threads] holds what each handler still has to do; a net.Conn has one
    handler.  [acked] are the connections whose client received the
    acknowledgement, [gone] those whose client closed its end, [shut] those
    [Close] closed on this end. *)
Record System := mkSystem {
  manager : Manager;
  threads : gmap Z (list conn_step);
  acked : gset Z;
  gone : gset Z;
  shut : gset Z;
  listening : bool;
}.
#[export] Instance eta_System : Eta System := λ s,
  mkSystem (manager s) (threads s) (acked s) (gone s) (shut s) (listening s).

Definition newSystem : System := mkSystem NewManager ∅ ∅ ∅ ∅ true.

(** [conn.Read] returns an error only once an end is closed. *)
Definition enabled (s : System) (st : conn_step) : Prop :=
  match st with ReadEOF c => c ∈ gone s ∨ c ∈ shut s | _ => True end.

Definition handler_step (s : System) (c : Z) (st : conn_step) (rest : list conn_step) : System :=
  s <| manager := conn_exec (manager s) st |> <| threads := <[c := rest]> (threads s) |>
    <| acked := match st with WriteAck d true => {[d]} ∪ acked s | _ => acked s end |>.

(** The critical section of [Close]: every registered connection is closed and
    forgotten, whatever its handler is doing. *)
Definition closeConnections (s : System) : System :=
  s <| shut := shut s ∪ dom (inhibitors (manager s)) |> <| manager := CloseManager (manager s) |>.

(** [Accept] returns a new connection; [ok] is what the write of the
    acknowledgement will return to its handler. *)
Inductive sys_step : System → System → Prop :=
| Step_accept s c ok :
    listening s = true → threads s !! c = None →
    sys_step s (s <| threads := <[c := handleConnection c ok]> (threads s) |>)
| Step_handler s c st rest :
    threads s !! c = Some (st :: rest) → enabled s st → sys_step s (handler_step s c st rest)
| Step_client_closes s c : sys_step s (s <| gone := {[c]} ∪ gone s |>)
| Step_add s who what why t :
    sys_step s (s <| manager := (AddInhibitor who what why t (manager s)).2 |>)
| Step_remove s inh : (* only the service's own *)
    Conn inh = None → sys_step s (s <| manager := RemoveInhibitor inh (manager s) |>)
| Step_sync s unmarshal entries :
    sys_step s (s <| manager := syncRedisInhibitors unmarshal entries (manager s) |>)
| Step_close_listener s : sys_step s (s <| listening := false |>)
| Step_close s : listening s = false → sys_step s (closeConnections s).

(** ** The invariant *)

(** The connection is registered, unless [Close] has closed it. *)
Definition held (s : System) (c : Z) : Prop :=
  c ∈ shut s ∨ ∃ p, inhibitors (manager s) !! c = Some (connInhibitor p c).

(** A client that was told it blocks has left, or was cut off. *)
Definition released (s : System) (c : Z) : Prop := c ∈ acked s → c ∈ gone s ∨ c ∈ shut s.

Definition absent (s : System) (c : Z) : Prop := inhibitors (manager s) !! c = None.

(** Where the handler of [c] is, and what holds there. *)
Inductive stage (s : System) (c : Z) : option (list conn_step) → Prop :=
| Stage_none : absent s c → c ∉ acked s → stage s c None
| Stage_new ok : absent s c → c ∉ acked s → stage s c (Some (handleConnection c ok))
| Stage_registered ok : held s c → c ∉ acked s → stage s c (Some (tl (handleConnection c ok)))
| Stage_acked : held s c → stage s c (Some [Notify; ReadEOF c; Unregister c; Notify; CloseConn c])
| Stage_reading : held s c → stage s c (Some [ReadEOF c; Unregister c; Notify; CloseConn c])
| Stage_leaving : released s c → stage s c (Some [Unregister c; Notify; CloseConn c])
| Stage_left l : absent s c → released s c → l `suffix_of` [Notify; CloseConn c] → stage s c (Some l).

Definition sys_ok (s : System) : Prop := ∀ c, stage s c (threads s !! c).

(** A stage survives every change that keeps what it says. *)
Lemma stage_frame s s' c o :
  (held s c → held s' c) → (absent s c → absent s' c) → (c ∈ acked s' ↔ c ∈ acked s) →
  (released s c → released s' c) → stage s c o → stage s' c o.
Proof. intros Hh Ha [Hk _] Hr []; constructor; eauto. Qed.

(** The inhibitor of a connection is touched by its own handler only. *)
Lemma conn_exec_other m st c :
  st ≠ Register c → st ≠ Unregister c → inhibitors (conn_exec m st) !! c = inhibitors m !! c.
Proof.
  intros H1 H2. destruct st as [d|d ok| |d|d|d]; cbn; try done.
  - by rewrite lookup_insert_ne by congruence.
  - by rewrite lookup_delete_ne by congruence.
Qed.

(** The steps left to a handler concern its own connection. *)
Definition mine (c : Z) (st : conn_step) : Prop :=
  match st with Register d | WriteAck d _ | ReadEOF d | Unregister d | CloseConn d => d = c | Notify => True end.

Lemma handleConnection_mine c ok : Forall (mine c) (handleConnection c ok).
Proof. destruct ok; by repeat constructor. Qed.

Lemma stage_mine s c l : stage s c (Some l) → Forall (mine c) l.
Proof.
  inversion 1 as [|ok|ok| | | |? ? ? Hs]; subst; try (by repeat constructor).
  - apply handleConnection_mine.
  - destruct ok; by repeat constructor.
  - destruct Hs as [k Hk]. assert (HF : Forall (mine c) (k ++ l)) by (rewrite <- Hk; by repeat constructor).
    apply Forall_app in HF as [_ HF]. exact HF.
Qed.

Lemma handler_other s c st rest d :
  mine c st → d ≠ c → stage s d (threads s !! d) → stage (handler_step s c st rest) d (threads s !! d).
Proof.
  intros Hm Hne. assert (Hi : inhibitors (conn_exec (manager s) st) !! d = inhibitors (manager s) !! d).
  { apply conn_exec_other; intros ->; by apply Hne. }
  assert (Hk : d ∈ acked (handler_step s c st rest) ↔ d ∈ acked s).
  { destruct st as [?|? []| |?|?|?]; cbn in *; set_solver. }
  apply stage_frame; unfold held, absent, released; rewrite ?Hk; cbn; rewrite ?Hi; auto.
Qed.

Lemma handler_own s c st rest :
  stage s c (Some (st :: rest)) → enabled s st → stage (handler_step s c st rest) c (Some rest).
Proof.
  intros Hst He. inversion Hst as [|ok Ha Hk|ok Hh Hk|Hh|Hh|Hr|l Ha Hr Hs]; subst.
  - apply (Stage_registered _ _ ok); [|exact Hk]. right. eexists. apply lookup_insert_eq.
  - destruct ok; [by apply Stage_acked|]. apply Stage_leaving. intros Hc. by apply Hk in Hc.
  - by apply Stage_reading.
  - apply Stage_leaving. by intros _.
  - apply Stage_left; [apply lookup_delete_eq|exact Hr|done].
  - destruct Hs as [k Hs].
    assert (Hst' : (st = Notify ∨ st = CloseConn c) ∧ rest `suffix_of` [Notify; CloseConn c]).
    { destruct k as [|? [|? [|? k]]]; simplify_list_eq; (split; [auto|]); [by exists [Notify]|by exists [Notify; CloseConn c]]. }
    destruct Hst' as [[-> | ->] Hsuf]; by apply Stage_left.
Qed.

Lemma sys_step_ok s s' : sys_ok s → sys_step s s' → sys_ok s'.
Proof.
  intros Hok Hs d. specialize (Hok d) as Hd. destruct Hs as [s c ok _ Hn|s c st rest Ht He|s c|s who what why t|s inh Hi|s um es|s|s _].
  - cbn. destruct (decide (c = d)) as [->|Hne].
    + rewrite lookup_insert_eq. rewrite Hn in Hd. inversion Hd; subst. by apply Stage_new.
    + rewrite lookup_insert_ne by done. by apply (stage_frame s); [..|exact Hd].
  - cbn. pose proof (Hok c) as Hc. rewrite Ht in Hc. destruct (decide (c = d)) as [->|Hne].
    + rewrite lookup_insert_eq. by apply handler_own.
    + rewrite lookup_insert_ne by done. apply handler_other; [|done|exact Hd].
      apply stage_mine in Hc. by inversion Hc.
  - apply (stage_frame s); [done|done|done| |exact Hd]. unfold released. cbn. set_solver.
  - by apply (stage_frame s); [..|exact Hd].
  - apply (stage_frame s); [..|exact Hd]; try done; unfold held, absent, RemoveInhibitor; by rewrite Hi.
  - apply (stage_frame s); [..|exact Hd]; try done; unfold held, absent; cbn; by rewrite sync_connections.
  - by apply (stage_frame s); [..|exact Hd].
  - apply (stage_frame s); [..|exact Hd]; unfold held, absent, released; cbn.
    + intros [Hin|[p Hp]]; left; apply elem_of_union; [by left|right]. apply elem_of_dom. by eexists.
    + intros _. apply lookup_empty.
    + done.
    + set_solver.
Qed.

Lemma sys_reach_ok s : rtc sys_step newSystem s → sys_ok s.
Proof.
  intros H. assert (H0 : sys_ok newSystem).
  { intros c. apply Stage_none; [apply lookup_empty|cbn; set_solver]. }
  induction H as [|s s1 s2 Hs _ IH]; [done|]. by eapply IH, sys_step_ok.
Qed.

(** C27: what the acknowledgement of the inhibitor socket promises.  In every
    state the manager reaches, with its accept loop, its handlers, its clients,
    the service's own inhibitors, the mirror of the hash and [Close] interleaved
    in any way: from the moment a client has received the acknowledgement, and
    as long as it keeps its end open and [Close] has not cut it off, every
    target is blocked.  A handler that is done has left no inhibitor behind, and
    there is none for a connection that was never accepted. *)
Theorem connection_blocks (s : System) (c : Z) (target : string) :
  rtc sys_step newSystem s →
  (c ∈ acked s → c ∉ gone s → c ∉ shut s → HasBlockingInhibitors (manager s) target = true) ∧
  (threads s !! c = None ∨ threads s !! c = Some [] → inhibitors (manager s) !! c = None).
Proof.
  intros H. pose proof (sys_reach_ok s H c) as Hc. split.
  - intros Hk Hg Hs. assert (Hh : held s c).
    { inversion Hc as [| | | | |Hr|? ? Hr]; subst; try done; exfalso; destruct (Hr Hk); done. }
    destruct Hh as [|[p Hp]]; [done|]. rewrite HasBlocking_existsb, existsb_elem. exists (connInhibitor p c).
    split; [apply elem_of_GetInhibitors; left; by exists c|]. apply blocks_spec. by left.
  - intros Ht. destruct Ht as [Ht|Ht]; rewrite Ht in Hc; inversion Hc; subst; try done.
    all: by destruct ok.
Qed.

(** A client is served up to its acknowledgement while another one comes and goes. *)
Definition acknowledged : System :=
  let s1 := newSystem <| threads := <[7 := handleConnection 7 true]> ∅ |> in
  let s2 := s1 <| threads := <[8 := handleConnection 8 false]> (threads s1) |> in
  let s3 := handler_step s2 7 (Register 7) (tl (handleConnection 7 true)) in
  let s4 := handler_step s3 8 (Register 8) (tl (handleConnection 8 false)) in
  let s5 := s4 <| gone := {[8]} ∪ gone s4 |> in
  let s6 := handler_step s5 8 (WriteAck 8 false) [Unregister 8; Notify; CloseConn 8] in
  handler_step s6 7 (WriteAck 7 true) [Notify; ReadEOF 7; Unregister 7; Notify; CloseConn 7].

Lemma acknowledged_reached : rtc sys_step newSystem acknowledged.
Proof.
  eapply rtc_l; [by apply (Step_accept _ 7 true)|]. eapply rtc_l; [by apply (Step_accept _ 8 false)|].
  eapply rtc_l; [by apply (Step_handler _ 7 (Register 7))|]. eapply rtc_l; [by apply (Step_handler _ 8 (Register 8))|].
  eapply rtc_l; [by apply (Step_client_closes _ 8)|]. eapply rtc_l; [by apply (Step_handler _ 8 (WriteAck 8 false))|].
  eapply rtc_l; [by apply (Step_handler _ 7 (WriteAck 7 true))|]. apply rtc_refl.
Qed.

Lemma connection_blocks_witness :
  HasBlockingInhibitors (manager acknowledged) "reboot" = true ∧ inhibitors (manager acknowledged) !! 9 = None.
Proof.
  split.
  - by apply (proj1 (connection_blocks acknowledged 7 "reboot" acknowledged_reached)); vm_compute.
  - apply (proj2 (connection_blocks acknowledged 9 "reboot" acknowledged_reached)). left. reflexivity.
Defined.
