(* ===== verification/LastDitch.v ===== *)
(** * Last-ditch hibernation: inputs and trigger

    The emergency inputs of [internal/service/service.go] (the fields guarded by
    [lastDitchMu]), the parsers of the values Redis delivers, the Schmitt latch
    of the auxiliary voltage and the trigger condition. *)

From S2P Require Import Prelude GoInt GoTime.

Definition lastDitchHibernateCBBThreshold : Z := 50.
Definition lastDitchHibernateAuxEnterMv : Z := 11500.
Definition lastDitchHibernateAuxExitMv : Z := 11700.
Definition lastDitchHibernateBootGrace : Z := 5 * Minute.

Record LastDitch := mkLastDitch {
  lastDitchEnabled : bool;
  cbBatteryPresent : bool;
  cbBatteryCharge : Z;
  battery0Present : bool;
  battery1Present : bool;
  battery0Charge : Z;
  battery1Charge : Z;
  auxVoltageMv : Z;
  auxLowLatched : bool;
  lastDitchVehicleStandby : bool;
  lastDitchGraceUntil : Time;
  lastDitchGraceLog : bool;
}.
#[export] Instance eta_LastDitch : Eta LastDitch := λ l,
  mkLastDitch (lastDitchEnabled l) (cbBatteryPresent l) (cbBatteryCharge l) (battery0Present l)
    (battery1Present l) (battery0Charge l) (battery1Charge l) (auxVoltageMv l) (auxLowLatched l)
    (lastDitchVehicleStandby l) (lastDitchGraceUntil l) (lastDitchGraceLog l).

(** The values the constructor [New] gives these fields. *)
Definition newLastDitch : LastDitch :=
  mkLastDitch true true (-1) true true (-1) (-1) (-1) false false zeroTime false.

(** ** Parsers *)

(** [strings.ToLower] on the letters that occur in the compared constants; no
    other letter has one of them as its lower case. *)
Definition lower (c : Ascii.ascii) : Ascii.ascii :=
  if (65 <=? code c) && (code c <=? 90) then chr (code c + 32) else c.

Fixpoint ToLower (s : string) : string :=
  match s with
  | EmptyString => EmptyString
  | String c s => String (lower c) (ToLower s)
  end.

Definition parseBool (v : string) : bool := one_of (ToLower (TrimSpace v)) ["true"; "1"; "yes"].

Definition parseChargeOrUnknown (v : string) : Z :=
  match Atoi (TrimSpace v) with
  | None => -1
  | Some n => if n <? 0 then 0 else if 100 <? n then 100 else n
  end.

Definition parseNonNegativeInt (v : string) : Z :=
  match Atoi (TrimSpace v) with
  | None => -1
  | Some n => if n <? 0 then -1 else n
  end.

(** Value and validity. *)
Definition parseSettingBool (value : string) : bool * bool :=
  let v := TrimSpace value in
  if v =s "true" then (true, true) else if v =s "false" then (false, true) else (false, false).

(** ** Updates *)

Definition setAuxVoltageLocked (mv : Z) (l : LastDitch) : LastDitch :=
  let l := l <| auxVoltageMv := mv |> in
  if 0 <=? mv then
    if auxLowLatched l then
      if lastDitchHibernateAuxExitMv <=? mv then l <| auxLowLatched := false |> else l
    else if mv <? lastDitchHibernateAuxEnterMv then l <| auxLowLatched := true |>
    else l
  else l.

(** [setLastDitchHibernateEnabled]: the pair (changed, enabled). *)
Definition setLastDitchHibernateEnabled (value : string) (l : LastDitch) : (bool * bool) * LastDitch :=
  let '(enabled, valid) := parseSettingBool value in
  let enabled := if valid then enabled else true in
  ((negb (Bool.eqb (lastDitchEnabled l) enabled), enabled), l <| lastDitchEnabled := enabled |>).

Definition setBatteryPresent (slot : string) (present : bool) (l : LastDitch) : LastDitch :=
  if slot =s "0" then l <| battery0Present := present |>
  else if slot =s "1" then l <| battery1Present := present |> else l.

Definition setBatteryCharge (slot : string) (charge : Z) (l : LastDitch) : LastDitch :=
  if slot =s "0" then l <| battery0Charge := charge |>
  else if slot =s "1" then l <| battery1Charge := charge |> else l.

(** ** Trigger *)

Definition bothSlotsMissing (l : LastDitch) : bool :=
  (negb (battery0Present l) || (battery0Charge l =? 0)) &&
  (negb (battery1Present l) || (battery1Charge l =? 0)).

Definition cbbLow (l : LastDitch) : bool :=
  cbBatteryPresent l && (0 <=? cbBatteryCharge l)
  && (cbBatteryCharge l <? lastDitchHibernateCBBThreshold).

(** [now] is the reading of [time.Until]. *)
Definition lastDitchTriggeredLocked (now : Time) (l : LastDitch) : bool * LastDitch :=
  if negb (lastDitchEnabled l) then (false, l)
  else if negb (bothSlotsMissing l && (cbbLow l || auxLowLatched l)) then (false, l)
  else if 0 <? Sub (lastDitchGraceUntil l) now then (false, l <| lastDitchGraceLog := true |>)
  else (true, l).

(** A redis reading counts when it succeeded and is not empty. *)
Definition applies (r : option string) (f : string → LastDitch → LastDitch) (l : LastDitch) : LastDitch :=
  match r with
  | Some v => if v =s "" then l else f v l
  | None => l
  end.

(** The seven readings of [refreshLastDitchInputs] and their application. *)
Record Readings := mkReadings {
  r_b0Present : option string;
  r_b1Present : option string;
  r_b0Charge : option string;
  r_b1Charge : option string;
  r_cbbPresent : option string;
  r_cbb : option string;
  r_aux : option string;
}.

Definition applyReadings (r : Readings) (l : LastDitch) : LastDitch :=
  let l := applies (r_b0Present r) (λ v l, l <| battery0Present := parseBool v |>) l in
  let l := applies (r_b1Present r) (λ v l, l <| battery1Present := parseBool v |>) l in
  let l := applies (r_b0Charge r) (λ v l, l <| battery0Charge := parseChargeOrUnknown v |>) l in
  let l := applies (r_b1Charge r) (λ v l, l <| battery1Charge := parseChargeOrUnknown v |>) l in
  let l := applies (r_cbbPresent r) (λ v l, l <| cbBatteryPresent := parseBool v |>) l in
  let l := applies (r_cbb r) (λ v l, l <| cbBatteryCharge := parseChargeOrUnknown v |>) l in
  applies (r_aux r) (λ v, setAuxVoltageLocked (parseNonNegativeInt v)) l.

(** ** The trigger *)

(** C10: the condition that cuts power without being asked: only when enabled,
    with both main slots unusable, with a known-low reserve (a present CBB
    charge in [0, 50) or a latched auxiliary rail), and never within the boot
    grace.  Unknown readings (-1) never contribute, and evaluating the
    condition changes nothing but the log latch. *)
Theorem lastDitchTriggered_spec (now : Time) (l : LastDitch) :
  ((lastDitchTriggeredLocked now l).1 = true ↔
     lastDitchEnabled l = true ∧
     (battery0Present l = false ∨ battery0Charge l = 0) ∧
     (battery1Present l = false ∨ battery1Charge l = 0) ∧
     ((cbBatteryPresent l = true ∧ 0 ≤ cbBatteryCharge l < 50) ∨ auxLowLatched l = true) ∧
     After (lastDitchGraceUntil l) now = false) ∧
  (lastDitchTriggeredLocked now l).2 <| lastDitchGraceLog := lastDitchGraceLog l |> = l.
Proof.
  split; [|unfold lastDitchTriggeredLocked; destruct l; cbn; by repeat split_if].
  unfold lastDitchTriggeredLocked, bothSlotsMissing, cbbLow, lastDitchHibernateCBBThreshold.
  rewrite After_Sub.
  destruct (lastDitchEnabled l), (battery0Present l), (battery1Present l), (cbBatteryPresent l),
    (auxLowLatched l), (Z.eqb_spec (battery0Charge l) 0), (Z.eqb_spec (battery1Charge l) 0),
    (Z.leb_spec 0 (cbBatteryCharge l)), (Z.ltb_spec (cbBatteryCharge l) 50),
    (0 <? Sub (lastDitchGraceUntil l) now); cbn; intuition (congruence || lia).
Qed.

(** ** The Schmitt latch *)

Definition latch_after (l : LastDitch) (mvs : list Z) : bool :=
  auxLowLatched (fold_left (λ l mv, setAuxVoltageLocked mv l) mvs l).

Lemma latch_snoc l mvs mv :
  latch_after l (mvs ++ [mv]) =
  if mv <? 0 then latch_after l mvs
  else if latch_after l mvs then mv <? lastDitchHibernateAuxExitMv
  else mv <? lastDitchHibernateAuxEnterMv.
Proof.
  unfold latch_after. rewrite fold_left_app. cbn.
  set (l' := fold_left _ mvs l). unfold setAuxVoltageLocked. cbn.
  rewrite Z.leb_antisym. destruct (mv <? 0) eqn:?; cbn; [done|].
  destruct (auxLowLatched l') eqn:E; cbn.
  - rewrite Z.leb_antisym. destruct (mv <? lastDitchHibernateAuxExitMv); cbn; by rewrite ?E.
  - destruct (mv <? lastDitchHibernateAuxEnterMv); cbn; by rewrite ?E.
Qed.

(** C37: hysteresis of the auxiliary rail.  After any history of readings (-1
    for an unknown one) the rail counts as low exactly when it once read below
    11.5 V and has not read 11.7 V or more since; readings between the
    thresholds and unknown readings never change the answer. *)
Theorem aux_latch_history (l : LastDitch) (mvs : list Z) :
  auxLowLatched l = false →
  latch_after l mvs = true ↔
    ∃ before mv since, mvs = before ++ mv :: since ∧ 0 ≤ mv < 11500 ∧
      Forall (λ v, v < 11700) since.
Proof.
  intros Hl. induction mvs as [|mv mvs IH] using rev_ind.
  - unfold latch_after. cbn. rewrite Hl. split; [done|].
    intros (b & m & s & H & _). by destruct b.
  - rewrite latch_snoc. unfold lastDitchHibernateAuxExitMv, lastDitchHibernateAuxEnterMv.
    assert (Hext : ∀ P : Prop, (P ↔ latch_after l mvs = true ∧ mv < 11700 ∨ 0 ≤ mv < 11500) →
      P ↔ ∃ before m since, mvs ++ [mv] = before ++ m :: since ∧ 0 ≤ m < 11500 ∧
        Forall (λ v, v < 11700) since).
    { intros P ->. split.
      - intros [[H Hlt]|H].
        + apply IH in H as (b & m & s & -> & Hm & Hs). exists b, m, (s ++ [mv]).
          rewrite <- app_assoc. split; [done|]. split; [done|]. apply Forall_app. auto.
        + exists mvs, mv, []. auto.
      - intros (b & m & s & He & Hm & Hs). destruct s as [|x s _] using rev_ind.
        + apply app_inj_tail in He as [_ ->]. auto.
        + left. rewrite app_comm_cons, app_assoc in He. apply app_inj_tail in He as [-> ->].
          apply Forall_app in Hs as [Hs Hx]. apply Forall_inv in Hx.
          split; [|lia]. apply IH. exists b, m, s. auto. }
    apply Hext. destruct (Z.ltb_spec mv 0), (latch_after l mvs);
      rewrite ?Z.ltb_lt; intuition (congruence || lia).
Qed.

Lemma aux_latch_history_witness :
  latch_after newLastDitch [12000; 11400; -1; 11600] = true.
Proof.
  apply (aux_latch_history newLastDitch [12000; 11400; -1; 11600]); [reflexivity|].
  exists [12000], 11400, [-1; 11600]. split; [reflexivity|]. split; [lia|].
  repeat constructor; lia.
Defined.

(** ** Parsers and refresh *)

Lemma parseChargeOrUnknown_range v : -1 ≤ parseChargeOrUnknown v ≤ 100.
Proof. unfold parseChargeOrUnknown. destruct (Atoi _); [|lia]. repeat split_if; lia. Qed.

Lemma parseNonNegativeInt_range v : -1 ≤ parseNonNegativeInt v < 2 ^ 31.
Proof.
  unfold parseNonNegativeInt. destruct (Atoi _) eqn:E; [|lia].
  apply ParseInt_range in E; unfold intSize in *; [|lia]. split_if; lia.
Qed.

Lemma applies_frame {A} (π : LastDitch → A) r f l :
  (∀ v l, π (f v l) = π l) → π (applies r f l) = π l.
Proof. intros H. unfold applies. destruct r; [|done]. by split_if. Qed.

Lemma setAux_frame {A} (π : LastDitch → A) mv l :
  (∀ v l, π (l <| auxVoltageMv := v |>) = π l) → (∀ b l, π (l <| auxLowLatched := b |>) = π l) →
  π (setAuxVoltageLocked mv l) = π l.
Proof. intros H1 H2. unfold setAuxVoltageLocked. cbv zeta. repeat split_if; by rewrite ?H2, ?H1. Qed.

(** The fields [refreshLastDitchInputs] may not touch. *)
Lemma applyReadings_frame r l :
  lastDitchEnabled (applyReadings r l) = lastDitchEnabled l ∧
  lastDitchGraceUntil (applyReadings r l) = lastDitchGraceUntil l ∧
  lastDitchVehicleStandby (applyReadings r l) = lastDitchVehicleStandby l.
Proof.
  unfold applyReadings. cbv zeta.
  repeat split; rewrite !applies_frame by (try done; intros; by apply setAux_frame); done.
Qed.

(** A reading that failed or came back empty leaves every input alone. *)
Lemma applyReadings_none l : applyReadings (mkReadings None None None None None None None) l = l.
Proof. done. Qed.
