(* ===== verification/GoFloat.v ===== *)
(** * Go's [float64]

    Binary64 arithmetic with round-to-nearest-even, as the Standard Library's
    [SpecFloat] specifies it, with the operations and tests the sources use:
    conversion from integers, [+ - * /], [math.Abs], [math.Max], comparisons
    (false as soon as an operand is NaN), [math.IsNaN], [math.IsInf] and
    [math.Float64bits]. *)

From S2P Require Import Prelude GoInt GoTime.
From Stdlib Require Import SpecFloat.

Definition float64 := spec_float.
Definition f_prec : Z := 53.
Definition f_emax : Z := 1024.

Definition fadd : float64 → float64 → float64 := SFadd f_prec f_emax.
Definition fsub : float64 → float64 → float64 := SFsub f_prec f_emax.
Definition fmul : float64 → float64 → float64 := SFmul f_prec f_emax.
Definition fdiv : float64 → float64 → float64 := SFdiv f_prec f_emax.
Definition Abs : float64 → float64 := SFabs.
Definition fle : float64 → float64 → bool := SFleb.
Definition flt : float64 → float64 → bool := SFltb.
Definition feq : float64 → float64 → bool := SFeqb.

(** The nearest binary64 to an integer. *)
Definition of_Z (z : Z) : float64 := binary_normalize f_prec f_emax z 0 false.

(** A decimal literal [m / d] of the source. *)
Definition lit (m d : Z) : float64 := fdiv (of_Z m) (of_Z d).

Definition IsNaN (x : float64) : bool := match x with S754_nan => true | _ => false end.
Definition IsInf (x : float64) : bool := match x with S754_infinity _ => true | _ => false end.

(** [math.Max]: NaN is contagious, +Inf wins, +0 is larger than -0. *)
Definition Max (x y : float64) : float64 :=
  match x, y with
  | S754_infinity false, _ | _, S754_infinity false => S754_infinity false
  | S754_nan, _ | _, S754_nan => S754_nan
  | S754_zero sx, S754_zero _ => if sx then y else x
  | _, _ => if flt y x then x else y
  end.

(** [Duration.Seconds]: whole seconds plus the remaining nanoseconds / 1e9. *)
Definition Seconds (d : Z) : float64 :=
  fadd (of_Z (Z.quot d Second)) (fdiv (of_Z (Z.rem d Second)) (of_Z Second)).

(** The bit pattern of a canonical binary64 ([S754_nan] is Go's quiet NaN). *)
Definition Float64bits (x : float64) : Z :=
  let sgn (s : bool) := if s then 2 ^ 63 else 0 in
  match x with
  | S754_zero s => sgn s
  | S754_infinity s => sgn s + 2047 * 2 ^ 52
  | S754_nan => 2047 * 2 ^ 52 + 2 ^ 51 + 1
  | S754_finite s m e =>
      if Zpos m <? 2 ^ 52 then sgn s + Zpos m
      else sgn s + (e + 1075) * 2 ^ 52 + (Zpos m - 2 ^ 52)
  end.

(** Canonical finite values: 53-bit mantissa, or subnormal at the least
    exponent. *)
Definition canonical (x : float64) : bool :=
  match x with
  | S754_finite _ m e => bounded f_prec f_emax m e
  | _ => true
  end.

(** The inverse reading of a bit pattern. *)
Definition Float64frombits (b : Z) : float64 :=
  let s := 2 ^ 63 <=? b in
  let m := b mod 2 ^ 52 in
  let e := (b / 2 ^ 52) mod 2 ^ 11 in
  if e =? 2047 then (if m =? 0 then S754_infinity s else S754_nan)
  else if e =? 0 then
    match m with Zpos p => S754_finite s p (-1074) | _ => S754_zero s end
  else match m + 2 ^ 52 with Zpos p => S754_finite s p (e - 1075) | _ => S754_nan end.

Example seconds_half : Seconds 1500000000 = lit 3 2.
Proof. vm_compute. reflexivity. Qed.

Lemma digits2_bounds p : 2 ^ (Zpos (digits2_pos p) - 1) ≤ Zpos p < 2 ^ Zpos (digits2_pos p).
Proof.
  induction p as [p IH|p IH|]; cbn [digits2_pos]; [| |cbn; lia].
  - rewrite Pos2Z.inj_succ. replace (Z.succ _ - 1) with (Zpos (digits2_pos p) - 1 + 1) by lia.
    rewrite Z.pow_succ_r, Z.pow_add_r by lia. lia.
  - rewrite Pos2Z.inj_succ. replace (Z.succ _ - 1) with (Zpos (digits2_pos p) - 1 + 1) by lia.
    rewrite Z.pow_succ_r, Z.pow_add_r by lia. lia.
Qed.

Lemma canonical_finite s m e :
  canonical (S754_finite s m e) = true →
  (2 ^ 52 ≤ Zpos m < 2 ^ 53 ∧ -1074 ≤ e ≤ 971) ∨ (Zpos m < 2 ^ 52 ∧ e = -1074).
Proof.
  cbn. unfold bounded, canonical_mantissa, fexp, emin, f_prec, f_emax. intros H.
  apply andb_true_iff in H as [H1 H2]. apply Z.eqb_eq in H1. apply Z.leb_le in H2.
  pose proof (digits2_bounds m) as Hd. set (d := Zpos (digits2_pos m)) in *.
  destruct (Z.max_spec (d + e - 53) (3 - 1024 - 53)) as [[Hlt Hm]|[Hge Hm]]; rewrite Hm in H1.
  - right. split; [|lia]. pose proof (Z.pow_le_mono_r 2 d 52 ltac:(lia) ltac:(lia)). lia.
  - left. assert (d = 53) as Hd' by lia. rewrite Hd' in Hd. lia.
Qed.

(** The bit pattern determines the value. *)
Lemma frombits_bits x : canonical x = true → Float64frombits (Float64bits x) = x.
Proof.
  destruct x as [s|s| |s m e]; intros Hc; [by destruct s|by destruct s|done|].
  apply canonical_finite in Hc. unfold Float64bits.
  assert (Hs : ∀ r, 0 ≤ r < 2 ^ 63 → Float64frombits ((if s then 2 ^ 63 else 0) + r) =
    if r / 2 ^ 52 =? 2047 then (if r mod 2 ^ 52 =? 0 then S754_infinity s else S754_nan)
    else if r / 2 ^ 52 =? 0 then
      match r mod 2 ^ 52 with Zpos p => S754_finite s p (-1074) | _ => S754_zero s end
    else match r mod 2 ^ 52 + 2 ^ 52 with Zpos p => S754_finite s p (r / 2 ^ 52 - 1075) | _ => S754_nan end).
  { intros r Hr. unfold Float64frombits. cbv zeta.
    assert (0 ≤ r / 2 ^ 52 < 2 ^ 11) as Hq.
    { split; [apply Z.div_pos; lia|]. apply Z.div_lt_upper_bound; lia. }
    destruct s.
    - replace (2 ^ 63 + r) with (r + 2 ^ 11 * 2 ^ 52) by lia.
      rewrite Z.mod_add, Z.div_add by lia.
      replace (r / 2 ^ 52 + 2 ^ 11) with (r / 2 ^ 52 + 1 * 2 ^ 11) by lia.
      rewrite Z.mod_add, (Z.mod_small (r / 2 ^ 52)) by lia.
      by rewrite (proj2 (Z.leb_le _ _)) by lia.
    - rewrite Z.add_0_l, (Z.mod_small (r / 2 ^ 52)) by lia.
      by rewrite (proj2 (Z.leb_gt _ _)) by lia. }
  destruct Hc as [(Hm & He)|(Hm & ->)].
  - rewrite (proj2 (Z.ltb_ge _ _)) by lia. rewrite <- Z.add_assoc.
    rewrite Hs by nia.
    assert (Hdiv : ((e + 1075) * 2 ^ 52 + (Z.pos m - 2 ^ 52)) / 2 ^ 52 = e + 1075).
    { rewrite Z.add_comm, Z.div_add, Z.div_small by lia. lia. }
    assert (Hmod : ((e + 1075) * 2 ^ 52 + (Z.pos m - 2 ^ 52)) mod 2 ^ 52 = Z.pos m - 2 ^ 52).
    { rewrite Z.add_comm, Z.mod_add, Z.mod_small by lia. lia. }
    rewrite Hdiv, Hmod, (proj2 (Z.eqb_neq _ 2047)), (proj2 (Z.eqb_neq _ 0)) by lia.
    replace (Z.pos m - 2 ^ 52 + 2 ^ 52) with (Z.pos m) by lia. f_equal. lia.
  - rewrite (proj2 (Z.ltb_lt _ _)) by lia. rewrite Hs by lia.
    by rewrite Z.div_small, Z.mod_small by lia.
Qed.

Lemma Float64bits_range x : canonical x = true → 0 ≤ Float64bits x < 2 ^ 64.
Proof.
  destruct x as [s|s| |s m e]; intros Hc; [by destruct s|by destruct s|done|].
  apply canonical_finite in Hc. unfold Float64bits.
  destruct (Zpos m <? 2 ^ 52) eqn:E, s; destruct Hc as [(? & ?)|(? & ->)]; nia.
Qed.
