(* ===== verification/GoText.v ===== *)
(** * Go text processing: fields, hexadecimal and floating-point numerals

    The parts of [strings] and [strconv] that read the output of programs and
    of /proc: [Split] on one byte, [Fields], [ParseUint] in base 16 and
    [ParseFloat].  A text is its bytes. *)

From S2P Require Import Prelude GoInt GoTime GoFloat.
From Stdlib Require Import SpecFloat.

(** ** Split and Fields *)

(** [strings.Split] with a one-byte separator. *)
Fixpoint SplitBytes (sep : Z) (l : list Z) : list (list Z) :=
  match l with
  | [] => [[]]
  | c :: l =>
      if c =? sep then [] :: SplitBytes sep l
      else match SplitBytes sep l with
           | f :: fs => (c :: f) :: fs
           | [] => [[c]]
           end
  end.

Definition Split (s : string) (sep : Z) : list string := map unbytes (SplitBytes sep (bytes s)).

(** [strings.Fields]: the maximal runs without white space.  [cur] is the
    current run, backwards; a white-space rune may have several bytes, which
    [fuel] (the length is enough) accounts for. *)
Fixpoint fields_loop (fuel : nat) (cur l : list Z) : list (list Z) :=
  let flush := match cur with [] => [] | _ => [rev cur] end in
  match fuel, l with
  | O, _ | _, [] => flush
  | S fuel, c :: l' =>
      match drop_any space_seqs l with
      | Some rest => flush ++ fields_loop fuel [] rest
      | None => fields_loop fuel (c :: cur) l'
      end
  end.

Definition Fields (s : string) : list string :=
  let l := bytes s in map unbytes (fields_loop (S (length l)) [] l).

(** ** Digits *)

Definition lowerByte (c : Z) : Z := Z.lor c 32.

(** The value of a digit in base 10 or 16. *)
Definition digitValue (hex : bool) (c : Z) : option Z :=
  if (48 <=? c) && (c <=? 57) then Some (c - 48)
  else if hex && (97 <=? lowerByte c) && (lowerByte c <=? 102) then Some (lowerByte c - 97 + 10)
  else None.

(** [strconv.ParseUint(s, 16, bits)]. *)
Fixpoint hexDigits (acc : Z) (l : list Z) : option Z :=
  match l with
  | [] => Some acc
  | c :: l => match digitValue true c with
              | Some d => hexDigits (acc * 16 + d) l
              | None => None
              end
  end.

Definition ParseHex (bits : Z) (s : string) : option Z :=
  match bytes s with
  | [] => None
  | l => match hexDigits 0 l with
         | Some v => if v <? 2 ^ bits then Some v else None
         | None => None
         end
  end.

(** ** ParseFloat

    [strconv.ParseFloat(s, 64)] returns the binary64 nearest to the numeral,
    ties to even, and an error for a malformed numeral or a finite one that
    rounds to an infinity. *)

(** The mantissa as [readFloat] scans it: digits, one point, underscores. *)
Record Mantissa := mkMant {
  m_value : Z;       (* all digits, without the point *)
  m_frac : Z;        (* how many of them are behind the point *)
  m_dot : bool;
  m_digits : bool;   (* a digit was seen *)
  m_under : bool;
}.

Fixpoint readMantissa (hex : bool) (m : Mantissa) (l : list Z) : Mantissa * list Z :=
  match l with
  | [] => (m, [])
  | c :: l' =>
      if c =? 95 then readMantissa hex (mkMant (m_value m) (m_frac m) (m_dot m) (m_digits m) true) l'
      else if c =? 46 then
        if m_dot m then (m, l)
        else readMantissa hex (mkMant (m_value m) (m_frac m) true (m_digits m) (m_under m)) l'
      else match digitValue hex c with
      | Some d =>
          readMantissa hex
            (mkMant (m_value m * (if hex then 16 else 10) + d) (if m_dot m then m_frac m + 1 else m_frac m)
                    (m_dot m) true (m_under m)) l'
      | None => (m, l)
      end
  end.

(** The digits of an exponent; its value stops growing at 10000. *)
Fixpoint readExponent (e : Z) (under : bool) (l : list Z) : Z * bool * list Z :=
  match l with
  | [] => (e, under, [])
  | c :: l' =>
      if c =? 95 then readExponent e true l'
      else if (48 <=? c) && (c <=? 57) then
        readExponent (if e <? 10000 then e * 10 + (c - 48) else e) under l'
      else (e, under, l)
  end.

(** An optional sign: negative? and the rest. *)
Definition readSign (l : list Z) : bool * list Z :=
  match l with
  | c :: l' => if c =? 43 then (false, l') else if c =? 45 then (true, l') else (false, l)
  | [] => (false, [])
  end.

(** [underscoreOK]: underscores only between digits; a base prefix counts as a
    digit.  [prev] is the class of the previous byte: 0 for a digit, 1 for an
    underscore, 2 for anything else. *)
Fixpoint underscoresBetween (hex : bool) (prev : Z) (l : list Z) : bool :=
  match l with
  | [] => negb (prev =? 1)
  | c :: l =>
      match digitValue hex c with
      | Some _ => underscoresBetween hex 0 l
      | None =>
          if c =? 95 then (prev =? 0) && underscoresBetween hex 1 l
          else negb (prev =? 1) && underscoresBetween hex 2 l
      end
  end.

Definition isPrefixed (l : list Z) : bool :=
  match l with 48 :: c :: _ => one_of (unbytes [lowerByte c]) ["b"; "o"; "x"] | _ => false end.

Definition underscoreOK (l : list Z) : bool :=
  let '(_, l) := readSign l in
  if isPrefixed l
  then underscoresBetween (bool_decide (lowerByte <$> nth_error l 1 = Some 120)) 0 (drop 2 l)
  else underscoresBetween false 2 l.

(** [value * base ^ -frac * (10 or 2) ^ exp], rounded. *)
Definition roundDecimal (neg : bool) (value exp : Z) : float64 :=
  match value with
  | Zpos p =>
      if 0 <=? exp then binary_normalize f_prec f_emax ((if neg then -1 else 1) * (value * 10 ^ exp)) 0 neg
      else match 10 ^ (- exp) with
           | Zpos q => SFdiv f_prec f_emax (S754_finite neg p 0) (S754_finite false q 0)
           | _ => S754_nan
           end
  | _ => S754_zero neg
  end.

Definition roundHex (neg : bool) (value exp : Z) : float64 :=
  match value with
  | Zpos _ => binary_normalize f_prec f_emax ((if neg then -1 else 1) * value) exp neg
  | _ => S754_zero neg
  end.

(** [special]: infinities and NaN, any case; a NaN has no sign. *)
Definition special (l : list Z) : option float64 :=
  let '(neg, body) := readSign l in
  let word := unbytes (map lowerByte body) in
  if one_of word ["inf"; "infinity"] then Some (S754_infinity neg)
  else if (word =s "nan") && bool_decide (body = l) then Some S754_nan
  else None.

Definition ParseFloat (s : string) : option float64 :=
  let all := bytes s in
  match special all with
  | Some v => Some v
  | None =>
      let '(neg, l) := readSign all in
      let hex := match l with 48 :: c :: _ :: _ => lowerByte c =? 120 | _ => false end in
      let '(m, rest) := readMantissa hex (mkMant 0 0 false false false) (if hex then drop 2 l else l) in
      if negb (m_digits m) then None
      else
        match (match rest with
               | c :: rest' =>
                   if lowerByte c =? (if hex then 112 else 101) then
                     let '(eneg, rest') := readSign rest' in
                     match rest' with
                     | d :: _ =>
                         if (48 <=? d) && (d <=? 57) then
                           let '(e, under, rest') := readExponent 0 (m_under m) rest' in
                           Some (if eneg then - e else e, under, rest')
                         else None
                     | [] => None
                     end
                   else if hex then None else Some (0, m_under m, rest)
               | [] => if hex then None else Some (0, m_under m, rest)
               end) with
        | None => None
        | Some (e, under, rest) =>
            if negb (bool_decide (rest = [])) then None
            else if under && negb (underscoreOK all) then None
            else
              let v := if hex then roundHex neg (m_value m) (e - 4 * m_frac m)
                       else roundDecimal neg (m_value m) (e - m_frac m) in
              if IsInf v then None else Some v
        end
  end.

Example parse_float_1 : ParseFloat "0.000012345" = Some (lit 12345 1000000000).
Proof. vm_compute. reflexivity. Qed.
Example parse_float_2 : ParseFloat "-1.5e2" = Some (of_Z (-150)).
Proof. vm_compute. reflexivity. Qed.
Example parse_float_3 : ParseFloat "1e400" = None ∧ ParseFloat "1.2.3" = None ∧ ParseFloat "" = None.
Proof. vm_compute. done. Qed.
Example parse_float_4 : ParseFloat "0x1p-2" = Some (lit 1 4) ∧ ParseFloat "1_000.5" = Some (lit 2001 2) ∧
  ParseFloat "1__0" = None ∧ ParseFloat "+Inf" = Some (S754_infinity false).
Proof. vm_compute. done. Qed.
Example parse_hex_1 : ParseHex 32 "47505331" = Some 0x47505331.
Proof. vm_compute. reflexivity. Qed.
Example fields_1 : Fields ("  a b" +:+ String (chr 9) "c ") = ["a"; "b"; "c"].
Proof. vm_compute. reflexivity. Qed.
Example split_1 : Split "a,,b" 44 = ["a"; ""; "b"].
Proof. vm_compute. reflexivity. Qed.

(** ** Ranges *)

Lemma digitValue_range hex c d : digitValue hex c = Some d → 0 ≤ d < 16.
Proof.
  unfold digitValue. repeat split_if; [|intros [= <-]|done]; [intros [= <-]|]; bools; lia.
Qed.

Lemma hexDigits_nonneg l : ∀ acc v, 0 ≤ acc → hexDigits acc l = Some v → 0 ≤ v.
Proof.
  induction l as [|c l IH]; intros acc v Ha; cbn; [by intros [= <-]|].
  destruct (digitValue true c) as [d|] eqn:E; [|done]. apply digitValue_range in E. apply IH. lia.
Qed.

Lemma ParseHex_range bits s v : ParseHex bits s = Some v → 0 ≤ v < 2 ^ bits.
Proof.
  unfold ParseHex. destruct (bytes s) as [|c l]; [done|].
  destruct (hexDigits 0 (c :: l)) as [n|] eqn:E; [|done]. split_if; [|done]. intros [= <-].
  split; [by eapply hexDigits_nonneg in E|lia].
Qed.
