(* ===== verification/GoDuration.v ===== *)
(** * Go's [time.ParseDuration]

    The settings carry durations as text.  The Standard Library's parser is
    translated: an optional sign, then numbers with an optional fraction, each
    followed by a unit, accumulated in an unsigned 64-bit word with overflow
    tests. *)

From S2P Require Import Prelude GoInt GoTime GoFloat.
From Stdlib Require Import SpecFloat.

(** Truncation of a finite float towards zero. *)
Definition trunc (x : float64) : Z :=
  match x with
  | S754_finite s m e =>
      let v := if 0 <=? e then Zpos m * 2 ^ e else Z.quot (Zpos m) (2 ^ (- e)) in
      if s then - v else v
  | _ => 0
  end.

(** [leadingInt]: value and rest; [None] on overflow. *)
Fixpoint leadingInt (x : Z) (l : list Z) : option (Z * list Z) :=
  match l with
  | c :: l' =>
      if (48 <=? c) && (c <=? 57) then
        if Z.quot (2 ^ 63) 10 <? x then None
        else
          let x := x * 10 + (c - 48) in
          if 2 ^ 63 <? x then None else leadingInt x l'
      else Some (x, l)
  | [] => Some (x, [])
  end.

(** [leadingFraction]: value, scale and rest; digits beyond the precision are
    consumed without effect. *)
Fixpoint leadingFraction (x : Z) (scale : float64) (overflow : bool) (l : list Z)
  : Z * float64 * list Z :=
  match l with
  | c :: l' =>
      if (48 <=? c) && (c <=? 57) then
        if overflow then leadingFraction x scale true l'
        else if Z.quot (2 ^ 63 - 1) 10 <? x then leadingFraction x scale true l'
        else
          let y := x * 10 + (c - 48) in
          if 2 ^ 63 <? y then leadingFraction x scale true l'
          else leadingFraction y (fmul scale (of_Z 10)) false l'
      else (x, scale, l)
  | [] => (x, scale, [])
  end.

Fixpoint spanUnit (l : list Z) : list Z * list Z :=
  match l with
  | c :: l' =>
      if (c =? 46) || ((48 <=? c) && (c <=? 57)) then ([], l)
      else let '(u, r) := spanUnit l' in (c :: u, r)
  | [] => ([], [])
  end.

Definition unitMap (u : list Z) : option Z :=
  if bool_decide (u = bytes "ns") then Some Nanosecond
  else if bool_decide (u = bytes "us") then Some 1000
  else if bool_decide (u = [0xC2; 0xB5; 115]) then Some 1000
  else if bool_decide (u = [0xCE; 0xBC; 115]) then Some 1000
  else if bool_decide (u = bytes "ms") then Some Millisecond
  else if bool_decide (u = bytes "s") then Some Second
  else if bool_decide (u = bytes "m") then Some Minute
  else if bool_decide (u = bytes "h") then Some Hour
  else None.

(** One number with its unit, added to [d]. *)
Definition parseElement (d : Z) (l : list Z) : option (Z * list Z) :=
  match l with
  | [] => None
  | c :: _ =>
      if negb ((c =? 46) || ((48 <=? c) && (c <=? 57))) then None
      else match leadingInt 0 l with
      | None => None
      | Some (v, l1) =>
          let pre := negb (length l1 =? length l)%nat in
          let '(f, scale, l2, post) :=
            match l1 with
            | 46 :: l1' =>
                let '(f, scale, l2) := leadingFraction 0 (of_Z 1) false l1' in
                (f, scale, l2, negb (length l2 =? length l1')%nat)
            | _ => (0, of_Z 1, l1, false)
            end in
          if negb pre && negb post then None
          else
            let '(u, rest) := spanUnit l2 in
            match u, unitMap u with
            | [], _ | _, None => None
            | _, Some unit =>
                if Z.quot (2 ^ 63) unit <? v then None
                else
                  let v := v * unit in
                  let v := if 0 <? f then u64 (v + trunc (fmul (of_Z f) (fdiv (of_Z unit) scale))) else v in
                  if 2 ^ 63 <? v then None
                  else
                    let d := u64 (d + v) in
                    if 2 ^ 63 <? d then None else Some (d, rest)
            end
      end
  end.

(** Every element consumes at least one byte, so the length is enough fuel. *)
Fixpoint parseElements (fuel : nat) (d : Z) (l : list Z) : option Z :=
  match l, fuel with
  | [], _ => Some d
  | _, O => None
  | _, S fuel =>
      match parseElement d l with
      | None => None
      | Some (d, rest) => parseElements fuel d rest
      end
  end.

Definition ParseDuration (s : string) : option Z :=
  let l := bytes s in
  let '(neg, l) :=
    match l with
    | 45 :: l => (true, l)
    | 43 :: l => (false, l)
    | _ => (false, l)
    end in
  match l with
  | [48] => Some 0
  | [] => None
  | _ =>
      match parseElements (length l) 0 l with
      | None => None
      | Some d =>
          if neg then Some (- d)
          else if maxInt64 <? d then None else Some d
      end
  end.

Example parse_90m : ParseDuration "1h30m" = Some (90 * Minute).
Proof. vm_compute. reflexivity. Qed.
Example parse_frac : ParseDuration "-1.5s" = Some (- 1500 * Millisecond).
Proof. vm_compute. reflexivity. Qed.
Example parse_bad : ParseDuration "10" = None ∧ ParseDuration ".s" = None ∧ ParseDuration "3 s" = None.
Proof. vm_compute. auto. Qed.
Example parse_max : ParseDuration "9223372036854775807ns" = Some maxInt64
  ∧ ParseDuration "9223372036854775808ns" = None ∧ ParseDuration "-9223372036854775808ns" = Some minInt64.
Proof. vm_compute. auto. Qed.

(** ** Bounds and termination *)

Lemma leadingInt_length x l v r : leadingInt x l = Some (v, r) → (length r <= length l)%nat.
Proof.
  revert x. induction l as [|c l IH]; intros x; cbn; [by intros [= _ <-]|].
  destruct (_ && _); [|by intros [= _ <-]]. destruct (_ <? _); [done|]. destruct (_ <? _); [done|].
  intros H%IH. lia.
Qed.

Lemma leadingFraction_length x sc o l : (length (leadingFraction x sc o l).2 <= length l)%nat.
Proof.
  revert x sc o. induction l as [|c l IH]; intros x sc o; cbn; [done|].
  destruct (_ && _); [|done]. destruct o; [etrans; [apply IH|lia]|].
  destruct (_ <? _); [etrans; [apply IH|lia]|]. destruct (_ <? _); etrans; try apply IH; lia.
Qed.

Lemma spanUnit_length l u r : spanUnit l = (u, r) → length l = (length u + length r)%nat.
Proof.
  revert u r. induction l as [|c l IH]; intros u r; cbn; [by intros [= <- <-]|].
  destruct (_ || _); [by intros [= <- <-]|]. destruct (spanUnit l) as [u' r'] eqn:E.
  intros [= <- <-]. cbn. by rewrite (IH u' r').
Qed.

Lemma parseElement_spec d l d' r :
  parseElement d l = Some (d', r) → 0 ≤ d' ≤ 2 ^ 63 ∧ (length r < length l)%nat.
Proof.
  unfold parseElement. destruct l as [|c l]; [done|]. destruct (negb (_ || _)); [done|].
  destruct (leadingInt 0 (c :: l)) as [[v l1]|] eqn:E1; [|done]. apply leadingInt_length in E1.
  set (F := match l1 with 46 :: _ => _ | _ => _ end).
  assert (HF : (length F.1.2 <= length l1)%nat).
  { unfold F. repeat case_match; cbn; try lia.
    match goal with H : leadingFraction ?a ?b ?c ?d = (_, _, ?r) |- _ =>
      pose proof (leadingFraction_length a b c d) as HL; rewrite H in HL; cbn in HL end. lia. }
  destruct F as [[[f sc] l2] post]. cbn in HF.
  destruct (_ && _); [done|]. destruct (spanUnit l2) as [u rest] eqn:Eu. apply spanUnit_length in Eu.
  destruct u as [|u0 u]; [done|]. destruct (unitMap _) as [unit|]; [|done].
  destruct (_ <? _); [done|]. cbv zeta. destruct (_ <? _); [done|].
  destruct (2 ^ 63 <? u64 _) eqn:E2; [done|]. intros [= <- <-].
  match goal with |- context [u64 ?x] => pose proof (u64_range x) as Hu end. unfold is_u64 in Hu.
  cbn [length] in *. lia.
Qed.

(** Fuel beyond the length of the input changes nothing: the loop ends because
    it has consumed the text or met an error. *)
Lemma parseElements_fuel n d l : (length l <= n)%nat → parseElements n d l = parseElements (length l) d l.
Proof.
  enough (H : ∀ m n d l, (length l <= n)%nat → (length l <= m)%nat → parseElements n d l = parseElements m d l)
    by (intros; by apply H).
  clear. intros m n. revert m. induction n as [|n IH]; intros m d [|c l] Hn Hm;
    try (by destruct m); [cbn in Hn; lia|].
  destruct m as [|m]; [cbn in Hm; lia|]. cbn [parseElements].
  destruct (parseElement d (c :: l)) as [[d' r]|] eqn:E; [|done].
  apply parseElement_spec in E as [_ E]. apply IH; lia.
Qed.

Lemma parseElements_range n d l v : 0 ≤ d ≤ 2 ^ 63 → parseElements n d l = Some v → 0 ≤ v ≤ 2 ^ 63.
Proof.
  revert d l. induction n as [|n IH]; intros d [|c l] Hd; cbn [parseElements]; try (by intros [= <-]).
  destruct (parseElement d (c :: l)) as [[d' r]|] eqn:E; [|done].
  apply parseElement_spec in E as [E _]. by apply IH.
Qed.

(** A parsed duration always fits a [Duration]. *)
Lemma ParseDuration_range s d : ParseDuration s = Some d → is_i64 d.
Proof.
  unfold ParseDuration. set (P := match bytes s with 45 :: _ => _ | _ => _ end).
  destruct P as [neg l]. intros H. destruct l as [|c l]; [done|].
  assert (Hd : (d = 0) ∨ ∃ v, parseElements (length (c :: l)) 0 (c :: l) = Some v ∧
    (if neg then Some (- v) else if maxInt64 <? v then None else Some v) = Some d).
  { repeat case_match; simplify_eq; eauto; right; eexists; split; eauto;
      repeat case_match; simplify_eq; eauto. }
  destruct Hd as [->|(v & Hv & Hr)]; [tlia|].
  apply parseElements_range in Hv; [|lia]. destruct neg; [simplify_eq; tlia|].
  destruct (maxInt64 <? v) eqn:E; simplify_eq. tlia.
Qed.
