(* ===== verification/GoFlag.v ===== *)
(** * Go's [flag] package

    The command-line parser of the Standard Library, as the two programs use
    it: string, integer, boolean and duration flags of the default set
    [flag.CommandLine].  A flag writes one field of the configuration it was
    registered for.  Decimal numerals are read back exactly; so are durations
    written in nanoseconds. *)

From S2P Require Import Prelude GoInt GoTime GoFloat GoText GoDuration.

(** ** Values *)

(** [strconv.ParseBool]. *)
Definition ParseBool (s : string) : option bool :=
  if one_of s ["1"; "t"; "T"; "TRUE"; "true"; "True"] then Some true
  else if one_of s ["0"; "f"; "F"; "FALSE"; "false"; "False"] then Some false
  else None.

(** [strconv.ParseUint(s, 0, bits)]: the prefix gives the base, and digits may
    be separated by underscores. *)
Definition baseOf (l : list Z) : Z * list Z :=
  match l with
  | 48 :: l' =>
      match l' with
      | c :: _ :: _ =>
          if lowerByte c =? 98 then (2, tail l')
          else if lowerByte c =? 111 then (8, tail l')
          else if lowerByte c =? 120 then (16, tail l')
          else (8, l')
      | _ => (8, l')
      end
  | _ => (10, l)
  end.

(** The value of a digit in bases up to 36. *)
Definition anyDigit (c : Z) : option Z :=
  if (48 <=? c) && (c <=? 57) then Some (c - 48)
  else if (97 <=? lowerByte c) && (lowerByte c <=? 122) then Some (lowerByte c - 97 + 10)
  else None.

Fixpoint baseDigits (base acc : Z) (under : bool) (l : list Z) : option (Z * bool) :=
  match l with
  | [] => Some (acc, under)
  | c :: l =>
      if c =? 95 then baseDigits base acc true l
      else match anyDigit c with
      | Some d => if base <=? d then None else baseDigits base (acc * base + d) under l
      | None => None
      end
  end.

Definition ParseUint0 (bits : Z) (l : list Z) : option Z :=
  match l with
  | [] => None
  | _ =>
      let '(base, body) := baseOf l in
      match baseDigits base 0 false body with
      | None => None
      | Some (v, under) =>
          if 2 ^ bits <=? v then None
          else if under && negb (underscoreOK l) then None
          else Some v
      end
  end.

(** [strconv.ParseInt(s, 0, bits)]. *)
Definition ParseInt0 (bits : Z) (s : string) : option Z :=
  match bytes s with
  | [] => None
  | (c :: l') as l =>
      let neg := c =? 45 in
      match ParseUint0 bits (if neg || (c =? 43) then l' else l) with
      | None => None
      | Some v =>
          if negb neg && (2 ^ (bits - 1) <=? v) then None
          else if neg && (2 ^ (bits - 1) <? v) then None
          else Some (if neg then - v else v)
      end
  end.

(** ** Flags *)

Section flags.
Context {C : Type}.

(** [fl_set] is the [Set] method of the flag's value; a boolean flag needs no
    argument. *)
Record Flag := mkFlag { fl_name : string; fl_bool : bool; fl_set : string → C → option C }.

Definition valueFlag {A} (name : string) (read : string → option A) (put : A → C → C) : Flag :=
  mkFlag name false (λ v c, (λ a, put a c) <$> read v).

Definition StringVar (name : string) : (string → C → C) → Flag := valueFlag name Some.
Definition IntVar (name : string) : (Z → C → C) → Flag := valueFlag name (ParseInt0 intSize).
Definition DurationVar (name : string) : (Z → C → C) → Flag := valueFlag name ParseDuration.
Definition BoolVar (name : string) (put : bool → C → C) : Flag :=
  mkFlag name true (λ v c, (λ b, put b c) <$> ParseBool v).

Fixpoint Lookup (flags : list Flag) (name : string) : option Flag :=
  match flags with
  | [] => None
  | f :: flags => if fl_name f =s name then Some f else Lookup flags name
  end.

(** How an argument reads. *)
Inductive Argument :=
| NotAFlag
| Terminator
| BadSyntax
| Named (name : string) (value : option string).

(** Behind the dashes: a name, up to the first equals sign. *)
Definition splitName (s : string) : Argument :=
  match s with
  | EmptyString => BadSyntax
  | String c _ =>
      if (code c =? 45) || (code c =? 61) then BadSyntax
      else match Cut s 61 with
      | Some (name, value) => Named name (Some value)
      | None => Named s None
      end
  end.

Definition splitArgument (s : string) : Argument :=
  match s with
  | String c (String d r as s') =>
      if negb (code c =? 45) then NotAFlag
      else if code d =? 45 then match r with EmptyString => Terminator | _ => splitName r end
      else splitName s'
  | _ => NotAFlag
  end.

(** The outcome of [flag.Parse]; help and errors end the program. *)
Inductive Parsed :=
| ParsedFlags (c : C) (args : list string)
| HelpWanted
| ParseError.

Fixpoint Parse (flags : list Flag) (c : C) (args : list string) : Parsed :=
  match args with
  | [] => ParsedFlags c []
  | a :: rest =>
      match splitArgument a with
      | NotAFlag => ParsedFlags c args
      | Terminator => ParsedFlags c rest
      | BadSyntax => ParseError
      | Named name value =>
          match Lookup flags name with
          | None => if one_of name ["help"; "h"] then HelpWanted else ParseError
          | Some f =>
              if fl_bool f then
                match fl_set f (default "true" value) c with
                | Some c => Parse flags c rest
                | None => ParseError
                end
              else
                match value, rest with
                | Some v, _ =>
                    match fl_set f v c with Some c => Parse flags c rest | None => ParseError end
                | None, v :: rest =>
                    match fl_set f v c with Some c => Parse flags c rest | None => ParseError end
                | None, [] => ParseError
                end
          end
      end
  end.
End flags.
Arguments Flag : clear implicits.
Arguments Parsed : clear implicits.

(** The exit status of a program that [flag.ExitOnError] ends. *)
Definition exitStatus {C} (p : Parsed C) : option Z :=
  match p with ParsedFlags _ _ => None | HelpWanted => Some 0 | ParseError => Some 2 end.

(** ** Numerals are read back *)

(** [strconv.FormatInt(v, 10)]. *)
Definition FormatInt (v : Z) : string := (if v <? 0 then "-" else "") +:+ FormatUint (Z.abs v).

(** A duration in nanoseconds. *)
Definition formatNs (v : Z) : string := FormatInt v +:+ "ns".

Definition ascii_digits (ds : list Z) : list Z := map (λ d, 48 + d) ds.
Definition decimal (x : Z) (ds : list Z) : Z := fold_left (λ a d, a * 10 + d) ds x.
Definition is_dec (d : Z) : Prop := 0 ≤ d < 10.

Lemma bytes_app s t : bytes (s +:+ t) = bytes s ++ bytes t.
Proof. induction s as [|c s IH]; simpl; [done|]. by rewrite IH. Qed.

Lemma format_loop_S n v acc :
  format_loop (S n) v acc =
  let acc' := String (digit (v `mod` 10)) acc in if v <? 10 then acc' else format_loop n (v `div` 10) acc'.
Proof. done. Qed.

Lemma format_loop_bytes n : ∀ v acc, 0 ≤ v < 10 ^ Z.of_nat (S n) →
  ∃ d ds, bytes (format_loop (S n) v acc) = ascii_digits (d :: ds) ++ bytes acc ∧
    Forall is_dec (d :: ds) ∧ decimal 0 (d :: ds) = v ∧ (d = 0 → ds = []).
Proof.
  induction n as [|n IH]; intros v acc Hv; pose proof (Z.mod_pos_bound v 10 ltac:(lia)) as Hm;
    pose proof (Z.div_mod v 10 ltac:(lia)) as Hdm; rewrite format_loop_S; cbv zeta; destruct (v <? 10) eqn:Hlt.
  1,3: exists v, []; cbn; rewrite Z.mod_small, digit_code by lia; repeat constructor; unfold is_dec; lia.
  { simpl in Hv. lia. }
  rewrite Nat2Z.inj_succ, Z.pow_succ_r in Hv by lia.
  destruct (IH (v `div` 10) (String (digit (v `mod` 10)) acc)) as (d & ds & E & Hd & Hval & H0).
  { split; [apply Z.div_pos; lia|apply Z.div_lt_upper_bound; lia]. }
  exists d, (ds ++ [v `mod` 10]). split_and!.
  - rewrite E. cbn. rewrite digit_code by lia. unfold ascii_digits. rewrite map_app, <- app_assoc. done.
  - rewrite app_comm_cons. apply Forall_app. split; [done|]. by apply Forall_singleton.
  - unfold decimal in *. rewrite app_comm_cons, fold_left_app, Hval. cbn. lia.
  - intros Hz. rewrite (H0 Hz), Hz in Hval. cbn in Hval. lia.
Qed.

Lemma FormatUint_bytes v : 0 ≤ v < 10 ^ 20 →
  ∃ d ds, bytes (FormatUint v) = ascii_digits (d :: ds) ∧ Forall is_dec (d :: ds) ∧
    decimal 0 (d :: ds) = v ∧ (d = 0 → ds = []).
Proof.
  intros Hv. destruct (format_loop_bytes 19 v "" Hv) as (d & ds & E & H). exists d, ds.
  split; [|done]. unfold FormatUint. rewrite E. cbn. by rewrite app_nil_r.
Qed.

Lemma baseDigits_decimal ds : ∀ x u, Forall is_dec ds → baseDigits 10 x u (ascii_digits ds) = Some (decimal x ds, u).
Proof.
  induction ds as [|d ds IH]; intros x u Hd; [done|]. inversion Hd as [|? ? H1 H2]; subst. unfold is_dec in H1.
  cbn. unfold anyDigit. ztests. cbn [andb]. ztests. replace (48 + d - 48) with d by lia. by rewrite IH.
Qed.

Lemma decimal_mono ds : ∀ x, Forall is_dec ds → 0 ≤ x → x ≤ decimal x ds.
Proof.
  induction ds as [|e ds IH]; intros x Hl Hx; [done|]. inversion Hl as [|? ? H1 H2]; subst. unfold is_dec in H1.
  specialize (IH (x * 10 + e) H2 ltac:(lia)). unfold decimal in *. cbn. lia.
Qed.

Lemma ascii_digit d : is_dec d → (48 <=? 48 + d) && (48 + d <=? 57) = true.
Proof. unfold is_dec. intros. by ztests. Qed.

Lemma baseOf_other c l : c ≠ 48 → baseOf (c :: l) = (10, c :: l).
Proof. intros Hc. destruct c as [|q|q]; try done. do 6 (destruct q as [q|q|]; try done). Qed.

(** What [FormatUint] prints, base 0 reads back. *)
Lemma ParseUint0_FormatUint bits v :
  0 ≤ v < 10 ^ 20 → v < 2 ^ bits → ParseUint0 bits (bytes (FormatUint v)) = Some v.
Proof.
  intros Hv Hb. destruct (FormatUint_bytes v Hv) as (d & ds & E & Hd & Hval & H0). rewrite E.
  unfold ParseUint0. cbn [ascii_digits map]. inversion Hd as [|? ? H1 H2]; subst v. unfold is_dec in H1.
  destruct (decide (d = 0)) as [->|Hn].
  - rewrite (H0 eq_refl) in *. change (decimal 0 [0]) with 0 in *. change (48 + 0) with 48. cbn [map baseOf baseDigits]. by ztests.
  - assert (E0 : baseOf (48 + d :: map (λ e, 48 + e) ds) = (10, ascii_digits (d :: ds))).
    { apply baseOf_other. lia. }
    rewrite E0, baseDigits_decimal by done. by ztests.
Qed.

Lemma FormatInt_sign v :
  bytes (FormatInt v) = (if v <? 0 then [45] else []) ++ bytes (FormatUint (Z.abs v)).
Proof. unfold FormatInt. rewrite bytes_app. by destruct (v <? 0). Qed.

Lemma ParseInt0_FormatInt bits v :
  0 < bits ≤ 64 → - 2 ^ (bits - 1) ≤ v < 2 ^ (bits - 1) → ParseInt0 bits (FormatInt v) = Some v.
Proof.
  intros Hb Hv. assert (Hp : 2 ^ bits = 2 * 2 ^ (bits - 1)) by (rewrite <- Z.pow_succ_r by lia; f_equal; lia).
  assert (Hp64 : 2 ^ (bits - 1) ≤ 2 ^ 63) by (apply Z.pow_le_mono_r; lia).
  assert (Ha : 0 ≤ Z.abs v < 10 ^ 20) by lia.
  destruct (FormatUint_bytes _ Ha) as (d & ds & E & Hd & _). inversion Hd as [|? ? H1 _]; subst. unfold is_dec in H1.
  unfold ParseInt0. rewrite FormatInt_sign. destruct (v <? 0) eqn:Hs; cbn [app].
  - cbn [Z.eqb Pos.eqb orb]. rewrite ParseUint0_FormatUint by lia. cbn. ztests. f_equal. lia.
  - pose proof (ParseUint0_FormatUint bits (Z.abs v) Ha ltac:(lia)) as HP. rewrite E in *. cbn [ascii_digits map] in *.
    replace (48 + d =? 45) with false by lia. replace (48 + d =? 43) with false by lia. cbn [orb].
    cbv beta iota zeta. rewrite HP. cbn. ztests. f_equal. lia.
Qed.

Lemma leadingInt_decimal ds rest : ∀ x, Forall is_dec ds → 0 ≤ x → decimal x ds ≤ 2 ^ 63 →
  match rest with c :: _ => (48 <=? c) && (c <=? 57) = false | [] => True end →
  leadingInt x (ascii_digits ds ++ rest) = Some (decimal x ds, rest).
Proof.
  induction ds as [|d ds IH]; intros x Hd Hx Hle Hrest.
  - destruct rest as [|c rest]; [done|]. cbn. by rewrite Hrest.
  - inversion Hd as [|? ? H1 H2]; subst. pose proof (decimal_mono ds (x * 10 + d) H2) as Hm. cbn in Hle.
    unfold is_dec in H1. fold (decimal (x * 10 + d) ds) in Hle.
    cbn [ascii_digits map app leadingInt]. rewrite ascii_digit by done.
    replace (Z.quot (2 ^ 63) 10) with 922337203685477580 by done. ztests.
    replace (48 + d - 48) with d by lia. ztests. by apply IH; [|lia|..].
Qed.

(** A duration written in nanoseconds is read back. *)
Lemma ParseDuration_ns v : is_i64 v → ParseDuration (formatNs v) = Some v.
Proof.
  intros Hv. assert (Ha : 0 ≤ Z.abs v < 10 ^ 20) by tlia.
  destruct (FormatUint_bytes _ Ha) as (d & ds & E & Hd & Hval & _).
  inversion Hd as [|? ? H1 _]; subst. unfold is_dec in H1.
  set (l := ascii_digits (d :: ds) ++ bytes "ns").
  assert (He : parseElement 0 l = Some (Z.abs v, [])).
  { unfold parseElement. unfold l at 1. cbn [ascii_digits map app].
    rewrite ascii_digit by done. rewrite orb_true_r. cbn [negb]. unfold l.
    rewrite leadingInt_decimal by (done || lia || tlia). rewrite Hval.
    rewrite length_app. change (bytes "ns") with [110; 115]. cbn [length ascii_digits map].
    replace (_ =? _)%nat with false by (symmetry; apply Nat.eqb_neq; cbn; lia). cbn [negb andb].
    change (spanUnit [110; 115]) with ([110; 115], @nil Z).
    change (0 <? 0) with false. cbv beta iota.
    change (unitMap [110; 115]) with (Some 1). cbv beta iota. replace (Z.quot (2 ^ 63) 1) with (2 ^ 63) by done. rewrite Z.mul_1_r.
    assert (Z.abs v ≤ 2 ^ 63) by tlia. ztests. rewrite u64_id by (unfold is_u64; lia). by ztests. }
  unfold ParseDuration, formatNs. rewrite bytes_app, FormatInt_sign, E, <- app_assoc. fold l.
  assert (Hp : ∀ k, (1 ≤ k)%nat → parseElements k 0 l = Some (Z.abs v)).
  { intros [|k] Hk; [lia|]. cbn [parseElements]. rewrite He. by destruct k. }
  assert (Hl : ∃ q, l = 48 + d :: q ∧ q ≠ []) by (eexists; split; [reflexivity|by destruct ds]).
  destruct Hl as ([|q0 q] & Hl & Hq); [done|]. rewrite Hl in *.
  assert (Hlen : (1 ≤ length ((48 + d)%Z :: q0 :: q))%nat) by (cbn; lia).
  apply Hp in Hlen. remember (48 + d) as c eqn:Ec.
  assert (Hc : c = 48 ∨ c = 49 ∨ c = 50 ∨ c = 51 ∨ c = 52 ∨ c = 53 ∨ c = 54 ∨ c = 55 ∨ c = 56 ∨ c = 57) by lia.
  clear - Hc Hlen Hv.
  destruct (v <? 0) eqn:Hs; cbn [app]; repeat destruct Hc as [->|Hc]; subst;
    rewrite Hlen; unfold is_i64, minInt64, maxInt64 in *; ztests; f_equal; lia.
Qed.

(** ** Range *)

Lemma baseDigits_nonneg base l : ∀ x u v w, 0 ≤ base → 0 ≤ x → baseDigits base x u l = Some (v, w) → 0 ≤ v.
Proof.
  induction l as [|c l IH]; intros x u v w Hb Hx; cbn; [by intros [= <- _]|].
  destruct (c =? 95); [by apply IH|]. destruct (anyDigit c) as [d|] eqn:E; [|done].
  destruct (base <=? d); [done|]. apply IH; [done|].
  unfold anyDigit in E. repeat split_if; simplify_eq; bools; nia.
Qed.

Lemma baseOf_base l : 0 ≤ (baseOf l).1.
Proof. unfold baseOf. repeat case_match; cbn; lia. Qed.

Lemma ParseUint0_range bits l v : ParseUint0 bits l = Some v → 0 ≤ v < 2 ^ bits.
Proof.
  unfold ParseUint0. destruct l as [|c l]; [done|]. pose proof (baseOf_base (c :: l)) as Hb.
  destruct (baseOf (c :: l)) as [base body]. cbn in Hb.
  destruct (baseDigits base 0 false body) as [[n u]|] eqn:E; [|done]. apply baseDigits_nonneg in E; [|lia..].
  repeat split_if; intros; simplify_eq. lia.
Qed.

Lemma ParseInt0_range bits s v :
  0 < bits → ParseInt0 bits s = Some v → - 2 ^ (bits - 1) ≤ v < 2 ^ (bits - 1).
Proof.
  unfold ParseInt0. destruct (bytes s) as [|c l]; [done|]. intros Hb.
  destruct (ParseUint0 _ _) as [n|] eqn:E; [|done]. apply ParseUint0_range in E.
  assert (0 < 2 ^ (bits - 1)) by (apply Z.pow_pos_nonneg; lia).
  destruct (c =? 45); simpl; repeat split_if; intros; simplify_eq; lia.
Qed.

Example parse_int0_ex : ParseInt0 32 "0x1F" = Some 31 ∧ ParseInt0 32 "0755" = Some 493 ∧ ParseInt0 32 "-0" = Some 0 ∧
  ParseInt0 32 "1_000" = Some 1000 ∧ ParseInt0 32 "2147483648" = None ∧ ParseInt0 32 "-2147483648" = Some (- 2 ^ 31) ∧
  ParseInt0 32 "08" = None ∧ ParseInt0 32 "" = None ∧ ParseInt0 32 "0b" = None.
Proof. vm_compute. done. Qed.
