(* ===== verification/GoJson.v ===== *)
(** * Go's [encoding/json]

    Text to values and back, as the programs use it: the grammar with its
    nesting limit, string literals with their escapes and the replacement of
    malformed UTF-8, number literals, field names with the folding of the
    decoder, and the writer of objects, strings, integers and booleans.  A text
    is its bytes.  What the writer prints the parser reads back. *)

From S2P Require Import Prelude GoInt GoTime GoFloat GoText GoDuration GoFlag.
From Stdlib Require Import SpecFloat.

(** ** UTF-8 *)

Definition between (a b c : Z) : bool := (a <=? c) && (c <=? b).
Definition cont (c : Z) : bool := between 0x80 0xBF c.

(** [utf8.DecodeRune]: the length of the encoding at the front of the text,
    0 when it is malformed (Go then consumes one byte). *)
Definition runeWidth (l : list Z) : nat :=
  match l with
  | [] => 0
  | a :: l =>
      if between 0 0x7F a then 1
      else match l with
      | [] => 0
      | b :: l =>
          if between 0xC2 0xDF a then if cont b then 2 else 0
          else match l with
          | [] => 0
          | c :: l =>
              if a =? 0xE0 then if between 0xA0 0xBF b && cont c then 3 else 0
              else if between 0xE1 0xEC a || between 0xEE 0xEF a then if cont b && cont c then 3 else 0
              else if a =? 0xED then if between 0x80 0x9F b && cont c then 3 else 0
              else match l with
              | [] => 0
              | d :: _ =>
                  if a =? 0xF0 then if between 0x90 0xBF b && cont c && cont d then 4 else 0
                  else if between 0xF1 0xF3 a then if cont b && cont c && cont d then 4 else 0
                  else if a =? 0xF4 then if between 0x80 0x8F b && cont c && cont d then 4 else 0
                  else 0
              end
          end
      end
  end.

(** [utf8.EncodeRune]; surrogates and values out of range give U+FFFD. *)
Definition replacement : list Z := [0xEF; 0xBF; 0xBD].

Definition encodeRune (r : Z) : list Z :=
  if r <? 0x80 then [r]
  else if r <? 0x800 then [0xC0 + r / 64; 0x80 + r mod 64]
  else if between 0xD800 0xDFFF r || (0x10FFFF <? r) then replacement
  else if r <? 0x10000 then [0xE0 + r / 4096; 0x80 + r / 64 mod 64; 0x80 + r mod 64]
  else [0xF0 + r / 262144; 0x80 + r / 4096 mod 64; 0x80 + r / 64 mod 64; 0x80 + r mod 64].

(** ** Values *)

#[warnings="-register-all"]
Inductive json :=
| JNull
| JBool (b : bool)
| JNum (lit : list Z)
| JStr (s : list Z)
| JArr (l : list json)
| JObj (l : list (list Z * json)).

(** ** The parser *)

Definition isSpace (c : Z) : bool := (c =? 32) || (c =? 9) || (c =? 10) || (c =? 13).

Fixpoint skipSpace (l : list Z) : list Z :=
  match l with
  | c :: l' => if isSpace c then skipSpace l' else l
  | [] => []
  end.

(** Four hexadecimal digits. *)
Definition hex4 (l : list Z) : option (Z * list Z) :=
  match l with
  | a :: b :: c :: d :: l =>
      match hexDigits 0 [a; b; c; d] with
      | Some v => Some (v, l)
      | None => None
      end
  | _ => None
  end.

(** Behind [\u]: a pair of surrogates is one rune, a lone one is replaced. *)
Definition unicodeEscape (l : list Z) : option (list Z * list Z) :=
  match hex4 l with
  | None => None
  | Some (r, l) =>
      if between 0xD800 0xDFFF r then
        match drop_prefix [92; 117] l ≫= hex4 with
        | Some (r2, l') =>
            if between 0xD800 0xDBFF r && between 0xDC00 0xDFFF r2
            then Some (encodeRune (0x10000 + (r - 0xD800) * 1024 + (r2 - 0xDC00)), l')
            else Some (replacement, l)
        | None => Some (replacement, l)
        end
      else Some (encodeRune r, l)
  end.

Definition simpleEscape (c : Z) : option Z :=
  if c =? 34 then Some 34 else if c =? 92 then Some 92 else if c =? 47 then Some 47
  else if c =? 98 then Some 8 else if c =? 102 then Some 12 else if c =? 110 then Some 10
  else if c =? 114 then Some 13 else if c =? 116 then Some 9 else None.

(** A string literal behind its opening quote: the bytes it stands for, and
    the rest.  Every turn consumes a byte, so the length is enough fuel. *)
Fixpoint readString (fuel : nat) (l : list Z) : option (list Z * list Z) :=
  match fuel with
  | O => None
  | S fuel =>
      let more (bytes rest : list Z) :=
        match readString fuel rest with
        | Some (s, rest) => Some (bytes ++ s, rest)
        | None => None
        end in
      match l with
      | [] => None
      | c :: l' =>
          if c =? 34 then Some ([], l')
          else if c =? 92 then
            match l' with
            | [] => None
            | e :: l'' =>
                if e =? 117 then
                  match unicodeEscape l'' with Some (b, rest) => more b rest | None => None end
                else match simpleEscape e with Some b => more [b] l'' | None => None end
            end
          else if c <? 32 then None
          else match runeWidth l with
          | O => more replacement l'
          | w => more (take w l) (drop w l)
          end
      end
  end.

(** Number literals. *)
Fixpoint readDigits (l : list Z) : list Z * list Z :=
  match l with
  | c :: l' => if between 48 57 c then let '(ds, rest) := readDigits l' in (c :: ds, rest) else ([], l)
  | [] => ([], [])
  end.

Definition readFraction (l : list Z) : option (list Z * list Z) :=
  match l with
  | c :: l' =>
      if c =? 46 then
        match readDigits l' with
        | ([], _) => None
        | (ds, rest) => Some (46 :: ds, rest)
        end
      else Some ([], l)
  | [] => Some ([], [])
  end.

Definition readExp (l : list Z) : option (list Z * list Z) :=
  match l with
  | c :: l' =>
      if (c =? 101) || (c =? 69) then
        let '(sign, l'') := match l' with s :: t => if (s =? 43) || (s =? 45) then ([s], t) else ([], l') | [] => ([], []) end in
        match readDigits l'' with
        | ([], _) => None
        | (ds, rest) => Some (c :: sign ++ ds, rest)
        end
      else Some ([], l)
  | [] => Some ([], [])
  end.

(** A leading zero is the whole integer part. *)
Definition readInteger (l : list Z) : option (list Z * list Z) :=
  match l with
  | c :: l' =>
      if c =? 48 then Some ([48], l')
      else match readDigits l with ([], _) => None | r => Some r end
  | [] => None
  end.

Definition readMinus (l : list Z) : list Z * list Z :=
  match l with
  | c :: l' => if c =? 45 then ([45], l') else ([], l)
  | [] => ([], [])
  end.

Definition readNumber (l : list Z) : option (list Z * list Z) :=
  let '(sign, l) := readMinus l in
  match readInteger l with
  | None => None
  | Some (i, l) =>
      match readFraction l with
      | None => None
      | Some (f, l) =>
          match readExp l with
          | None => None
          | Some (e, l) => Some (sign ++ i ++ f ++ e, l)
          end
      end
  end.

(** The elements of an array and the members of an object, behind the opening
    bracket and known not to be empty; [value] reads what they contain. *)
Fixpoint readElements (value : list Z → option (json * list Z)) (fuel : nat) (l : list Z)
  : option (list json * list Z) :=
  match fuel with
  | O => None
  | S fuel =>
      match value l with
      | None => None
      | Some (x, l) =>
          match skipSpace l with
          | [] => None
          | c :: l =>
              if c =? 44 then
                match readElements value fuel l with
                | Some (xs, l) => Some (x :: xs, l)
                | None => None
                end
              else if c =? 93 then Some ([x], l)
              else None
          end
      end
  end.

(** A member's name and the colon behind it. *)
Definition readName (l : list Z) : option (list Z * list Z) :=
  match skipSpace l with
  | [] => None
  | q :: l =>
      if q =? 34 then
        match readString (S (length l)) l with
        | None => None
        | Some (k, l) =>
            match skipSpace l with
            | [] => None
            | c :: l => if c =? 58 then Some (k, l) else None
            end
        end
      else None
  end.

Fixpoint readMembers (value : list Z → option (json * list Z)) (fuel : nat) (l : list Z)
  : option (list (list Z * json) * list Z) :=
  match fuel with
  | O => None
  | S fuel =>
      match readName l with
      | None => None
      | Some (k, l) =>
          match value l with
          | None => None
          | Some (x, l) =>
              match skipSpace l with
              | [] => None
              | c :: l =>
                  if c =? 44 then
                    match readMembers value fuel l with
                    | Some (ms, l) => Some ((k, x) :: ms, l)
                    | None => None
                    end
                  else if c =? 125 then Some ([(k, x)], l)
                  else None
              end
          end
      end
  end.

(** Behind an opening bracket: the closing one, or a value first. *)
Definition closes (close : Z) (l : list Z) : option (list Z) :=
  match skipSpace l with
  | c :: rest => if c =? close then Some rest else None
  | [] => None
  end.

Definition readWord (word : string) (v : json) (l : list Z) : option (json * list Z) :=
  match drop_prefix (bytes word) l with Some rest => Some (v, rest) | None => None end.

(** A value, nested at most [d] deep, and the rest. *)
Fixpoint readValue (d : nat) (l : list Z) : option (json * list Z) :=
  match skipSpace l with
  | [] => None
  | c :: l' =>
      if c =? 123 then
        match d with
        | O => None
        | S d =>
            match closes 125 l' with
            | Some rest => Some (JObj [], rest)
            | None =>
                match readMembers (readValue d) (length l') l' with
                | Some (ms, rest) => Some (JObj ms, rest)
                | None => None
                end
            end
        end
      else if c =? 91 then
        match d with
        | O => None
        | S d =>
            match closes 93 l' with
            | Some rest => Some (JArr [], rest)
            | None =>
                match readElements (readValue d) (length l') l' with
                | Some (xs, rest) => Some (JArr xs, rest)
                | None => None
                end
            end
        end
      else if c =? 34 then
        match readString (S (length l')) l' with Some (s, rest) => Some (JStr s, rest) | None => None end
      else if c =? 116 then readWord "true" (JBool true) (c :: l')
      else if c =? 102 then readWord "false" (JBool false) (c :: l')
      else if c =? 110 then readWord "null" JNull (c :: l')
      else match readNumber (c :: l') with Some (n, rest) => Some (JNum n, rest) | None => None end
  end.

Definition maxNestingDepth : nat := N.to_nat 10000.

(** The first value of a stream ([Decoder.Decode]) and a whole text
    ([json.Unmarshal]). *)
Definition decodeStream (l : list Z) : option (json * list Z) := readValue maxNestingDepth l.

Definition onlySpace (l : list Z) : bool := bool_decide (skipSpace l = []).

Definition unmarshalText (l : list Z) : option json :=
  match decodeStream l with
  | Some (v, rest) => if onlySpace rest then Some v else None
  | None => None
  end.

(** ** Members of structs

    A destination of type [C] is a list of fields; setting one from a value is
    an error ([None]) when the value does not fit.  A null leaves a scalar and
    a struct as they are. *)

Definition upper (c : Z) : Z := if between 97 122 c then c - 32 else c.

(** [foldName]: ASCII letters in upper case, the two other runes that fold to
    ASCII letters (the Kelvin sign and the long s) as those letters. *)
Fixpoint foldName (l : list Z) : list Z :=
  match l with
  | 0xE2 :: 0x84 :: 0xAA :: l => 75 :: foldName l
  | 0xC5 :: 0xBF :: l => 83 :: foldName l
  | c :: l => upper c :: foldName l
  | [] => []
  end.

Section fields.
Context {C : Type}.

Record Field := mkField { fd_name : string; fd_set : json → C → option C }.

(** An exact name comes before a folded one. *)
Definition findField (fields : list Field) (key : list Z) : option Field :=
  match List.find (λ f, bool_decide (bytes (fd_name f) = key)) fields with
  | Some f => Some f
  | None => List.find (λ f, bool_decide (foldName (bytes (fd_name f)) = foldName key)) fields
  end.

(** Members in order, a repeated one once more; [strict] refuses names that are
    no field ([DisallowUnknownFields]). *)
Fixpoint setMembers (strict : bool) (fields : list Field) (ms : list (list Z * json)) (c : C) : option C :=
  match ms with
  | [] => Some c
  | (k, v) :: ms =>
      match findField fields k with
      | None => if strict then None else setMembers strict fields ms c
      | Some f => c ← fd_set f v c; setMembers strict fields ms c
      end
  end.

Definition decodeStruct (strict : bool) (fields : list Field) (j : json) (c : C) : option C :=
  match j with
  | JNull => Some c
  | JObj ms => setMembers strict fields ms c
  | _ => None
  end.

Definition scalar {A} (read : json → option A) (put : A → C → C) (j : json) (c : C) : option C :=
  match j with JNull => Some c | _ => (λ a, put a c) <$> read j end.
End fields.
Arguments Field : clear implicits.

Definition readStr (j : json) : option string := match j with JStr s => Some (unbytes s) | _ => None end.
Definition readBool (j : json) : option bool := match j with JBool b => Some b | _ => None end.
Definition readInt (bits : Z) (j : json) : option Z :=
  match j with JNum n => ParseInt bits (unbytes n) | _ => None end.
Definition readUint (j : json) : option Z := match j with JNum n => ParseUint 64 (unbytes n) | _ => None end.
Definition readFloat (j : json) : option float64 := match j with JNum n => ParseFloat (unbytes n) | _ => None end.

(** ** The writer *)

Definition hexDigit (n : Z) : Z := if n <? 10 then 48 + n else 87 + n.

Definition escapeByte (c : Z) : list Z :=
  if (c =? 34) || (c =? 92) then [92; c]
  else if c =? 8 then [92; 98] else if c =? 12 then [92; 102] else if c =? 10 then [92; 110]
  else if c =? 13 then [92; 114] else if c =? 9 then [92; 116]
  else if (c <? 32) || (c =? 38) || (c =? 60) || (c =? 62)
  then [92; 117; 48; 48; hexDigit (c / 16); hexDigit (c mod 16)]
  else [c].

(** U+2028 and U+2029 are escaped, other runes copied. *)
Definition escapeRune (r : list Z) : list Z :=
  match r with
  | [c] => escapeByte c
  | _ =>
      if bool_decide (r = [0xE2; 0x80; 0xA8]) then [92; 117; 50; 48; 50; 56]
      else if bool_decide (r = [0xE2; 0x80; 0xA9]) then [92; 117; 50; 48; 50; 57]
      else r
  end.

(** A text rune by rune; a malformed byte is a rune of its own.  Every turn
    consumes a byte, so the length is enough fuel. *)
Fixpoint mapRunes (good : list Z → list Z) (bad : list Z) (fuel : nat) (l : list Z) : list Z :=
  match fuel, l with
  | O, _ | _, [] => []
  | S fuel, _ :: l' =>
      match runeWidth l with
      | O => bad ++ mapRunes good bad fuel l'
      | w => good (take w l) ++ mapRunes good bad fuel (drop w l)
      end
  end.

Definition badRune : list Z := [92; 117; 102; 102; 102; 100].
Definition escape (l : list Z) : list Z := mapRunes escapeRune badRune (length l) l.
Definition quote (l : list Z) : list Z := 34 :: escape l ++ [34].

(** The text with malformed bytes replaced, [strings.ToValidUTF8] byte by
    byte. *)
Definition toValid (l : list Z) : list Z := mapRunes id replacement (length l) l.

Fixpoint commas (l : list (list Z)) : list Z :=
  match l with
  | [] => []
  | [x] => x
  | x :: l => x ++ 44 :: commas l
  end.

Fixpoint print (j : json) : list Z :=
  match j with
  | JNull => bytes "null"
  | JBool b => bytes (if b then "true" else "false")
  | JNum n => n
  | JStr s => quote s
  | JArr l => 91 :: commas (map print l) ++ [93]
  | JObj l => 123 :: commas (map (λ kv, quote kv.1 ++ 58 :: print kv.2) l) ++ [125]
  end.

(** What is read back of a value. *)
Fixpoint clean (j : json) : json :=
  match j with
  | JStr s => JStr (toValid s)
  | JArr l => JArr (map clean l)
  | JObj l => JObj (map (λ kv, (toValid kv.1, clean kv.2)) l)
  | _ => j
  end.

Fixpoint depth (j : json) : nat :=
  match j with
  | JArr l => S (list_max (map depth l))
  | JObj l => S (list_max (map (λ kv, depth kv.2) l))
  | _ => O
  end.

Definition str (s : string) : json := JStr (bytes s).
Definition int (v : Z) : json := JNum (bytes (FormatInt v)).
Definition uint (v : Z) : json := JNum (bytes (FormatUint v)).

Definition member (name : string) (v : json) : list Z * json := (bytes name, v).

(** A member with the option [omitempty]. *)
Definition omitempty (empty : bool) (name : string) (v : json) : list (list Z * json) :=
  if empty then [] else [member name v].

(** *** Floating-point numbers

    [strconv.AppendFloat(b, f, fmt, -1, 64)]: the smallest number of digits
    that [ParseFloat] reads back as the same value, and of these the nearest. *)

#[export] Instance spec_float_eq_dec : EqDecision float64.
Proof. unfold float64. solve_decision. Defined.

Definition zeros (n : Z) : list Z := replicate (Z.to_nat n) 48.

(** [%f]: the digits [ds] with the decimal point behind the first [dp]. *)
Definition formatF (ds : list Z) (dp : Z) : list Z :=
  let nd := Z.of_nat (length ds) in
  if dp <=? 0 then [48; 46] ++ zeros (- dp) ++ ds
  else if nd <=? dp then ds ++ zeros (dp - nd)
  else take (Z.to_nat dp) ds ++ 46 :: drop (Z.to_nat dp) ds.

(** [%e], without the leading zero of a one-digit negative exponent, which the
    JSON writer drops. *)
Definition formatE (ds : list Z) (dp : Z) : list Z :=
  let e := dp - 1 in
  take 1 ds ++ (if (2 <=? length ds)%nat then 46 :: drop 1 ds else [])
  ++ 101 :: (if e <? 0 then 45 else 43) :: bytes (FormatUint (Z.abs e)).

Fixpoint dropZeros (l : list Z) : list Z :=
  match l with
  | c :: l' => if c =? 48 then dropZeros l' else l
  | [] => []
  end.

(** The text of [v * 10 ^ exp], without trailing zeros in the digits. *)
Definition formatDecimal (neg useE : bool) (v exp : Z) : list Z :=
  let ds := bytes (FormatUint v) in
  let dp := Z.of_nat (length ds) + exp in
  let ds := rev (dropZeros (rev ds)) in
  (if neg then [45] else []) ++ if useE then formatE ds dp else formatF ds dp.

Definition readsBack (x : float64) (l : list Z) : bool := bool_decide (ParseFloat (unbytes l) = Some x).

(** The value is [num / den], below [10 ^ k]; from [n] digits on. *)
Fixpoint shortest (x : float64) (neg useE : bool) (num den k : Z) (n : Z) (fuel : nat) : option (list Z) :=
  match fuel with
  | O => None
  | S fuel =>
      let num' := if n - k <? 0 then num else num * 10 ^ (n - k) in
      let den' := if n - k <? 0 then den * 10 ^ (k - n) else den in
      let lo := num' / den' in
      let r := num' mod den' in
      let down := formatDecimal neg useE lo (k - n) in
      let up := formatDecimal neg useE (lo + 1) (k - n) in
      match readsBack x down, readsBack x up with
      | true, true =>
          Some (if (2 * r <? den') || ((2 * r =? den') && Z.even lo) then down else up)
      | true, false => Some down
      | false, true => Some up
      | false, false => shortest x neg useE num den k (n + 1) fuel
      end
  end.

(** The number of digits in front of the decimal point, zeros behind it
    counting negative. *)
Definition decimalPoint (num den : Z) : Z :=
  default 0 (List.find (λ k, if k <? 0 then num * 10 ^ (- k) <? den else num <? den * 10 ^ k) (seqZ (-330) 650)).

(** The writer's text of a float; NaN and the infinities are an error. *)
Definition FormatFloat (x : float64) : option (list Z) :=
  match x with
  | S754_zero neg => Some (if neg then [45; 48] else [48])
  | S754_finite neg m e =>
      let num := Zpos m * 2 ^ (Z.max 0 e) in
      let den := 2 ^ (Z.max 0 (- e)) in
      let useE := flt (Abs x) (lit 1 1000000) || fle (of_Z (10 ^ 21)) (Abs x) in
      shortest x neg useE num den (decimalPoint num den) 1 17
  | _ => None
  end.
