(* ===== verification/JsonFacts.v ===== *)
(** * What is written as JSON is read back

    For the reader and the writer of [GoJson]: strings come back with their
    malformed bytes replaced, integers and booleans come back as they are, and
    so does every value built of them, up to the nesting limit, whatever
    follows it. *)

From S2P Require Import Prelude GoInt GoTime GoFloat GoText GoDuration GoFlag GoJson.

(** ** Runes *)

Lemma runeWidth_local l w : runeWidth l = S w →
  length (take (S w) l) = S w ∧ ∀ rest, runeWidth (take (S w) l ++ rest) = S w.
Proof.
  intros H. destruct l as [|a [|b [|c [|d l]]]]; cbn in H; [done|..];
    repeat (match type of H with context [if ?x then _ else _] => destruct x eqn:? end); try done;
    injection H as <-; (split; [done|]); intros rest; cbn;
    repeat match goal with E : _ = true |- _ => rewrite E end;
    repeat match goal with E : _ = false |- _ => rewrite E end; done.
Qed.

Lemma runeWidth_first c l w : runeWidth (c :: l) = S w → 0 ≤ c ∧ (c < 128 → w = O) ∧ (128 ≤ c → 0xC2 ≤ c ∧ w ≠ O).
Proof.
  intros H. destruct l as [|b [|c' [|d l]]]; cbn in H;
    repeat (match type of H with context [if ?x then _ else _] => destruct x eqn:? end); try done;
    injection H as <-; unfold between in *; bools; repeat match goal with H : _ ∨ _ |- _ => destruct H; bools end;
    (split; [lia|]); split; intros; repeat split; lia || done.
Qed.

(** ** Strings *)

Definition push (s : list Z) (r : option (list Z * list Z)) : option (list Z * list Z) :=
  match r with Some (t, rest) => Some (s ++ t, rest) | None => None end.

Lemma push_push s t r : push s (push t r) = push (s ++ t) r.
Proof. destruct r as [[u rest]|]; [|done]. cbn. by rewrite app_assoc. Qed.

(** Reading what stands for one rune. *)
Definition reads_as (text rune : list Z) : Prop :=
  ∀ n rest, readString (S n) (text ++ rest) = push rune (readString n rest).

Lemma escapeByte_reads c : 0 ≤ c < 128 → reads_as (escapeByte c) [c].
Proof.
  intros Hc. assert (Hall : Forall (λ c, reads_as (escapeByte c) [c]) (seqZ 0 128)).
  { change (seqZ 0 128) with (ltac:(let l := eval vm_compute in (seqZ 0 128) in exact l)).
    repeat (constructor; [intros n rest; reflexivity|]). constructor. }
  rewrite Forall_forall in Hall. apply Hall. apply elem_of_seqZ. lia.
Qed.

Lemma rune_reads l w : runeWidth l = S w → reads_as (escapeRune (take (S w) l)) (take (S w) l).
Proof.
  intros H. pose proof (runeWidth_local _ _ H) as [Hlen Hloc]. destruct l as [|c l]; [done|].
  pose proof (runeWidth_first _ _ _ H) as (H0 & Hlow & Hhigh). destruct (decide (c < 128)) as [Hc|Hc].
  { rewrite (Hlow Hc). cbn [take escapeRune]. by apply escapeByte_reads. }
  destruct Hhigh as [Hc2 Hw]; [lia|]. destruct w as [|w]; [done|]. clear Hw Hlow.
  assert (Hraw : reads_as (take (S (S w)) (c :: l)) (take (S (S w)) (c :: l))).
  { intros n rest. specialize (Hloc rest). remember (take (S (S w)) (c :: l)) as r eqn:Er.
    destruct r as [|c' r]; [done|]. assert (c' = c) as -> by (cbn in Er; by injection Er). cbn [app readString].
    replace (c =? 34) with false by lia. replace (c =? 92) with false by lia. replace (c <? 32) with false by lia.
    cbn [app] in Hloc. rewrite Hloc. rewrite <- Hlen. rewrite app_comm_cons, take_app_length, drop_app_length. done. }
  assert (Hne : ∀ x, take (S (S w)) (c :: l) ≠ [x]) by (intros x E; rewrite E in Hlen; done).
  unfold escapeRune. destruct (take (S (S w)) (c :: l)) as [|a [|b r]] eqn:Et; [done|by destruct (Hne a)|].
  case_bool_decide as E1; [rewrite E1; intros n rest; reflexivity|].
  case_bool_decide as E2; [rewrite E2; intros n rest; reflexivity|]. done.
Qed.

Lemma escapeRune_nonempty l w : runeWidth l = S w → (1 ≤ length (escapeRune (take (S w) l)))%nat.
Proof.
  intros H. pose proof (runeWidth_local _ _ H) as [Hlen _]. destruct (take (S w) l) as [|a [|b r]]; [done| |].
  - cbn. unfold escapeByte. repeat split_if; cbn; lia.
  - unfold escapeRune. repeat case_bool_decide; cbn; lia.
Qed.

Lemma readString_runes n : ∀ l fuel rest, (length l ≤ n)%nat →
  (length (mapRunes escapeRune badRune n l) < fuel)%nat →
  readString fuel (mapRunes escapeRune badRune n l ++ 34 :: rest)
  = Some (mapRunes id replacement n l, rest).
Proof.
  induction n as [|n IH]; intros l fuel rest Hn Hf; (destruct fuel as [|fuel]; [lia|]).
  { destruct l; [done|cbn in Hn; lia]. }
  destruct l as [|c l]; [done|]. cbn [mapRunes] in *. destruct (runeWidth (c :: l)) as [|w] eqn:Hw.
  - rewrite <- app_assoc. transitivity (push replacement
      (readString fuel (mapRunes escapeRune badRune n l ++ 34 :: rest))); [reflexivity|].
    rewrite length_app in Hf. rewrite IH; [done|cbn in Hn; lia|cbn in Hf; lia].
  - rewrite <- app_assoc, rune_reads by done. rewrite length_app in Hf.
    pose proof (escapeRune_nonempty _ _ Hw). rewrite IH; [done| |lia].
    rewrite length_drop. cbn in *. lia.
Qed.

(** A string literal is read back, malformed bytes replaced. *)
Lemma readString_escape l fuel rest :
  (length (escape l) < fuel)%nat → readString fuel (escape l ++ 34 :: rest) = Some (toValid l, rest).
Proof. intros H. unfold escape, toValid in *. by apply readString_runes. Qed.

(** Text of ASCII without the escaped bytes is its own literal, and valid text
    is not changed. *)
Lemma mapRunes_ascii good bad n : ∀ l, (length l ≤ n)%nat → Forall (λ c, 0 ≤ c < 128) l →
  mapRunes good bad n l = flat_map (λ c, good [c]) l.
Proof.
  induction n as [|n IH]; intros [|c l] Hn Hl; cbn in *; try done; [lia|].
  inversion Hl as [|? ? Hc Hl']; subst. replace (between 0 127 c) with true by (symmetry; unfold between; lia).
  cbn. rewrite drop_0, IH; [done|lia|done].
Qed.

Lemma toValid_ascii l : Forall (λ c, 0 ≤ c < 128) l → toValid l = l.
Proof.
  intros H. unfold toValid. rewrite mapRunes_ascii by done. clear H.
  induction l as [|c l IH]; [done|]. cbn [flat_map]. by rewrite IH.
Qed.

(** ** Numbers *)

(** A number ends where no byte can continue it. *)
Definition stops (rest : list Z) : Prop :=
  match rest with [] => True | c :: _ => between 48 57 c = false ∧ c ≠ 46 ∧ c ≠ 101 ∧ c ≠ 69 end.

Definition number (l : list Z) : Prop := ∀ rest, stops rest → readNumber (l ++ rest) = Some (l, rest).

Lemma readDigits_ascii ds rest : Forall is_dec ds →
  match rest with [] => True | c :: _ => between 48 57 c = false end →
  readDigits (ascii_digits ds ++ rest) = (ascii_digits ds, rest).
Proof.
  intros Hd Hr. induction Hd as [|d ds H1 _ IH]; cbn.
  - destruct rest as [|c rest]; [done|]. cbn. by rewrite Hr.
  - unfold is_dec in H1. replace (between 48 57 (48 + d)) with true by (symmetry; unfold between; lia).
    fold (ascii_digits ds). by rewrite IH.
Qed.

Lemma readFraction_stops rest : stops rest → readFraction rest = Some ([], rest).
Proof. destruct rest as [|c rest]; [done|]. intros (_ & H & _). cbn. by replace (c =? 46) with false by lia. Qed.

Lemma readExp_stops rest : stops rest → readExp rest = Some ([], rest).
Proof.
  destruct rest as [|c rest]; [done|]. intros (_ & _ & H1 & H2). cbn. by replace (_ || _) with false by lia.
Qed.

(** The integer part of a literal: no superfluous leading zero. *)
Lemma readInteger_digits d ds rest : Forall is_dec (d :: ds) → (d = 0 → ds = []) →
  match rest with [] => True | c :: _ => between 48 57 c = false end →
  readInteger (ascii_digits (d :: ds) ++ rest) = Some (ascii_digits (d :: ds), rest).
Proof.
  intros Hd H0 Hr. unfold readInteger. rewrite readDigits_ascii by done. inversion Hd as [|? ? H1 H2]; subst.
  unfold is_dec in H1. cbn. destruct (Z.eqb_spec (48 + d) 48); [|done].
  rewrite H0 by lia. cbn. by replace d with 0 by lia.
Qed.

(** A literal from its parts. *)
Lemma readNumber_parts (neg : bool) d ds rest f rest1 e rest2 :
  Forall is_dec (d :: ds) → (d = 0 → ds = []) →
  match rest with [] => True | c :: _ => between 48 57 c = false end →
  readFraction rest = Some (f, rest1) → readExp rest1 = Some (e, rest2) →
  readNumber ((if neg then [45] else []) ++ ascii_digits (d :: ds) ++ rest)
  = Some ((if neg then [45] else []) ++ ascii_digits (d :: ds) ++ f ++ e, rest2).
Proof.
  intros Hd H0 Hr Hf He. unfold readNumber.
  assert (Hm : readMinus ((if neg then [45] else []) ++ ascii_digits (d :: ds) ++ rest)
    = ((if neg then [45] else []), ascii_digits (d :: ds) ++ rest)).
  { destruct neg; [done|]. inversion Hd as [|? ? H1 _]; subst. unfold is_dec in H1. cbn.
    by replace (48 + d =? 45) with false by lia. }
  by rewrite Hm, readInteger_digits, Hf, He.
Qed.

Lemma FormatInt_number v : Z.abs v < 10 ^ 20 → number (bytes (FormatInt v)).
Proof.
  intros Hv rest Hr. destruct (FormatUint_bytes (Z.abs v) ltac:(lia)) as (d & ds & E & Hd & _ & H0).
  rewrite FormatInt_sign, E, <- app_assoc.
  rewrite (readNumber_parts _ _ _ rest [] rest [] rest); [by rewrite !app_nil_r|done|done| |by apply readFraction_stops|by apply readExp_stops].
  destruct rest as [|c rest]; [done|]. apply Hr.
Qed.

Lemma FormatUint_number v : 0 ≤ v < 10 ^ 20 → number (bytes (FormatUint v)).
Proof.
  intros Hv. assert (E : FormatUint v = FormatInt v).
  { unfold FormatInt. rewrite Z.abs_eq by lia. replace (v <? 0) with false by lia. done. }
  rewrite E. apply FormatInt_number. lia.
Qed.

Lemma number_head n : number n → ∃ c r, n = c :: r ∧ (c = 45 ∨ between 48 57 c = true).
Proof.
  intros H. specialize (H [] I). rewrite app_nil_r in H. destruct n as [|c r]; [done|]. exists c, r. split; [done|].
  destruct (Z.eqb_spec c 45) as [->|Hc]; [by left|right]. unfold readNumber, readMinus in H.
  rewrite (proj2 (Z.eqb_neq c 45)) in H by done. unfold readInteger in H.
  destruct (Z.eqb_spec c 48) as [->|_]; [done|]. cbn [readDigits] in H. by destruct (between 48 57 c).
Qed.

(** ** Values *)

Section json_induction.
Context (P : json → Prop).
Context (Hnull : P JNull) (Hbool : ∀ b, P (JBool b)) (Hnum : ∀ n, P (JNum n)) (Hstr : ∀ s, P (JStr s)).
Context (Harr : ∀ l, Forall P l → P (JArr l)) (Hobj : ∀ l, Forall (λ kv, P kv.2) l → P (JObj l)).

Fixpoint json_nested_ind (j : json) : P j :=
  match j with
  | JNull => Hnull
  | JBool b => Hbool b
  | JNum n => Hnum n
  | JStr s => Hstr s
  | JArr l =>
      Harr l ((fix go l : Forall P l :=
        match l with [] => Forall_nil_2 _ | x :: l => Forall_cons_2 _ _ _ (json_nested_ind x) (go l) end) l)
  | JObj l =>
      Hobj l ((fix go l : Forall (λ kv, P kv.2) l :=
        match l with [] => Forall_nil_2 _ | kv :: l => Forall_cons_2 _ _ _ (json_nested_ind kv.2) (go l) end) l)
  end.
End json_induction.

(** A value whose numbers are number literals. *)
#[warnings="-register-all"]
Inductive wf : json → Prop :=
| wf_null : wf JNull
| wf_bool b : wf (JBool b)
| wf_num n : number n → wf (JNum n)
| wf_str s : wf (JStr s)
| wf_arr l : Forall wf l → wf (JArr l)
| wf_obj l : Forall (λ kv, wf kv.2) l → wf (JObj l).

Definition starts (c : Z) : Prop := isSpace c = false ∧ c ≠ 93 ∧ c ≠ 125.

Lemma print_head j : wf j → ∃ c r, print j = c :: r ∧ starts c.
Proof.
  intros Hj. destruct Hj as [|[]|n Hn| | |]; try (eexists _, _; split; [reflexivity|done]).
  apply number_head in Hn as (c & r & -> & Hc). exists c, r. split; [done|].
  unfold starts, isSpace, between in *. lia.
Qed.

Lemma skipSpace_start c l : isSpace c = false → skipSpace (c :: l) = c :: l.
Proof. intros H. cbn. by rewrite H. Qed.

Definition reads (value : list Z → option (json * list Z)) (j : json) : Prop :=
  ∀ rest, stops rest → value (print j ++ rest) = Some (clean j, rest).

Lemma readElements_print value l : Forall (reads value) l → l ≠ [] → ∀ fuel rest, (length l ≤ fuel)%nat →
  readElements value fuel (commas (map print l) ++ 93 :: rest) = Some (map clean l, rest).
Proof.
  induction 1 as [|x l Hx Hl IH]; [done|]. intros _ [|fuel] rest Hf; [cbn in Hf; lia|]. cbn in Hf.
  destruct l as [|y l].
  - cbn [map commas readElements]. rewrite Hx by done. done.
  - change (commas (map print (x :: y :: l))) with (print x ++ 44 :: commas (map print (y :: l))).
    cbn [readElements]. rewrite <- app_assoc, Hx by done. cbn [app skipSpace]. change (isSpace 44) with false.
    cbv beta iota. change (44 =? 44) with true. cbv beta iota. rewrite IH; [done..|cbn in *; lia].
Qed.

Lemma readName_quote k rest : readName (quote k ++ 58 :: rest) = Some (toValid k, rest).
Proof.
  unfold readName, quote. cbn [app skipSpace]. change (isSpace 34) with false. cbv beta iota.
  change (34 =? 34) with true. cbv beta iota. rewrite <- app_assoc. cbn [app].
  rewrite readString_escape by (rewrite length_app; cbn; lia). done.
Qed.

Definition printMember (kv : list Z * json) : list Z := quote kv.1 ++ 58 :: print kv.2.
Definition cleanMember (kv : list Z * json) : list Z * json := (toValid kv.1, clean kv.2).

Lemma readMembers_print value l : Forall (λ kv, reads value kv.2) l → l ≠ [] → ∀ fuel rest, (length l ≤ fuel)%nat →
  readMembers value fuel (commas (map printMember l) ++ 125 :: rest) = Some (map cleanMember l, rest).
Proof.
  induction 1 as [|[k x] l Hx Hl IH]; [done|]. intros _ [|fuel] rest Hf; [cbn in Hf; lia|]. cbn in Hf, Hx.
  destruct l as [|y l].
  - cbn [map commas readMembers]. unfold printMember at 1. rewrite <- app_assoc. cbn [app fst snd].
    rewrite readName_quote, Hx by done. done.
  - change (commas (map printMember ((k, x) :: y :: l)))
      with ((quote k ++ 58 :: print x) ++ 44 :: commas (map printMember (y :: l))).
    cbn [readMembers]. rewrite <- !app_assoc. cbn [app]. rewrite readName_quote, Hx by done.
    cbn [app skipSpace]. change (isSpace 44) with false. cbv beta iota. change (44 =? 44) with true. cbv beta iota.
    rewrite IH; [done..|cbn in *; lia].
Qed.

Lemma commas_length (l : list (list Z)) : Forall (λ x, x ≠ []) l → (length l ≤ length (commas l))%nat.
Proof.
  induction 1 as [|x l Hx Hl IH]; [done|]. destruct x as [|c x]; [done|]. destruct l as [|y l]; [cbn; lia|].
  change (commas ((c :: x) :: y :: l)) with ((c :: x) ++ 44 :: commas (y :: l)). rewrite length_app. cbn in *. lia.
Qed.

Lemma list_max_forall {A} (f : A → nat) l d : (list_max (map f l) ≤ d)%nat → Forall (λ x, (f x ≤ d)%nat) l.
Proof. rewrite list_max_le, Forall_map. done. Qed.

Lemma readValue_number d n : number n → reads (readValue d) (JNum n).
Proof.
  intros Hn rest Hr. destruct (number_head n Hn) as (c & r & E & Hc). cbn [print clean].
  assert (HR : readNumber (c :: r ++ rest) = Some (n, rest)) by (rewrite app_comm_cons, <- E; by apply Hn).
  rewrite E at 1. unfold between in Hc.
  destruct d; cbn [readValue app]; rewrite skipSpace_start by (unfold isSpace; lia); ztests; by rewrite HR.
Qed.

Lemma readValue_string d s : reads (readValue d) (JStr s).
Proof.
  intros rest _. cbn [print clean]. unfold quote.
  assert (HR : readString (S (length (escape s ++ 34 :: rest))) (escape s ++ 34 :: rest) = Some (toValid s, rest)).
  { apply readString_escape. rewrite length_app. cbn. lia. }
  destruct d; cbn [readValue app skipSpace]; change (isSpace 34) with false; cbv beta iota; ztests;
    rewrite <- app_assoc; cbn [app]; by rewrite HR.
Qed.

(** The body of a list: where it starts, and enough fuel. *)
Lemma body_head {A} (p : A → list Z) (q : Z → Prop) x l rest :
  (∃ c r, p x = c :: r ∧ q c) → ∃ c r, commas (map p (x :: l)) ++ rest = c :: r ∧ q c.
Proof.
  intros (c & r & E & Hc). destruct l; cbn [map commas]; rewrite E; by eexists _, _.
Qed.

Lemma body_fuel {A} (p : A → list Z) l rest :
  Forall (λ x, p x ≠ []) l → (length l ≤ length (commas (map p l) ++ rest))%nat.
Proof.
  intros H. rewrite length_app, <- (length_map p l).
  assert (length (map p l) ≤ length (commas (map p l)))%nat; [|lia]. apply commas_length. by rewrite Forall_map.
Qed.

Lemma print_nonempty l : Forall wf l → Forall (λ x, print x ≠ []) l.
Proof. intros H. eapply Forall_impl; [exact H|]. intros y Hy. by destruct (print_head y Hy) as (? & ? & -> & _). Qed.

Lemma closes_none close c l : isSpace c = false → c ≠ close → closes close (c :: l) = None.
Proof. intros H1 H2. unfold closes. rewrite skipSpace_start by done. by ztests. Qed.

Lemma readValue_array d l : Forall wf l → Forall (reads (readValue d)) l → reads (readValue (S d)) (JArr l).
Proof.
  intros Hl Hall rest Hr. destruct l as [|x l]; [done|].
  assert (Hh : ∃ c r, print x = c :: r ∧ starts c) by (apply print_head; by inversion Hl).
  apply (body_head print _ x l (93 :: rest)) in Hh as (c & r & E & H1 & H2 & _).
  pose proof (body_fuel print (x :: l) (93 :: rest) (print_nonempty _ Hl)) as Hf.
  pose proof (readElements_print _ _ Hall ltac:(done) _ rest Hf) as HR.
  cbn [print clean]. fold (print). cbn [app]. rewrite <- app_assoc. cbn [app readValue skipSpace].
  change (isSpace 91) with false. cbv beta iota. ztests.
  rewrite HR, E, closes_none by done. done.
Qed.

Lemma readValue_object d l :
  Forall (λ kv, reads (readValue d) kv.2) l → reads (readValue (S d)) (JObj l).
Proof.
  intros Hall rest Hr. destruct l as [|x l]; [done|].
  assert (Hh : ∃ c r, printMember x = c :: r ∧ c = 34) by (eexists _, _; split; reflexivity).
  apply (body_head printMember _ x l (125 :: rest)) in Hh as (c & r & E & ->).
  pose proof (body_fuel printMember (x :: l) (125 :: rest) ltac:(by apply Forall_true)) as Hf.
  pose proof (readMembers_print _ _ Hall ltac:(done) _ rest Hf) as HR.
  cbn [print clean]. fold print clean. change (λ kv : list Z * json, quote kv.1 ++ 58 :: print kv.2) with printMember.
  change (λ kv : list Z * json, (toValid kv.1, clean kv.2)) with cleanMember.
  cbn [app]. rewrite <- app_assoc. cbn [app readValue skipSpace].
  change (isSpace 123) with false. cbv beta iota. ztests.
  rewrite HR, E, closes_none by done. done.
Qed.

(** What is printed is read back, whatever follows, when the nesting limit
    allows. *)
Lemma readValue_print j : wf j → ∀ d, (depth j ≤ d)%nat → reads (readValue d) j.
Proof.
  induction j as [|b|n|s|l IH|l IH] using json_nested_ind; intros Hwf d Hd.
  - intros rest _. by destruct d.
  - intros rest _. by destruct b, d.
  - apply readValue_number. by inversion Hwf.
  - apply readValue_string.
  - destruct d as [|d]; [cbn in Hd; lia|]. inversion Hwf as [| | | |? Hl|]; subst.
    cbn [depth] in Hd. apply le_S_n in Hd. apply list_max_forall in Hd.
    apply readValue_array; [done|]. rewrite Forall_forall in IH, Hl, Hd |- *. intros y Hy. apply IH; auto.
  - destruct d as [|d]; [cbn in Hd; lia|]. inversion Hwf as [| | | | |? Hl]; subst.
    cbn [depth] in Hd. apply le_S_n in Hd. apply (list_max_forall (λ kv, depth kv.2)) in Hd.
    apply readValue_object. rewrite Forall_forall in IH, Hl, Hd |- *. intros y Hy. apply IH; auto.
Qed.

Lemma decodeStream_print j rest :
  wf j → (depth j ≤ maxNestingDepth)%nat → stops rest → decodeStream (print j ++ rest) = Some (clean j, rest).
Proof. intros H1 H2 H3. by apply readValue_print. Qed.

Lemma unmarshalText_print j :
  wf j → (depth j ≤ maxNestingDepth)%nat → unmarshalText (print j) = Some (clean j).
Proof.
  intros H1 H2. unfold unmarshalText. rewrite <- (app_nil_r (print j)), decodeStream_print by done.
  unfold onlySpace. by rewrite bool_decide_eq_true_2.
Qed.

(** ** Scalars *)

Lemma unbytes_bytes s : unbytes (bytes s) = s.
Proof.
  induction s as [|c s IH]; cbn; [done|]. rewrite IH. f_equal. unfold chr, code.
  rewrite N2Z.id. apply Ascii.ascii_N_embedding.
Qed.

Lemma bytes_inj s t : bytes s = bytes t → s = t.
Proof. intros H. by rewrite <- (unbytes_bytes s), H, unbytes_bytes. Qed.

(** A string as it is read back. *)
Definition cleanStr (s : string) : string := unbytes (toValid (bytes s)).

Lemma readStr_str s : readStr (clean (str s)) = Some (cleanStr s).
Proof. done. Qed.

Lemma FormatUint_first v : 0 ≤ v < 10 ^ 20 → ∃ c s, FormatUint v = String c s ∧ code c ≠ 45 ∧ code c ≠ 43.
Proof.
  intros Hv. destruct (FormatUint_bytes v Hv) as (d & ds & E & Hd & _). inversion Hd as [|? ? H1 _]; subst.
  unfold is_dec in H1. destruct (FormatUint v) as [|c s]; [done|]. cbn in E. injection E as E _. exists c, s.
  split; [done|]. lia.
Qed.

Lemma ParseInt_FormatInt bits v :
  0 < bits ≤ 64 → - 2 ^ (bits - 1) ≤ v < 2 ^ (bits - 1) → ParseInt bits (FormatInt v) = Some v.
Proof.
  intros Hb Hv. assert (Hp : 2 ^ bits = 2 * 2 ^ (bits - 1)) by (rewrite <- Z.pow_succ_r by lia; f_equal; lia).
  assert (Hp64 : 2 ^ (bits - 1) ≤ 2 ^ 63) by (apply Z.pow_le_mono_r; lia).
  assert (HP : ParseUint bits (FormatUint (Z.abs v)) = Some (Z.abs v)) by (apply ParseUint_FormatUint; lia).
  destruct (FormatUint_first (Z.abs v) ltac:(lia)) as (c & s & E & H1 & H2).
  unfold ParseInt, FormatInt. destruct (v <? 0) eqn:Hs.
  - cbv beta iota delta [String.append].
    match goal with |- context [(code ?c =? 45)%Z] => change (code c =? 45)%Z with true end. cbn [orb negb andb]. rewrite HP. ztests. f_equal. lia.
  - change ("" +:+ FormatUint (Z.abs v)) with (FormatUint (Z.abs v)). rewrite E in *. cbv beta iota.
    replace (code c =? 45) with false by lia. replace (code c =? 43) with false by lia. cbn [orb negb andb].
    cbv beta iota zeta. rewrite HP. ztests. f_equal. lia.
Qed.

Lemma readInt_int bits v :
  0 < bits ≤ 64 → - 2 ^ (bits - 1) ≤ v < 2 ^ (bits - 1) → readInt bits (int v) = Some v.
Proof. intros Hb Hv. cbn [readInt int]. rewrite unbytes_bytes. by apply ParseInt_FormatInt. Qed.

Lemma readUint_uint v : is_u64 v → readUint (uint v) = Some v.
Proof. unfold is_u64. intros Hv. cbn [readUint uint]. rewrite unbytes_bytes. apply ParseUint_FormatUint; lia. Qed.

Lemma wf_int v : Z.abs v < 10 ^ 20 → wf (int v).
Proof. intros H. constructor. by apply FormatInt_number. Qed.

Lemma wf_uint v : 0 ≤ v < 10 ^ 20 → wf (uint v).
Proof. intros H. constructor. by apply FormatUint_number. Qed.

Lemma wf_member name v ms : wf v → wf (JObj ms) → wf (JObj ((name, v) :: ms)).
Proof. intros Hv Hm. inversion Hm; subst. by constructor; constructor. Qed.

(** ** Members *)

(** The field at position [i] is found by its name. *)
Lemma findField_at {C} (fields : list (Field C)) key i f :
  nth_error fields i = Some f → bool_decide (bytes (fd_name f) = key) = true →
  forallb (λ g, negb (bool_decide (bytes (fd_name g) = key))) (take i fields) = true →
  findField fields key = Some f.
Proof.
  intros Hi Hk Hb. unfold findField.
  assert (H : List.find (λ f, bool_decide (bytes (fd_name f) = key)) fields = Some f); [|by rewrite H].
  revert i Hi Hb. induction fields as [|g fields IH]; intros [|i] Hi Hb; cbn in *; try done.
  - injection Hi as ->. by rewrite Hk.
  - apply andb_true_iff in Hb as [Hg Hb]. apply negb_true_iff in Hg. rewrite Hg. by eapply IH.
Qed.

Section members.
Context {C : Type} (strict : bool) (fields : list (Field C)).

Lemma setMembers_app ms1 ms2 c :
  setMembers strict fields (ms1 ++ ms2) c = setMembers strict fields ms1 c ≫= setMembers strict fields ms2.
Proof.
  revert c. induction ms1 as [|[k v] ms1 IH]; intros c; [done|]. cbn [app setMembers].
  destruct (findField fields k) as [f|]; [|destruct strict; [done|apply IH]].
  destruct (fd_set f v c); cbn; [apply IH|done].
Qed.

Lemma set_member name v f c c' ms :
  findField fields (toValid (bytes name)) = Some f → fd_set f (clean v) c = Some c' →
  setMembers strict fields (map cleanMember (member name v :: ms)) c
  = setMembers strict fields (map cleanMember ms) c'.
Proof. intros Hf Hs. cbn [map]. unfold cleanMember, member. cbn [fst snd setMembers]. by rewrite Hf, Hs. Qed.

Lemma set_omitempty (empty : bool) name v f c c' ms :
  findField fields (toValid (bytes name)) = Some f →
  (if empty then c' = c else fd_set f (clean v) c = Some c') →
  setMembers strict fields (map cleanMember (omitempty empty name v ++ ms)) c
  = setMembers strict fields (map cleanMember ms) c'.
Proof. intros Hf Hs. destruct empty; cbn [omitempty app]; [by subst|]. by eapply set_member. Qed.
End members.

(** ** A written value is one line *)

Definition one_line (l : list Z) : Prop := 10 ∉ l.

Lemma one_line_app l1 l2 : one_line (l1 ++ l2) ↔ one_line l1 ∧ one_line l2.
Proof. unfold one_line. rewrite not_elem_of_app. done. Qed.

Lemma one_line_cons c l : one_line (c :: l) ↔ c ≠ 10 ∧ one_line l.
Proof. unfold one_line. rewrite not_elem_of_cons. naive_solver. Qed.

Lemma one_line_nil : one_line [].
Proof. apply not_elem_of_nil. Qed.

Lemma escapeByte_line c : 0 ≤ c → one_line (escapeByte c).
Proof.
  intros Hc. unfold escapeByte, hexDigit.
  pose proof (Z.div_pos c 16 Hc ltac:(lia)). pose proof (Z.mod_pos_bound c 16 ltac:(lia)).
  repeat split_if; bools; rewrite !one_line_cons; repeat split; try apply one_line_nil; try lia.
Qed.

Lemma rune_line l w : runeWidth l = S w → one_line (escapeRune (take (S w) l)).
Proof.
  intros H. destruct l as [|c l]; [done|]. pose proof (runeWidth_first _ _ _ H) as (H0 & Hlow & Hhigh).
  pose proof (runeWidth_local _ _ H) as [Hlen Hloc].
  destruct (decide (c < 128)) as [Hc|Hc]; [rewrite (Hlow Hc); by apply escapeByte_line|].
  destruct Hhigh as [Hc2 Hw]; [lia|]. destruct w as [|w]; [done|]. cbn [take].
  unfold escapeRune. destruct (take (S w) l) as [|b r] eqn:Et; [cbn in Hlen; by rewrite Et in Hlen|].
  repeat case_bool_decide; try (rewrite !one_line_cons; repeat split; try done; apply one_line_nil).
  clear - H Hc2 Et. destruct l as [|b' [|c' [|d l]]]; cbn in H; try done;
    repeat (match type of H with context [if ?x then _ else _] => destruct x eqn:? end); try done;
    injection H as <-; cbn in Et; injection Et as <- <-;
    unfold cont, between in *; bools; rewrite !one_line_cons; repeat split; lia || apply one_line_nil.
Qed.

Lemma escape_line l : one_line (escape l).
Proof.
  unfold escape. generalize (length l) as n. intros n. revert l. induction n as [|n IH]; intros [|c l]; try apply one_line_nil.
  cbn [mapRunes]. destruct (runeWidth (c :: l)) as [|w] eqn:Hw; apply one_line_app; (split; [|apply IH]).
  - by apply (bool_decide_unpack _).
  - by apply rune_line.
Qed.

Lemma quote_line l : one_line (quote l).
Proof. unfold quote. rewrite one_line_cons, one_line_app. repeat split; [done|apply escape_line|by apply (bool_decide_unpack _)]. Qed.

Lemma commas_line l : Forall one_line l → one_line (commas l).
Proof.
  induction 1 as [|x l Hx Hl IH]; [apply one_line_nil|]. destruct l as [|y l]; [done|].
  change (commas (x :: y :: l)) with (x ++ 44 :: commas (y :: l)). by rewrite one_line_app, one_line_cons.
Qed.

Lemma readDigits_line l ds rest : readDigits l = (ds, rest) → one_line ds.
Proof.
  revert ds rest. induction l as [|c l IH]; intros ds rest; cbn; [intros [= <- <-]; apply one_line_nil|].
  destruct (between 48 57 c) eqn:Hc; [|intros [= <- <-]; apply one_line_nil].
  destruct (readDigits l) as [ds' rest']. intros [= <- <-]. apply one_line_cons. split; [|by eapply IH].
  unfold between in Hc. lia.
Qed.

Lemma number_line n : number n → one_line n.
Proof.
  intros H. specialize (H [] I). unfold readNumber in H. rewrite app_nil_r in H.
  destruct (readMinus n) as [sign l1] eqn:Es. destruct (readInteger l1) as [[i l2]|] eqn:Ei; [|done].
  destruct (readFraction l2) as [[f l3]|] eqn:Ef; [|done]. destruct (readExp l3) as [[e l4]|] eqn:Ee; [|done].
  injection H as Hn _. rewrite <- Hn. rewrite !one_line_app. clear Hn. repeat split.
  - clear - Es. destruct n as [|c n]; cbn in Es; [injection Es as <- _; apply one_line_nil|].
    destruct (c =? 45); injection Es as <- _; [by apply (bool_decide_unpack _)|apply one_line_nil].
  - destruct l1 as [|c l1]; [done|]. unfold readInteger in Ei. destruct (c =? 48).
    { injection Ei as <- _. by apply (bool_decide_unpack _). }
    destruct (readDigits (c :: l1)) as [ds r] eqn:Ed. apply readDigits_line in Ed. destruct ds; [done|].
    by injection Ei as <- _.
  - destruct l2 as [|c l2]; [injection Ef as <- _; apply one_line_nil|]. cbn in Ef.
    destruct (c =? 46); [|injection Ef as <- _; apply one_line_nil].
    destruct (readDigits l2) as [ds r] eqn:Ed. apply readDigits_line in Ed. destruct ds; [done|].
    injection Ef as <- _. by apply one_line_cons.
  - destruct l3 as [|c l3]; [injection Ee as <- _; apply one_line_nil|]. cbn in Ee.
    destruct (_ || _) eqn:Hc; [|injection Ee as <- _; apply one_line_nil].
    destruct (match l3 with [] => _ | _ => _ end) as [sg l5] eqn:Esg.
    destruct (readDigits l5) as [ds r] eqn:Ed. apply readDigits_line in Ed. destruct ds; [done|].
    injection Ee as <- _. apply one_line_cons. split; [lia|]. apply one_line_app. split; [|done].
    clear - Esg. destruct l3 as [|s l3]; [injection Esg as <- _; apply one_line_nil|].
    destruct (_ || _) eqn:Hs; injection Esg as <- _; [|apply one_line_nil]. apply one_line_cons.
    split; [lia|apply one_line_nil].
Qed.

Lemma print_line j : wf j → one_line (print j).
Proof.
  induction j as [|b|n|s|l IH|l IH] using json_nested_ind; intros Hwf; cbn [print].
  - by apply (bool_decide_unpack _).
  - by destruct b; apply (bool_decide_unpack _).
  - apply number_line. by inversion Hwf.
  - apply quote_line.
  - inversion Hwf as [| | | |? Hl|]; subst. rewrite one_line_cons, one_line_app.
    split; [done|]. split; [|by apply (bool_decide_unpack _)]. apply commas_line.
    rewrite Forall_map. rewrite Forall_forall in IH, Hl |- *. auto.
  - inversion Hwf as [| | | | |? Hl]; subst. rewrite one_line_cons, one_line_app.
    split; [done|]. split; [|by apply (bool_decide_unpack _)]. apply commas_line.
    rewrite Forall_map. rewrite Forall_forall in IH, Hl |- *. intros kv Hkv. change (one_line (quote kv.1 ++ 58 :: print kv.2)).
    rewrite one_line_app, one_line_cons. repeat split; [apply quote_line|done|auto].
Qed.
