(* ===== verification/FloatRound.v ===== *)
(** * Rounding to the nearest float

    [binary_normalize] and [SFdiv] of the Standard Library's [SpecFloat] round
    to nearest, ties to even.  Shown here is what the search for the shortest
    decimal needs: a quotient that is closer to a float than half a unit in its
    last place rounds to it (a quarter of a unit below a power of two). *)

From S2P Require Import Prelude GoInt GoTime GoFloat GoText.
From Stdlib Require Import SpecFloat.

(** ** Shifting with a sticky bit *)

(** [N / D] has the integer part and the two fraction bits of the record. *)
Definition inr (N D : Z) (r : shr_record) : Prop :=
  let '(Build_shr_record m a s) := r in
  match a, s with
  | false, false => N = m * D
  | false, true => m * D < N ∧ 2 * N < (2 * m + 1) * D
  | true, false => 2 * N = (2 * m + 1) * D
  | true, true => (2 * m + 1) * D < 2 * N ∧ N < (m + 1) * D
  end.

Lemma inr_shr_1 N D r : 0 < D → 0 ≤ shr_m r → inr N D r → inr N (2 * D) (shr_1 r) ∧ 0 ≤ shr_m (shr_1 r).
Proof.
  destruct r as [[|p|p] a s]; cbn [shr_m]; intros HD Hm H; [| |lia].
  - destruct a, s; cbn in *; lia.
  - destruct p as [p|p|]; destruct a, s; cbn in *; try lia.
Qed.

Lemma inr_iter n : ∀ N D r, 0 < D → 0 ≤ shr_m r → inr N D r →
  inr N (2 ^ Zpos n * D) (iter_pos shr_1 n r) ∧ 0 ≤ shr_m (iter_pos shr_1 n r).
Proof.
  induction n as [n IH|n IH|]; intros N D r HD Hm H; cbn [iter_pos].
  - destruct (inr_shr_1 N D r HD Hm H) as [H1 M1].
    destruct (IH N (2 * D) _ ltac:(lia) M1 H1) as [H2 M2].
    destruct (IH N (2 ^ Zpos n * (2 * D)) _ ltac:(pose proof (Z.pow_pos_nonneg 2 (Zpos n)); nia) M2 H2) as [H3 M3].
    split; [|done]. replace (2 ^ Zpos n~1 * D) with (2 ^ Zpos n * (2 ^ Zpos n * (2 * D))); [done|].
    replace (Zpos n~1) with (Zpos n + (Zpos n + 1)) by lia. rewrite !Z.pow_add_r by lia. ring.
  - destruct (IH N D _ HD Hm H) as [H2 M2].
    destruct (IH N (2 ^ Zpos n * D) _ ltac:(pose proof (Z.pow_pos_nonneg 2 (Zpos n)); nia) M2 H2) as [H3 M3].
    split; [|done]. replace (2 ^ Zpos n~0 * D) with (2 ^ Zpos n * (2 ^ Zpos n * D)); [done|].
    replace (Zpos n~0) with (Zpos n + Zpos n) by lia. rewrite Z.pow_add_r by lia. ring.
  - rewrite Z.pow_1_r. by apply inr_shr_1.
Qed.

Lemma inr_shr N D r e n : 0 < D → 0 ≤ shr_m r → 0 ≤ n → inr N D r →
  inr N (2 ^ n * D) (shr r e n).1 ∧ 0 ≤ shr_m (shr r e n).1 ∧ (shr r e n).2 = e + n.
Proof.
  intros HD Hm Hn H. destruct n as [|n|n]; [| |lia]; cbn [shr fst snd].
  - rewrite Z.pow_0_r, Z.mul_1_l, Z.add_0_r. done.
  - destruct (inr_iter n N D r HD Hm H). done.
Qed.

(** ** To the nearest *)

(** Closer than half a unit, the integer part or its successor is chosen. *)
Lemma nearest N D r m : 0 < D → inr N D r → 2 * Z.abs (N - m * D) < D →
  round_nearest_even (shr_m r) (loc_of_shr_record r) = m.
Proof.
  destruct r as [k a s]. intros HD H Hc. cbn [shr_m].
  assert (Hk : k = m ∨ k = m - 1).
  { assert (Hlo : k * D ≤ N) by (destruct a, s; cbn in H; nia).
    assert (Hhi : N < (k + 1) * D) by (destruct a, s; cbn in H; nia).
    assert (k - m < 1) by (apply (Z.mul_lt_mono_pos_r D); lia).
    assert (-2 < k - m) by (apply (Z.mul_lt_mono_pos_r D); lia). lia. }
  destruct Hk as [-> | ->]; destruct a, s; cbn in *; try lia.
Qed.

Lemma inr_floor N D r : 0 < D → inr N D r → shr_m r * D ≤ N < (shr_m r + 1) * D.
Proof. destruct r as [k a s]. intros HD H. cbn [shr_m]. destruct a, s; cbn in H; nia. Qed.

Lemma pow2_pos j : 0 ≤ j → 0 < 2 ^ j.
Proof. intros. apply Z.pow_pos_nonneg; lia. Qed.

Lemma digits_le mx j : 0 ≤ j → 0 ≤ mx < 2 ^ j → Zdigits2 mx ≤ j.
Proof.
  intros Hj Hm. destruct mx as [|p|p]; cbn [Zdigits2]; [done| |lia]. pose proof (digits2_bounds p) as Hd.
  apply Z.nlt_ge. intros Hlt. assert (2 ^ j ≤ 2 ^ (Zpos (digits2_pos p) - 1)) by (apply Z.pow_le_mono_r; lia). lia.
Qed.

Lemma digits_ge mx j : 0 ≤ j → 2 ^ j ≤ mx → j + 1 ≤ Zdigits2 mx.
Proof.
  intros Hj Hm. pose proof (pow2_pos j Hj). destruct mx as [|p|p]; cbn [Zdigits2]; [lia| |lia].
  pose proof (digits2_bounds p) as Hd.
  apply Z.nlt_ge. intros Hlt. assert (2 ^ Zpos (digits2_pos p) ≤ 2 ^ j) by (apply Z.pow_le_mono_r; lia). lia.
Qed.

Definition fexp64 (g : Z) : Z := fexp f_prec f_emax g.

Lemma fexp64_max g : fexp64 g = Z.max (g - 53) (-1074).
Proof. reflexivity. Qed.

(** The exponent at which the value is cut off. *)
Lemma cut_exponent N D mx ex m e k :
  0 < D → 0 ≤ mx → mx * D ≤ N < (mx + 1) * D → 0 ≤ k → e = ex + k →
  canonical (S754_finite false m e) = true →
  2 * Z.abs (N - Zpos m * 2 ^ k * D) < 2 ^ k * D → (Zpos m = 2 ^ 52 → 4 * (Zpos m * 2 ^ k * D - N) < 2 ^ k * D) →
  let c := Z.max ex (fexp64 (Zdigits2 mx + ex)) in
  c = e ∨ (c = e - 1 ∧ 1 ≤ k ∧ Zpos m = 2 ^ 52 ∧ N < Zpos m * 2 ^ k * D ∧ -1074 < e).
Proof.
  intros HD Hmx Hf Hk He Hc Hnear Hquarter. cbv zeta. apply canonical_finite in Hc. pose proof (pow2_pos k Hk) as Hp.
  assert (Hup : mx < 2 ^ (53 + k)).
  { rewrite Z.pow_add_r by lia. apply (Z.mul_lt_mono_pos_r D); [done|]. nia. }
  pose proof (digits_le mx (53 + k) ltac:(lia) ltac:(lia)) as Hdu. rewrite fexp64_max.
  destruct (Z.lt_ge_cases mx (2 ^ (52 + k))) as [Hlt|Hge].
  2: { pose proof (digits_ge mx (52 + k) ltac:(lia) Hge). left. lia. }
  destruct Hc as [[Hm He']|[Hm He']].
  2: { pose proof (digits_le mx (52 + k) ltac:(lia) ltac:(lia)). left. lia. }
  destruct (decide (k = 0)) as [->|]; [pose proof (digits_le mx (52 + 0) ltac:(lia) ltac:(lia)); left; lia|].
  rewrite Z.pow_add_r in Hlt by lia.
  assert (HN : N < 2 ^ 52 * 2 ^ k * D) by nia.
  assert (Hm52 : Zpos m = 2 ^ 52) by nia. specialize (Hquarter Hm52). rewrite Hm52 in *.
  assert (Hlow : 2 ^ (51 + k) ≤ mx).
  { rewrite Z.pow_add_r by lia. assert (2 ^ 51 * 2 ^ k * D < (mx + 1) * D) by nia.
    assert (2 ^ 51 * 2 ^ k < mx + 1) by (apply (Z.mul_lt_mono_pos_r D); lia). lia. }
  pose proof (digits_ge mx (51 + k) ltac:(lia) Hlow). pose proof (digits_le mx (52 + k) ltac:(lia)) as Hd2.
  rewrite Z.pow_add_r in Hd2 by lia. specialize (Hd2 ltac:(lia)).
  destruct (decide (e = -1074)); [left; lia|right]. split_and!; lia.
Qed.

Lemma shr_max r e n : shr r e n = shr r e (Z.max 0 n).
Proof. destruct n; [done..|]. done. Qed.

(** Rounding a canonical mantissa leaves it. *)
Lemma shr_canonical s m e : canonical (S754_finite s m e) = true →
  shr_fexp f_prec f_emax (Zpos m) e loc_Exact = (Build_shr_record (Zpos m) false false, e) ∧ e ≤ 971.
Proof.
  cbn [canonical]. unfold bounded, canonical_mantissa. intros H.
  apply andb_true_iff in H as [H1 H2]. apply Z.eqb_eq in H1. apply Z.leb_le in H2.
  unfold shr_fexp. cbn [Zdigits2]. rewrite H1, Z.sub_diag. split; [done|exact H2].
Qed.

Lemma shr_carry e : -1074 < e → shr_fexp f_prec f_emax (2 ^ 53) (e - 1) loc_Exact = (Build_shr_record (2 ^ 52) false false, e).
Proof.
  intros He. unfold shr_fexp. change (fexp f_prec f_emax) with fexp64. rewrite fexp64_max.
  change (Zdigits2 (2 ^ 53)) with 54. replace (Z.max (54 + (e - 1) - 53) (-1074) - (e - 1)) with 1 by lia.
  cbn. f_equal. lia.
Qed.

Lemma round_near s N D mx ex l m e k :
  0 < D → 0 ≤ mx → inr N D (shr_record_of_loc mx l) → 0 ≤ k → e = ex + k →
  canonical (S754_finite s m e) = true →
  2 * Z.abs (N - Zpos m * 2 ^ k * D) < 2 ^ k * D → (Zpos m = 2 ^ 52 → 4 * (Zpos m * 2 ^ k * D - N) < 2 ^ k * D) →
  binary_round_aux f_prec f_emax s mx ex l = S754_finite s m e.
Proof.
  intros HD Hmx Hin Hk He Hc Hnear Hquarter.
  assert (Hmr : shr_m (shr_record_of_loc mx l) = mx) by (destruct l as [|[]]; done).
  pose proof (inr_floor _ _ _ HD Hin) as Hf. rewrite Hmr in Hf.
  destruct (shr_canonical s m e Hc) as [Hm Hemax].
  pose proof (cut_exponent N D mx ex m e k HD Hmx Hf Hk He Hc Hnear Hquarter) as Hcut. cbv zeta in Hcut.
  unfold binary_round_aux. change (shr_fexp f_prec f_emax mx ex l) with
    (shr (shr_record_of_loc mx l) ex (fexp64 (Zdigits2 mx + ex) - ex)). rewrite shr_max.
  destruct Hcut as [Hcut|(Hcut & Hk1 & Hm52 & HN & He1)].
  - replace (Z.max 0 _) with k by lia.
    destruct (inr_shr N D _ ex k HD ltac:(by rewrite Hmr) Hk Hin) as (Hs & _ & Hse).
    destruct (shr _ ex k) as [r e']. cbn [fst snd] in *. subst e'.
    rewrite (nearest N (2 ^ k * D) r (Zpos m)) by (try done; pose proof (pow2_pos k Hk); nia).
    rewrite <- He, Hm. cbn [shr_m]. by rewrite (proj2 (Z.leb_le _ _)).
  - replace (Z.max 0 _) with (k - 1) by lia.
    destruct (inr_shr N D _ ex (k - 1) HD ltac:(by rewrite Hmr) ltac:(lia) Hin) as (Hs & _ & Hse).
    destruct (shr _ ex (k - 1)) as [r e']. cbn [fst snd] in *. subst e'.
    specialize (Hquarter Hm52). rewrite Hm52 in *.
    replace (2 ^ k) with (2 * 2 ^ (k - 1)) in * by (rewrite <- Z.pow_succ_r by lia; f_equal; lia).
    pose proof (pow2_pos (k - 1) ltac:(lia)).
    rewrite (nearest N (2 ^ (k - 1) * D) r (2 ^ 53)) by (try done; nia).
    replace (ex + (k - 1)) with (e - 1) by lia. rewrite shr_carry by done. cbn [shr_m].
    change (2 ^ 52) with (Zpos (2 ^ 52)) in *. injection Hm52 as ->. by rewrite (proj2 (Z.leb_le _ _)).
Qed.

(** ** Decimals near a float *)

(** [A / B] is closer to [m * 2 ^ e] than half a unit in the last place, and
    than a quarter from below a power of two, where the floats are denser. *)
Definition close (A B m e : Z) : Prop :=
  2 * Z.abs (A * 2 ^ 1074 - m * 2 ^ (e + 1074) * B) < 2 ^ (e + 1074) * B ∧
  (m = 2 ^ 52 → 4 * (m * 2 ^ (e + 1074) * B - A * 2 ^ 1074) < 2 ^ (e + 1074) * B).

Lemma close_shift A B m e ez k : close A B m e → -1074 ≤ ez ≤ 0 → 0 ≤ k → e = ez + k →
  2 * Z.abs (A * 2 ^ (- ez) - m * 2 ^ k * B) < 2 ^ k * B ∧
  (m = 2 ^ 52 → 4 * (m * 2 ^ k * B - A * 2 ^ (- ez)) < 2 ^ k * B).
Proof.
  intros [Hn Hq] Hez Hk ->. pose proof (pow2_pos (ez + 1074) ltac:(lia)) as Hp.
  replace (2 ^ 1074) with (2 ^ (- ez) * 2 ^ (ez + 1074)) in * by (rewrite <- Z.pow_add_r by lia; f_equal; lia).
  replace (2 ^ (ez + k + 1074)) with (2 ^ k * 2 ^ (ez + 1074)) in * by (rewrite <- Z.pow_add_r by lia; f_equal; lia).
  set (U := 2 ^ (ez + 1074)) in *. split.
  - apply (Z.mul_lt_mono_pos_r U); [done|].
    replace (A * (2 ^ (- ez) * U) - m * (2 ^ k * U) * B) with ((A * 2 ^ (- ez) - m * 2 ^ k * B) * U) in Hn by ring.
    rewrite Z.abs_mul, (Z.abs_eq U) in Hn by lia. lia.
  - intros Hm. specialize (Hq Hm). apply (Z.mul_lt_mono_pos_r U); [done|]. lia.
Qed.

(** The estimate of the exponent from the numbers of digits is not too big. *)
Lemma close_exponent p q m e : close (Zpos p) (Zpos q) (Zpos m) e → canonical (S754_finite false m e) = true →
  fexp64 (Zpos (digits2_pos p) - Zpos (digits2_pos q)) ≤ e ∧ (q = 1%positive → fexp64 (Zpos (digits2_pos p)) ≤ e).
Proof.
  intros [Hn _] Hc. apply canonical_finite in Hc. assert (Hm : Zpos m < 2 ^ 53 ∧ -1074 ≤ e) by lia.
  destruct Hm as [Hm He]. rewrite !fexp64_max. pose proof (digits2_bounds p) as Hp. pose proof (digits2_bounds q) as Hq.
  pose proof (pow2_pos (e + 1074) ltac:(lia)) as HU.
  assert (Hlt : Zpos p * 2 ^ 1074 < 2 ^ (53 + (e + 1074)) * Zpos q).
  { rewrite Z.pow_add_r by lia. set (U := 2 ^ (e + 1074)) in *. nia. }
  split.
  - assert (H : 2 ^ (Zpos (digits2_pos p) - 1 + 1074) < 2 ^ (53 + (e + 1074) + Zpos (digits2_pos q))).
    { rewrite !(Z.pow_add_r 2 _ 1074), (Z.pow_add_r 2 (53 + _)) by lia.
      eapply Z.le_lt_trans; [apply Z.mul_le_mono_nonneg_r; [lia|apply Hp]|].
      eapply Z.lt_le_trans; [apply Hlt|]. apply Z.mul_le_mono_nonneg_l; [lia|]. lia. }
    apply Z.pow_lt_mono_r_iff in H; lia.
  - intros ->. rewrite Z.mul_1_r in Hlt.
    assert (H : 2 ^ (Zpos (digits2_pos p) - 1 + 1074) < 2 ^ (53 + (e + 1074))).
    { rewrite (Z.pow_add_r 2 _ 1074) by lia.
      eapply Z.le_lt_trans; [apply Z.mul_le_mono_nonneg_r; [lia|apply Hp]|]. done. }
    apply Z.pow_lt_mono_r_iff in H; lia.
Qed.

Lemma new_location_inr N D q r : 0 < D → N = D * q + r → 0 ≤ r < D →
  inr N D (shr_record_of_loc q (new_location D r)).
Proof.
  intros HD -> Hr. unfold new_location, new_location_even, new_location_odd.
  destruct (Z.even D) eqn:Hev; destruct (Z.eqb_spec r 0) as [->|Hr0].
  - cbn. lia.
  - destruct (Z.compare_spec (2 * r) D); cbn; lia.
  - cbn. lia.
  - assert (Ho : D ≠ 2 * r).
    { intros ->. rewrite Z.even_mul in Hev. done. }
    destruct (Z.compare_spec (2 * r + 1) D); cbn; lia.
Qed.

Lemma SFdiv_near neg p q m e : close (Zpos p) (Zpos q) (Zpos m) e → canonical (S754_finite neg m e) = true →
  SFdiv f_prec f_emax (S754_finite neg p 0) (S754_finite false q 0) = S754_finite neg m e.
Proof.
  intros Hcl Hc. destruct (close_exponent p q m e Hcl Hc) as [He _]. unfold SFdiv, SFdiv_core_binary.
  rewrite xorb_false_r, !Z.add_0_r. cbn [Zdigits2]. change (fexp f_prec f_emax) with fexp64.
  set (ez := Z.min _ (0 - 0)).
  assert (Hez : -1074 ≤ ez ≤ 0 ∧ ez ≤ e) by (unfold ez; rewrite fexp64_max in *; lia).
  replace (match 0 - 0 - ez with Z0 => _ | Zpos _ => _ | Zneg _ => _ end) with (Zpos p * 2 ^ (- ez)).
  2: { replace (0 - 0 - ez) with (- ez) by lia. destruct (- ez) as [|s|s] eqn:E; [lia| |lia].
       by rewrite Z.shiftl_mul_pow2. }
  pose proof (Z_div_mod (Zpos p * 2 ^ (- ez)) (Zpos q) ltac:(lia)) as Hd.
  destruct (Z.div_eucl _ _) as [d r]. destruct Hd as [Hd Hr].
  destruct (close_shift _ _ _ _ ez (e - ez) Hcl) as [Hn Hq]; [lia..|].
  pose proof (pow2_pos (- ez) ltac:(lia)).
  apply (round_near neg (Zpos p * 2 ^ (- ez)) (Zpos q) d ez _ m e (e - ez)); try done; [nia| |lia..].
  by apply new_location_inr.
Qed.

Lemma iter_xO p d : Zpos (Pos.iter xO p d) = Zpos p * 2 ^ Zpos d.
Proof.
  induction d as [|d IH] using Pos.peano_ind; [cbn; lia|].
  rewrite Pos.iter_succ, Pos2Z.inj_succ, Z.pow_succ_r by lia. lia.
Qed.

Lemma normalize_near (neg : bool) p m e : close (Zpos p) 1 (Zpos m) e → canonical (S754_finite neg m e) = true →
  binary_normalize f_prec f_emax ((if neg then -1 else 1) * Zpos p) 0 neg = S754_finite neg m e.
Proof.
  intros Hcl Hc. destruct (close_exponent p 1 m e Hcl Hc) as [_ He]. specialize (He eq_refl).
  assert (Hb : binary_round f_prec f_emax neg p 0 = S754_finite neg m e).
  { unfold binary_round. rewrite Z.add_0_r. change (fexp f_prec f_emax) with fexp64.
    assert (Hs : ∃ mz ez, shl_align p 0 (fexp64 (Zpos (digits2_pos p))) = (mz, ez) ∧ -1074 ≤ ez ≤ 0 ∧ ez ≤ e ∧
              Zpos mz = Zpos p * 2 ^ (- ez)).
    { unfold shl_align. rewrite fexp64_max in *. set (f := Z.max _ _) in *.
      destruct (f - 0) as [|d|d] eqn:E.
      - exists p, 0. split_and!; try lia; done.
      - exists p, 0. split_and!; try lia; done.
      - exists (Pos.iter xO p d), f. split_and!; try lia; [done|]. replace (- f) with (Zpos d) by lia.
        apply iter_xO. }
    destruct Hs as (mz & ez & -> & Hez & Hle & Hmz).
    destruct (close_shift _ _ _ _ ez (e - ez) Hcl) as [Hn Hq]; [lia..|].
    apply (round_near neg (Zpos p * 2 ^ (- ez)) 1 (Zpos mz) ez _ m e (e - ez)); try done; [|lia..].
    cbn. lia. }
  by destruct neg.
Qed.

(** A decimal rounds to the float it is close to. *)
Lemma roundDecimal_near neg v exp m e : 0 < v → canonical (S754_finite neg m e) = true →
  close (v * 10 ^ Z.max 0 exp) (10 ^ Z.max 0 (- exp)) (Zpos m) e → roundDecimal neg v exp = S754_finite neg m e.
Proof.
  intros Hv Hc Hcl. unfold roundDecimal. destruct v as [|v|v]; [lia| |lia].
  pose proof (Z.pow_pos_nonneg 10 exp ltac:(lia)). pose proof (Z.pow_pos_nonneg 10 (- exp) ltac:(lia)).
  destruct (Z.leb_spec 0 exp).
  - rewrite Z.max_r, (Z.max_l 0 (- exp)), Z.pow_0_r in Hcl by lia. destruct (Zpos v * 10 ^ exp) as [|p|p] eqn:E; [lia| |lia].
    by apply normalize_near.
  - rewrite Z.max_l, (Z.max_r 0 (- exp)), Z.pow_0_r, Z.mul_1_r in Hcl by lia. destruct (10 ^ (- exp)) as [|q|q]; [lia| |lia].
    by apply SFdiv_near.
Qed.
