(* ===== verification/FloatCanon.v ===== *)
(** * Every operation gives a binary64

    The arithmetic of [GoFloat] and the readers of [GoText] only produce
    canonical values: 53 bits of mantissa, exponent in range. *)

From S2P Require Import Prelude GoInt GoTime GoFloat GoText FloatRound.
From Stdlib Require Import SpecFloat.

(** ** Rounding *)

Lemma Zdigits2_bounds m : 0 ≤ m → m < 2 ^ Zdigits2 m ∧ (0 < m → 2 ^ (Zdigits2 m - 1) ≤ m) ∧ 0 ≤ Zdigits2 m.
Proof.
  intros Hm. destruct m as [|p|p]; [cbn; lia| |lia]. pose proof (digits2_bounds p). cbn [Zdigits2]. lia.
Qed.

Lemma round_nearest_even_step m l : round_nearest_even m l = m ∨ round_nearest_even m l = m + 1.
Proof. destruct l as [|[]]; cbn; auto. destruct (Z.even m); auto. Qed.

(** A mantissa of at most 53 bits, full unless the exponent is the least. *)
Definition tidy (m e : Z) : Prop := 0 ≤ m < 2 ^ 53 ∧ -1074 ≤ e ∧ (-1074 < e → 2 ^ 52 ≤ m).

Lemma tidy_fexp m e : tidy m e → fexp64 (Zdigits2 m + e) = e.
Proof.
  intros (Hm & He & Hn). rewrite fexp64_max. pose proof (digits_le m 53 ltac:(lia) ltac:(lia)) as Hd.
  destruct (decide (-1074 < e)) as [Hlt|]; [|lia]. pose proof (digits_ge m 52 ltac:(lia) (Hn Hlt)). lia.
Qed.

(** The bits that do not fit are cut off. *)
Lemma cut_floor mx ex l : 0 ≤ mx → ex ≤ fexp64 (Zdigits2 mx + ex) →
  let '(mrs, e) := shr_fexp f_prec f_emax mx ex l in
  ∃ n, 0 ≤ n ∧ e = ex + n ∧ ex + n = fexp64 (Zdigits2 mx + ex) ∧ 0 ≤ shr_m mrs ∧
    shr_m mrs * 2 ^ n ≤ mx < (shr_m mrs + 1) * 2 ^ n.
Proof.
  intros Hmx Hex. change (shr_fexp f_prec f_emax mx ex l) with
    (shr (shr_record_of_loc mx l) ex (fexp64 (Zdigits2 mx + ex) - ex)).
  set (n := fexp64 (Zdigits2 mx + ex) - ex). assert (Hn : 0 ≤ n) by (unfold n; lia).
  assert (Hmr : shr_m (shr_record_of_loc mx l) = mx) by (destruct l as [|[]]; done).
  set (N := match l with loc_Exact => 4 * mx | loc_Inexact Lt => 4 * mx + 1 | loc_Inexact Eq => 4 * mx + 2 | loc_Inexact Gt => 4 * mx + 3 end).
  assert (HN : inr N 4 (shr_record_of_loc mx l)) by (unfold N; destruct l as [|[]]; cbn; lia).
  assert (HNb : 4 * mx ≤ N < 4 * (mx + 1)) by (unfold N; destruct l as [|[]]; lia).
  destruct (inr_shr N 4 _ ex n ltac:(lia) ltac:(by rewrite Hmr) Hn HN) as (Hs & Hp & He).
  destruct (shr _ ex n) as [r e]. cbn [fst snd] in *. pose proof (pow2_pos n Hn) as Hpn.
  pose proof (inr_floor N (2 ^ n * 4) r ltac:(lia) Hs) as Hf. exists n. split_and!; try done; [unfold n|..]; lia.
Qed.

(** What is left is a tidy mantissa. *)
Lemma cut_tidy mx ex l : 0 ≤ mx → ex ≤ fexp64 (Zdigits2 mx + ex) →
  let '(mrs, e) := shr_fexp f_prec f_emax mx ex l in tidy (shr_m mrs) e.
Proof.
  intros Hmx Hex. pose proof (cut_floor mx ex l Hmx Hex) as Hf. destruct (shr_fexp _ _ mx ex l) as [r e].
  destruct Hf as (n & Hn & -> & Hen & Hr & Hu). destruct (Zdigits2_bounds mx Hmx) as (Hub & Hlb & Hd0).
  pose proof (pow2_pos n Hn). rewrite fexp64_max in Hen. split; [split; [done|]|split; [lia|]].
  - assert (Hlt : mx < 2 ^ (53 + n)) by (eapply Z.lt_le_trans; [exact Hub|apply Z.pow_le_mono_r; lia]).
    rewrite Z.pow_add_r in Hlt by lia. apply (Z.mul_lt_mono_pos_r (2 ^ n)); lia.
  - intros Hlt. assert (Hd : Zdigits2 mx = 53 + n) by lia.
    assert (Hpos : 0 < mx) by (destruct (decide (mx = 0)) as [->|]; [cbn in Hd; lia|lia]).
    specialize (Hlb Hpos). rewrite Hd in Hlb. replace (53 + n - 1) with (52 + n) in Hlb by lia. rewrite Z.pow_add_r in Hlb by lia.
    assert (2 ^ 52 < shr_m r + 1); [|lia]. apply (Z.mul_lt_mono_pos_r (2 ^ n)); lia.
Qed.

(** Cutting off does not raise the magnitude. *)
Lemma cut_below mx ex l : 0 ≤ mx → ex ≤ fexp64 (Zdigits2 mx + ex) →
  let '(mrs, e) := shr_fexp f_prec f_emax mx ex l in Zdigits2 (shr_m mrs) + e ≤ Z.max (Zdigits2 mx + ex) (-1074).
Proof.
  intros Hmx Hex. pose proof (cut_floor mx ex l Hmx Hex) as Hf. destruct (shr_fexp _ _ mx ex l) as [r e].
  destruct Hf as (n & Hn & -> & Hen & Hr & Hu). destruct (Zdigits2_bounds mx Hmx) as (Hub & _ & Hd0). pose proof (pow2_pos n Hn).
  destruct (decide (Zdigits2 mx < n)) as [Hlt|Hge].
  - assert (mx < 2 ^ n) by (eapply Z.lt_trans; [exact Hub|apply Z.pow_lt_mono_r; lia]).
    assert (shr_m r = 0) as -> by nia. cbn [Zdigits2]. rewrite fexp64_max in Hen. lia.
  - pose proof (digits_le (shr_m r) (Zdigits2 mx - n) ltac:(lia)) as Hd.
    assert (shr_m r < 2 ^ (Zdigits2 mx - n)); [|lia]. apply (Z.mul_lt_mono_pos_r (2 ^ n)); [done|].
    rewrite <- Z.pow_add_r by lia. replace (Zdigits2 mx - n + n) with (Zdigits2 mx) by lia. lia.
Qed.

Lemma canonical_tidy s p e : tidy (Zpos p) e → e ≤ 971 → canonical (S754_finite s p e) = true.
Proof.
  intros H He. cbn. unfold bounded, canonical_mantissa. apply andb_true_iff. split; [|apply Z.leb_le; exact He].
  apply Z.eqb_eq. exact (tidy_fexp _ _ H).
Qed.

Lemma canonical_round_aux s mx ex l : 0 ≤ mx → ex ≤ fexp64 (Zdigits2 mx + ex) →
  canonical (binary_round_aux f_prec f_emax s mx ex l) = true.
Proof.
  intros Hmx Hex. unfold binary_round_aux. pose proof (cut_tidy mx ex l Hmx Hex) as Ht.
  destruct (shr_fexp f_prec f_emax mx ex l) as [r e]. set (m := round_nearest_even _ _).
  assert (Hm : m = shr_m r ∨ m = shr_m r + 1) by apply round_nearest_even_step. destruct Ht as (Hr & He & Hn).
  destruct (decide (m = 2 ^ 53)) as [->|Hne].
  - replace e with (e + 1 - 1) by lia. rewrite shr_carry by lia. cbn [shr_m]. change (2 ^ 52) with (Zpos (2 ^ 52)).
    destruct (Z.leb_spec (e + 1) (f_emax - f_prec)) as [Hle|]; [|done]. apply canonical_tidy; [|exact Hle]. split; [done|lia].
  - assert (Hd : tidy m e) by (split; [lia|split; [done|lia]]).
    replace (shr_fexp f_prec f_emax m e loc_Exact) with (Build_shr_record m false false, e).
    2: { unfold shr_fexp. change (fexp f_prec f_emax) with fexp64. by rewrite (tidy_fexp _ _ Hd), Z.sub_diag. }
    cbn [shr_m]. destruct m as [|p|p] eqn:Em; [done| |destruct Hd; lia].
    destruct (Z.leb_spec e (f_emax - f_prec)) as [Hle|]; [|done]. by apply canonical_tidy.
Qed.

(** ** The operations *)

Lemma fexp64_mono a b : a ≤ b → fexp64 a ≤ fexp64 b.
Proof. rewrite !fexp64_max. lia. Qed.

Lemma digits_shift p d : Zdigits2 (Zpos (Pos.iter xO p d)) = Zdigits2 (Zpos p) + Zpos d.
Proof.
  induction d as [|d IH] using Pos.peano_ind; [cbn; lia|]. rewrite Pos.iter_succ. cbn [Zdigits2 digits2_pos] in *. lia.
Qed.

Lemma canonical_binary_round s p e : canonical (binary_round f_prec f_emax s p e) = true.
Proof.
  unfold binary_round, shl_align. change (fexp f_prec f_emax) with fexp64.
  set (f := fexp64 (Zpos (digits2_pos p) + e)). destruct (f - e) as [|d|d] eqn:E.
  - apply canonical_round_aux; [lia|]. fold (Zdigits2 (Zpos p)) in f. fold f. lia.
  - apply canonical_round_aux; [lia|]. cbn [Zdigits2]. fold f. lia.
  - apply canonical_round_aux; [lia|]. rewrite digits_shift. cbn [Zdigits2].
    replace (Zpos (digits2_pos p) + Zpos d + f) with (Zpos (digits2_pos p) + e) by lia. fold f. lia.
Qed.

Lemma canonical_normalize m e s : canonical (binary_normalize f_prec f_emax m e s) = true.
Proof. destruct m; [done|apply canonical_binary_round..]. Qed.

Lemma canonical_of_Z z : canonical (of_Z z) = true.
Proof. apply canonical_normalize. Qed.

Lemma canonical_SFdiv x y : canonical (SFdiv f_prec f_emax x y) = true.
Proof.
  destruct x as [sx|sx| |sx mx ex], y as [sy|sy| |sy my ey]; try done. cbn [SFdiv]. unfold SFdiv_core_binary.
  change (fexp f_prec f_emax) with fexp64.
  set (g := Zdigits2 (Zpos mx) + ex - (Zdigits2 (Zpos my) + ey)). set (e' := Z.min (fexp64 g) (ex - ey)).
  set (m' := match ex - ey - e' with Z0 => _ | Zpos _ => _ | Zneg _ => _ end).
  assert (Hs : 0 ≤ ex - ey - e') by (unfold e'; lia).
  assert (Hm' : m' = Zpos mx * 2 ^ (ex - ey - e')).
  { unfold m'. destruct (ex - ey - e') as [|s|s]; [lia|by rewrite Z.shiftl_mul_pow2|lia]. }
  clearbody m'. pose proof (Z_div_mod m' (Zpos my) ltac:(lia)) as Hd.
  destruct (Z.div_eucl m' (Zpos my)) as [q r]. destruct Hd as [Hd Hr].
  pose proof (pow2_pos _ Hs) as Hp. assert (Hq : 0 ≤ q) by nia.
  apply canonical_round_aux; [done|].
  assert (Hdig : Zdigits2 (Zpos mx) + (ex - ey - e') - Zdigits2 (Zpos my) ≤ Zdigits2 q).
  { destruct (Zdigits2_bounds q Hq) as (Hqu & _ & Hq0). destruct (Zdigits2_bounds (Zpos mx) ltac:(lia)) as (_ & Hxl & _).
    destruct (Zdigits2_bounds (Zpos my) ltac:(lia)) as (Hyu & _ & Hy0). specialize (Hxl ltac:(lia)).
    apply Z.nlt_ge. intros Hlt.
    assert (H1 : 2 ^ (Zdigits2 (Zpos mx) - 1) * 2 ^ (ex - ey - e') < 2 ^ (Zdigits2 q) * 2 ^ Zdigits2 (Zpos my)).
    { eapply Z.le_lt_trans; [apply Z.mul_le_mono_nonneg_r; [lia|exact Hxl]|]. rewrite <- Hm', Hd.
      assert (Zpos my * q + r < (q + 1) * Zpos my) by lia.
      eapply Z.lt_le_trans; [exact H|]. apply Z.mul_le_mono_nonneg; lia. }
    assert (H0 : 1 ≤ Zdigits2 (Zpos mx)) by (cbn [Zdigits2]; lia).
    rewrite <- !Z.pow_add_r in H1 by lia. apply Z.pow_lt_mono_r_iff in H1; lia. }
  assert (Hg : fexp64 g ≤ fexp64 (Zdigits2 q + e')) by (apply fexp64_mono; unfold g; lia).
  assert (e' ≤ fexp64 g) by (unfold e'; lia). lia.
Qed.

Lemma canonical_fdiv x y : canonical (fdiv x y) = true.
Proof. apply canonical_SFdiv. Qed.

Lemma canonical_fadd x y : canonical x = true → canonical y = true → canonical (fadd x y) = true.
Proof.
  intros Hx Hy. destruct x as [[]|[]| |sx mx ex], y as [[]|[]| |sy my ey]; try done. apply canonical_normalize.
Qed.

Lemma canonical_fsub x y : canonical x = true → canonical y = true → canonical (fsub x y) = true.
Proof.
  intros Hx Hy. destruct x as [[]|[]| |sx mx ex], y as [[]|[]| |sy my ey]; try done. apply canonical_normalize.
Qed.

Lemma canonical_digits s m e : canonical (S754_finite s m e) = true →
  fexp64 (Zpos (digits2_pos m) + e) = e.
Proof. cbn. unfold bounded, canonical_mantissa. intros H. apply andb_true_iff in H as [H _]. by apply Z.eqb_eq in H. Qed.

Lemma fmul_exponent sx mx ex sy my ey : canonical (S754_finite sx mx ex) = true → canonical (S754_finite sy my ey) = true →
  ex + ey ≤ fexp64 (Zdigits2 (Zpos (mx * my)) + (ex + ey)).
Proof.
  intros Hx Hy. apply canonical_digits in Hx, Hy. rewrite fexp64_max in *.
  pose proof (digits2_bounds mx). pose proof (digits2_bounds my).
  assert (Hd : Zpos (digits2_pos mx) + Zpos (digits2_pos my) - 1 ≤ Zdigits2 (Zpos (mx * my))).
  { replace (_ - 1) with (Zpos (digits2_pos mx) - 1 + (Zpos (digits2_pos my) - 1) + 1) by lia. apply digits_ge; [lia|].
    rewrite Z.pow_add_r by lia. rewrite Pos2Z.inj_mul. apply Z.mul_le_mono_nonneg; lia. }
  lia.
Qed.

Lemma canonical_fmul x y : canonical x = true → canonical y = true → canonical (fmul x y) = true.
Proof.
  intros Hx Hy. destruct x as [sx|sx| |sx mx ex], y as [sy|sy| |sy my ey]; try done.
  apply canonical_round_aux; [lia|]. by eapply fmul_exponent.
Qed.

Lemma canonical_Abs x : canonical x = true → canonical (Abs x) = true.
Proof. by destruct x. Qed.

Lemma canonical_Max x y : canonical x = true → canonical y = true → canonical (Max x y) = true.
Proof. intros Hx Hy. unfold Max. destruct x as [[]|[]| |[] ? ?], y as [[]|[]| |[] ? ?]; try done; by destruct (flt _ _). Qed.

Lemma canonical_Seconds d : canonical (Seconds d) = true.
Proof. apply canonical_fadd; [apply canonical_of_Z|apply canonical_fdiv]. Qed.

(** ** Reading *)

Lemma canonical_roundDecimal neg v e : canonical (roundDecimal neg v e) = true.
Proof.
  unfold roundDecimal. destruct v as [|p|p]; [done| |done]. destruct (0 <=? e); [apply canonical_normalize|].
  destruct (10 ^ (- e)); [done|apply canonical_SFdiv|done].
Qed.

Lemma canonical_roundHex neg v e : canonical (roundHex neg v e) = true.
Proof. unfold roundHex. destruct v; [done|apply canonical_normalize|done]. Qed.

Lemma canonical_special l x : special l = Some x → canonical x = true.
Proof.
  unfold special. destruct (readSign l) as [neg body]. destruct (one_of _ _); [by intros [= <-]|].
  destruct (_ && _); [by intros [= <-]|done].
Qed.

Lemma canonical_ParseFloat s x : ParseFloat s = Some x → canonical x = true.
Proof.
  unfold ParseFloat. cbv zeta. destruct (special _) as [v|] eqn:Es; [intros [= <-]; by eapply canonical_special|].
  destruct (readSign _) as [neg l]. set (hex := match l with 48 :: _ => _ | _ => _ end). clearbody hex.
  destruct (readMantissa _ _ _) as [m rest]. destruct (negb _); [done|].
  set (tail := match rest with [] => _ | _ => _ end). clearbody tail. destruct tail as [[[e under] rest']|]; [|done].
  destruct (negb _); [done|]. destruct (_ && _); [done|].
  assert (Hc : canonical (if hex then roundHex neg (m_value m) (e - 4 * m_frac m)
                          else roundDecimal neg (m_value m) (e - m_frac m)) = true).
  { destruct hex; [apply canonical_roundHex|apply canonical_roundDecimal]. }
  destruct (IsInf _); [done|]. by intros [= <-].
Qed.

(** ** Magnitudes *)

(** A finite float is below [2 ^ mag]. *)
Definition mag (x : float64) : Z := match x with S754_finite _ m e => Zpos (digits2_pos m) + e | _ => -1074 end.

Lemma round_aux_mag s mx ex l : 0 ≤ mx → ex ≤ fexp64 (Zdigits2 mx + ex) →
  mag (binary_round_aux f_prec f_emax s mx ex l) ≤ Z.max (Zdigits2 mx + ex) (-1074) + 1.
Proof.
  intros Hmx Hex. unfold binary_round_aux. pose proof (cut_tidy mx ex l Hmx Hex) as Ht. pose proof (cut_below mx ex l Hmx Hex) as Hb.
  destruct (shr_fexp f_prec f_emax mx ex l) as [r e]. set (m := round_nearest_even _ _).
  assert (Hm : m = shr_m r ∨ m = shr_m r + 1) by apply round_nearest_even_step. destruct Ht as (Hr & He & Hn).
  destruct (decide (m = 2 ^ 53)) as [Hm53|Hne].
  - rewrite Hm53. replace e with (e + 1 - 1) by lia. rewrite shr_carry by lia. cbn [shr_m]. change (2 ^ 52) with (Zpos (2 ^ 52)).
    assert (Hdig : Zdigits2 (shr_m r) = 53).
    { pose proof (digits_le (shr_m r) 53 ltac:(lia) ltac:(lia)). pose proof (digits_ge (shr_m r) 52 ltac:(lia) ltac:(lia)). lia. }
    destruct (_ <=? _); cbn [mag]; [|lia]. change (Zpos (digits2_pos (2 ^ 52))) with 53. lia.
  - assert (Hd : tidy m e) by (split; [lia|split; [done|lia]]).
    replace (shr_fexp f_prec f_emax m e loc_Exact) with (Build_shr_record m false false, e).
    2: { unfold shr_fexp. change (fexp f_prec f_emax) with fexp64. by rewrite (tidy_fexp _ _ Hd), Z.sub_diag. }
    cbn [shr_m]. destruct m as [|p|p] eqn:Em; [cbn; lia| |cbn; lia].
    destruct (_ <=? _); [|cbn; lia]. cbn [mag]. change (Zpos (digits2_pos p)) with (Zdigits2 (Zpos p)).
    destruct (Zdigits2_bounds (shr_m r) ltac:(lia)) as (Hu & _ & H0).
    pose proof (digits_le (Zpos p) (Zdigits2 (shr_m r) + 1) ltac:(lia)) as Hp. rewrite Z.pow_add_r in Hp by lia. lia.
Qed.

Lemma mag_fmul x y : canonical x = true → canonical y = true → mag (fmul x y) ≤ Z.max (mag x + mag y) (-1074) + 1.
Proof.
  intros Hx Hy. destruct x as [sx|sx| |sx mx ex], y as [sy|sy| |sy my ey]; try (cbn [fmul mag SFmul]; lia).
  pose proof (fmul_exponent _ _ _ _ _ _ Hx Hy) as He. cbn [mag].
  etrans; [apply round_aux_mag; [lia|exact He]|].
  assert (Hd : Zdigits2 (Zpos (mx * my)) ≤ Zpos (digits2_pos mx) + Zpos (digits2_pos my)); [|lia].
  apply digits_le; [lia|]. rewrite Pos2Z.inj_mul, Z.pow_add_r by lia.
  pose proof (digits2_bounds mx). pose proof (digits2_bounds my). split; [lia|]. apply Z.mul_lt_mono_nonneg; lia.
Qed.
