(* ===== verification/FloatText.v ===== *)
(** * Floating-point numbers in JSON

    What [FormatFloat] writes of a finite number is a number literal of JSON
    that [ParseFloat] reads back as the same number. *)

From S2P Require Import Prelude GoInt GoTime GoFloat GoText GoDuration GoFlag GoJson JsonFacts.
From Stdlib Require Import SpecFloat.

(** ** The text is a number literal *)

Lemma ascii_digits_app l1 l2 : ascii_digits (l1 ++ l2) = ascii_digits l1 ++ ascii_digits l2.
Proof. apply map_app. Qed.

Lemma zeros_digits n : zeros n = ascii_digits (replicate (Z.to_nat n) 0).
Proof. unfold zeros. induction (Z.to_nat n) as [|m IH]; [done|]. cbn. f_equal. exact IH. Qed.

Lemma replicate_dec n : Forall is_dec (replicate n 0).
Proof. induction n; cbn; constructor; [unfold is_dec; lia|done]. Qed.

Lemma trim_digits d ds : Forall is_dec (d :: ds) → d ≠ 0 →
  ∃ ds' j, rev (dropZeros (rev (ascii_digits (d :: ds)))) = ascii_digits (d :: ds') ∧
    d :: ds = (d :: ds') ++ replicate j 0 ∧ Forall is_dec (d :: ds').
Proof.
  intros Hd Hn. induction ds as [|e ds IH] using rev_ind.
  - exists [], 0%nat. inversion Hd as [|? ? H1 _]; subst. unfold is_dec in H1. cbn.
    replace (48 + d =? 48) with false by lia. by split; [|split].
  - rewrite app_comm_cons in *. apply Forall_app in Hd as [Hd He].
    rewrite ascii_digits_app, rev_app_distr. change (rev (ascii_digits [e])) with [48 + e]. cbn [app dropZeros].
    destruct (48 + e =? 48) eqn:E.
    + destruct (IH Hd) as (ds' & j & Ht & Ed & Hd'). exists ds', (S j). split; [done|]. split; [|done].
      assert (e = 0) as -> by lia. rewrite replicate_S_end, app_comm_cons, Ed. by rewrite <- app_assoc.
    + exists (ds ++ [e]), 0%nat. rewrite app_comm_cons, ascii_digits_app.
      set (a := ascii_digits (d :: ds)). cbn [rev replicate]. rewrite rev_involutive, app_nil_r.
      split; [done|]. split; [done|]. by apply Forall_app.
Qed.

Lemma readFraction_digits d ds rest : Forall is_dec (d :: ds) →
  match rest with [] => True | c :: _ => between 48 57 c = false end →
  readFraction (46 :: ascii_digits (d :: ds) ++ rest) = Some (46 :: ascii_digits (d :: ds), rest).
Proof. intros Hd Hr. cbn [readFraction]. ztests. by rewrite readDigits_ascii. Qed.

Lemma readExp_digits s d ds rest : s = 43 ∨ s = 45 → Forall is_dec (d :: ds) →
  match rest with [] => True | c :: _ => between 48 57 c = false end →
  readExp (101 :: s :: ascii_digits (d :: ds) ++ rest) = Some (101 :: s :: ascii_digits (d :: ds), rest).
Proof.
  intros Hs Hd Hr. unfold readExp. change ((101 =? 101) || (101 =? 69)) with true. cbv beta iota.
  replace ((s =? 43) || (s =? 45)) with true by lia. cbv beta iota. by rewrite readDigits_ascii.
Qed.

Lemma format_loop_length n : ∀ v acc, (length (bytes (format_loop n v acc)) ≤ n + length (bytes acc))%nat.
Proof.
  induction n as [|n IH]; intros v acc; [done|]. rewrite format_loop_S. cbv zeta.
  destruct (v <? 10); [cbn; lia|]. etrans; [apply IH|]. cbn. lia.
Qed.

Lemma FormatUint_length v : (length (bytes (FormatUint v)) ≤ 20)%nat.
Proof. etrans; [apply format_loop_length|]. cbn. lia. Qed.

Lemma stops_digit rest : stops rest → match rest with [] => True | c :: _ => between 48 57 c = false end.
Proof. destruct rest as [|c rest]; [done|]. intros H. apply H. Qed.

(** The parts a literal may have behind its integer part. *)
Inductive fraction : list Z → Prop :=
| no_fraction : fraction []
| some_fraction d ds : Forall is_dec (d :: ds) → fraction (46 :: ascii_digits (d :: ds)).

Inductive exponent : list Z → Prop :=
| no_exponent : exponent []
| some_exponent s d ds : s = 43 ∨ s = 45 → Forall is_dec (d :: ds) → exponent (101 :: s :: ascii_digits (d :: ds)).

Lemma readExp_exponent e rest : exponent e → stops rest → readExp (e ++ rest) = Some (e, rest).
Proof.
  intros He Hr. destruct He as [|s d ds Hs Hd]; [by apply readExp_stops|]. apply readExp_digits; [done..|by apply stops_digit].
Qed.

Lemma exponent_head e rest : exponent e → stops rest →
  match e ++ rest with [] => True | c :: _ => between 48 57 c = false ∧ c ≠ 46 end.
Proof. intros [] Hr; [|done]. destruct rest as [|c rest]; [done|]. destruct Hr as (H1 & H2 & _). done. Qed.

Lemma readFraction_fraction f e rest : fraction f → exponent e → stops rest →
  readFraction (f ++ e ++ rest) = Some (f, e ++ rest).
Proof.
  intros Hf He Hr. pose proof (exponent_head _ _ He Hr) as Hh. destruct Hf as [|d ds Hd].
  - cbn [app]. destruct (e ++ rest) as [|c l]; [done|]. cbn. destruct Hh as [_ Hc]. by replace (c =? 46) with false by lia.
  - apply readFraction_digits; [done|]. by destruct (e ++ rest); [|apply Hh].
Qed.

Lemma number_of_parts (neg : bool) d ds f e : Forall is_dec (d :: ds) → (d = 0 → ds = []) → fraction f → exponent e →
  number ((if neg then [45] else []) ++ ascii_digits (d :: ds) ++ f ++ e).
Proof.
  intros Hd H0 Hf He rest Hr. rewrite <- !app_assoc. apply readNumber_parts with (rest1 := e ++ rest); [done..| | |].
  - pose proof (exponent_head _ _ He Hr) as Hh. destruct Hf; [|done]. cbn [app]. by destruct (e ++ rest); [|apply Hh].
  - by apply readFraction_fraction.
  - by apply readExp_exponent.
Qed.

Lemma length_ascii ds : length (ascii_digits ds) = length ds.
Proof. apply length_map. Qed.

(** The decimal point falls between two digits. *)
Lemma split_digits (d : Z) ds dp : 0 < dp < Z.of_nat (length (d :: ds)) →
  ∃ ds1 e es, d :: ds = (d :: ds1) ++ e :: es ∧ Z.to_nat dp = length (d :: ds1).
Proof.
  intros H. destruct (Z.to_nat dp) as [|n] eqn:En; [lia|]. cbn [length] in *.
  destruct (drop n ds) as [|e es] eqn:Ed.
  - apply (f_equal length) in Ed. rewrite length_drop in Ed. cbn in Ed. lia.
  - exists (take n ds), e, es. cbn [app]. rewrite <- Ed, take_drop. split; [done|]. cbn. rewrite length_take. lia.
Qed.

Lemma formatF_number (neg : bool) d ds dp : Forall is_dec (d :: ds) → d ≠ 0 →
  number ((if neg then [45] else []) ++ formatF (ascii_digits (d :: ds)) dp).
Proof.
  intros Hd Hn. unfold formatF.
  destruct (Z.leb_spec dp 0); [|destruct (Z.leb_spec (Z.of_nat (length (ascii_digits (d :: ds)))) dp)].
  - rewrite zeros_digits, <- ascii_digits_app.
    assert (Hz : Forall is_dec (replicate (Z.to_nat (- dp)) 0 ++ d :: ds)).
    { apply Forall_app. split; [apply replicate_dec|done]. }
    destruct (replicate (Z.to_nat (- dp)) 0 ++ d :: ds) as [|z zs] eqn:E; [by destruct (replicate _ _)|].
    rewrite <- (app_nil_r (ascii_digits (z :: zs))).
    apply (number_of_parts neg 0 [] (46 :: ascii_digits (z :: zs)) []); [by repeat constructor|done|by constructor|constructor].
  - rewrite zeros_digits, <- ascii_digits_app, <- app_comm_cons. rewrite <- (app_nil_r (ascii_digits _)).
    apply (number_of_parts neg d _ [] []); [|done|constructor..].
    rewrite app_comm_cons. apply Forall_app. split; [done|apply replicate_dec].
  - rewrite length_ascii in *. destruct (split_digits d ds dp ltac:(lia)) as (ds1 & e & es & E & En).
    rewrite E, En, ascii_digits_app in *.
    rewrite <- (length_map (λ d, 48 + d) (d :: ds1)), take_app_length, drop_app_length.
    rewrite <- (app_nil_r (46 :: _)). apply Forall_app in Hd as [Hd1 Hd2].
    apply (number_of_parts neg d ds1 (46 :: ascii_digits (e :: es)) []); [done..|by constructor|constructor].
Qed.

Lemma formatE_number (neg : bool) d ds dp : Forall is_dec (d :: ds) → d ≠ 0 → Z.abs (dp - 1) < 10 ^ 20 →
  number ((if neg then [45] else []) ++ formatE (ascii_digits (d :: ds)) dp).
Proof.
  intros Hd Hn He. inversion Hd as [|? ? H1 H2]; subst. unfold formatE.
  destruct (FormatUint_bytes (Z.abs (dp - 1)) ltac:(lia)) as (x & xs & Ex & Hx & _). rewrite Ex.
  change (take 1 (ascii_digits (d :: ds))) with (ascii_digits [d]).
  change (drop 1 (ascii_digits (d :: ds))) with (ascii_digits ds).
  apply number_of_parts; [by constructor|done| |].
  - destruct ds as [|e ds]; [constructor|]. by constructor.
  - constructor; [|done]. destruct (dp - 1 <? 0); auto.
Qed.

Lemma formatDecimal_number (neg useE : bool) v exp : 0 < v < 10 ^ 20 → Z.abs exp < 10 ^ 10 →
  number (formatDecimal neg useE v exp).
Proof.
  intros Hv He. unfold formatDecimal. destruct (FormatUint_bytes v ltac:(lia)) as (d & ds & E & Hd & Hval & H0).
  assert (Hn : d ≠ 0). { intros ->. rewrite H0 in Hval by done. cbn in Hval. lia. }
  rewrite E. destruct (trim_digits d ds Hd Hn) as (ds' & j & Et & _ & Hd'). rewrite Et.
  assert (Hl : (length (ascii_digits (d :: ds)) ≤ 20)%nat) by (rewrite <- E; apply FormatUint_length).
  destruct useE; [|by apply formatF_number]. apply formatE_number; [done..|lia].
Qed.

(** ** The search *)

Lemma find_split {A} (p : A → bool) l x : List.find p l = Some x →
  p x = true ∧ ∃ l1 l2, l = l1 ++ x :: l2 ∧ Forall (λ y, p y = false) l1.
Proof.
  induction l as [|y l IH]; cbn; [done|]. destruct (p y) eqn:E.
  - intros [= ->]. split; [done|]. by exists [], l.
  - intros H. apply IH in H as (Hp & l1 & l2 & -> & Hf). split; [done|]. exists (y :: l1), l2. by split; [|constructor].
Qed.

Lemma find_seqZ p m n k : List.find p (seqZ m n) = Some k →
  p k = true ∧ m ≤ k < m + n ∧ (m < k → p (k - 1) = false).
Proof.
  intros H. apply find_split in H as (Hp & l1 & l2 & E & Hf). split; [done|].
  assert (Hk : seqZ m n !! length l1 = Some k) by (rewrite E; apply list_lookup_middle; done).
  apply lookup_seqZ in Hk as [-> Hk]. split; [lia|]. intros Hl.
  assert (Hi : seqZ m n !! (length l1 - 1)%nat = Some (m + Z.of_nat (length l1) - 1)) by (apply lookup_seqZ; lia).
  rewrite E, lookup_app_l in Hi by lia. rewrite Forall_forall in Hf. apply Hf. by eapply list_elem_of_lookup_2.
Qed.

Lemma find_exists {A} (p : A → bool) l x : x ∈ l → p x = true → ∃ y, List.find p l = Some y.
Proof.
  intros Hx Hp. destruct (List.find p l) as [y|] eqn:E; [by exists y|].
  assert (Hn := List.find_none p l E x). rewrite <- list_elem_of_In in Hn. rewrite Hn in Hp by done. done.
Qed.

(** [num / den] has [k] digits in front of the point: between [10 ^ (k - 1)]
    and [10 ^ k]. *)
Definition has_digits (num den k : Z) : Prop :=
  -400 < k < 400 ∧ 0 < den ∧ den * 10 ^ 400 ≤ num * 10 ^ (401 - k) ∧ num * 10 ^ (400 - k) < den * 10 ^ 400.

Lemma below_shift num den k : -400 < k ≤ 400 →
  (if k <? 0 then num * 10 ^ (- k) <? den else num <? den * 10 ^ k) = true ↔ num * 10 ^ (400 - k) < den * 10 ^ 400.
Proof.
  intros Hk. destruct (Z.ltb_spec k 0).
  - rewrite Z.ltb_lt. replace (10 ^ (400 - k)) with (10 ^ (- k) * 10 ^ 400) by (rewrite <- Z.pow_add_r by lia; f_equal; lia).
    rewrite Z.mul_assoc. apply Z.mul_lt_mono_pos_r. lia.
  - rewrite Z.ltb_lt. replace (10 ^ 400) with (10 ^ k * 10 ^ (400 - k)) by (rewrite <- Z.pow_add_r by lia; f_equal; lia).
    rewrite Z.mul_assoc. apply Z.mul_lt_mono_pos_r. apply Z.pow_pos_nonneg; lia.
Qed.

Lemma decimalPoint_spec num den : 0 < den → den ≤ num * 10 ^ 330 → num < den * 10 ^ 319 →
  has_digits num den (decimalPoint num den).
Proof.
  intros Hd Hlo Hhi. unfold decimalPoint.
  set (p := λ k, if k <? 0 then num * 10 ^ (- k) <? den else num <? den * 10 ^ k).
  destruct (find_exists p (seqZ (-330) 650) 319) as [k Hk]; [apply elem_of_seqZ; lia|unfold p; by apply Z.ltb_lt|].
  rewrite Hk. change (has_digits num den k). apply find_seqZ in Hk as (Hp & Hr & Hm).
  assert (Hk : -330 < k).
  { destruct (decide (k = -330)) as [->|]; [|lia]. exfalso. unfold p in Hp. cbn -[Z.pow Z.mul] in Hp. apply Z.ltb_lt in Hp. lia. }
  specialize (Hm Hk). split; [lia|]. split; [done|]. split.
  - apply not_true_iff_false in Hm. unfold p in Hm. rewrite below_shift in Hm by lia.
    replace (400 - (k - 1)) with (401 - k) in Hm by lia. lia.
  - by apply below_shift; [lia|].
Qed.

Lemma pow10_add a b c : 0 ≤ a → 0 ≤ b → c = a + b → 10 ^ c = 10 ^ a * 10 ^ b.
Proof. intros ? ? ->. by apply Z.pow_add_r. Qed.

Lemma pow10_pos a : 0 ≤ a → 0 < 10 ^ a.
Proof. intros. apply Z.pow_pos_nonneg; lia. Qed.

Lemma has_digits_num num den k : has_digits num den k → 0 < num.
Proof.
  intros (Hk & Hd & Hlo & _). pose proof (pow10_pos (401 - k) ltac:(lia)). pose proof (pow10_pos 400 ltac:(lia)).
  apply Z.nle_gt. intros Hn. assert (num * 10 ^ (401 - k) ≤ 0) by (apply Z.mul_nonpos_nonneg; lia).
  assert (0 < den * 10 ^ 400) by (apply Z.mul_pos_pos; lia). lia.
Qed.

Lemma scaled_bounds num den k n : has_digits num den k → 0 < n < 400 →
  let num' := if n - k <? 0 then num else num * 10 ^ (n - k) in
  let den' := if n - k <? 0 then den * 10 ^ (k - n) else den in
  0 < den' ∧ 1 ≤ num' / den' < 10 ^ n.
Proof.
  intros H Hn. pose proof (has_digits_num _ _ _ H) as Hnum. destruct H as (Hk & Hd & Hlo & Hhi). cbv zeta.
  assert (Hlo' : den * 10 ^ 400 ≤ num * 10 ^ (400 + n - k)).
  { etrans; [exact Hlo|]. apply Z.mul_le_mono_nonneg_l; [lia|]. apply Z.pow_le_mono_r; lia. }
  destruct (Z.ltb_spec (n - k) 0).
  - pose proof (pow10_pos (k - n) ltac:(lia)) as Hp. split; [by apply Z.mul_pos_pos|]. split.
    + apply Z.div_le_lower_bound; [by apply Z.mul_pos_pos|]. rewrite Z.mul_1_r.
      rewrite (pow10_add (k - n) (400 + n - k) 400), Z.mul_assoc in Hlo' by lia.
      by apply Z.mul_le_mono_pos_r in Hlo'; [|apply pow10_pos; lia].
    + apply Z.div_lt_upper_bound; [by apply Z.mul_pos_pos|].
      rewrite <- Z.mul_assoc, <- Z.pow_add_r by lia. replace (k - n + n) with k by lia.
      rewrite (pow10_add k (400 - k) 400), Z.mul_assoc in Hhi by lia.
      by apply Z.mul_lt_mono_pos_r in Hhi; [|apply pow10_pos; lia].
  - split; [done|]. split.
    + apply Z.div_le_lower_bound; [done|]. rewrite Z.mul_1_r.
      rewrite (pow10_add (n - k) 400 (400 + n - k)), Z.mul_assoc in Hlo' by lia.
      by apply Z.mul_le_mono_pos_r in Hlo'; [|apply pow10_pos; lia].
    + apply Z.div_lt_upper_bound; [done|].
      rewrite (pow10_add n (400 - n) 400), Z.mul_assoc in Hhi by lia.
      rewrite (pow10_add (n - k) (400 - n) (400 - k)), Z.mul_assoc in Hhi by lia.
      by apply Z.mul_lt_mono_pos_r in Hhi; [|apply pow10_pos; lia].
Qed.

(** Whatever the search returns is a literal that reads back. *)
Lemma shortest_spec x neg useE num den k fuel : has_digits num den k → ∀ n l,
  0 < n → n + Z.of_nat fuel ≤ 19 → shortest x neg useE num den k n fuel = Some l →
  number l ∧ ParseFloat (unbytes l) = Some x.
Proof.
  intros Hk. induction fuel as [|fuel IH]; intros n l Hn Hf; [done|]. cbn [shortest]. cbv zeta.
  destruct (scaled_bounds num den k n Hk ltac:(lia)) as (_ & Hlo & Hhi).
  set (num' := if n - k <? 0 then num else _) in *. set (den' := if n - k <? 0 then den * _ else den) in *.
  assert (Hp : 10 ^ n < 10 ^ 20) by (apply Z.pow_lt_mono_r; lia).
  assert (He : Z.abs (k - n) < 10 ^ 10) by (destruct Hk; lia).
  assert (Hdown : number (formatDecimal neg useE (num' / den') (k - n))) by (apply formatDecimal_number; lia).
  assert (Hup : number (formatDecimal neg useE (num' / den' + 1) (k - n))) by (apply formatDecimal_number; lia).
  unfold readsBack. repeat case_bool_decide; try (intros [= <-]; by repeat split_if).
  apply IH; lia.
Qed.

(** The search starts from the exact value. *)
Lemma has_digits_finite s m e : canonical (S754_finite s m e) = true →
  let num := Zpos m * 2 ^ Z.max 0 e in
  let den := 2 ^ Z.max 0 (- e) in
  has_digits num den (decimalPoint num den) ∧ num * 2 ^ 1074 = Zpos m * 2 ^ (e + 1074) * den.
Proof.
  intros Hc. cbv zeta. apply canonical_finite in Hc.
  assert (Hm : Zpos m < 2 ^ 53 ∧ -1074 ≤ e ≤ 971) by lia. destruct Hm as [Hm He].
  assert (H0 : 0 < 2 ^ Z.max 0 e) by (apply Z.pow_pos_nonneg; lia).
  assert (H1 : 0 < 2 ^ Z.max 0 (- e)) by (apply Z.pow_pos_nonneg; lia). split.
  - apply decimalPoint_spec; [done| |].
    + assert (2 ^ Z.max 0 (- e) ≤ 2 ^ 1074) by (apply Z.pow_le_mono_r; lia).
      assert (2 ^ 1074 ≤ 10 ^ 330) by (apply Z.leb_le; vm_compute; reflexivity).
      assert (10 ^ 330 ≤ Zpos m * 2 ^ Z.max 0 e * 10 ^ 330); [|lia].
      rewrite <- (Z.mul_1_l (10 ^ 330)) at 1. apply Z.mul_le_mono_nonneg_r; [lia|]. nia.
    + assert (2 ^ Z.max 0 e ≤ 2 ^ 971) by (apply Z.pow_le_mono_r; lia).
      assert (2 ^ 53 * 2 ^ 971 < 10 ^ 319) by (apply Z.ltb_lt; vm_compute; reflexivity).
      assert (Zpos m * 2 ^ Z.max 0 e ≤ 2 ^ 53 * 2 ^ 971) by (apply Z.mul_le_mono_nonneg; lia).
      assert (1 * 10 ^ 319 ≤ 2 ^ Z.max 0 (- e) * 10 ^ 319) by (apply Z.mul_le_mono_nonneg_r; lia). lia.
  - rewrite <- !Z.mul_assoc. f_equal. rewrite <- !Z.pow_add_r by lia. f_equal. lia.
Qed.

(** What is written of a float is a literal of JSON that reads back as the
    same float. *)
Lemma FormatFloat_reads x l : canonical x = true → FormatFloat x = Some l →
  number l ∧ ParseFloat (unbytes l) = Some x.
Proof.
  intros Hc. destruct x as [neg|neg| |neg m e]; cbn [FormatFloat]; [|done..|].
  - intros [= <-]. split; [|by destruct neg; vm_compute].
    destruct neg; [apply (number_of_parts true 0 [] [] [])|apply (number_of_parts false 0 [] [] [])]; try done; try constructor.
    all: by repeat constructor.
  - apply shortest_spec; [by apply (has_digits_finite neg)|lia..].
Qed.
