(* ===== verification/FloatShortest.v ===== *)
(** * Floating-point numbers have a short text

    Seventeen digits are enough: [FormatFloat] returns a text for every finite
    float, and [FormatFloat_correct] says what it is. *)

From S2P Require Import Prelude GoInt GoTime GoFloat GoText GoDuration GoFlag GoJson JsonFacts FloatRound FloatText.
From Stdlib Require Import SpecFloat.

(** ** Digits *)

Lemma decimal_app x l1 l2 : decimal x (l1 ++ l2) = decimal (decimal x l1) l2.
Proof. apply fold_left_app. Qed.

Lemma decimal_zeros x j : decimal x (replicate j 0) = x * 10 ^ Z.of_nat j.
Proof.
  revert x. induction j as [|j IH]; intros x; [cbn; lia|]. rewrite Nat2Z.inj_succ, Z.pow_succ_r by lia.
  change (decimal (x * 10 + 0) (replicate j 0) = x * (10 * 10 ^ Z.of_nat j)). rewrite IH. lia.
Qed.

Lemma readMantissa_digits ds rest : ∀ m, Forall is_dec ds → m_digits m = true ∨ ds ≠ [] →
  readMantissa false m (ascii_digits ds ++ rest) =
  readMantissa false (mkMant (decimal (m_value m) ds)
    (if m_dot m then m_frac m + Z.of_nat (length ds) else m_frac m) (m_dot m) true (m_under m)) rest.
Proof.
  induction ds as [|d ds IH]; intros m Hd Hm.
  - destruct Hm as [Hm|]; [|done]. destruct m as [v fr [] dg u]; cbn in *; subst; [by rewrite Z.add_0_r|done].
  - inversion Hd as [|? ? H1 H2]; subst. pose proof (ascii_digit d H1) as Hb. unfold is_dec in H1.
    cbn [ascii_digits map app readMantissa]. ztests. unfold digitValue. rewrite Hb.
    change (map (λ d, 48 + d) ds) with (ascii_digits ds). rewrite IH by (try done; by left). cbn [m_value m_frac m_dot m_under].
    f_equal. f_equal; [by replace (48 + d - 48) with d by lia|].
    destruct (m_dot m); [|done]. cbn [length]. lia.
Qed.

Lemma readExponent_digits ds : ∀ e u, Forall is_dec ds → 0 ≤ e → decimal e ds < 10000 →
  readExponent e u (ascii_digits ds) = (decimal e ds, u, []).
Proof.
  induction ds as [|d ds IH]; intros e u Hd He Hlt; [done|]. inversion Hd as [|? ? H1 H2]; subst.
  unfold is_dec in H1.
  cbn [ascii_digits map readExponent]. ztests. cbn [andb]. pose proof (decimal_mono ds (e * 10 + d) H2 ltac:(lia)) as Hm.
  change (decimal e (d :: ds)) with (decimal (e * 10 + d) ds) in *. ztests.
  replace (e * 10 + (48 + d - 48)) with (e * 10 + d) by lia. by apply IH; [..|lia|].
Qed.

(** ** Reading a literal *)

Definition fractionText (fs : list Z) : list Z := match fs with [] => [] | _ => 46 :: ascii_digits fs end.

Definition exponentText (e : option (bool * Z * list Z)) : list Z :=
  match e with None => [] | Some (s, d, ds) => 101 :: (if s : bool then 45 else 43) :: ascii_digits (d :: ds) end.

Definition exponentValue (e : option (bool * Z * list Z)) : Z :=
  match e with None => 0 | Some (s, d, ds) => (if s : bool then -1 else 1) * decimal 0 (d :: ds) end.

Definition exponent_ok (e : option (bool * Z * list Z)) : Prop :=
  match e with None => True | Some (s, d, ds) => Forall is_dec (d :: ds) ∧ decimal 0 (d :: ds) < 10000 end.

Definition signText (neg : bool) : list Z := if neg then [45] else [].

Definition byteRange (c : Z) : Prop := 0 ≤ c < 256.

Lemma bytes_unbytes l : Forall byteRange l → bytes (unbytes l) = l.
Proof. induction 1 as [|c l Hc _ IH]; [done|]. cbn. rewrite IH. f_equal. by apply code_chr. Qed.

Lemma ascii_byteRange ds : Forall is_dec ds → Forall byteRange (ascii_digits ds).
Proof. induction 1 as [|d ds Hd _ IH]; constructor; [unfold is_dec, byteRange in *; lia|done]. Qed.

Lemma readSign_text neg d l : is_dec d → readSign (signText neg ++ 48 + d :: l) = (neg, 48 + d :: l).
Proof. unfold is_dec. intros. destruct neg; cbn; [done|]. by ztests. Qed.

Lemma dec_cases (P : Z → Prop) : Forall P (seqZ 0 10) → ∀ d, is_dec d → P d.
Proof. intros H d Hd. rewrite Forall_forall in H. apply H, elem_of_seqZ. unfold is_dec in Hd. lia. Qed.

(** A text that begins with a digit is not one of the special words. *)
Lemma special_text neg d l : is_dec d → special (signText neg ++ 48 + d :: l) = None.
Proof.
  intros Hd. unfold special. rewrite readSign_text by done. cbn [map unbytes].
  assert (Hc : code (chr (lowerByte (48 + d))) ≠ 105 ∧ code (chr (lowerByte (48 + d))) ≠ 110).
  { revert d Hd. apply dec_cases. by repeat constructor. }
  destruct Hc as [H1 H2]. set (c := chr (lowerByte (48 + d))) in *. set (s := unbytes _).
  assert (Hn : ∀ c' s', code c ≠ code c' → (String c s =s String c' s') = false).
  { intros c' s' Hc. apply String.eqb_neq. intros E. injection E as E _. by rewrite E in Hc. }
  unfold one_of. cbn [existsb]. by rewrite !Hn.
Qed.

(** What may follow a digit: another one, the point, the exponent. *)
Definition follows (l : list Z) : Prop :=
  match l with [] => True | c :: _ => c = 46 ∨ c = 101 ∨ ∃ d, is_dec d ∧ c = 48 + d end.

Lemma follows_text ds fs e : Forall is_dec ds → follows (ascii_digits ds ++ fractionText fs ++ exponentText e).
Proof.
  intros Hd. destruct Hd as [|d ds Hd _]; [|right; right; by exists d].
  destruct fs; [|by left]. destruct e as [[[s d] ds]|]; [by right; left|done].
Qed.

Lemma not_hex d l : is_dec d → follows l →
  match 48 + d :: l with 48 :: c :: _ :: _ => lowerByte c =? 120 | _ => false end = false.
Proof.
  intros Hd Hl. destruct l as [|c [|c' l]].
  - revert d Hd. apply dec_cases. by repeat constructor.
  - revert d Hd. apply dec_cases. by repeat constructor.
  - assert (Hc : (lowerByte c =? 120) = false).
    { destruct Hl as [->|[->|(d' & Hd' & ->)]]; [done..|]. revert d' Hd'. apply dec_cases. by repeat constructor. }
    revert d Hd. apply dec_cases. repeat constructor. exact Hc.
Qed.

Lemma readMantissa_stop m e : readMantissa false m (exponentText e) = (m, exponentText e).
Proof. by destruct e as [[[s d] ds]|]. Qed.

Lemma readMantissa_text d ds fs e : Forall is_dec (d :: ds) → Forall is_dec fs →
  ∃ dot, readMantissa false (mkMant 0 0 false false false) (ascii_digits (d :: ds) ++ fractionText fs ++ exponentText e) =
  (mkMant (decimal 0 (d :: ds ++ fs)) (Z.of_nat (length fs)) dot true false, exponentText e).
Proof.
  intros Hd Hf. rewrite readMantissa_digits by (try done; by right). cbn [m_value m_frac m_dot m_under].
  destruct fs as [|f fs].
  - exists false. cbn [fractionText app length]. by rewrite readMantissa_stop, app_nil_r.
  - exists true. cbn [fractionText app readMantissa]. change (46 =? 95) with false. change (46 =? 46) with true. cbv beta iota.
    rewrite readMantissa_digits by (try done; by left). rewrite readMantissa_stop. cbn [m_value m_frac m_dot m_under].
    rewrite <- decimal_app. by rewrite <- app_comm_cons.
Qed.

(** The value of a literal. *)
Lemma ParseFloat_text neg d ds fs e : Forall is_dec (d :: ds) → Forall is_dec fs → exponent_ok e →
  ParseFloat (unbytes (signText neg ++ ascii_digits (d :: ds) ++ fractionText fs ++ exponentText e)) =
  (let v := roundDecimal neg (decimal 0 (d :: ds ++ fs)) (exponentValue e - Z.of_nat (length fs)) in
   if IsInf v then None else Some v).
Proof.
  intros Hd Hf He. unfold ParseFloat. cbv zeta. rewrite bytes_unbytes.
  2: { repeat (apply Forall_app; split); [by destruct neg; repeat constructor|by apply ascii_byteRange| |].
       - destruct fs; [constructor|]. constructor; [done|by apply ascii_byteRange].
       - destruct e as [[[s e] es]|]; [|constructor]. constructor; [done|]. constructor; [by destruct s|].
         by apply ascii_byteRange, He. }
  pose proof (follows_text ds fs e ltac:(by inversion Hd)) as Hfo.
  destruct (readMantissa_text d ds fs e Hd Hf) as [dot Hm].
  change (ascii_digits (d :: ds)) with (48 + d :: ascii_digits ds) in *. rewrite <- !app_comm_cons in *.
  assert (Hd1 : is_dec d) by (by inversion Hd).
  rewrite special_text, readSign_text, not_hex by done. cbv beta iota. rewrite Hm. cbn [m_digits m_under negb].
  assert (Hx : match exponentText e with
    | c :: rest' => if lowerByte c =? 101 then
        (let '(eneg, rest') := readSign rest' in
         match rest' with
         | d :: _ => if (48 <=? d) && (d <=? 57) then
             let '(e, under, rest') := readExponent 0 false rest' in Some (if eneg then - e else e, under, rest') else None
         | [] => None end)
      else Some (0, false, exponentText e)
    | [] => Some (0, false, exponentText e)
    end = Some (exponentValue e, false, [])).
  { destruct e as [[[s x] xs]|]; [|done]. destruct He as [Hx Hlt]. cbn [exponentText].
    change (lowerByte 101 =? 101) with true. cbv beta iota.
    assert (Hs : readSign ((if s then 45 else 43) :: ascii_digits (x :: xs)) = (s, ascii_digits (x :: xs))) by (by destruct s).
    rewrite Hs. rewrite readExponent_digits by done. change (ascii_digits (x :: xs)) with (48 + x :: ascii_digits xs). cbv iota.
    rewrite ascii_digit by (by inversion Hx). cbn [exponentValue]. f_equal. f_equal. f_equal. destruct s; lia. }
  rewrite Hx. done.
Qed.

(** ** The value of what is written *)

(** The same decimal with another exponent. *)
Definition same_decimal (v exp w exp' : Z) : Prop := w * 10 ^ (exp' + 500) = v * 10 ^ (exp + 500).

Lemma same_decimal_zeros t j exp exp' : exp' = Z.of_nat j + exp → -500 ≤ exp →
  same_decimal (t * 10 ^ Z.of_nat j) exp t exp'.
Proof.
  intros -> He. unfold same_decimal. rewrite <- Z.mul_assoc. f_equal. rewrite <- Z.pow_add_r by lia. f_equal. lia.
Qed.

Lemma decimal_pos d ds : Forall is_dec (d :: ds) → d ≠ 0 → 0 < decimal 0 (d :: ds).
Proof.
  intros Hd Hn. inversion Hd as [|? ? H1 H2]; subst. unfold is_dec in H1.
  pose proof (decimal_mono ds (0 * 10 + d) H2 ltac:(lia)). change (decimal 0 (d :: ds)) with (decimal (0 * 10 + d) ds). lia.
Qed.

Definition reads (l : list Z) (neg : bool) (w exp : Z) : Prop :=
  ParseFloat (unbytes l) = (let v := roundDecimal neg w exp in if IsInf v then None else Some v).

Lemma formatF_value neg d ds dp : Forall is_dec (d :: ds) →
  ∃ w exp', reads (signText neg ++ formatF (ascii_digits (d :: ds)) dp) neg w exp' ∧
    ((w = decimal 0 (d :: ds) ∧ exp' = dp - Z.of_nat (length (d :: ds))) ∨
     (w = decimal 0 (d :: ds) * 10 ^ (dp - Z.of_nat (length (d :: ds))) ∧ exp' = 0 ∧ Z.of_nat (length (d :: ds)) ≤ dp)).
Proof.
  intros Hd. unfold formatF. rewrite length_ascii.
  destruct (Z.leb_spec dp 0); [|destruct (Z.leb_spec (Z.of_nat (length (d :: ds))) dp)].
  - rewrite zeros_digits, <- ascii_digits_app.
    assert (Hz : Forall is_dec (replicate (Z.to_nat (- dp)) 0 ++ d :: ds)).
    { apply Forall_app. split; [apply replicate_dec|done]. }
    pose proof (ParseFloat_text neg 0 [] _ None ltac:(by repeat constructor) Hz I) as Hp.
    cbn [exponentText] in Hp. rewrite app_nil_r in Hp. rewrite length_app, length_replicate in Hp. cbn [app exponentValue] in Hp.
    eexists _, _. split; [|left; split; [reflexivity|reflexivity]]. unfold reads.
    etrans; [etrans; [|exact Hp]|].
    + do 3 f_equal. by destruct (replicate _ _).
    + change (decimal 0 (0 :: ?l)) with (decimal (0 * 10 + 0) l). rewrite decimal_app, decimal_zeros, Z.mul_0_l.
      by replace (0 - _) with (dp - Z.of_nat (length (d :: ds))) by lia.
  - rewrite zeros_digits, <- ascii_digits_app, <- app_comm_cons.
    pose proof (ParseFloat_text neg d (ds ++ replicate (Z.to_nat (dp - Z.of_nat (length (d :: ds)))) 0) [] None) as Hp.
    eexists _, _. split; [|right; split; [reflexivity|done]]. unfold reads.
    etrans; [etrans; [|apply Hp]|]; [by cbn [fractionText exponentText]; rewrite !app_nil_r| |constructor|exact I|].
    + rewrite app_comm_cons. apply Forall_app. split; [done|apply replicate_dec].
    + rewrite app_nil_r, app_comm_cons, decimal_app, decimal_zeros, Z2Nat.id by lia. done.
  - destruct (split_digits d ds dp ltac:(lia)) as (ds1 & e & es & E & En).
    assert (Ha : ascii_digits (d :: ds) = ascii_digits (d :: ds1) ++ ascii_digits (e :: es)) by (by rewrite E, ascii_digits_app).
    rewrite Ha, En, <- (length_ascii (d :: ds1)), take_app_length, drop_app_length.
    pose proof Hd as Hd'. rewrite E in Hd'. apply Forall_app in Hd' as [Hd1 Hd2].
    pose proof (ParseFloat_text neg d ds1 (e :: es) None Hd1 Hd2 I) as Hp.
    eexists _, _. split; [|left; split; [reflexivity|reflexivity]]. unfold reads.
    etrans; [etrans; [|exact Hp]|]; [by cbn [fractionText exponentText]; rewrite app_nil_r|].
    rewrite app_comm_cons, <- E. replace (Z.of_nat (length (d :: ds))) with (dp + Z.of_nat (length (e :: es))).
    2: { rewrite E, length_app. lia. }
    by replace (exponentValue None - _) with (dp - (dp + Z.of_nat (length (e :: es)))) by (cbn [exponentValue]; lia).
Qed.

Lemma formatE_value neg d ds dp : Forall is_dec (d :: ds) → Z.abs (dp - 1) < 10000 →
  reads (signText neg ++ formatE (ascii_digits (d :: ds)) dp) neg
    (decimal 0 (d :: ds)) (dp - Z.of_nat (length (d :: ds))).
Proof.
  intros Hd He. unfold formatE, reads.
  destruct (FormatUint_bytes (Z.abs (dp - 1)) ltac:(lia)) as (x & xs & Ex & Hx & Hv & _). rewrite Ex.
  change (take 1 (ascii_digits (d :: ds))) with (ascii_digits [d]).
  change (drop 1 (ascii_digits (d :: ds))) with (ascii_digits ds).
  pose proof (ParseFloat_text neg d [] ds (Some (dp - 1 <? 0, x, xs))) as Hp.
  assert (Hs : exponentValue (Some (dp - 1 <? 0, x, xs)) = dp - 1).
  { cbn [exponentValue]. rewrite Hv. destruct (Z.ltb_spec (dp - 1) 0); lia. }
  inversion Hd as [|? ? Hd1 Hd2]; subst. rewrite Hs in Hp.
  replace (dp - Z.of_nat (length (d :: ds))) with (dp - 1 - Z.of_nat (length ds)) by (cbn [length]; lia).
  etrans; [etrans; [|apply Hp]|]; [|by constructor|done|by split; [done|lia]|done].
  do 4 f_equal. cbn [exponentText]. by destruct ds.
Qed.

(** What is written reads as the decimal it was made of. *)
Lemma formatDecimal_value neg useE v exp : 0 < v < 10 ^ 20 → Z.abs exp < 480 →
  ∃ w exp', reads (formatDecimal neg useE v exp) neg w exp' ∧ 0 < w ∧ -500 < exp' ∧ same_decimal v exp w exp'.
Proof.
  intros Hv He. unfold formatDecimal. destruct (FormatUint_bytes v ltac:(lia)) as (d & ds & E & Hd & Hval & H0).
  assert (Hn : d ≠ 0). { intros ->. rewrite H0 in Hval by done. cbn in Hval. lia. }
  assert (Hl : (length (d :: ds) ≤ 20)%nat) by (rewrite <- length_ascii, <- E; apply FormatUint_length).
  rewrite E, length_ascii. destruct (trim_digits d ds Hd Hn) as (ds' & j & Et & Ed & Hd'). rewrite Et.
  pose proof (decimal_pos d ds' Hd' Hn) as Hpos. rewrite Ed, decimal_app, decimal_zeros in Hval.
  set (T := decimal 0 (d :: ds')) in *. rewrite Ed, length_app, length_replicate in Hl |- *.
  set (dp := Z.of_nat (length (d :: ds') + j) + exp). change (if neg then [45] else []) with (signText neg).
  assert (Hdp : dp - Z.of_nat (length (d :: ds')) = Z.of_nat j + exp) by (unfold dp; lia).
  assert (Hsame : same_decimal v exp T (Z.of_nat j + exp)) by (rewrite <- Hval; apply same_decimal_zeros; lia).
  destruct useE.
  - exists T, (Z.of_nat j + exp). split; [|split; [done|split; [lia|done]]]. rewrite <- Hdp. apply formatE_value; [done|]. cbn [length] in *. lia.
  - destruct (formatF_value neg d ds' dp Hd') as (w & exp' & Hr & [[Hw Hx]|(Hw & Hx & Hge)]); exists w, exp'; fold T in Hw; subst w exp'.
    + split; [done|]. split; [done|]. rewrite Hdp. split; [lia|done].
    + rewrite Hdp in *. pose proof (Z.pow_pos_nonneg 10 (Z.of_nat j + exp) ltac:(lia) ltac:(lia)).
      split; [done|]. split; [nia|]. split; [lia|]. unfold same_decimal in *. rewrite <- Hsame, <- Z.mul_assoc. f_equal.
      rewrite <- Z.pow_add_r by lia. f_equal; lia.
Qed.

(** ** Seventeen digits *)

Lemma close_ratio A B A' B' m e : 0 < B → 0 < B' → A * B' = A' * B → close A B m e → close A' B' m e.
Proof.
  intros HB HB' E [Hn Hq]. unfold close. set (U := 2 ^ (e + 1074)) in *. set (S := 2 ^ 1074) in *. split.
  - apply (Z.mul_lt_mono_pos_r B); [done|].
    replace (2 * Z.abs (A' * S - m * U * B') * B) with (2 * Z.abs (A * S - m * U * B) * B').
    2: { rewrite <- !Z.mul_assoc. f_equal. rewrite <- (Z.abs_eq B) at 2 by lia. rewrite <- (Z.abs_eq B') at 1 by lia.
         rewrite <- !Z.abs_mul. f_equal. lia. }
    replace (U * B' * B) with (U * B * B') by ring. by apply Z.mul_lt_mono_pos_r.
  - intros Hm. specialize (Hq Hm). apply (Z.mul_lt_mono_pos_r B); [done|].
    replace (4 * (m * U * B' - A' * S) * B) with (4 * (m * U * B - A * S) * B') by lia.
    replace (U * B' * B) with (U * B * B') by ring. by apply Z.mul_lt_mono_pos_r.
Qed.

(** [roundDecimal_near] with one scale for all decimals. *)
Lemma roundDecimal_close neg v exp m e : 0 < v → -500 < exp → canonical (S754_finite neg m e) = true →
  close (v * 10 ^ (exp + 500)) (10 ^ 500) (Zpos m) e → roundDecimal neg v exp = S754_finite neg m e.
Proof.
  intros Hv He Hc Hcl. apply roundDecimal_near; [done..|].
  apply (close_ratio (v * 10 ^ (exp + 500)) (10 ^ 500)); [done|apply pow10_pos; lia| |done].
  rewrite <- !Z.mul_assoc. f_equal. rewrite <- !Z.pow_add_r by lia. f_equal. lia.
Qed.

(** A decimal that is close to a float is read as the float. *)
Lemma readsBack_close neg useE v exp m e : 0 < v < 10 ^ 20 → Z.abs exp < 480 →
  canonical (S754_finite neg m e) = true → close (v * 10 ^ (exp + 500)) (10 ^ 500) (Zpos m) e →
  readsBack (S754_finite neg m e) (formatDecimal neg useE v exp) = true.
Proof.
  intros Hv He Hc Hcl. apply bool_decide_eq_true.
  destruct (formatDecimal_value neg useE v exp Hv He) as (w & exp' & Hr & Hw & He' & Hs).
  rewrite Hr, (roundDecimal_close neg w exp' m e); [done..|]. unfold same_decimal in Hs. by rewrite Hs.
Qed.

(** The nearest decimal of seventeen digits is close: [c] is the quotient,
    rounded, of [m * 2 ^ e] by [10 ^ (k - 17)]. *)
Lemma seventeen_close num den k m e num' den' c :
  has_digits num den k → num * 2 ^ 1074 = Zpos m * 2 ^ (e + 1074) * den →
  canonical (S754_finite false m e) = true →
  num' = (if 17 - k <? 0 then num else num * 10 ^ (17 - k)) →
  den' = (if 17 - k <? 0 then den * 10 ^ (k - 17) else den) →
  2 * Z.abs (num' - c * den') ≤ den' →
  close (c * 10 ^ (k - 17 + 500)) (10 ^ 500) (Zpos m) e.
Proof.
  intros Hdig Hval Hc En Ed Hnear. destruct Hdig as (Hk & Hden & Hlo & _).
  apply canonical_finite in Hc. assert (Hm : Zpos m < 2 ^ 53 ∧ -1074 ≤ e) by lia. destruct Hm as [Hm He].
  set (P := 10 ^ (517 - k)). set (K := 10 ^ (k - 17 + 500)). set (T := 10 ^ 500). set (U := 2 ^ (e + 1074)) in *.
  set (S := 2 ^ 1074) in *. set (M := Zpos m * U) in *.
  unfold close. fold K T U S M. assert (HMU : M = Zpos m * U) by done.
  assert (HP : 0 < P) by (apply pow10_pos; lia). assert (HK : 0 < K) by (apply pow10_pos; lia).
  assert (HT : 0 < T) by (apply pow10_pos; lia). assert (HU : 0 < U) by (apply pow2_pos; lia).
  assert (HS : 0 < S) by (apply pow2_pos; lia).
  assert (HPK : P * K = T * T) by (unfold P, K, T; rewrite <- !Z.pow_add_r by lia; f_equal; lia).
  assert (Hden' : 0 < den').
  { subst den'. destruct (Z.ltb_spec (17 - k) 0); [|done]. apply Z.mul_pos_pos; [done|apply pow10_pos; lia]. }
  assert (Hq : num' * den * T = num * den' * P).
  { subst num' den'. unfold P, T. destruct (Z.ltb_spec (17 - k) 0).
    - replace (10 ^ 500) with (10 ^ (k - 17) * 10 ^ (517 - k)) by (rewrite <- Z.pow_add_r by lia; f_equal; lia). ring.
    - replace (10 ^ (517 - k)) with (10 ^ (17 - k) * 10 ^ 500) by (rewrite <- Z.pow_add_r by lia; f_equal; lia). ring. }
  assert (HM : num' * T * S = M * den' * P).
  { apply (Z.mul_reg_r _ _ den); [lia|]. replace (num' * T * S * den) with (num' * den * T * S) by ring. rewrite Hq.
    replace (num * den' * P * S) with (num * S * den' * P) by ring. rewrite Hval. ring. }
  assert (Hbig : 10 ^ 16 * den' ≤ num').
  { apply (Z.mul_le_mono_pos_r _ _ (den * T)); [by apply Z.mul_pos_pos|].
    replace (num' * (den * T)) with (num * 10 ^ (401 - k) * (den' * 10 ^ 116)).
    2: { rewrite (Z.mul_assoc num'), Hq. unfold P. replace (10 ^ (517 - k)) with (10 ^ (401 - k) * 10 ^ 116); [ring|].
         rewrite <- Z.pow_add_r by lia. f_equal. lia. }
    replace (10 ^ 16 * den' * (den * T)) with (den * 10 ^ 400 * (den' * 10 ^ 116)) by (unfold T; lia).
    apply Z.mul_le_mono_nonneg_r; [lia|done]. }
  clearbody P K T U S M.
  assert (HSK : 10 ^ 16 * (S * K) ≤ M * T).
  { apply (Z.mul_le_mono_pos_r _ _ (den' * T)); [by apply Z.mul_pos_pos|].
    replace (M * T * (den' * T)) with (M * den' * (T * T)) by ring. rewrite <- HPK.
    replace (M * den' * (P * K)) with (num' * (T * S * K)) by (rewrite (Z.mul_assoc _ P), <- HM; ring).
    replace (10 ^ 16 * (S * K) * (den' * T)) with (10 ^ 16 * den' * (T * S * K)) by ring.
    apply Z.mul_le_mono_nonneg_r; [|done]. repeat apply Z.mul_nonneg_nonneg; lia. }
  assert (Herr : (c * K * S - M * T) * (den' * T) = (K * S * T) * (c * den' - num')).
  { replace ((c * K * S - M * T) * (den' * T)) with (c * den' * (K * S * T) - M * den' * (T * T)) by ring.
    rewrite <- HPK, (Z.mul_assoc _ P), <- HM. ring. }
  assert (HKST : 0 < K * S * T) by (repeat apply Z.mul_pos_pos; done).
  assert (Habs : 2 * Z.abs (c * K * S - M * T) ≤ K * S).
  { apply (Z.mul_le_mono_pos_r _ _ (den' * T)); [by apply Z.mul_pos_pos|].
    rewrite <- Z.mul_assoc, <- (Z.abs_eq (den' * T)) at 1 by (apply Z.mul_nonneg_nonneg; lia).
    rewrite <- Z.abs_mul, Herr, Z.abs_mul, (Z.abs_eq (K * S * T)) by lia.
    replace (K * S * (den' * T)) with (K * S * T * den') by ring.
    replace (2 * (K * S * T * Z.abs (c * den' - num'))) with (K * S * T * (2 * Z.abs (num' - c * den'))) by (replace (Z.abs (c * den' - num')) with (Z.abs (num' - c * den')) by lia; ring).
    apply Z.mul_le_mono_nonneg_l; [lia|done]. }
  assert (HUT : 0 < U * T) by (by apply Z.mul_pos_pos).
  split.
  - assert (M * T < 2 ^ 53 * (U * T)); [|lia].
    rewrite HMU, <- Z.mul_assoc. by apply Z.mul_lt_mono_pos_r.
  - intros Hm52. assert (M * T = 2 ^ 52 * (U * T)) by (rewrite HMU, Hm52; ring). lia.
Qed.

Lemma shortest_total neg useE num den k m e : has_digits num den k →
  num * 2 ^ 1074 = Zpos m * 2 ^ (e + 1074) * den → canonical (S754_finite neg m e) = true →
  ∀ fuel n, 0 < n → n + Z.of_nat fuel = 17 → ∃ l, shortest (S754_finite neg m e) neg useE num den k n (S fuel) = Some l.
Proof.
  intros Hdig Hval Hc. induction fuel as [|fuel IH]; intros n Hn Hf.
  - assert (n = 17) as -> by lia. cbn [shortest]. cbv zeta.
    destruct (scaled_bounds num den k 17 Hdig ltac:(lia)) as (Hd & Hlo & Hhi).
    set (num' := if 17 - k <? 0 then num else num * 10 ^ (17 - k)) in *.
    set (den' := if 17 - k <? 0 then den * 10 ^ (k - 17) else den) in *.
    pose proof (Z.div_mod num' den' ltac:(lia)) as Hdm. pose proof (Z.mod_pos_bound num' den' Hd) as Hr.
    assert (Hk : Z.abs (k - 17) < 480) by (destruct Hdig; lia).
    assert (H1720 : 10 ^ 17 < 10 ^ 20) by (apply Z.pow_lt_mono_r; lia).
    assert (Hread : ∀ c, 0 < c < 10 ^ 20 → 2 * Z.abs (num' - c * den') ≤ den' →
      readsBack (S754_finite neg m e) (formatDecimal neg useE c (k - 17)) = true).
    { intros c Hcr Hcd. apply readsBack_close; [done..|]. by apply (seventeen_close num den k m e num' den'). }
    set (lo := num' / den') in *. destruct (Z.le_gt_cases (2 * (num' mod den')) den').
    + rewrite (Hread lo) by lia. destruct (readsBack _ _); eauto.
    + rewrite (Hread (lo + 1)) by lia. destruct (readsBack _ _); eauto.
  - assert (Hnext : ∃ l, shortest (S754_finite neg m e) neg useE num den k (n + 1) (S fuel) = Some l) by (apply IH; lia).
    remember (S fuel) as fuel' eqn:E. cbn [shortest]. cbv zeta.
    destruct (readsBack _ _), (readsBack _ _); eauto.
Qed.

(** Every finite float has a text; it is a literal of JSON that reads back as
    the same float. *)
Lemma FormatFloat_correct x : canonical x = true → IsNaN x || IsInf x = false →
  ∃ l, FormatFloat x = Some l ∧ number l ∧ ParseFloat (unbytes l) = Some x.
Proof.
  intros Hc Hf. assert (Ht : ∃ l, FormatFloat x = Some l).
  { destruct x as [neg|neg| |neg m e]; [by eexists|done..|]. cbn [FormatFloat].
    destruct (has_digits_finite neg m e Hc) as [Hdig Hval]. by apply (shortest_total neg _ _ _ _ m e Hdig Hval Hc 16 1). }
  destruct Ht as [l Hl]. exists l. split; [done|]. by apply FormatFloat_reads.
Qed.
