(* ===== verification/ClockProto.v ===== *)
(** * Clock coordinator protocol

    [internal/clockcontrol/protocol.go]: the messages of the control socket and
    the chrony SOCK sample. *)

From S2P Require Import Prelude GoInt GoTime GoFloat.
From Stdlib Require Import SpecFloat.

Definition SourceNRF := "nrf".
Definition SourceGPS := "gps".
Definition SourceUser := "user".
Definition SourceNetworkHoldover := "network-holdover".

Record Request := mkRequest {
  Op : string;
  RqBootID : string;
  RqGeneration : Z;
  RqSource : string;
  UTCUnixNS : Z;
  ReceiptBootNS : Z;
  DeadlineBootNS : Z;
  SampleAgeNS : Z;
  UncertaintyNS : Z;
}.

(** A request that carries only an operation, and one that names a
    preparation. *)
Definition opRequest (op : string) : Request := mkRequest op "" 0 "" 0 0 0 0 0.
Definition tokenRequest (op boot : string) (gen : Z) : Request := mkRequest op boot gen "" 0 0 0 0 0.

Record Quality := mkQuality {
  QBootID : string;
  QGeneration : Z;
  QEpisode : string;
  QOutcome : string;
  QPreparing : bool;
  QNRFEligible : bool;
  QNRFDeadlineBootNS : Z;
  QSource : string;
  QExternal : bool;
  QAgeNS : Z;
  QResidual : float64;
  QUncertainty : float64;
}.
#[export] Instance eta_Quality : Eta Quality := λ q,
  mkQuality (QBootID q) (QGeneration q) (QEpisode q) (QOutcome q) (QPreparing q) (QNRFEligible q)
    (QNRFDeadlineBootNS q) (QSource q) (QExternal q) (QAgeNS q) (QResidual q) (QUncertainty q).

Definition zeroQuality : Quality :=
  mkQuality "" 0 "" "" false false 0 "" false 0 (S754_zero false) (S754_zero false).

Record Response := mkResponse { ROK : bool; RError : string; RQuality : Quality }.

(** ** EncodeSOCK *)

Inductive ByteOrder := LittleEndian | BigEndian.

Fixpoint le_bytes (n : nat) (v : Z) : list Z :=
  match n with
  | O => []
  | S n => v mod 256 :: le_bytes n (v / 256)
  end.

Fixpoint le_value (l : list Z) : Z :=
  match l with
  | [] => 0
  | b :: l => b + 256 * le_value l
  end.

(** [order.PutUint32] and [order.PutUint64] (4 and 8 bytes). *)
Definition put (order : ByteOrder) (n : nat) (v : Z) : list Z :=
  match order with LittleEndian => le_bytes n v | BigEndian => rev (le_bytes n v) end.

Definition get (order : ByteOrder) (l : list Z) : Z :=
  match order with LittleEndian => le_value l | BigEndian => le_value (rev l) end.

(** [Time.Unix] and [Time.Nanosecond]. *)
Definition Unix (t : Time) : Z := wall t / Second.
Definition NanosecondOf (t : Time) : Z := wall t mod Second.

Definition sockMagic : Z := 0x534f434b.

(** Bytes that are never written keep the zero of [make]. *)
Definition EncodeSOCK (t : Time) (offset : float64) (wordBytes : Z) (order : ByteOrder) : option (list Z) :=
  if IsNaN offset || IsInf offset then None
  else
    let sec := Unix t in
    let usec := Z.quot (NanosecondOf t) 1000 in
    let tail := put order 8 (Float64bits offset) ++ replicate 12 0 ++ put order 4 sockMagic in
    if wordBytes =? 4 then
      if (sec <? - 2 ^ 31) || (2 ^ 31 - 1 <? sec) then None
      else Some (put order 4 (u32 (i32 sec)) ++ put order 4 (u32 usec) ++ tail)
    else if wordBytes =? 8 then Some (put order 8 (u64 sec) ++ put order 8 (u64 usec) ++ tail)
    else None.

(** ** Reading a sample back, as chrony does *)

Record SockSample := mkSockSample { sk_sec : Z; sk_usec : Z; sk_offset : float64; sk_magic : Z }.

Definition signed (n : nat) (v : Z) : Z :=
  let m := 256 ^ Z.of_nat n in if v <? m / 2 then v else v - m.

Definition DecodeSOCK (w : nat) (order : ByteOrder) (l : list Z) : SockSample :=
  mkSockSample (signed w (get order (take w l))) (get order (take w (drop w l)))
    (Float64frombits (get order (take 8 (drop (2 * w) l))))
    (get order (take 4 (drop (2 * w + 20) l))).

Lemma le_bytes_length n v : length (le_bytes n v) = n.
Proof. revert v. induction n; intros v; cbn; auto. Qed.

Lemma put_length order n v : length (put order n v) = n.
Proof. destruct order; cbn; rewrite ?length_rev; apply le_bytes_length. Qed.

Lemma le_value_bytes n v : 0 ≤ v < 256 ^ Z.of_nat n → le_value (le_bytes n v) = v.
Proof.
  revert v. induction n as [|n IH]; intros v Hv; cbn [le_bytes le_value]; [lia|].
  rewrite Nat2Z.inj_succ, Z.pow_succ_r in Hv by lia.
  rewrite IH; [|split; [apply Z.div_pos; lia|apply Z.div_lt_upper_bound; lia]].
  pose proof (Z.div_mod v 256). lia.
Qed.

Lemma get_put order n v : 0 ≤ v < 256 ^ Z.of_nat n → get order (put order n v) = v.
Proof. intros Hv. destruct order; cbn; rewrite ?rev_involutive; by apply le_value_bytes. Qed.

Lemma take_put order n v l : take n (put order n v ++ l) = put order n v.
Proof. rewrite take_app_le by (rewrite put_length; lia). rewrite take_ge; [done|]. rewrite put_length. lia. Qed.

Lemma drop_put order n m v l : drop (n + m) (put order n v ++ l) = drop m l.
Proof. rewrite drop_app_ge by (rewrite put_length; lia). rewrite put_length. f_equal. lia. Qed.

Lemma drop_put0 order n v l : drop n (put order n v ++ l) = l.
Proof. rewrite <- (Nat.add_0_r n) at 1. by rewrite drop_put, drop_0. Qed.

Lemma sock_tail order w a b o :
  take w (put order w a ++ put order w b ++ put order 8 o ++ replicate 12 0 ++ put order 4 sockMagic) = put order w a ∧
  take w (drop w (put order w a ++ put order w b ++ put order 8 o ++ replicate 12 0 ++ put order 4 sockMagic)) = put order w b ∧
  take 8 (drop (2 * w) (put order w a ++ put order w b ++ put order 8 o ++ replicate 12 0 ++ put order 4 sockMagic)) = put order 8 o ∧
  take 4 (drop (2 * w + 20) (put order w a ++ put order w b ++ put order 8 o ++ replicate 12 0 ++ put order 4 sockMagic)) = put order 4 sockMagic.
Proof.
  split; [apply take_put|].
  rewrite drop_put0, take_put. split; [done|].
  replace (2 * w)%nat with (w + w)%nat by lia. rewrite drop_put, drop_put0, take_put.
  split; [done|].
  replace (w + w + 20)%nat with (w + (w + (8 + 12)))%nat by lia. rewrite !drop_put.
  rewrite drop_app_ge by (rewrite length_replicate; lia). rewrite length_replicate. cbn [Nat.sub].
  rewrite drop_0. rewrite take_ge; [done|]. rewrite put_length. lia.
Qed.

Lemma signed_wrap n m s :
  256 ^ Z.of_nat n = 2 * m → 0 < m → - m ≤ s < m → signed n (s mod (2 * m)) = s.
Proof.
  intros Hn Hm Hs. unfold signed. cbv zeta. rewrite Hn.
  rewrite (Z.mul_comm 2 m), Z.div_mul by lia.
  destruct (Z.ltb_spec s 0) as [H|H].
  - assert (s mod (m * 2) = s + m * 2) as ->.
    { symmetry. apply (Z.mod_unique s (m * 2) (-1)); [left|]; lia. }
    rewrite (proj2 (Z.ltb_ge _ _)); lia.
  - rewrite Z.mod_small by lia. rewrite (proj2 (Z.ltb_lt _ _)); lia.
Qed.

Lemma signed_u32 s : - 2 ^ 31 ≤ s < 2 ^ 31 → signed 4 (u32 (i32 s)) = s.
Proof.
  intros Hs. unfold u32, i32. rewrite (Z.mod_small (s + 2 ^ 31)) by lia.
  rewrite Z.add_simpl_r. by apply (signed_wrap 4 (2 ^ 31)).
Qed.

Lemma signed_u64 s : - 2 ^ 63 ≤ s < 2 ^ 63 → signed 8 (u64 s) = s.
Proof. intros Hs. unfold u64. by apply (signed_wrap 8 (2 ^ 63)). Qed.

Lemma usec_range t : 0 ≤ Z.quot (NanosecondOf t) 1000 < 1000000.
Proof.
  unfold NanosecondOf. pose proof (Z.mod_pos_bound (wall t) Second ltac:(tlia)).
  rewrite Z.quot_div_nonneg by tlia. split; [apply Z.div_pos; tlia|apply Z.div_lt_upper_bound; tlia].
Qed.

Lemma sock_roundtrip (t : Time) (offset : float64) (wordBytes : Z) (order : ByteOrder) :
  canonical offset = true → - 2 ^ 63 ≤ Unix t < 2 ^ 63 →
  match EncodeSOCK t offset wordBytes order with
  | Some l =>
      let w := Z.to_nat wordBytes in
      length l = (2 * w + 24)%nat ∧ (w = 4%nat ∨ w = 8%nat) ∧
      DecodeSOCK w order l =
        mkSockSample (Unix t) (Z.quot (NanosecondOf t) 1000) offset sockMagic
  | None =>
      IsNaN offset = true ∨ IsInf offset = true ∨ (wordBytes ≠ 4 ∧ wordBytes ≠ 8) ∨
      (wordBytes = 4 ∧ ¬ - 2 ^ 31 ≤ Unix t < 2 ^ 31)
  end.
Proof.
  intros Hc Hu. unfold EncodeSOCK. pose proof (usec_range t) as Hus.
  pose proof (Float64bits_range offset Hc) as Hb.
  destruct (IsNaN offset), (IsInf offset); cbn [orb]; auto.
  destruct (Z.eqb_spec wordBytes 4) as [->|H4]; [|destruct (Z.eqb_spec wordBytes 8) as [->|H8]; [|auto 6]].
  - destruct (_ || _) eqn:E.
    { right. right. right. split; [done|]. apply orb_true_iff in E. lia. }
    apply orb_false_iff in E. cbv zeta. change (Z.to_nat 4) with 4%nat.
    split; [rewrite !length_app, !put_length; done|]. split; [auto|].
    destruct (sock_tail order 4 (u32 (i32 (Unix t))) (u32 (Z.quot (NanosecondOf t) 1000)) (Float64bits offset))
      as (E1 & E2 & E3 & E4).
    unfold DecodeSOCK. rewrite E1, E2, E3, E4.
    rewrite !get_put by (try done; try apply u32_range; try (change (256 ^ Z.of_nat 8) with (2 ^ 64); lia)).
    rewrite signed_u32, frombits_bits, (u32_id (Z.quot _ _)) by (try done; tlia). done.
  - cbv zeta. change (Z.to_nat 8) with 8%nat.
    split; [rewrite !length_app, !put_length; done|]. split; [auto|].
    destruct (sock_tail order 8 (u64 (Unix t)) (u64 (Z.quot (NanosecondOf t) 1000)) (Float64bits offset))
      as (E1 & E2 & E3 & E4).
    unfold DecodeSOCK. rewrite E1, E2, E3, E4.
    rewrite !get_put by (try done; try apply u64_range; try (change (256 ^ Z.of_nat 8) with (2 ^ 64); lia)).
    rewrite signed_u64, frombits_bits, (u64_id (Z.quot _ _)) by (try done; tlia). done.
Qed.

(** C40: a sample that is produced is read back exactly: the whole seconds
    (also before 1970), the microseconds, every bit of the offset and the magic
    number, in both byte orders and both word sizes, and its length is 32 or 40
    bytes.  A sample is refused exactly for a NaN or infinite offset, an unknown
    word size, or seconds beyond a 32-bit [timeval]. *)
Theorem EncodeSOCK_roundtrip (t : Time) (offset : float64) (wordBytes : Z) (order : ByteOrder) :
  canonical offset = true → - 2 ^ 63 ≤ Unix t < 2 ^ 63 →
  match EncodeSOCK t offset wordBytes order with
  | Some l =>
      let w := Z.to_nat wordBytes in
      length l = (2 * w + 24)%nat ∧ (w = 4%nat ∨ w = 8%nat) ∧
      DecodeSOCK w order l =
        mkSockSample (Unix t) (Z.quot (NanosecondOf t) 1000) offset sockMagic
  | None =>
      IsNaN offset = true ∨ IsInf offset = true ∨ (wordBytes ≠ 4 ∧ wordBytes ≠ 8) ∨
      (wordBytes = 4 ∧ ¬ - 2 ^ 31 ≤ Unix t < 2 ^ 31)
  end.
Proof. apply sock_roundtrip. Qed.

Lemma EncodeSOCK_roundtrip_witness :
  ∃ l, EncodeSOCK (mkTime (- 1500000001) None) (lit (-3) 2) 4 BigEndian = Some l ∧
    sk_offset (DecodeSOCK 4 BigEndian l) = lit (-3) 2 ∧ sk_sec (DecodeSOCK 4 BigEndian l) = -2.
Proof.
  pose proof (EncodeSOCK_roundtrip (mkTime (- 1500000001) None) (lit (-3) 2) 4 BigEndian
    ltac:(vm_compute; reflexivity) ltac:(vm_compute; split; [discriminate|reflexivity])) as H.
  destruct (EncodeSOCK (mkTime (- 1500000001) None) (lit (-3) 2) 4 BigEndian) as [l|] eqn:E.
  - exists l. destruct H as (_ & _ & H). change (Z.to_nat 4) with 4%nat in H. rewrite H.
    split; [reflexivity|]. split; reflexivity.
  - exfalso. vm_compute in E. discriminate.
Defined.
