(* ===== verification/Systemd.v ===== *)
(** * The logind client

    [internal/systemd/systemd.go].  D-Bus is third-party: the result of a method
    call and the signals of the subscription are inputs.  A blocking [select] is
    driven by the list of things that become ready, in order. *)

From S2P Require Import Prelude.

Inductive Value := VBool (b : bool) | VOther.

(** A delivered [*dbus.Signal]; [None] is the nil pointer a closed channel
    yields. *)
Record Signal := mkSignal { sigName : string; sigBody : list Value }.

Definition sleepSignal : string := "org.freedesktop.login1.Manager.PrepareForSleep".

(** The pair (suspending, ok). *)
Definition prepareForSleep (sig : option Signal) : bool * bool :=
  match sig with
  | None => (false, false)
  | Some s =>
      if negb (sigName s =s sleepSignal) || negb (Nat.eqb (length (sigBody s)) 1) then (false, false)
      else match sigBody s with
           | VBool v :: _ => (v, true)
           | _ => (false, false)
           end
  end.

(** The connection is nil without a system bus; the subscription exists exactly
    when the connection does. *)
Record Client := mkClient { conn : bool; signals : bool }.

(** [bus] and [match_ok] are the results of [dbus.SystemBus] and
    [AddMatchSignal]. *)
Definition NewClient (bus match_ok : bool) : Client :=
  if negb bus then mkClient false false
  else if negb match_ok then mkClient false false
  else mkClient true true.

(** [call] is the answer of logind to a method. *)
Definition callLogind (c : Client) (call : string → bool) (method : string) : bool :=
  if negb (conn c) then false else call method.

(** [true] when the command was accepted. *)
Definition IssueCommand (c : Client) (call : string → bool) (command : string) : bool :=
  if command =s "suspend" then callLogind c call "Suspend"
  else if command =s "poweroff" then callLogind c call "PowerOff"
  else if command =s "reboot" then callLogind c call "Reboot"
  else false.

(** What can become ready while [SuspendAndWaitResume] waits. *)
Inductive Ready :=
| RSignal (s : option Signal)
| RDeadline
| RCancelled.

Inductive SuspendResult := Resumed | NotIssued | NotStarted | Cancelled | Waiting.

#[export] Instance SuspendResult_eq_dec : EqDecision SuspendResult.
Proof. solve_decision. Defined.

(** Phase 2: the deadline of phase 1 is no longer selected on. *)
Fixpoint awaitResume (evs : list Ready) : SuspendResult :=
  match evs with
  | [] => Waiting
  | RSignal s :: evs =>
      match prepareForSleep s with
      | (false, true) => Resumed
      | _ => awaitResume evs
      end
  | RDeadline :: evs => awaitResume evs
  | RCancelled :: _ => Cancelled
  end.

Fixpoint awaitDescent (evs : list Ready) : SuspendResult :=
  match evs with
  | [] => Waiting
  | RSignal s :: evs =>
      match prepareForSleep s with
      | (true, true) => awaitResume evs
      | _ => awaitDescent evs
      end
  | RDeadline :: _ => NotStarted
  | RCancelled :: _ => Cancelled
  end.

(** [evs] is what becomes ready after the drain of stale signals. *)
Definition SuspendAndWaitResume (c : Client) (call : string → bool) (evs : list Ready) : SuspendResult :=
  if negb (signals c) then (if IssueCommand c call "suspend" then Resumed else NotIssued)
  else if IssueCommand c call "suspend" then awaitDescent evs else NotIssued.

(** ** notify.go *)

(** The environment variable and the errors of the three steps. *)
Record NotifyIO := mkNotify {
  n_socket : string;
  n_dial : option string;
  n_deadline : option string;
  n_write : option string;
}.

(** [Some] is the error. *)
Definition NotifyReady (io : NotifyIO) : option string :=
  if n_socket io =s "" then None
  else match n_dial io with
  | Some err => Some ("connect to systemd notification socket: " +:+ err)
  | None =>
      match n_deadline io with
      | Some err => Some err
      | None =>
          match n_write io with
          | Some err => Some ("notify systemd readiness: " +:+ err)
          | None => None
          end
      end
  end.

(** ** Properties *)

Lemma prepareForSleep_spec s v :
  prepareForSleep s = (v, true) ↔ s = Some (mkSignal sleepSignal [VBool v]).
Proof.
  split; [|by intros ->; destruct v]. destruct s as [[n b]|]; [|done]. unfold prepareForSleep. cbn [sigName sigBody].
  destruct (String.eqb_spec n sleepSignal) as [->|]; [|done].
  destruct b as [|[w|] [|]]; cbn; try done. by intros [= ->].
Qed.

Lemma awaitResume_spec evs :
  awaitResume evs = Resumed →
  ∃ pre post, evs = pre ++ RSignal (Some (mkSignal sleepSignal [VBool false])) :: post ∧ RCancelled ∉ pre.
Proof.
  induction evs as [|[s| |] evs IH]; cbn; [done| | |done].
  - destruct (prepareForSleep s) as [v ok] eqn:E. intros H.
    assert (Hc : (v = false ∧ ok = true) ∨ awaitResume evs = Resumed) by (destruct v, ok; auto).
    destruct Hc as [[-> ->]|H'].
    + apply prepareForSleep_spec in E as ->. exists [], evs. split; [done|apply not_elem_of_nil].
    + destruct (IH H') as (pre & post & -> & Hn). exists (RSignal s :: pre), post.
      split; [done|]. rewrite elem_of_cons. by intros [|].
  - intros H. destruct (IH H) as (pre & post & -> & Hn). exists (RDeadline :: pre), post.
    split; [done|]. rewrite elem_of_cons. by intros [|].
Qed.

(** C29: with a bus, a suspend counts as completed only when logind accepted the
    command and then announced the descent and, after it, the resume, with
    neither the descent deadline nor a cancellation in between; without a bus
    it never succeeds. *)
Theorem SuspendAndWaitResume_spec (bus match_ok : bool) (call : string → bool) (evs : list Ready) :
  SuspendAndWaitResume (NewClient bus match_ok) call evs = Resumed →
  bus = true ∧ match_ok = true ∧ call "Suspend" = true ∧
  ∃ a b c, evs = a ++ RSignal (Some (mkSignal sleepSignal [VBool true])) :: b
                   ++ RSignal (Some (mkSignal sleepSignal [VBool false])) :: c ∧
    RCancelled ∉ a ∧ RDeadline ∉ a ∧ RCancelled ∉ b.
Proof.
  unfold SuspendAndWaitResume, NewClient. destruct bus, match_ok; cbn; try done.
  unfold callLogind. cbn. destruct (call "Suspend"); [|done]. intros H.
  do 3 (split; [done|]). revert H. induction evs as [|[s| |] evs IH]; cbn; try done.
  destruct (prepareForSleep s) as [v ok] eqn:E. intros H.
  assert (Hc : (v = true ∧ ok = true ∧ awaitResume evs = Resumed) ∨ awaitDescent evs = Resumed)
    by (destruct v, ok; auto).
  destruct Hc as [(-> & -> & H')|H'].
  - apply prepareForSleep_spec in E as ->. apply awaitResume_spec in H' as (pre & post & -> & Hn).
    exists [], pre, post. repeat split; try done; apply not_elem_of_nil.
  - destruct (IH H') as (a & b & c & -> & H1 & H2 & H3). exists (RSignal s :: a), b, c.
    rewrite !elem_of_cons. repeat split; try done; by intros [|].
Qed.

Lemma SuspendAndWaitResume_spec_witness :
  let evs := [RSignal None; RSignal (Some (mkSignal sleepSignal [VBool true])); RDeadline;
              RSignal (Some (mkSignal sleepSignal [VBool false]))] in
  ∃ b, RSignal (Some (mkSignal sleepSignal [VBool true])) ∈ evs ∧ b = true.
Proof.
  intros evs.
  destruct (SuspendAndWaitResume_spec true true (λ _, true) evs eq_refl) as (H & _ & _ & a & b & c & He & _).
  exists true. split; [rewrite He; set_solver|exact H].
Defined.
