(* ===== verification/ClockClient.v ===== *)
(** * The service's view of the clock coordinator

    [internal/service/clock_coordinator.go].  The socket, its deadlines and the
    JSON decoder deliver a [Wire] value; what the code checks on it is
    translated. *)

From S2P Require Import Prelude GoInt GoTime GoFloat ClockProto.
From Stdlib Require Import SpecFloat.

(** A decoded reply: [wr_quality] is [None] when the quality member does not
    unmarshal; [wr_fields] are the members of the quality object that are
    present and not null. *)
Record Wire := mkWire {
  wr_ok : bool;
  wr_error : string;
  wr_quality : option Quality;
  wr_fields : list string;
}.

(** One exchange: the two boot-time readings ([None] when the call fails) and
    the reply ([None] when dialling, writing or decoding fails). *)
Record Exchange := mkExchange {
  ex_started : option Z;
  ex_wire : option Wire;
  ex_finished : option Z;
}.

Definition required_fields : list string :=
  ["boot_id"; "generation"; "source"; "external"; "age_ns"; "residual_seconds";
   "uncertainty_seconds"; "outcome"; "preparing"].

Definition maxAge : Z := 30 * Second.

(** The additional checks of a status reply. *)
Definition finishStatus (started : Z) (finished : option Z) (fields : list string) (q : Quality)
  : option Quality :=
  if negb (forallb (λ f, one_of f fields) required_fields) then None
  else match finished with
  | None => None
  | Some f =>
      let elapsed := i64 (f - started) in
      if (elapsed <? 0) || (maxAge <? elapsed) || (QAgeNS q <? 0) || (maxAge - elapsed <? QAgeNS q)
      then None
      else Some (q <| QAgeNS := QAgeNS q + elapsed |>)
  end.

(** [None] is an error. *)
Definition coordinatorRequest (req : Request) (x : Exchange) : option Quality :=
  match ex_started x with
  | None => None
  | Some started =>
      match ex_wire x with
      | None => None
      | Some raw =>
          match wr_quality raw with
          | None => None
          | Some q =>
              match (if Op req =s "status" then finishStatus started (ex_finished x) (wr_fields raw) q
                     else Some q) with
              | None => None
              | Some q => if negb (wr_ok raw) then None else Some q
              end
          end
      end
  end.

Definition finite (x : float64) : bool := negb (IsNaN x) && negb (IsInf x).

Definition trustedClockQuality (q : Quality) (boot : string) : bool :=
  negb (boot =s "") && (QBootID q =s boot) && negb (QGeneration q =? 0) && negb (QPreparing q)
  && QExternal q && ((QSource q =s "gps") || (QSource q =s "ntp"))
  && (0 <=? QAgeNS q) && (QAgeNS q <=? maxAge)
  && negb (QOutcome q =s "") && negb (QOutcome q =s "unknown") && negb (QOutcome q =s "in-flight")
  && finite (QResidual q) && finite (QUncertainty q)
  && fle (of_Z 0) (QUncertainty q)
  && fle (fadd (Abs (QResidual q)) (QUncertainty q)) (of_Z 5).

(** [bootFile] is the content of the boot-id file. *)
Definition currentClockQuality (x : Exchange) (bootFile : option string) : option Quality :=
  match coordinatorRequest (opRequest "status") x with
  | None => None
  | Some q =>
      match bootFile with
      | None => None
      | Some boot => if trustedClockQuality q (TrimSpace boot) then Some q else None
      end
  end.

(** The identity test of a pending preparation. *)
Definition preparationIdentity (q : Quality) (boot : string) : bool :=
  negb (QBootID q =s "") && (QBootID q =s TrimSpace boot) && negb (QGeneration q =? 0).

(** C30: a clock quality the service acts on is current and external: its age,
    transit included, is at most 30 s at the instant the reply was complete
    whatever the exchange took, it comes from this boot and a live generation,
    no suspend preparation is pending, no correction is in flight or unknown,
    and residual plus uncertainty are at most 5 s. *)
Theorem currentClockQuality_fresh (x : Exchange) (bootFile : option string) (q : Quality) :
  currentClockQuality x bootFile = Some q →
  ∃ boot started finished q0 raw,
    bootFile = Some boot ∧ ex_started x = Some started ∧ ex_finished x = Some finished ∧
    ex_wire x = Some raw ∧ wr_ok raw = true ∧ wr_quality raw = Some q0 ∧
    q = q0 <| QAgeNS := QAgeNS q |> ∧
    QBootID q = TrimSpace boot ∧ QBootID q ≠ "" ∧ QGeneration q ≠ 0 ∧ QPreparing q = false ∧
    QExternal q = true ∧ QSource q ∈ ["gps"; "ntp"] ∧
    0 ≤ QAgeNS q0 ∧ QAgeNS q = QAgeNS q0 + i64 (finished - started) ∧ QAgeNS q ≤ maxAge ∧
    0 ≤ i64 (finished - started) ∧
    QOutcome q ∉ [""; "unknown"; "in-flight"] ∧
    fle (fadd (Abs (QResidual q)) (QUncertainty q)) (of_Z 5) = true.
Proof.
  unfold currentClockQuality, coordinatorRequest. cbn [Op opRequest]. rewrite streq_refl.
  destruct (ex_started x) as [st|]; [|done]. destruct (ex_wire x) as [raw|]; [|done].
  destruct (wr_quality raw) as [q0|] eqn:Eq; [|done]. unfold finishStatus.
  destruct (negb _); [done|]. destruct (ex_finished x) as [fin|]; [|done].
  destruct (_ || _) eqn:Ht; [done|]. destruct (wr_ok raw) eqn:Eok; [|done]. cbn [negb].
  destruct bootFile as [boot|]; [|done]. destruct (trustedClockQuality _ _) eqn:Etr; [|done].
  intros [= <-]. unfold trustedClockQuality in Etr. destruct q0 as [qb qg qe qo qp qn qd qs qx qa qr qu].
  cbn in *. rewrite !orb_false_iff, !Z.ltb_ge in Ht. destruct Ht as [[[Ht1 Ht2] Ht3] Ht4].
  rewrite !andb_true_iff, orb_true_iff, !negb_true_iff, !streq_false, !streq_true, Z.eqb_neq in Etr.
  destruct_and! Etr. eexists boot, st, fin, _, raw.
  do 6 (split; [done|]). split; [reflexivity|]. cbn.
  repeat split; try done; try congruence; try lia.
  - rewrite !elem_of_cons. naive_solver.
  - rewrite !elem_of_cons, elem_of_nil. naive_solver.
Qed.

Definition sampleQuality (age : Z) : Quality :=
  mkQuality "b1" 3 "initial" "available" false false 0 "ntp" true age (lit 1 10) (lit 1 100).

Lemma currentClockQuality_fresh_witness :
  let x := mkExchange (Some 100) (Some (mkWire true "" (Some (sampleQuality 7)) required_fields)) (Some 150) in
  ∃ q, currentClockQuality x (Some "b1") = Some q ∧ QAgeNS q ≤ maxAge.
Proof.
  intros x. exists (sampleQuality 57).
  assert (H : currentClockQuality x (Some "b1") = Some (sampleQuality 57)) by (vm_compute; reflexivity).
  split; [exact H|].
  destruct (currentClockQuality_fresh x (Some "b1") (sampleQuality 57) H)
    as (? & ? & ? & ? & ? & _ & _ & _ & _ & _ & _ & _ & _ & _ & _ & _ & _ & _ & _ & _ & Hle & _).
  exact Hle.
Defined.
