(* ===== verification/ClockEngine.v ===== *)
(** * The clock coordinator

    The engine of [internal/clockcontrol/engine.go] and the dispatcher of
    [server.go].  Every operation runs under the engine's mutex except for the
    chrony query of [Submit] and [refresh] and the wait of [Prepare]: those
    operations are split where the code gives the mutex up.  The interfaces
    [Clock], [Chrony] and [Refclock] and the file system answer through an
    oracle, one answer per tick.  [disk] is the content of the state file: a
    failed [persist] may have replaced it (when only the directory could not
    be synced) or not. *)

From S2P Require Import Prelude GoInt GoTime GoFloat ClockProto ClockClient.
From Stdlib Require Import SpecFloat.

Definition episodeWindow : Z := 90 * Second.
Definition sampleMaxAge : Z := 30 * Second.
Definition commandTimeout : Z := 3 * Second.

(** ** State *)

(** [sample] and [persistedSample]. *)
Record Sample := mkSample { Receipt : Z; SAge : Z; SUncertainty : Z }.
#[export] Instance Sample_eq_dec : EqDecision Sample.
Proof. solve_decision. Defined.

Record Tracking := mkTracking {
  TSource : string;
  TExternal : bool;
  TAge : Z;
  TResidual : float64;
  TUncertainty : float64;
  TSkewPPM : float64;
  TValid : bool;
}.
#[export] Instance eta_Tracking : Eta Tracking := λ t,
  mkTracking (TSource t) (TExternal t) (TAge t) (TResidual t) (TUncertainty t) (TSkewPPM t) (TValid t).

Record EState := mkEState {
  BootID : string;
  Generation : Z;
  Episode : string;
  Deadline : Z;
  Outcome : string;
  Attempts : Z;
  LateUsed : bool;
  LateHoldoverUsed : bool;
  ExternalEstablished : bool;
  ExternalAfterBoot : Z;
  Preparing : bool;
  PrepareBaselineValid : bool;
  PrepareUTC : Z;
  PrepareBoot : Z;
  DispatchBoot : Z;
  DispatchUTC : Z;
  DispatchResidual : float64;
  DispatchSource : string;
  DispatchSample : Sample;
  Samples : gmap string Sample;
}.
#[export] Instance eta_EState : Eta EState := λ s,
  mkEState (BootID s) (Generation s) (Episode s) (Deadline s) (Outcome s) (Attempts s) (LateUsed s)
    (LateHoldoverUsed s) (ExternalEstablished s) (ExternalAfterBoot s) (Preparing s)
    (PrepareBaselineValid s) (PrepareUTC s) (PrepareBoot s) (DispatchBoot s) (DispatchUTC s)
    (DispatchResidual s) (DispatchSource s) (DispatchSample s) (Samples s).

(** How [persist] can end: done; failed before the rename; failed after it. *)
Inductive SaveResult := SaveOK | SaveLost | SaveUnsynced.

Record EEnv := mkEEnv {
  ec_now : nat → option (Time * Z);      (* [clock.Now] *)
  ec_tracking : nat → option Tracking;   (* [chrony.Tracking] *)
  ec_start : nat → bool;                 (* [chrony.StartStep] *)
  ec_send : nat → bool;                  (* [ref.Send] *)
  ec_save : nat → SaveResult;            (* [persist] *)
}.

Inductive EObs :=
| OSave (s : EState)
| OSample (source : string) (at_ : Time) (offset : float64) (ok : bool)
| OStep (started : bool)
| OLoss.

(** [inFlight] tells whether the channel of a running step is there. *)
Record Engine := mkEngine {
  state : EState;
  samples : gmap string Sample;
  quality : Quality;
  qualityBoot : Z;
  inFlight : bool;
  disk : option EState;
  eenv : EEnv;
  etick : nat;
  etrace : list EObs;
}.
#[export] Instance eta_Engine : Eta Engine := λ e,
  mkEngine (state e) (samples e) (quality e) (qualityBoot e) (inFlight e) (disk e) (eenv e) (etick e) (etrace e).

Definition unknownQuality : Quality := zeroQuality <| QSource := "unknown" |>.

(** ** Primitives *)

Definition query {A} (f : EEnv → nat → A) : ST Engine A :=
  λ e, (f (eenv e) (etick e), e <| etick := S (etick e) |>).

Definition log (o : EObs) : ST Engine unit := modify (λ e, e <| etrace := etrace e ++ [o] |>).

Definition clockNow : ST Engine (option (Time * Z)) := query ec_now.

Definition set_state (f : EState → EState) : ST Engine unit := modify (λ e, e <| state := f (state e) |>).
Definition set_quality (q : Quality) : ST Engine unit := modify (λ e, e <| quality := q |>).

(** [persist]: JSON has no encoding for a NaN or an infinity. *)
Definition save : ST Engine bool :=
  s ← gets state;
  if negb (finite (DispatchResidual s)) then mret false
  else
    r ← query ec_save;
    match r with
    | SaveOK => modify (λ e, e <| disk := Some s |>);; log (OSave s);; mret true
    | SaveUnsynced => modify (λ e, e <| disk := Some s |>);; mret false
    | SaveLost => mret false
    end.

(** [|residual| + uncertainty <= 5]. *)
Definition within5 (residual uncertainty : float64) : bool := fle (fadd (Abs residual) uncertainty) (of_Z 5).

(** The sample is still usable at boot time [bt]. *)
Definition sampleLive (s : Sample) (bt : Z) : bool :=
  (Receipt s <=? bt) && (i64 (bt - Receipt s) <=? i64 (sampleMaxAge - SAge s)).

Definition uncertaintySeconds (s : Sample) : float64 := fdiv (of_Z (SUncertainty s)) (of_Z Second).

(** ** NewEngine *)

Definition freshState (boot : string) (bt : Z) : EState :=
  mkEState boot 1 "initial" (i64 (bt + episodeWindow)) "available" 0 false false false 0 false false 0 0 0 0
    (S754_zero false) "" (mkSample 0 0 0) ∅.

Inductive FileRead := FMissing | FError | FInvalid | FState (s : EState).

Definition validSample (source : string) (s : Sample) : bool :=
  one_of source [SourceNRF; SourceGPS; SourceUser] && (0 <=? Receipt s) && (0 <=? SAge s)
  && (SAge s <=? sampleMaxAge) && (0 <=? SUncertainty s) && (SUncertainty s <=? 3 * Second).

(** The state a file of the same boot gives; [None] is an error. *)
Definition loadState (boot : string) (bt : Z) (f : FileRead) : option EState :=
  match f with
  | FMissing => Some (freshState boot bt)
  | FError | FInvalid => None
  | FState s =>
      if negb (BootID s =s boot) then Some (freshState boot bt)
      else if (Generation s =? 0) || (Outcome s =s "") then None
      else if Outcome s =s "in-flight" then Some (s <| Outcome := "unknown" |>)
      else Some s
  end.

(** [NewEngine]; the [disk] of the initial world is what [f] was read from. *)
Definition NewEngine (boot : string) (f : FileRead) : ST Engine bool :=
  if boot =s "" then mret false
  else
    c ← clockNow;
    match c with
    | None => mret false
    | Some (_, bt) =>
        match loadState boot bt f with
        | None => mret false
        | Some s =>
            modify (λ e, e <| state := s |>
                           <| samples := filter (λ kv, validSample kv.1 kv.2 = true) (Samples s) |>
                           <| quality := unknownQuality |> <| qualityBoot := 0 |> <| inFlight := false |>);;
            save
        end
    end.

(** ** Status *)

Definition nrfEligible (s : EState) (q : Quality) (bt qualityBoot : Z) : bool :=
  (qualityBoot <=? bt) && negb (Preparing s) && negb (ExternalEstablished s)
  && ((Episode s =s "initial") || (Episode s =s "resume"))
  && (Outcome s =s "available") && (bt <? Deadline s)
  && negb (QExternal q && (QAgeNS q <=? sampleMaxAge) && within5 (QResidual q) (QUncertainty q)).

(** The quality aged to [clk]. *)
Definition agedQuality (e : Engine) (clk : option (Time * Z)) : Quality :=
  match clk with
  | None => unknownQuality
  | Some (_, bt) =>
      let q := quality e in
      if bt <? qualityBoot e then unknownQuality
      else if negb (QSource q =s "") && negb (QSource q =s "unknown") then
        let q := q <| QAgeNS := i64 (QAgeNS q + i64 (bt - qualityBoot e)) |> in
        if sampleMaxAge <? QAgeNS q then q <| QSource := "unknown" |> <| QExternal := false |> else q
      else q
  end.

Definition statusAt (e : Engine) (clk : option (Time * Z)) : Quality :=
  let s := state e in
  let q := agedQuality e clk in
  q <| QBootID := BootID s |> <| QGeneration := Generation s |> <| QEpisode := Episode s |>
    <| QOutcome := Outcome s |> <| QPreparing := Preparing s |> <| QNRFDeadlineBootNS := Deadline s |>
    <| QNRFEligible := match clk with Some (_, bt) => nrfEligible s q bt (qualityBoot e) | None => false end |>.

Definition statusLocked : ST Engine Quality :=
  clk ← clockNow; e ← get_st; mret (statusAt e clk).

(** ** Evidence *)

(** [externalObservationFresh]. *)
Definition externalObservationFresh (e : Engine) (t : Tracking) (bt : Z) : bool :=
  let after := ExternalAfterBoot (state e) in
  if after =? 0 then true
  else if bt <=? after then false
  else if TSource t =s SourceGPS then
    match samples e !! SourceGPS with Some s => after <? Receipt s | None => false end
  else (TSource t =s "ntp") && (0 <=? TAge t) && (TAge t <? i64 (i64 (bt - after) - 5 * Second)).

(** The GPS part of the observation of [Submit]: the tracking and whether it is
    external. *)
Definition gpsObservation (e : Engine) (bt : Z) (observed : Tracking) : Tracking * bool :=
  match samples e !! SourceGPS with
  | Some s =>
      if sampleLive s bt then
        let age := i64 (i64 (bt - Receipt s) + SAge s) in
        if TAge observed <=? i64 (age + 2 * Second) then
          (observed <| TAge := if TAge observed <? age then age else TAge observed |>
                    <| TUncertainty := Max (TUncertainty observed) (uncertaintySeconds s) |>, true)
        else (observed, false)
      else (observed, false)
  | None => (observed, false)
  end.

(** Does the observation show that external time is already there? *)
Definition confirmsExternal (e : Engine) (obs : option (Tracking * Z)) (bt : Z) : bool :=
  match obs with
  | None => false
  | Some (observed, observedBoot) =>
      if bt <? observedBoot then false
      else
        let observed := observed <| TAge := i64 (TAge observed + i64 (bt - observedBoot)) |> in
        let '(observed, external) :=
          if TSource observed =s SourceGPS then gpsObservation e bt observed
          else (observed, (TSource observed =s "ntp") && TExternal observed) in
        external && externalObservationFresh e observed bt && (TAge observed <=? sampleMaxAge)
        && within5 (TResidual observed) (TUncertainty observed)
  end.

(** ** Submit

    A result is the returned error, [None] for none. *)

(** The unlocked observation of [Submit]. *)
Definition observe (r : Request) : ST Engine (option string * option (Tracking * Z)) :=
  if negb (RqSource r =s SourceNRF) then mret (None, None)
  else
    c ← clockNow;
    match c with
    | None => mret (Some "clock", None)
    | Some (_, bt) =>
        t ← query ec_tracking;
        mret (None, match t with Some t => if TValid t then Some (t, bt) else None | None => None end)
    end.

(** The offset of a sample that is [age] old: [time.Unix(0, utc+age).Sub(now).Seconds()]. *)
Definition sampleOffset (r : Request) (now : Time) (age : Z) : float64 :=
  Seconds (Sub (UnixNs (i64 (UTCUnixNS r + age))) now).

Definition maxUncertainty (source : string) : Z := if source =s SourceGPS then 3 * Second else Second.

(** The age of a sample when it is submitted. *)
Definition submitAge (r : Request) (bt : Z) : Z := i64 (i64 (bt - ReceiptBootNS r) + SampleAgeNS r).

Definition disagreesWithNTP (r : Request) (q : Quality) (offset : float64) : bool :=
  (RqSource r =s SourceGPS) && (QSource q =s "ntp") && QExternal q && (0 <=? QAgeNS q)
  && (QAgeNS q <=? sampleMaxAge) && fle (of_Z 0) (QUncertainty q) && within5 (QResidual q) (QUncertainty q)
  && flt (fadd (fadd (Abs (QResidual q)) (QUncertainty q)) (fdiv (of_Z (UncertaintyNS r)) (of_Z Second)))
         (Abs offset).

(** The checks before the second reading of the clock. *)
Definition admission (r : Request) (s : EState) : option string :=
  if negb (RqBootID r =s BootID s) || negb (RqGeneration r =? Generation s) then Some "stale boot or generation"
  else if Preparing s then Some "suspend preparation active"
  else if negb (RqSource r =s SourceNRF) && negb (RqSource r =s SourceGPS) && negb (RqSource r =s SourceUser)
  then Some "unknown source"
  else None.

(** The checks after it. *)
Definition sampleCheck (r : Request) (q : Quality) (s : EState) (now : Time) (bt : Z) : option string :=
  if (RqSource r =s SourceNRF) && (negb (QNRFEligible q) || (Deadline s <=? bt)) then Some "nrf recovery unavailable"
  else if negb (DeadlineBootNS r =? 0) && ((DeadlineBootNS r <=? ReceiptBootNS r) || (DeadlineBootNS r <=? bt))
  then Some "sample deadline expired"
  else if (ReceiptBootNS r <? 0) || (bt <? ReceiptBootNS r) || (SampleAgeNS r <? 0) || (UncertaintyNS r <? 0)
          || (maxUncertainty (RqSource r) <? UncertaintyNS r) then Some "invalid sample metadata"
  else
    let age := i64 (bt - ReceiptBootNS r) in
    if (sampleMaxAge <? age) || (i64 (sampleMaxAge - age) <? SampleAgeNS r) then Some "stale sample"
    else
      let age := i64 (age + SampleAgeNS r) in
      if (UTCUnixNS r <=? 0) || (i64 (maxInt64 - age) <? UTCUnixNS r) then Some "invalid sample UTC"
      else
        let offset := sampleOffset r now age in
        if (RqSource r =s SourceNRF) && fle offset (of_Z 0) then Some "nrf sample would not advance clock"
        else if disagreesWithNTP r q offset then Some "GPS sample disagrees with trusted NTP"
        else if flt (of_Z (100 * 365 * 24 * Hour / Second)) (Abs offset) then Some "implausible sample offset"
        else None.

Definition setSample (source : string) (v : option Sample) : ST Engine unit :=
  modify (λ e, e <| samples := partial_alter (λ _, v) source (samples e) |>
                 <| state := (state e) <| Samples := partial_alter (λ _, v) source (Samples (state e)) |> |>).

(** Delivery of an accepted sample. *)
Definition deliverSample (r : Request) (now : Time) (offset : float64) : ST Engine (option string) :=
  setSample (RqSource r) None;;
  ok ← save;
  if negb ok then mret (Some "persist")
  else
    sent ← query ec_send;
    log (OSample (RqSource r) now offset sent);;
    if negb sent then mret (Some "refclock")
    else
      setSample (RqSource r) (Some (mkSample (ReceiptBootNS r) (SampleAgeNS r) (UncertaintyNS r)));;
      ok ← save;
      if negb ok then setSample (RqSource r) None;; mret (Some "persist") else mret None.

(** The locked part of [Submit]. *)
Definition submitLocked (r : Request) (obs : option (Tracking * Z)) : ST Engine (option string) :=
  c ← clockNow;
  match c with
  | None => mret (Some "clock")
  | Some (_, bt) =>
      e ← get_st;
      if (RqSource r =s SourceNRF) && confirmsExternal e obs bt then
        set_state (λ s, s <| ExternalEstablished := true |> <| ExternalAfterBoot := 0 |>);;
        ok ← save;
        mret (Some (if (ok : bool) then "external time already confirmed" else "persist"))
      else
        match admission r (state e) with
        | Some err => mret (Some err)
        | None =>
            q ← statusLocked;
            c ← clockNow;
            match c with
            | None => mret (Some "clock")
            | Some (now, bt) =>
                match sampleCheck r q (state e) now bt with
                | Some err => mret (Some err)
                | None => deliverSample r now (sampleOffset r now (submitAge r bt))
                end
            end
        end
  end.

Definition Submit (r : Request) : ST Engine (option string) :=
  o ← observe r;
  match o with
  | (Some err, _) => mret (Some err)
  | (None, obs) => submitLocked r obs
  end.

(** ** refresh *)

Definition forgetQuality : ST Engine unit := set_quality unknownQuality.

(** The persisted correction, judged by the movement of the wall clock against
    boot time. *)
Definition movementConfirms (e : Engine) (now : Time) (bt : Z) : bool :=
  let s := state e in
  (Outcome s =s "unknown") && ((DispatchSource s =s SourceNRF) || (DispatchSource s =s SourceUser))
  && negb (DispatchUTC s =? 0) && (10 * Second <=? i64 (bt - DispatchBoot s))
  && match samples e !! DispatchSource s with
     | Some v =>
         bool_decide (v = DispatchSample s) && sampleLive v bt
         && flt (Abs (fsub (fsub (Seconds (Sub now (UnixNs (DispatchUTC s)))) (Seconds (i64 (bt - DispatchBoot s))))
                      (DispatchResidual s))) (lit 1 10)
     | None => false
     end.

(** Marks the outcome as reconciled; [false] when the save failed. *)
Definition reconcile : ST Engine bool :=
  set_state (λ s, s <| Outcome := "reconciled" |>);;
  ok ← save;
  if negb ok then set_state (λ s, s <| Outcome := "unknown" |>);; forgetQuality;; mret false
  else mret true.

(** The evidence for a tracking report; [None] makes the quality unknown. *)
Definition judge (e : Engine) (t : option Tracking) (bt : Z) : option Tracking :=
  match t with
  | None => None
  | Some t =>
      if negb (TValid t) then None
      else if one_of (TSource t) [SourceGPS; SourceNRF; SourceUser] then
        match samples e !! TSource t with
        | None => None
        | Some s =>
            if negb (sampleLive s bt) then None
            else
              let age := i64 (i64 (bt - Receipt s) + SAge s) in
              if i64 (age + 2 * Second) <? TAge t then None
              else
                let t := t <| TExternal := (TSource t =s SourceGPS) |>
                           <| TAge := if TAge t <? age then age else TAge t |> in
                let t := t <| TUncertainty :=
                  if (TSource t =s SourceNRF) || (TSource t =s SourceUser)
                  then fadd (Max (of_Z 1) (uncertaintySeconds s))
                            (fdiv (fmul (Seconds (TAge t)) (TSkewPPM t)) (of_Z 1000000))
                  else Max (TUncertainty t) (uncertaintySeconds s) |> in
                if TExternal t && negb (externalObservationFresh e t bt) then None else Some t
        end
      else if TExternal t && negb (externalObservationFresh e t bt) then None
      else Some t
  end.

Definition establishes (s : EState) (t : Tracking) : bool :=
  TExternal t && (TAge t <=? sampleMaxAge) && within5 (TResidual t) (TUncertainty t)
  && negb (ExternalEstablished s).

Definition reconciles (s : EState) (t : Tracking) (bt : Z) : bool :=
  (Outcome s =s "unknown") && (10 * Second <=? i64 (bt - DispatchBoot s))
  && flt (Abs (TResidual t)) (lit 1 10)
  && (negb (TSource t =s "local") && (TAge t <? 5 * Second) && flt (TUncertainty t) (of_Z 5)).

Definition lateExternal (s : EState) (t : Tracking) : bool := TExternal t && negb (LateUsed s).
Definition lateHoldover (s : EState) (t : Tracking) : bool :=
  (TSource t =s SourceNetworkHoldover) && negb (LateHoldoverUsed s) && negb (ExternalEstablished s).

Definition opensLateEpisode (s : EState) (t : Tracking) (bt : Z) : bool :=
  (lateExternal s t || lateHoldover s t) && (TAge t <=? sampleMaxAge) && fle (TUncertainty t) (of_Z 5)
  && flt (of_Z 1) (Abs (TResidual t)) && (Deadline s <=? bt).

Definition lateEpisode (t : Tracking) (bt : Z) (s : EState) : EState :=
  (if lateExternal s t then s <| LateUsed := true |> <| Episode := "late-external" |>
   else s <| LateHoldoverUsed := true |> <| Episode := "late-holdover" |>)
    <| Deadline := i64 (bt + episodeWindow) |> <| Outcome := "available" |> <| Attempts := 0 |>.

(** The negation of the last early return before a step. *)
Definition stepDue (s : EState) (t : Tracking) (bt : Z) : bool :=
  one_of (TSource t) ["ntp"; SourceNRF; SourceGPS; SourceUser; SourceNetworkHoldover]
  && negb (((TSource t =s SourceNetworkHoldover) || (TSource t =s SourceNRF)) && ExternalEstablished s)
  && (Outcome s =s "available") && (bt <? Deadline s) && (TAge t <=? sampleMaxAge)
  && negb (flt (of_Z 5) (TUncertainty t)) && negb (flt (Abs (TResidual t)) (of_Z 1)).

Definition admitStep (samples : gmap string Sample) (t : Tracking) (now : Time) (bt : Z) (s : EState) : EState :=
  s <| Outcome := "in-flight" |> <| Attempts := Attempts s + 1 |> <| DispatchBoot := bt |>
    <| DispatchUTC := i64 (wall now) |> <| DispatchResidual := TResidual t |> <| DispatchSource := TSource t |>
    <| DispatchSample := default (mkSample 0 0 0) (samples !! TSource t) |>.

(** From the saved admission to the started command. *)
Definition startStep (t : Tracking) (admissionBoot : Z) : ST Engine unit :=
  c ← clockNow;
  s ← gets state;
  let expired := match c with
                 | None => true
                 | Some (_, bt) => (bt <? admissionBoot) || (Deadline s <=? bt)
                                   || (sampleMaxAge <? i64 (TAge t + i64 (bt - admissionBoot)))
                 end in
  if expired then set_state (λ s, s <| Outcome := "expired" |>);; save;; skip
  else
    started ← query ec_start;
    log (OStep started);;
    if (started : bool) then modify (λ e, e <| inFlight := true |>)
    else
      set_state (λ s, s <| Outcome := if Attempts s <? 2 then "available" else "failed" |>);;
      ok ← save;
      when negb ok do set_state (λ s, s <| Outcome := "unknown" |>).

(** The step itself: admission, then the command. *)
Definition dispatch (t : Tracking) (now : Time) (bt : Z) : ST Engine unit :=
  old ← gets state;
  if negb (stepDue old t bt) then skip
  else
    e ← get_st;
    set_state (admitStep (samples e) t now bt);;
    forgetQuality;;
    ok ← save;
    if negb ok then set_state (λ _, old) else startStep t bt.

(** Everything after the quality is known. *)
Definition afterQuality (t : Tracking) (now : Time) (bt : Z) : ST Engine unit :=
  s ← gets state;
  ok ← (if reconciles s t bt then reconcile else mret true);
  s ← gets state;
  if negb ok then skip
  else if (Outcome s =s "unknown") || (Outcome s =s "in-flight") then forgetQuality
  else if Preparing s then skip
  else if opensLateEpisode s t bt then
    set_state (lateEpisode t bt);;
    ok ← save;
    if negb ok then set_state (λ _, s) else dispatch t now bt
  else dispatch t now bt.

Definition publishQuality (t : Tracking) : ST Engine unit :=
  set_quality (zeroQuality <| QSource := TSource t |> <| QExternal := TExternal t |> <| QAgeNS := TAge t |>
                           <| QResidual := TResidual t |> <| QUncertainty := TUncertainty t |>).

(** A judged report: it may establish external time, and becomes the quality. *)
Definition acceptReport (t : Tracking) (now : Time) (bt : Z) : ST Engine unit :=
  s ← gets state;
  ok ← (if establishes s t then
          set_state (λ s, s <| ExternalEstablished := true |> <| ExternalAfterBoot := 0 |>);; save
        else mret true);
  if negb ok then forgetQuality
  else publishQuality t;; afterQuality t now bt.

(** The locked part of [refresh]. *)
Definition refreshLocked (generation startBoot : Z) (t : option Tracking) : ST Engine unit :=
  c ← clockNow;
  e ← get_st;
  match c with
  | None => skip
  | Some (now, bt) =>
      if (bt <? startBoot) || negb (generation =? Generation (state e)) then skip
      else
        modify (λ e, e <| qualityBoot := bt |>);;
        ok ← (if movementConfirms e now bt then reconcile else mret true);
        if negb ok then skip
        else
          match judge e ((λ t, t <| TAge := i64 (TAge t + i64 (bt - startBoot)) |>) <$> t) bt with
          | None => forgetQuality
          | Some t => acceptReport t now bt
          end
  end.

Definition refresh : ST Engine unit :=
  s ← gets state;
  c ← clockNow;
  match c with
  | None => skip
  | Some (_, startBoot) => t ← query ec_tracking; refreshLocked (Generation s) startBoot t
  end.

(** [Run]: a refresh at once and after every tick, until the context ends. *)
Fixpoint RunTicks (ticks : nat) : ST Engine unit :=
  refresh;; match ticks with O => skip | S ticks => RunTicks ticks end.

(** The goroutine of a running step: did the command end without an error? *)
Definition stepDone (confirmed : bool) : ST Engine unit :=
  set_state (λ s, s <| Outcome := if confirmed then "completed" else "unknown" |>);;
  ok ← save;
  (when negb ok do set_state (λ s, s <| Outcome := "unknown" |>));;
  modify (λ e, e <| inFlight := false |>).

(** ** Prepare, Abort, Resume *)

Definition prepareBegin : ST Engine (option string) :=
  s ← gets state;
  if Preparing s then mret (Some "already preparing")
  else
    set_state (λ s, s <| Preparing := true |> <| PrepareBaselineValid := false |>);;
    ok ← save;
    if negb ok then set_state (λ s, s <| Preparing := false |>);; mret (Some "persist") else mret None.

Definition prepareCancelled : ST Engine (option string) :=
  set_state (λ s, s <| Preparing := false |>);;
  ok ← save;
  mret (Some (if (ok : bool) then "context" else "persist")).

Definition prepareFinish : ST Engine (option string) :=
  s ← gets state;
  if negb (Preparing s) then mret (Some "suspend preparation cancelled")
  else if (Outcome s =s "unknown") || (Outcome s =s "in-flight") then
    set_state (λ s, s <| Preparing := false |>);;
    ok ← save;
    mret (Some (if (ok : bool) then "step outcome unresolved" else "persist"))
  else
    c ← clockNow;
    match c with
    | None => set_state (λ s, s <| Preparing := false |>);; save;; mret (Some "clock")
    | Some (now, bt) =>
        set_state (λ s, s <| PrepareUTC := i64 (wall now) |> <| PrepareBoot := bt |>
                          <| PrepareBaselineValid := true |>);;
        ok ← save;
        if negb ok then set_state (λ s, s <| PrepareBaselineValid := false |>);; mret (Some "persist")
        else mret None
    end.

(** [Prepare], with what ends the wait for a running step: the step (confirmed
    or not) or the context. *)
Definition Prepare (wait : option bool) : ST Engine (option string) :=
  err ← prepareBegin;
  match err with
  | Some e => mret (Some e)
  | None =>
      e ← get_st;
      if inFlight e then
        match wait with
        | Some confirmed => stepDone confirmed;; prepareFinish
        | None => prepareCancelled
        end
      else prepareFinish
  end.

Definition Abort : ST Engine (option string) :=
  s ← gets state;
  if negb (Preparing s) then mret (Some "not preparing")
  else
    set_state (λ s, s <| Preparing := false |>);;
    ok ← save;
    if negb ok then set_state (λ s, s <| Preparing := true |>);; mret (Some "persist") else mret None.

(** The clock loss over a suspend. *)
Definition clockLoss (s : EState) (now : Time) (bt : Z) : Z :=
  i64 (i64 (bt - PrepareBoot s) - i64 (i64 (wall now) - PrepareUTC s)).

Definition resumed (lost : bool) (bt : Z) (s : EState) : EState :=
  let s := s <| Preparing := false |> <| PrepareBaselineValid := false |>
             <| Generation := u64 (Generation s + 1) |> <| Samples := ∅ |> in
  if lost then
    s <| ExternalEstablished := false |> <| ExternalAfterBoot := bt |> <| Episode := "resume" |>
      <| Deadline := i64 (bt + episodeWindow) |> <| Outcome := "available" |> <| Attempts := 0 |>
  else s.

Definition Resume (boot : string) (generation : Z) : ST Engine (option string) :=
  old ← gets state;
  if negb (Preparing old) || negb (boot =s BootID old) || negb (generation =? Generation old)
  then mret (Some "invalid resume generation")
  else if negb (PrepareBaselineValid old) then
    set_state (λ s, s <| Preparing := false |>);;
    ok ← save;
    if negb ok then set_state (λ s, s <| Preparing := true |>);; mret (Some "persist") else mret None
  else
    c ← clockNow;
    match c with
    | None => mret (Some "clock")
    | Some (now, bt) =>
        if bt <? PrepareBoot old then mret (Some "boottime went backwards")
        else
          let lost := 2 * Second <? clockLoss old now bt in
          (when lost do log OLoss);;
          set_state (resumed lost bt);;
          ok ← save;
          if negb ok then set_state (λ _, old);; mret (Some "persist")
          else
            modify (λ e, e <| samples := ∅ |> <| quality := unknownQuality |>);;
            mret None
    end.

(** ** server.go *)

(** The dispatcher of [handle]: [None] is a request that does not decode, or
    that is followed by more JSON. *)
Definition handle (wait : option bool) (r : option Request) : ST Engine Response :=
  err ← match r with
        | None => mret (Some "decode")
        | Some r =>
            if Op r =s "status" then mret None
            else if Op r =s "submit" then Submit r
            else if Op r =s "prepare" then Prepare wait
            else if Op r =s "abort" then Abort
            else if Op r =s "resume" then Resume (RqBootID r) (RqGeneration r)
            else mret (Some "unknown operation")
        end;
  q ← statusLocked;
  mret (mkResponse (bool_decide (err = None)) (default "" err) q).
