(* ===== verification/ChronyAdapter.v ===== *)
(** * The coordinator's adapters

    [internal/clockcontrol/adapters.go]: what the coordinator reads from
    [chronyc] and writes to chrony's refclock sockets.  Running a program is the
    environment: its standard output is an input, [None] when it failed. *)

From S2P Require Import Prelude GoInt GoTime GoFloat GoText GoDuration ClockProto ClockClient ClockEngine.
From Stdlib Require Import SpecFloat.

(** ** Output of a command, bounded *)

Record boundedOutput := mkOutput { Buffer : list Z; overflow : bool }.

Definition outputLimit : nat := Z.to_nat 4096.

(** [Write]: a chunk that does not fit is dropped as a whole. *)
Definition Write (b : boundedOutput) (p : list Z) : boundedOutput :=
  if bool_decide (outputLimit < length (Buffer b) + length p)%nat
  then mkOutput (Buffer b) true else mkOutput (Buffer b ++ p) (overflow b).

(** The goroutine of [StartStep]: [exited] tells whether [cmd.Wait] returned
    without error, [chunks] what the command wrote. *)
Definition stepConfirmed (exited : bool) (chunks : list (list Z)) : bool :=
  let output := fold_left Write chunks (mkOutput [] false) in
  exited && negb (overflow output || negb (TrimSpace (unbytes (Buffer output)) =s "200 OK")).

(** ** Tracking *)

(** The three commands of [Chronyc.Tracking]. *)
Record ChronycIO := mkIO {
  tracking_out : option string;
  sources_out : option string;
  ntpdata_out : string → option string;
}.

(** The local function [parse]. *)
Definition parseNumber (s : string) : option float64 :=
  match ParseFloat s with
  | Some v => if IsNaN v || IsInf v then None else Some v
  | None => None
  end.

Definition nonNegative (v : float64) : option float64 := if flt v (of_Z 0) then None else Some v.

(** What the tracking line gives: the report before a source is known, the
    reference id as text and number, and the name of the reference. *)
Record Reference := mkReference { rf_quality : Tracking; rf_text : string; rf_id : Z; rf_name : string }.

Definition trackingAge (now : Time) (residual stamp : float64) : float64 :=
  fsub (fadd (fdiv (of_Z (i64 (wall now))) (of_Z 1000000000)) residual) stamp.

Definition readReference (now : Time) (out : string) : option Reference :=
  match Split (TrimSpace out) 44 with
  | [f0; f1; f2; f3; f4; _; _; _; _; f9; f10; f11; _; f13] =>
      if negb (f13 =s "Normal") then None
      else
        ref ← ParseHex 32 f0;
        if negb (String.length f0 =? 8)%nat || (ref =? 0) then None
        else
          stratum ← Atoi f2;
          if (stratum <? 1) || (15 <? stratum) then None
          else
            stamp ← parseNumber f3;
            residual ← parseNumber f4;
            skew ← parseNumber f9 ≫= nonNegative;
            delay ← parseNumber f10 ≫= nonNegative;
            dispersion ← parseNumber f11 ≫= nonNegative;
            let age := trackingAge now residual stamp in
            if flt age (of_Z (-5)) || flt (of_Z 7200) age then None
            else
              let age := if flt age (of_Z 0) then of_Z 0 else age in
              Some (mkReference
                (mkTracking "local" false (trunc (fmul age (of_Z Second))) residual
                   (fadd (fdiv delay (of_Z 2)) dispersion) skew true) f0 ref f1)
  | _ => None
  end.

(** The loop over the lines of [ntpdata]: [None] is an error. *)
Fixpoint peerLoop (found : option Z) (lines : list string) : option (option Z) :=
  match lines with
  | [] => Some found
  | line :: lines =>
      match Cut line 58 with
      | None => peerLoop found lines
      | Some (key, value) =>
          if negb (TrimSpace key =s "Reference ID") then peerLoop found lines
          else match Fields value with
          | [] => None
          | field :: _ =>
              if negb (String.length field =? 8)%nat || bool_decide (is_Some found) then None
              else match ParseHex 32 field with
                   | None => None
                   | Some id => peerLoop (Some id) lines
                   end
          end
      end
  end.

(** The reference id of the selected peer; a missing one is an error. *)
Definition peerID (out : string) : option Z :=
  match peerLoop None (Split out 10) with Some (Some id) => Some id | _ => None end.

(** Is a peer's own reference a real one: not nothing, a loopback address, or
    one of the local sources. *)
Definition isLoopbackID (id : Z) : bool := Z.shiftr id 24 =? 127.
Definition genuinePeer (id : Z) : bool :=
  negb (id =? 0) && negb (isLoopbackID id)
  && negb (id =? 0x4c4f434c) && negb (id =? 0x4e524631) && negb (id =? 0x55535231).

(** What the selected line of [sources] makes of the report. *)
Definition selectSource (io : ChronycIO) (r : Reference) (mode name : string) (q : Tracking) : option Tracking :=
  if (mode =s "#") && (name =s "GPS1") && (rf_text r =s "47505331") then
    Some (q <| TSource := SourceGPS |> <| TExternal := true |>)
  else if (mode =s "#") && (name =s "NRF1") && (rf_text r =s "4E524631") then Some (q <| TSource := SourceNRF |>)
  else if (mode =s "#") && (name =s "USR1") && (rf_text r =s "55535231") then Some (q <| TSource := SourceUser |>)
  else if (mode =s "^") && negb (isLoopbackID (rf_id r)) && negb (rf_text r =s "4C4F434C") && (name =s rf_name r) then
    match ntpdata_out io name ≫= peerID with
    | None => None
    | Some id =>
        if genuinePeer id then Some (q <| TSource := "ntp" |> <| TExternal := true |>)
        else if negb (id =? 0) then Some (q <| TSource := SourceNetworkHoldover |>)
        else Some q
    end
  else Some q.

(** The selected sources: mode and name of the lines marked with a star. *)
Definition selectedLine (line : string) : option (string * string) :=
  match Split line 44 with
  | mode :: star :: name :: _ => if star =s "*" then Some (mode, name) else None
  | _ => None
  end.

Fixpoint sourcesLoop (io : ChronycIO) (r : Reference) (found : bool) (q : Tracking) (lines : list string)
    : option (bool * Tracking) :=
  match lines with
  | [] => Some (found, q)
  | line :: lines =>
      match selectedLine line with
      | None => sourcesLoop io r found q lines
      | Some (mode, name) =>
          if found then None
          else match selectSource io r mode name q with
               | None => None
               | Some q => sourcesLoop io r true q lines
               end
      end
  end.

(** [Chronyc.Tracking]; [None] is an error. *)
Definition ChronycTracking (io : ChronycIO) (now : Time) : option Tracking :=
  r ← tracking_out io ≫= readReference now;
  sources ← sources_out io;
  match sourcesLoop io r false (rf_quality r) (Split (TrimSpace sources) 10) with
  | Some (true, q) => Some q
  | _ => None
  end.

(** ** SockRefclock *)

Definition sockNames (source : string) : option string :=
  if source =s SourceNRF then Some "nrf.sock"
  else if source =s SourceGPS then Some "gps.sock"
  else if source =s SourceUser then Some "user.sock"
  else None.

(** The datagram of [Send] and the socket it goes to, in the byte order of the
    machine. *)
Definition refclockDatagram (order : ByteOrder) (source : string) (at_ : Time) (offset : float64)
    : option (string * list Z) :=
  name ← sockNames source;
  b ← EncodeSOCK at_ offset 8 order;
  Some (name, b).

(** [Send]: [write] is the number of bytes the socket took, [None] for an error
    of the dial, the deadline or the write. *)
Definition RefclockSend (write : string → list Z → option Z) (order : ByteOrder) (source : string)
    (at_ : Time) (offset : float64) : bool :=
  match refclockDatagram order source at_ offset with
  | None => false
  | Some (name, b) =>
      match write name b with Some n => n =? Z.of_nat (length b) | None => false end
  end.
