(* ===== verification/ClockEngineFacts.v ===== *)
(** * The clock coordinator is careful

    Runs of the coordinator of [ClockEngine]: every operation is a sequence of
    locked steps, interleaved in any order with the completion of a running
    chrony step and with crashes and restarts of the process within one boot.
    The invariant bounds how often the clock may be stepped. *)

From S2P Require Import Prelude GoInt GoTime GoFloat ClockProto ClockClient ClockEngine.
From Stdlib Require Import SpecFloat.

(** ** Runs *)

Definition file_of (d : option EState) : FileRead := match d with Some s => FState s | None => FMissing end.

(** The types of the Go values: boot times and request fields are [int64], a
    report has an [int64] age and [float64] numbers; its source is one of the
    six constants. *)
Definition trackingSources : list string :=
  ["local"; "ntp"; SourceGPS; SourceNRF; SourceUser; SourceNetworkHoldover].

Record typed_tracking (t : Tracking) : Prop := {
  tt_source : one_of (TSource t) trackingSources = true;
  tt_age : is_i64 (TAge t);
  tt_residual : canonical (TResidual t) = true;
  tt_uncertainty : canonical (TUncertainty t) = true;
  tt_skew : canonical (TSkewPPM t) = true;
}.

Record env_ok (v : EEnv) : Prop := {
  env_now : ∀ n now bt, ec_now v n = Some (now, bt) → is_i64 bt;
  env_tracking : ∀ n t, ec_tracking v n = Some t → typed_tracking t;
}.

Definition request_ok (r : Request) : Prop :=
  is_i64 (ReceiptBootNS r) ∧ is_i64 (SampleAgeNS r) ∧ is_i64 (UTCUnixNS r) ∧ is_i64 (UncertaintyNS r).

Inductive estep : Engine → Engine → Prop :=
| es_query e n : estep e (e <| etick := n |>)
| es_submit r obs e x e' : request_ok r → submitLocked r obs e = (x, e') → estep e e'
| es_refresh g b t e x e' : (∀ t', t = Some t' → typed_tracking t') → refreshLocked g b t e = (x, e') → estep e e'
| es_done c e x e' : inFlight e = true → stepDone c e = (x, e') → estep e e'
| es_begin e x e' : prepareBegin e = (x, e') → estep e e'
| es_cancelled e x e' : prepareCancelled e = (x, e') → estep e e'
| es_finish e x e' : prepareFinish e = (x, e') → estep e e'
| es_abort e x e' : Abort e = (x, e') → estep e e'
| es_resume b g e x e' : Resume b g e = (x, e') → estep e e'
| es_restart e e' : NewEngine (BootID (state e)) (file_of (disk e)) e = (true, e') → estep e e'.

(** The first start of a boot: no usable file. *)
Inductive ereachable : Engine → Prop :=
| ereach_start boot f e e' :
    env_ok (eenv e) → etrace e = [] →
    f = FMissing ∨ (∃ s, f = FState s ∧ BootID s ≠ boot) → disk e = None ∨ (∃ s, disk e = Some s ∧ f = FState s) →
    NewEngine boot f e = (true, e') → ereachable e'
| ereach_step e e' : ereachable e → estep e e' → ereachable e'.

(** ** Counting *)

Definition isStart (o : EObs) : bool := match o with OStep true => true | _ => false end.
Definition isLoss (o : EObs) : bool := match o with OLoss => true | _ => false end.
Definition count (p : EObs → bool) (l : list EObs) : Z := Z.of_nat (length (List.filter p l)).

Lemma count_app p l1 l2 : count p (l1 ++ l2) = count p l1 + count p l2.
Proof. unfold count. rewrite List.filter_app, length_app. lia. Qed.

Lemma count_nonneg p l : 0 ≤ count p l.
Proof. unfold count. lia. Qed.

(** Steps that were started, and suspends that lost time. *)
Definition starts (e : Engine) : Z := count isStart (etrace e).
Definition losses (e : Engine) : Z := count isLoss (etrace e).

(** ** The invariant *)

Definition outcomes : list string :=
  ["available"; "in-flight"; "completed"; "unknown"; "reconciled"; "failed"; "expired"].

Definition b2z (b : bool) : Z := if b then 1 else 0.

(** [n] steps were started and [l] suspends lost time. *)
Record sinv (n l : Z) (s : EState) : Prop := {
  si_outcome : one_of (Outcome s) outcomes = true;
  si_attempts : 0 ≤ Attempts s ≤ 2 ∧ (Outcome s = "available" → Attempts s ≤ 1);
  si_prepared : Preparing s = true → PrepareBaselineValid s = true →
                Outcome s ≠ "in-flight" ∧ Outcome s ≠ "unknown";
  si_samples : ∀ k v, Samples s !! k = Some v → validSample k v = true;
  si_count : n + b2z (Outcome s =s "available") ≤ 1 + b2z (LateUsed s) + b2z (LateHoldoverUsed s) + l;
}.

(** The state in memory and the one a crash would leave. *)
Definition pinv (e : Engine) : Prop :=
  sinv (starts e) (losses e) (state e) ∧ ∀ s, disk e = Some s → sinv (starts e) (losses e) s.

Record einv (e : Engine) : Prop := {
  ei_pinv : pinv e;
  ei_samples : samples e = Samples (state e);
  ei_inFlight : inFlight e = true ↔ Outcome (state e) = "in-flight";
}.

Lemma sinv_weaken n l n' l' s : sinv n l s → n' ≤ n → l ≤ l' → sinv n' l' s.
Proof. intros [H1 H2 H3 H4 H5] Hn Hl. split; auto. lia. Qed.

(** The invariant sees a state through these fields. *)
Lemma sinv_ext n l s s' :
  sinv n l s →
  (Outcome s', Attempts s', Preparing s', PrepareBaselineValid s', Samples s', LateUsed s', LateHoldoverUsed s')
  = (Outcome s, Attempts s, Preparing s, PrepareBaselineValid s, Samples s, LateUsed s, LateHoldoverUsed s) →
  sinv n l s'.
Proof. intros [H1 H2 H3 H4 H5] [= E1 E2 E3 E4 E5 E6 E7]. split; rewrite ?E1, ?E2, ?E3, ?E4, ?E5, ?E6, ?E7; auto. Qed.

(** A settled outcome. *)
Lemma sinv_outcome n l s o :
  sinv n l s → one_of o outcomes = true → o ≠ "available" →
  (Preparing s = true → PrepareBaselineValid s = true → o ≠ "in-flight" ∧ o ≠ "unknown") →
  sinv n l (s <| Outcome := o |>).
Proof.
  intros [H1 H2 H3 H4 H5] Ho Hn Hp. split; cbn; [done|split; [lia|done]|done|done|].
  rewrite (proj2 (streq_false _ _) Hn). cbn. destruct (Outcome s =s "available"); cbn in *; lia.
Qed.

(** ** save *)

(** What a save leaves alone. *)
Definition mem (e : Engine) := (state e, samples e, quality e, qualityBoot e, inFlight e, eenv e).

Lemma save_spec e ok e' :
  save e = (ok, e') →
  mem e' = mem e ∧ (disk e' = disk e ∨ disk e' = Some (state e)) ∧
  (ok = true → disk e' = Some (state e)) ∧
  etrace e' = etrace e ++ (if ok then [OSave (state e)] else []).
Proof.
  unfold save. rewrite gets_bind. destruct (finite _); cbn [negb]; [|intros [= <- <-]; rewrite app_nil_r; split_and!; by auto].
  unfold query, log, modify, mbind, ST_bind, mret, ST_ret. cbn.
  destruct (ec_save _ _); intros [= <- <-]; rewrite ?app_nil_r; cbn; split_and!; by auto.
Qed.

Lemma save_counts e ok e' : save e = (ok, e') → starts e' = starts e ∧ losses e' = losses e.
Proof.
  intros (_ & _ & _ & H)%save_spec. unfold starts, losses. rewrite H, !count_app. destruct ok; unfold count; cbn; lia.
Qed.

Lemma save_pinv e ok e' : save e = (ok, e') → pinv e → pinv e'.
Proof.
  intros H [Hs Hd]. destruct (save_counts _ _ _ H) as [Hn Hl]. apply save_spec in H as (Hm & Hd' & _ & _).
  injection Hm as E _ _ _ _ _. unfold pinv. rewrite Hn, Hl, E. split; [done|].
  intros s. destruct Hd' as [-> | ->]; [apply Hd|]. by intros [= <-].
Qed.

Lemma save_einv e ok e' : save e = (ok, e') → einv e → einv e'.
Proof.
  intros H [Hp Hs Hi]. pose proof (save_pinv _ _ _ H Hp). apply save_spec in H as (Hm & _).
  injection Hm as E1 E2 _ _ E5 _. split; [done|congruence|by rewrite E1, E5].
Qed.

(** A change of the state in memory. *)
Lemma set_state_pinv f e u e' :
  set_state f e = (u, e') → pinv e → sinv (starts e) (losses e) (f (state e)) → pinv e'.
Proof. intros [= _ <-] [_ Hd] Hf. by split. Qed.

Lemma set_state_einv f e u e' :
  set_state f e = (u, e') → einv e → sinv (starts e) (losses e) (f (state e)) →
  Samples (f (state e)) = Samples (state e) →
  (Outcome (f (state e)) = "in-flight" ↔ Outcome (state e) = "in-flight") → einv e'.
Proof.
  intros H [Hp Hs Hi] Hf Es Eo. pose proof (set_state_pinv _ _ _ _ H Hp Hf). injection H as _ <-.
  split; [done|cbn; congruence|cbn; by rewrite Eo].
Qed.

(** Everything but the environment and its tick. *)
Definition body (e : Engine) :=
  (state e, samples e, quality e, qualityBoot e, inFlight e, disk e, etrace e).

(** What the invariant reads. *)
Definition inner (e : Engine) := (state e, samples e, inFlight e, disk e, etrace e).

Lemma inner_einv e e' : inner e' = inner e → einv e → einv e'.
Proof.
  intros [= E1 E2 E3 E4 E5] [[P1 P2] S I]. unfold starts, losses in *.
  split; [split; unfold starts, losses; rewrite ?E1, ?E4, ?E5; done|congruence|by rewrite E1, E3].
Qed.

Lemma clockNow_body e c e' : clockNow e = (c, e') → body e' = body e.
Proof. by intros [= _ <-]. Qed.

Lemma query_body {A} (f : EEnv → nat → A) e c e' : query f e = (c, e') → body e' = body e.
Proof. by intros [= _ <-]. Qed.

Lemma body_inner e e' : body e' = body e → inner e' = inner e.
Proof. unfold body, inner. congruence. Qed.

Lemma body_einv e e' : body e' = body e → einv e → einv e'.
Proof. intros H%body_inner. by apply inner_einv. Qed.

Lemma forgetQuality_inner e u e' : forgetQuality e = (u, e') → inner e' = inner e.
Proof. by intros [= _ <-]. Qed.

(** ** A chrony step *)

(** A change of the outcome that settles it, saved. *)
Lemma settle_einv o e u e1 ok e2 :
  set_state (λ s, s <| Outcome := o |>) e = (u, e1) → save e1 = (ok, e2) →
  pinv e → samples e = Samples (state e) → inFlight e = false →
  one_of o outcomes = true → o ≠ "available" → o ≠ "in-flight" →
  (Preparing (state e) = true → PrepareBaselineValid (state e) = true → o ≠ "unknown") →
  einv e2 ∧ Preparing (state e2) = Preparing (state e) ∧
  PrepareBaselineValid (state e2) = PrepareBaselineValid (state e).
Proof.
  intros E Hsv Hp Hs Hi Ho Ha Hf Hu. pose proof Hp as [Hsi _].
  assert (He1 : einv e1).
  { split.
    - eapply set_state_pinv; [exact E|done|]. by apply sinv_outcome; auto.
    - injection E as _ <-. by cbn.
    - injection E as _ <-. cbn. rewrite Hi. split; [done|]. by intros ->. }
  pose proof (save_einv _ _ _ Hsv He1). apply save_spec in Hsv as (Hm & _).
  injection Hm as Hm _ _ _ _ _. rewrite Hm. injection E as _ <-. by cbn.
Qed.

Lemma startStep_einv t b e u e' :
  startStep t b e = (u, e') → pinv e → samples e = Samples (state e) → inFlight e = false →
  Outcome (state e) = "in-flight" → Preparing (state e) = false →
  (∀ s, disk e = Some s → sinv (starts e + 1) (losses e) s) →
  sinv (starts e + 1) (losses e) (state e) → einv e'.
Proof.
  intros H Hp Hs Hi Ho Hnp Hd Hx. unfold startStep in H. minv H.
  apply clockNow_body in E. injection E as B1 B2 _ _ B5 B6 B7.
  assert (Hcnt : starts w = starts e ∧ losses w = losses e) by (unfold starts, losses; by rewrite B7).
  destruct Hcnt as [Hn Hl].
  assert (Hpw : pinv w) by (destruct Hp; split; rewrite ?Hn, ?Hl, ?B1, ?B6; auto).
  destruct (match a with Some _ => _ | None => _ end); minv H.
  - injection H as _ <-. apply (settle_einv _ _ _ _ _ _ E E0); try done; try congruence.
  - rename a0 into started. apply query_body in E. injection E as D1 D2 _ _ D5 D6 D7.
    assert (L : (state w1, samples w1, inFlight w1, disk w1, etrace w1) =
                (state e, Samples (state e), false, disk e, etrace e ++ [OStep started])).
    { injection E0 as _ <-. cbn. congruence. }
    injection L as L1 L2 L3 L4 L5.
    assert (Hc1 : starts w1 = starts e + b2z started ∧ losses w1 = losses e).
    { unfold starts, losses. rewrite L5, !count_app. by destruct started; unfold count; cbn; lia. }
    destruct Hc1 as [Hn1 Hl1]. destruct started; cbn [b2z] in Hn1.
    + injection H as _ <-. split; [split|cbn; congruence|cbn; by rewrite L1].
      * unfold starts, losses in *. cbn. by rewrite L1, Hn1, Hl1.
      * intros s Hs'. unfold starts, losses in *. cbn in *. rewrite Hn1, Hl1. apply Hd. congruence.
    + minv H. injection E as _ <-. rename E1 into Hsv.
      set (o := if Attempts (state w1) <? 2 then "available" else "failed") in *. cbn [upd] in Hsv.
      assert (Ho' : (o = "available" ∧ Attempts (state e) < 2) ∨ o = "failed")
        by (unfold o; rewrite L1; destruct (Z.ltb_spec (Attempts (state e)) 2); auto).
      assert (Hsi : sinv (starts w1) (losses w1) ((state w1) <| Outcome := o |>)).
      { destruct Hx as [X1 X2 X3 X4 X5]. rewrite L1, Hn1, Hl1, Z.add_0_r, Ho in *.
        split; cbn; [|split; [lia|]|by rewrite Hnp|done|];
          destruct Ho' as [[-> Hlt]| ->]; cbn in *; try done; lia. }
      match type of Hsv with save ?ex = _ => assert (He : einv ex) end.
      { split; [split; [exact Hsi|]|cbn; congruence|].
        - intros s Hs'. cbn in Hs'. change (sinv (starts w1) (losses w1) s). rewrite Hn1, Hl1, Z.add_0_r.
          eapply sinv_weaken; [apply Hd; congruence|lia|lia].
        - cbn. rewrite L3. destruct Ho' as [[-> _]| ->]; done. }
      lazymatch type of Hsv with _ = (?ok, _) => destruct ok; cbn [negb] in H; cbv iota in H end.
      * minv H. injection H as _ <-. by eapply save_einv.
      * pose proof (save_einv _ _ _ Hsv He) as He2.
        apply save_spec in Hsv as (Hm & _). cbn in Hm. injection Hm as Hm _ _ _ _ _.
        assert (M1 : Preparing (state w3) = false) by (rewrite Hm; cbn; by rewrite L1).
        assert (M2 : Outcome (state w3) = o) by by rewrite Hm.
        eapply set_state_einv; [exact H|done| |done|].
        -- apply sinv_outcome; [exact (proj1 (ei_pinv _ He2))|done|done|by rewrite M1].
        -- cbn. rewrite M2. destruct Ho' as [[-> _]| ->]; done.
Qed.

Lemma dispatch_einv t now b e u e' :
  dispatch t now b e = (u, e') → einv e → Preparing (state e) = false → einv e'.
Proof.
  intros H He Hnp. unfold dispatch in H. minv H. destruct (stepDue _ _ _) eqn:Hdue; cbn [negb] in H; cbv iota in H;
    minv H; [|by injection H as _ <-].
  assert (Hav : Outcome (state e) = "available").
  { unfold stepDue in Hdue. rewrite !andb_true_iff in Hdue. apply streq_true. tauto. }
  pose proof He as [[[X1 [X2 X2'] X3 X4 X5] Hd] Hs Hi]. specialize (X2' Hav). rewrite Hav in X5. cbn in X5.
  assert (Hx : sinv (starts e + 1) (losses e) (admitStep (samples e) t now b (state e))).
  { split; cbn; [done|split; [lia|done]|by rewrite Hnp|done|lia]. }
  apply forgetQuality_inner in E0.
  match goal with E : set_state _ e = (_, ?w) |- _ =>
    assert (W : inner w = (admitStep (samples e) t now b (state e), samples e, inFlight e, disk e, etrace e))
      by by injection E as _ <- end.
  rewrite W in E0. clear E W. injection E0 as W1 W2 W3 W4 W5.
  assert (Hc : starts w0 = starts e ∧ losses w0 = losses e) by (unfold starts, losses; by rewrite W5).
  destruct Hc as [Hn Hl].
  assert (Hp0 : pinv w0).
  { split; rewrite Hn, Hl, ?W1; [eapply sinv_weaken; [exact Hx|lia|lia]|]. rewrite W4. exact Hd. }
  assert (Hf : inFlight e = false) by (destruct (inFlight e); [|done]; destruct Hi as [Hi _]; specialize (Hi eq_refl); congruence).
  pose proof (save_pinv _ _ _ E1 Hp0) as Hp1. pose proof (save_counts _ _ _ E1) as [Hn1 Hl1].
  apply save_spec in E1 as (Hm & Hd1 & Hok & _). injection Hm as M1 M2 _ _ M5 _.
  destruct a1; cbn [negb] in H; cbv iota in H.
  - specialize (Hok eq_refl). eapply startStep_einv; [exact H|done|rewrite M1, M2, W1, W2; done|congruence| | | |].
    + by rewrite M1, W1.
    + by rewrite M1, W1.
    + intros s. rewrite Hok, W1, Hn1, Hl1, Hn, Hl. by intros [= <-].
    + by rewrite M1, W1, Hn1, Hl1, Hn, Hl.
  - injection H as _ <-. destruct Hp1 as [_ Hd']. split; [split|cbn; congruence|cbn].
    + change (sinv (starts w1) (losses w1) (state e)). rewrite Hn1, Hl1, Hn, Hl. exact (proj1 (ei_pinv _ He)).
    + exact Hd'.
    + rewrite M5, W3. exact Hi.
Qed.

(** ** refresh *)

Lemma reconcile_einv e ok e' :
  reconcile e = (ok, e') → einv e → Outcome (state e) = "unknown" →
  einv e' ∧ Preparing (state e') = Preparing (state e).
Proof.
  intros H He Ho. unfold reconcile in H. minv H.
  assert (Hf : inFlight e = false).
  { destruct (inFlight e) eqn:Ef; [|done]. apply He in Ef. congruence. }
  destruct (settle_einv _ _ _ _ _ _ E E0) as (He1 & Hp1 & Hb1); try done; try apply He.
  destruct a0; cbn [negb] in H; cbv iota in H; minv H; [by injection H as _ <-|].
  injection H as _ <-. apply forgetQuality_inner in E2.
  lazymatch type of E1 with set_state _ ?wa = (_, ?wb) =>
    assert (Hu : einv wb ∧ Preparing (state wb) = Preparing (state wa)) end.
  { split; [|by injection E1 as _ <-]. apply save_spec in E0 as (Hm & _). injection Hm as Hm M2 _ _ M5 _.
    injection E as _ <-. cbn in Hm, M2, M5.
    eapply set_state_einv; [exact E1|done| |done|cbn; rewrite Hm; done].
    apply sinv_outcome; [exact (proj1 (ei_pinv _ He1))|done|done|].
    rewrite Hp1, Hb1. intros H1 H2. by destruct (si_prepared _ _ _ (proj1 (ei_pinv _ He)) H1 H2). }
  destruct Hu as [Hu Hpu]. split; [by eapply inner_einv|]. unfold inner in E2. by injection E2 as -> _ _ _ _; rewrite Hpu.
Qed.

Lemma late_sinv n l t b s :
  sinv n l s → opensLateEpisode s t b = true → Preparing s = false → sinv n l (lateEpisode t b s).
Proof.
  intros [X1 X2 X3 X4 X5] Ho Hp. unfold opensLateEpisode in Ho. rewrite !andb_true_iff, orb_true_iff in Ho.
  destruct Ho as [[[[Hl _] _] _] _]. unfold lateEpisode. assert (Hb : ∀ x, 0 ≤ b2z x ≤ 1) by by intros [].
  pose proof (Hb (Outcome s =s "available")).
  destruct (lateExternal s t) eqn:El.
  - unfold lateExternal in El. rewrite andb_true_iff, negb_true_iff in El. destruct El as [_ El]. rewrite El in X5.
    split; cbn in *; [done|lia|by rewrite Hp|done|lia].
  - destruct Hl as [Hl|Hl]; [done|]. unfold lateHoldover in Hl. rewrite !andb_true_iff, !negb_true_iff in Hl.
    destruct Hl as [[_ Hl] _]. rewrite Hl in X5.
    split; cbn in *; [done|lia|by rewrite Hp|done|lia].
Qed.

Lemma afterQuality_einv t now b e u e' : afterQuality t now b e = (u, e') → einv e → einv e'.
Proof.
  intros H He. unfold afterQuality in H. minv H. rename E into Er.
  lazymatch type of Er with _ = (_, ?w1) =>
    assert (Hr : einv w1) end.
  { destruct (reconciles _ _ _) eqn:Hrec.
    - unfold reconciles in Hrec. rewrite !andb_true_iff, streq_true in Hrec.
      eapply reconcile_einv; [exact Er|done|tauto].
    - minv Er. by injection Er as _ <-. }
  destruct a; cbn [negb] in H; cbv iota in H; [|minv H; by injection H as _ <-].
  destruct (_ || _) eqn:Hunk in H.
  { apply forgetQuality_inner in H. by eapply inner_einv. }
  destruct (Preparing (state w)) eqn:Hpr; [minv H; by injection H as _ <-|].
  destruct (opensLateEpisode _ _ _) eqn:Hl; [|by eapply dispatch_einv].
  minv H. rewrite orb_false_iff, !streq_false in Hunk.
  assert (Hi : inFlight w = false) by (destruct (inFlight w) eqn:Ei; [apply Hr in Ei; tauto|done]).
  assert (He0 : einv w0).
  { eapply set_state_einv; [exact E|done| |unfold lateEpisode; by destruct (lateExternal _ _)|].
    - apply late_sinv; [exact (proj1 (ei_pinv _ Hr))|done|done].
    - split; [unfold lateEpisode; by destruct (lateExternal _ _)|tauto]. }
  pose proof (save_einv _ _ _ E0 He0) as He1. pose proof (save_counts _ _ _ E0) as [Hn Hl'].
  apply save_spec in E0 as (Hm & _). injection Hm as M1 M2 _ _ M5 _.
  destruct a0; cbn [negb] in H; cbv iota in H.
  - eapply dispatch_einv; [exact H|done|]. rewrite M1. injection E as _ <-. cbn.
    unfold lateEpisode. by destruct (lateExternal _ _).
  - assert (W : Outcome (state w0) = "available" ∧ Samples (state w0) = Samples (state w) ∧
                starts w0 = starts w ∧ losses w0 = losses w).
    { injection E as _ <-. unfold lateEpisode. cbn. by destruct (lateExternal _ _). }
    destruct W as (W1 & W2 & W3 & W4). eapply set_state_einv; [exact H|done| |congruence|].
    + rewrite Hn, Hl', W3, W4. exact (proj1 (ei_pinv _ Hr)).
    + rewrite M1, W1. split; [tauto|done].
Qed.

Lemma refreshLocked_einv g b t e u e' : refreshLocked g b t e = (u, e') → einv e → einv e'.
Proof.
  intros H He. unfold refreshLocked, acceptReport in H. minv H. apply clockNow_body in E.
  pose proof (body_einv _ _ E He) as Hw.
  destruct a as [[now bt]|]; [|minv H; by injection H as _ <-].
  destruct (_ || _) in H; [minv H; by injection H as _ <-|]. minv H.
  lazymatch type of E0 with modify _ _ = (_, ?w0) => assert (H0 : einv w0) end.
  { eapply inner_einv; [|exact Hw]. by injection E0 as _ <-. }
  lazymatch type of E1 with _ = (_, ?w1) => assert (H1 : einv w1) end.
  { destruct (movementConfirms _ _ _) eqn:Hm; [|minv E1; by injection E1 as _ <-].
    eapply reconcile_einv; [exact E1|done|]. injection E0 as _ <-. cbn.
    unfold movementConfirms in Hm. rewrite !andb_true_iff, streq_true in Hm. tauto. }
  destruct (negb _) in H; [minv H; by injection H as _ <-|].
  destruct (judge _ _ _) as [t'|]; [|apply forgetQuality_inner in H; by eapply inner_einv]. minv H.
  lazymatch type of E2 with _ = (_, ?w2) => assert (H2 : einv w2) end.
  { destruct (establishes _ _); [|minv E2; by injection E2 as _ <-]. minv E2.
    eapply save_einv; [exact E2|]. eapply set_state_einv; [exact E3|done| |done|done].
    eapply sinv_ext; [exact (proj1 (ei_pinv _ H1))|done]. }
  destruct (negb _) in H; [apply forgetQuality_inner in H; by eapply inner_einv|]. minv H.
  eapply afterQuality_einv; [exact H|]. eapply inner_einv; [|exact H2]. by injection E3 as _ <-.
Qed.

(** ** Submit *)

Lemma setSample_einv src v e u e' :
  setSample src v e = (u, e') → einv e → (∀ x, v = Some x → validSample src x = true) → einv e'.
Proof.
  intros [= _ <-] [[[X1 X2 X3 X4 X5] Hd] Hs Hi] Hv. split; [split; [|exact Hd]|cbn; by rewrite Hs|exact Hi].
  split; cbn; try done. intros k x. destruct (decide (k = src)) as [->|Hne].
  - rewrite lookup_partial_alter_eq. apply Hv.
  - rewrite lookup_partial_alter_ne by done. apply X4.
Qed.

(** What the checks of [Submit] establish about a request. *)
Lemma sampleCheck_bounds r q s now bt :
  sampleCheck r q s now bt = None → is_i64 bt → is_i64 (ReceiptBootNS r) → is_i64 (SampleAgeNS r) → is_i64 (UTCUnixNS r) →
  0 ≤ ReceiptBootNS r ≤ bt ∧ 0 ≤ SampleAgeNS r ≤ sampleMaxAge ∧
  0 ≤ UncertaintyNS r ≤ maxUncertainty (RqSource r) ∧
  submitAge r bt = bt - ReceiptBootNS r + SampleAgeNS r ∧ 0 ≤ submitAge r bt ≤ sampleMaxAge ∧
  0 < UTCUnixNS r ∧ UTCUnixNS r + submitAge r bt ≤ maxInt64.
Proof.
  intros H Hbt Hr Ha Hu. unfold sampleCheck in H.
  destruct (_ && _) in H; [done|]. destruct (_ && _) in H; [done|].
  destruct (_ || _) eqn:E1 in H; [done|]. rewrite !orb_false_iff, !Z.ltb_ge in E1. destruct_and! E1.
  cbv zeta in H. assert (Hi : i64 (bt - ReceiptBootNS r) = bt - ReceiptBootNS r) by (apply i64_id; tlia).
  rewrite Hi in H. destruct (_ || _) eqn:E2 in H; [done|]. rewrite !orb_false_iff, !Z.ltb_ge in E2.
  destruct E2 as [E2 E3]. unfold sampleMaxAge in *.
  rewrite i64_id in E3 by tlia.
  assert (Hs : submitAge r bt = bt - ReceiptBootNS r + SampleAgeNS r).
  { unfold submitAge. rewrite Hi. apply i64_id. tlia. }
  destruct (_ || _) eqn:E4 in H; [done|]. rewrite !orb_false_iff, Z.leb_gt, Z.ltb_ge in E4. destruct E4 as [E4 E5].
  rewrite (i64_id (bt - ReceiptBootNS r + SampleAgeNS r)) in E5 by tlia.
  rewrite (i64_id (maxInt64 - _)) in E5 by tlia.
  rewrite Hs. repeat split; try done; tlia.
Qed.

Lemma clockNow_ok e now bt e' :
  env_ok (eenv e) → clockNow e = (Some (now, bt), e') → is_i64 bt ∧ eenv e' = eenv e.
Proof. intros Hv [= H <-]. split; [by eapply env_now|done]. Qed.

Lemma log_einv o e u e' :
  log o e = (u, e') → isStart o || isLoss o = false → einv e → einv e'.
Proof.
  intros [= _ <-] [Ho1 Ho2]%orb_false_iff [[X1 X2] X3 X4].
  assert (C : ∀ l, count isStart (l ++ [o]) = count isStart l ∧ count isLoss (l ++ [o]) = count isLoss l).
  { intros l. rewrite !count_app. unfold count. cbn. rewrite Ho1, Ho2. cbn. lia. }
  destruct (C (etrace e)) as [C1 C2].
  split; [split|done|done]; unfold starts, losses in *; cbn; by rewrite C1, C2.
Qed.

Lemma deliverSample_einv r now off e u e' :
  deliverSample r now off e = (u, e') → einv e →
  validSample (RqSource r) (mkSample (ReceiptBootNS r) (SampleAgeNS r) (UncertaintyNS r)) = true → einv e'.
Proof.
  intros H He Hv. unfold deliverSample in H. minv H.
  assert (H0 : einv w) by (by eapply setSample_einv).
  pose proof (save_einv _ _ _ E0 H0) as H1.
  destruct (negb _) in H; [minv H; by injection H as _ <-|]. minv H. apply query_body in E1.
  pose proof (body_einv _ _ E1 H1) as H2.
  lazymatch type of E2 with _ = (_, ?w3) => assert (H3 : einv w3) end.
  { eapply log_einv; [exact E2|done|done]. }
  destruct (negb _) in H; [minv H; by injection H as _ <-|]. minv H.
  lazymatch type of E4 with save ?w4 = _ => assert (H4 : einv w4) end.
  { eapply setSample_einv; [exact E3|done|]. by intros x [= <-]. }
  pose proof (save_einv _ _ _ E4 H4) as H5.
  destruct (negb _) in H; minv H; injection H as _ <-; [|done].
  by eapply setSample_einv.
Qed.

Lemma statusLocked_body e q e' : statusLocked e = (q, e') → body e' = body e ∧ eenv e' = eenv e.
Proof. intros H. unfold statusLocked in H. minv H. injection E as _ <-. by injection H as _ <-. Qed.

Lemma submitLocked_einv r obs e x e' :
  submitLocked r obs e = (x, e') → einv e → env_ok (eenv e) → request_ok r → einv e'.
Proof.
  intros H He Hv (R1 & R2 & R3 & R4). unfold submitLocked in H. minv H.
  destruct a as [[now bt]|]; [|minv H; injection H as _ <-; by eapply body_einv, He; eapply clockNow_body].
  destruct (clockNow_ok _ _ _ _ Hv E) as [_ Hw]. apply clockNow_body in E. pose proof (body_einv _ _ E He) as H0.
  minv H. destruct (_ && _) in H.
  { minv H. injection H as _ <-. eapply save_einv; [exact E1|]. eapply set_state_einv; [exact E0|done| |done|done].
    eapply sinv_ext; [exact (proj1 (ei_pinv _ H0))|done]. }
  destruct (admission _ _) eqn:Had; [minv H; by injection H as _ <-|]. minv H.
  apply statusLocked_body in E0 as [B0 V0]. pose proof (body_einv _ _ B0 H0) as H1.
  destruct a0 as [[now2 bt2]|]; [|minv H; injection H as _ <-; by eapply body_einv, H1; eapply clockNow_body].
  destruct (clockNow_ok _ _ _ _ ltac:(by rewrite V0, Hw) E1) as [Hbt _]. apply clockNow_body in E1.
  pose proof (body_einv _ _ E1 H1) as H2.
  destruct (sampleCheck _ _ _ _ _) eqn:Hck in H; [minv H; by injection H as _ <-|].
  destruct (sampleCheck_bounds _ _ _ _ _ Hck Hbt R1 R2 R3) as (P1 & P2 & P3 & _).
  eapply deliverSample_einv; [exact H|done|].
  assert (Hsrc : one_of (RqSource r) [SourceNRF; SourceGPS; SourceUser] = true).
  { unfold admission in Had. destruct (_ || _) in Had; [done|]. destruct (Preparing _) in Had; [done|].
    destruct (_ && _) eqn:E2 in Had; [done|]. cbn. rewrite !andb_false_iff, !negb_false_iff in E2.
    rewrite orb_false_r, !orb_true_iff. tauto. }
  unfold validSample. rewrite Hsrc. cbn. unfold maxUncertainty in P3.
  destruct (_ =s _) in P3; ztests; try done; tlia.
Qed.

(** ** The end of a step *)

Lemma stepDone_einv c e u e' : stepDone c e = (u, e') → einv e → inFlight e = true → einv e'.
Proof.
  intros H He Hi. unfold stepDone in H. minv H.
  assert (Ho : Outcome (state e) = "in-flight") by by apply He.
  assert (Hset : ∀ o, one_of o outcomes = true → o ≠ "available" → sinv (starts e) (losses e) ((state e) <| Outcome := o |>)).
  { intros o Ho1 Ho2. apply sinv_outcome; [exact (proj1 (ei_pinv _ He))|done|done|]. intros H1 H2.
    by destruct (si_prepared _ _ _ (proj1 (ei_pinv _ He)) H1 H2). }
  assert (Hp0 : pinv w).
  { eapply set_state_pinv; [exact E|apply He|]. by destruct c; apply Hset. }
  assert (M0 : samples w = Samples (state w) ∧ starts w = starts e ∧ losses w = losses e ∧
    (state w) <| Outcome := "unknown" |> = (state e) <| Outcome := "unknown" |> ∧ Outcome (state w) ≠ "in-flight").
  { injection E as _ <-. cbn. split; [apply He|]. repeat split. by destruct c. }
  destruct M0 as (M1 & M2 & M3 & M4 & M5).
  pose proof (save_pinv _ _ _ E0 Hp0) as Hp1. pose proof (save_counts _ _ _ E0) as [Hn Hl].
  apply save_spec in E0 as (Hm & _). injection Hm as N1 N2 _ _ _ _.
  lazymatch type of E1 with _ = (_, ?w2) =>
    assert (H2 : pinv w2 ∧ samples w2 = Samples (state w2) ∧ Outcome (state w2) ≠ "in-flight") end.
  { destruct a0; cbn [negb] in E1; cbv iota in E1.
    - minv E1. injection E1 as _ <-. rewrite N1, N2. auto.
    - split; [|injection E1 as _ <-; cbn; rewrite N1, N2; done].
      eapply set_state_pinv; [exact E1|done|]. rewrite N1, M4, Hn, Hl, M2, M3. by apply Hset. }
  destruct H2 as ([X1 X2] & X3 & X4). injection H as _ <-. split; [by split|done|cbn]. by split.
Qed.

(** ** Preparation *)

Lemma sinv_prepare n l s p b :
  sinv n l s → (p = true → b = true → Outcome s ≠ "in-flight" ∧ Outcome s ≠ "unknown") →
  sinv n l (s <| Preparing := p |> <| PrepareBaselineValid := b |>).
Proof. intros [X1 X2 X3 X4 X5] H. by split. Qed.

(** A change of the preparation flags. *)
Lemma set_prepare_einv f e u e' :
  set_state f e = (u, e') → einv e →
  (Outcome (f (state e)), Attempts (f (state e)), Samples (f (state e)), LateUsed (f (state e)), LateHoldoverUsed (f (state e)))
  = (Outcome (state e), Attempts (state e), Samples (state e), LateUsed (state e), LateHoldoverUsed (state e)) →
  (Preparing (f (state e)) = true → PrepareBaselineValid (f (state e)) = true →
     Outcome (state e) ≠ "in-flight" ∧ Outcome (state e) ≠ "unknown") →
  einv e'.
Proof.
  intros H He [= E1 E2 E3 E4 E5] Hp. eapply set_state_einv; [exact H|done| |done|by rewrite E1].
  pose proof (sinv_prepare _ _ (state e) (Preparing (f (state e))) (PrepareBaselineValid (f (state e)))
    (proj1 (ei_pinv _ He)) Hp) as Hs.
  eapply sinv_ext; [exact Hs|]. cbn. by rewrite E1, E2, E3, E4, E5.
Qed.

Lemma prepareBegin_einv e x e' : prepareBegin e = (x, e') → einv e → einv e'.
Proof.
  intros H He. unfold prepareBegin in H. minv H. destruct (Preparing (state e)) eqn:Hp; [minv H; by injection H as _ <-|].
  minv H. assert (H0 : einv w) by (eapply set_prepare_einv; [exact E|done|done|done]).
  pose proof (save_einv _ _ _ E0 H0). destruct (negb _) in H; minv H; injection H as _ <-; [|done].
  by eapply set_prepare_einv; [exact E1| | |].
Qed.

Lemma prepareCancelled_einv e x e' : prepareCancelled e = (x, e') → einv e → einv e'.
Proof.
  intros H He. unfold prepareCancelled in H. minv H. injection H as _ <-.
  eapply save_einv; [exact E0|]. by eapply set_prepare_einv; [exact E| | |].
Qed.

Lemma prepareFinish_einv e x e' : prepareFinish e = (x, e') → einv e → einv e'.
Proof.
  intros H He. unfold prepareFinish in H. minv H. destruct (negb _) in H; [minv H; by injection H as _ <-|].
  destruct (_ || _) eqn:Ho in H; minv H.
  { injection H as _ <-. eapply save_einv; [exact E0|]. by eapply set_prepare_einv; [exact E| | |]. }
  rewrite orb_false_iff, !streq_false in Ho.
  apply clockNow_body in E. pose proof (body_einv _ _ E He) as H0. assert (Es : state w = state e) by by injection E.
  destruct a as [[now bt]|]; minv H.
  - lazymatch type of E0 with _ = (_, ?w0) => assert (H1 : einv w0) end.
    { eapply set_prepare_einv; [exact E0|done|done|]. rewrite Es. tauto. }
    pose proof (save_einv _ _ _ E1 H1). destruct (negb _) in H; minv H; injection H as _ <-; [|done].
    by eapply set_prepare_einv; [exact E2| | |].
  - injection H as _ <-. eapply save_einv; [exact E1|]. by eapply set_prepare_einv; [exact E0| | |].
Qed.

Lemma Abort_einv e x e' : Abort e = (x, e') → einv e → einv e'.
Proof.
  intros H He. unfold Abort in H. minv H. destruct (Preparing (state e)) eqn:Hp; cbn [negb] in H; cbv iota in H; [|minv H; by injection H as _ <-].
  minv H. assert (H0 : einv w) by (eapply set_prepare_einv; [exact E|done|done|done]).
  pose proof (save_einv _ _ _ E0 H0). destruct (save_spec _ _ _ E0) as (Hm & _). injection Hm as Hm _ _ _ _ _.
  destruct (negb _) in H; minv H; injection H as _ <-; [|done].
  eapply set_prepare_einv; [exact E1|done|done|]. rewrite Hm. injection E as _ <-. cbn. intros _ Hb.
  by apply (si_prepared _ _ _ (proj1 (ei_pinv _ He))).
Qed.

(** ** Resume *)

Lemma resumed_sinv n l lost bt s :
  sinv n l s → sinv n (l + b2z lost) (resumed lost bt s).
Proof.
  intros [X1 X2 X3 X4 X5]. assert (Hb : ∀ x, 0 ≤ b2z x ≤ 1) by by intros [].
  pose proof (Hb (Outcome s =s "available")).
  destruct lost; unfold resumed; split; cbn in *; try done; try lia; intros k v; by rewrite lookup_empty.
Qed.

Lemma Resume_einv b g e x e' : Resume b g e = (x, e') → einv e → einv e'.
Proof.
  intros H He. unfold Resume in H. minv H. destruct (_ || _) eqn:Hc in H; [minv H; by injection H as _ <-|].
  rewrite !orb_false_iff, negb_false_iff in Hc. destruct Hc as [[Hp _] _].
  destruct (PrepareBaselineValid (state e)) eqn:Hbv; cbn [negb] in H; cbv iota in H; minv H.
  2: { assert (H0 : einv w) by (eapply set_prepare_einv; [exact E|done|done|done]).
       pose proof (save_einv _ _ _ E0 H0). destruct (save_spec _ _ _ E0) as (Hm & _). injection Hm as Hm _ _ _ _ _.
       destruct (negb _) in H; minv H; injection H as _ <-; [|done].
       eapply set_prepare_einv; [exact E1|done|done|]. rewrite Hm. injection E as _ <-. cbn. by rewrite Hbv. }
  destruct (si_prepared _ _ _ (proj1 (ei_pinv _ He)) Hp Hbv) as [Hnf Hnu].
  apply clockNow_body in E. pose proof (body_einv _ _ E He) as H0. assert (Es : state w = state e) by by injection E.
  destruct a as [[now bt]|]; [|minv H; by injection H as _ <-].
  destruct (_ <? _) in H; [minv H; by injection H as _ <-|]. minv H.
  set (lost := 2 * Second <? clockLoss (state e) now bt) in *.
  lazymatch type of E0 with _ = (_, ?w0) =>
    assert (L : mem w0 = mem w ∧ disk w0 = disk w ∧ starts w0 = starts w ∧ losses w0 = losses w + b2z lost) end.
  { destruct lost; [|minv E0; injection E0 as _ <-; cbn; repeat split; lia].
    injection E0 as _ <-. unfold starts, losses. cbn. rewrite !count_app. unfold count. cbn. repeat split; lia. }
  destruct L as (L1 & L2 & L3 & L4). injection L1 as N1 N2 _ _ N5 _.
  assert (Hp1 : pinv w0).
  { destruct (ei_pinv _ H0) as [X1 X2]. assert (0 ≤ b2z lost) by by destruct lost.
    split; rewrite L3, L4; [rewrite N1|rewrite L2; intros s Hs]; (eapply sinv_weaken; [by auto|lia|lia]). }
  assert (Hi : inFlight w0 = false).
  { rewrite N5. destruct (inFlight w) eqn:Ei; [|done]. apply H0 in Ei. congruence. }
  assert (Hp2 : pinv w1).
  { eapply set_state_pinv; [exact E1|done|]. rewrite L3, L4, N1. apply resumed_sinv. exact (proj1 (ei_pinv _ H0)). }
  assert (M : inFlight w1 = false ∧ samples w1 = samples w0 ∧ Samples (state w1) = ∅ ∧ Outcome (state w1) ≠ "in-flight"
              ∧ starts w1 = starts w0 ∧ losses w1 = losses w0).
  { injection E1 as _ <-. cbn. rewrite N1, Es. unfold resumed. by destruct lost. }
  destruct M as (M1 & M2 & M3 & M4 & M5 & M6).
  pose proof (save_pinv _ _ _ E2 Hp2) as Hp3. pose proof (save_counts _ _ _ E2) as [C1 C2].
  destruct (save_spec _ _ _ E2) as (Hm & _). injection Hm as K1 K2 _ _ K5 _.
  destruct (negb _) in H; minv H; injection H as _ <-.
  - assert (Hold : sinv (starts w2) (losses w2) (state e)).
    { rewrite C1, C2, M5, M6, L3, L4. rewrite <- Es. assert (0 ≤ b2z lost) by by destruct lost.
      eapply sinv_weaken; [exact (proj1 (ei_pinv _ H0))|lia|lia]. }
    pose proof (set_state_pinv _ _ _ _ E3 Hp3 Hold) as Hp4. injection E3 as _ <-.
    split; [done|cbn; rewrite K2, M2, N2, <- Es; apply H0|cbn; rewrite K5, M1; by split].
  - injection E3 as _ <-. destruct Hp3 as [X1 X2].
    split; [by split|cbn; by rewrite K1, M3|cbn; rewrite K5, M1, K1; by split].
Qed.

(** ** Restarts *)

Lemma filter_all (m : gmap string Sample) :
  (∀ k v, m !! k = Some v → validSample k v = true) → filter (λ kv, validSample kv.1 kv.2 = true) m = m.
Proof.
  intros H. apply map_filter_id. intros k v Hk. by apply H.
Qed.

Lemma freshState_sinv boot bt n l : n = 0 → 0 ≤ l → sinv n l (freshState boot bt).
Proof. intros -> Hl. split; cbn; [done|done|done|intros k v; by rewrite lookup_empty|lia]. Qed.

Lemma loadState_sinv boot bt s s' n l :
  loadState boot bt (FState s) = Some s' → BootID s = boot → sinv n l s → sinv n l s' ∧ Outcome s' ≠ "in-flight".
Proof.
  intros H <- Hs. unfold loadState in H. rewrite streq_refl in H. cbn [negb] in H.
  destruct (_ || _); [done|]. destruct (String.eqb_spec (Outcome s) "in-flight") as [Ho|Ho]; injection H as <-; [|done].
  split; [|done]. apply sinv_outcome; [done|done|done|]. intros H1 H2. by destruct (si_prepared _ _ _ Hs H1 H2).
Qed.

(** A start whose loaded state satisfies the invariant. *)
Lemma NewEngine_einv boot f e e' :
  NewEngine boot f e = (true, e') →
  (∀ bt s, loadState boot bt f = Some s → sinv (starts e) (losses e) s ∧ Outcome s ≠ "in-flight") →
  einv e'.
Proof.
  intros H Hl. unfold NewEngine in H. destruct (_ =s _); [minv H; done|]. minv H.
  apply clockNow_body in E. destruct a as [[now bt]|]; [|minv H; done].
  destruct (loadState boot bt f) as [s|] eqn:Es; [|minv H; done]. minv H.
  destruct (Hl bt s Es) as [Hs Ho].
  assert (Hc : starts w0 = starts e ∧ losses w0 = losses e).
  { injection E0 as _ <-. unfold starts, losses. cbn. by injection E as _ _ _ _ _ _ ->. }
  destruct Hc as [Hn Hlo].
  assert (M : state w0 = s ∧ samples w0 = Samples s ∧ inFlight w0 = false).
  { injection E0 as _ <-. cbn. rewrite filter_all by apply Hs. done. }
  destruct M as (M1 & M2 & M3). destruct (save_counts _ _ _ H) as [C1 C2].
  destruct (save_spec _ _ _ H) as (Hm & _ & Hok & _). injection Hm as K1 K2 _ _ K5 _.
  split.
  - unfold pinv. rewrite (Hok eq_refl), C1, C2, Hn, Hlo, K1, M1. split; [done|]. by intros s' [= <-].
  - by rewrite K2, M2, K1, M1.
  - rewrite K5, M3, K1, M1. by split.
Qed.

(** ** Identity

    Every operation keeps the boot, in memory and in what it stores, and the
    environment. *)

Section identity.
Context (b : string) (v : EEnv).

Definition ident (e : Engine) : Prop :=
  BootID (state e) = b ∧ (∃ s, disk e = Some s ∧ BootID s = b) ∧ eenv e = v.

Definition holds {A} (m : ST Engine A) : Prop := ∀ e, ident e → ident (m e).2.

Lemma holds_ret {A} (a : A) : holds (mret a). Proof. by intros e. Qed.
Lemma holds_skip : holds skip. Proof. by intros e. Qed.
Lemma holds_bind {A B} (m : ST Engine A) (k : A → ST Engine B) : holds m → (∀ a, holds (k a)) → holds (m ≫= k).
Proof. intros Hm Hk e He. rewrite run_bind. by apply Hk, Hm. Qed.
Lemma holds_state {B} (k : EState → ST Engine B) : (∀ s, BootID s = b → holds (k s)) → holds (gets state ≫= k).
Proof. intros Hk e He. rewrite gets_bind. exact (Hk _ (proj1 He) e He). Qed.
Lemma holds_get {B} (k : Engine → ST Engine B) : (∀ e, ident e → holds (k e)) → holds (get_st ≫= k).
Proof. intros Hk e He. rewrite get_st_bind. by apply Hk. Qed.
Lemma holds_query {A} (f : EEnv → nat → A) : holds (query f). Proof. by intros e. Qed.
Lemma holds_log o : holds (log o). Proof. by intros e. Qed.
Lemma holds_set f : (∀ s, BootID s = b → BootID (f s) = b) → holds (set_state f).
Proof. intros Hf e (H1 & H2 & H3). split; [by apply Hf|by split]. Qed.
Lemma holds_quality q : holds (set_quality q). Proof. by intros e. Qed.
Lemma holds_save : holds save.
Proof.
  intros e (H1 & H2 & H3). destruct (save e) as [ok e'] eqn:E. apply save_spec in E as (Hm & Hd & _).
  injection Hm as M1 _ _ _ _ M6. cbn. split; [by rewrite M1|]. split; [|by rewrite M6].
  destruct Hd as [-> | ->]; [exact H2|by eexists].
Qed.
End identity.

Ltac holds_step :=
  lazymatch goal with
  | |- holds _ _ (gets state ≫= _) => apply holds_state; intros ? ?
  | |- holds _ _ (get_st ≫= _) => apply holds_get; intros ? ?
  | |- holds _ _ (_ ≫= _) => apply holds_bind; [|intros ?]
  | |- holds _ _ (mret _) => apply holds_ret
  | |- holds _ _ skip => apply holds_skip
  | |- holds _ _ (query _) => apply holds_query
  | |- holds _ _ clockNow => apply holds_query
  | |- holds _ _ (log _) => apply holds_log
  | |- holds _ _ (set_quality _) => apply holds_quality
  | |- holds _ _ forgetQuality => apply holds_quality
  | |- holds _ _ save => apply holds_save
  | |- holds _ _ (set_state _) => apply holds_set; intros ? ?; try done
  | |- holds _ _ (modify _) => intros ? ?; done
  | |- holds _ _ (if ?c then _ else _) => destruct c
  | |- holds _ _ (match ?c with _ => _ end) => destruct c
  | |- holds _ _ (let _ := _ in _) => cbv zeta
  end.
Ltac holds_tac := repeat holds_step; auto with engine nocore.
Create HintDb engine.

Section identity_operations.
Context (b : string) (v : EEnv).
Local Abbreviation holds := (holds b v).

Lemma ident_reconcile : holds reconcile. Proof. unfold reconcile. holds_tac. Qed.
Lemma ident_startStep t n : holds (startStep t n). Proof. unfold startStep. holds_tac. Qed.
#[local] Hint Resolve ident_reconcile ident_startStep : engine.
Lemma ident_dispatch t now n : holds (dispatch t now n). Proof. unfold dispatch. holds_tac. Qed.
#[local] Hint Resolve ident_dispatch : engine.
Lemma lateEpisode_boot t n s : BootID (lateEpisode t n s) = BootID s.
Proof. unfold lateEpisode. by destruct (lateExternal _ _). Qed.
Lemma ident_afterQuality t now n : holds (afterQuality t now n).
Proof. unfold afterQuality. holds_tac. by rewrite lateEpisode_boot. Qed.
#[local] Hint Resolve ident_afterQuality : engine.
Lemma ident_refresh g n t : holds (refreshLocked g n t).
Proof. unfold refreshLocked, acceptReport, publishQuality. holds_tac. Qed.
Lemma ident_submit r obs : holds (submitLocked r obs).
Proof. unfold submitLocked, statusLocked, deliverSample, setSample. holds_tac. Qed.
Lemma ident_done c : holds (stepDone c). Proof. unfold stepDone. holds_tac. Qed.
Lemma ident_begin : holds prepareBegin. Proof. unfold prepareBegin. holds_tac. Qed.
Lemma ident_cancelled : holds prepareCancelled. Proof. unfold prepareCancelled. holds_tac. Qed.
Lemma ident_finish : holds prepareFinish. Proof. unfold prepareFinish. holds_tac. Qed.
Lemma ident_abort : holds Abort. Proof. unfold Abort. holds_tac. Qed.
Lemma ident_resume c g : holds (Resume c g).
Proof. unfold Resume. holds_tac. unfold resumed. match goal with |- context [if ?l then _ else _] => by destruct l end. Qed.
End identity_operations.
