(* ===== verification/ClockEngineSafety.v ===== *)
(** * What the clock coordinator guarantees

    The theorems about runs of the coordinator: how often and on which evidence
    it steps the clock, what a submitted sample must satisfy, and what a suspend
    changes. *)

From stdpp Require Import relations.
From S2P Require Import Prelude GoInt GoTime GoFloat ClockProto ClockClient ClockEngine.
From S2P Require Import ClockEngineFacts.
From Stdlib Require Import SpecFloat.

(** ** The invariant of every run *)

Lemma holds_inv b v {A} (m : ST Engine A) e x e' :
  holds b v m → m e = (x, e') → ident b v e → ident b v e'.
Proof. intros Hm E He. specialize (Hm e He). by rewrite E in Hm. Qed.

Lemma NewEngine_boot boot f e e' :
  NewEngine boot f e = (true, e') → BootID (state e') = boot ∧ disk e' = Some (state e') ∧ eenv e' = eenv e.
Proof.
  intros H. unfold NewEngine in H. destruct (_ =s _); [minv H; done|]. minv H.
  apply (f_equal snd) in E as E'. cbn in E'. destruct a as [[now bt]|]; [|minv H; done].
  destruct (loadState boot bt f) as [s|] eqn:Es; [|minv H; done]. minv H.
  assert (Hb : BootID s = boot).
  { destruct f; cbn in Es; try done; [by injection Es as <-|].
    destruct (String.eqb_spec (BootID s0) boot) as [Hb|]; cbn [negb] in Es; [|by injection Es as <-].
    destruct (_ || _); [done|]. destruct (_ =s _); by injection Es as <-. }
  destruct (save_spec _ _ _ H) as (Hm & _ & Hok & _). injection Hm as K1 _ _ _ _ K6.
  injection E0 as _ <-. rewrite K1, K6, (Hok eq_refl). subst w. by cbn.
Qed.

(** The invariant of a run: the engine's, and an identified state file. *)
Definition rinv (e : Engine) : Prop := einv e ∧ env_ok (eenv e) ∧ ident (BootID (state e)) (eenv e) e.

Lemma ident_op {A} (m : ST Engine A) e x e' :
  (∀ b v, holds b v m) → m e = (x, e') → einv e' → rinv e → rinv e'.
Proof.
  intros Hm E He' (_ & Hv & Hi). pose proof (holds_inv _ _ _ _ _ _ (Hm _ _) E Hi) as Hi'.
  destruct Hi' as (H1 & H2 & H3). split; [done|]. rewrite H3. split; [done|]. rewrite H1. by split.
Qed.

Lemma estep_rinv e e' : estep e e' → rinv e → rinv e'.
Proof.
  intros Hs Hr. pose proof Hr as (He & Hv & Hi). destruct Hs.
  - split; [by apply (inner_einv e)|by split].
  - eapply (ident_op _ _ _ _ (λ b v, ident_submit b v _ _)); [eassumption|by eapply submitLocked_einv|done].
  - eapply (ident_op _ _ _ _ (λ b v, ident_refresh b v _ _ _)); [eassumption|by eapply refreshLocked_einv|done].
  - eapply (ident_op _ _ _ _ (λ b v, ident_done b v _)); [eassumption|by eapply stepDone_einv|done].
  - eapply (ident_op _ _ _ _ (λ b v, ident_begin b v)); [eassumption|by eapply prepareBegin_einv|done].
  - eapply (ident_op _ _ _ _ (λ b v, ident_cancelled b v)); [eassumption|by eapply prepareCancelled_einv|done].
  - eapply (ident_op _ _ _ _ (λ b v, ident_finish b v)); [eassumption|by eapply prepareFinish_einv|done].
  - eapply (ident_op _ _ _ _ (λ b v, ident_abort b v)); [eassumption|by eapply Abort_einv|done].
  - eapply (ident_op _ _ _ _ (λ b v, ident_resume b v _ _)); [eassumption|by eapply Resume_einv|done].
  - destruct Hi as (_ & (s & Hd & Hb) & _).
    assert (He' : einv e').
    { eapply NewEngine_einv; [eassumption|]. rewrite Hd. intros bt s' Hl.
      eapply loadState_sinv; [exact Hl|done|]. by apply (proj2 (ei_pinv _ He)). }
    destruct (NewEngine_boot _ _ _ _ H) as (B1 & B2 & B3).
    split; [done|]. rewrite B3. split; [done|]. split; [done|]. split; [by eexists|done].
Qed.

Lemma ereachable_rinv e : ereachable e → rinv e.
Proof.
  induction 1 as [boot f e e' Hv Ht Hf _ Hn|e e' _ IH Hs]; [|by eapply estep_rinv].
  assert (Hc : starts e = 0 ∧ losses e = 0) by (unfold starts, losses; by rewrite Ht).
  destruct Hc as [Hc1 Hc2]. destruct (NewEngine_boot _ _ _ _ Hn) as (B1 & B2 & B3).
  split; [|rewrite B3; split; [done|]; split; [done|]; split; [by eexists|done]].
  eapply NewEngine_einv; [exact Hn|]. intros bt s Hl. rewrite Hc1, Hc2.
  assert (s = freshState boot bt) as ->.
  { destruct Hf as [-> |(s0 & -> & Hb)]; cbn in Hl; [by injection Hl as <-|].
    rewrite (proj2 (streq_false _ _) Hb) in Hl. by injection Hl as <-. }
  split; [by apply freshState_sinv|done].
Qed.

(** C6: the coordinator steps the clock a bounded number of times.  In every
    reachable state of a boot, whatever chrony, the clocks, the state file and
    the clients do and however requests, refreshes, completions, crashes and
    restarts interleave: at most one step was started, plus one for each of the
    two kinds of late episode that has been opened, plus one for each resume
    that found a loss of time (also one that could not be saved and is tried
    again, since its save may have reached the disk); an episode makes at most two attempts, and at most one
    while it is still available; a step is recorded as in flight exactly while
    its completion is awaited; the samples in memory are the persisted ones,
    each with bounded age and uncertainty; and what a crash would find on disk
    obeys the same bound. *)
Theorem steps_bounded (e : Engine) :
  ereachable e →
  starts e ≤ 1 + b2z (LateUsed (state e)) + b2z (LateHoldoverUsed (state e)) + losses e ∧
  starts e ≤ 3 + losses e ∧
  0 ≤ Attempts (state e) ≤ 2 ∧ (Outcome (state e) = "available" → Attempts (state e) ≤ 1) ∧
  (inFlight e = true ↔ Outcome (state e) = "in-flight") ∧
  samples e = Samples (state e) ∧
  (∀ k s, samples e !! k = Some s → validSample k s = true) ∧
  ∃ s, disk e = Some s ∧ BootID s = BootID (state e) ∧
    starts e + b2z (Outcome s =s "available") ≤ 1 + b2z (LateUsed s) + b2z (LateHoldoverUsed s) + losses e.
Proof.
  intros Hr. destruct (ereachable_rinv _ Hr) as ([[H1 H2] Hs Hi] & _ & (_ & (s & Hd & Hb) & _)).
  destruct H1 as [X1 [X2 X2'] X3 X4 X5]. assert (Hz : ∀ x, 0 ≤ b2z x ≤ 1) by by intros [].
  pose proof (Hz (Outcome (state e) =s "available")). pose proof (Hz (LateUsed (state e))).
  pose proof (Hz (LateHoldoverUsed (state e))).
  split; [lia|]. split; [lia|]. split; [done|]. split; [done|]. split; [done|]. split; [done|].
  split; [intros k x; rewrite Hs; apply X4|]. exists s. split; [done|]. split; [done|].
  exact (si_count _ _ _ (H2 s Hd)).
Qed.

(** ** The evidence for a step *)

Definition isStep (o : EObs) : bool := match o with OStep _ => true | _ => false end.

(** A computation that appends to the trace, and never a step. *)
Definition quietly (e e' : Engine) : Prop :=
  (∃ l, etrace e' = etrace e ++ l ∧ Forall (λ o, isStep o = false) l) ∧ eenv e' = eenv e.

#[local] Instance quietly_preorder : PreOrder quietly.
Proof.
  split.
  - intros e. split; [exists []; by rewrite app_nil_r|done].
  - intros e1 e2 e3 [(l1 & H1 & F1) V1] [(l2 & H2 & F2) V2]. split; [|congruence].
    exists (l1 ++ l2). rewrite H2, H1, app_assoc. split; [done|]. by apply Forall_app.
Qed.

Lemma quietly_save e ok e' : save e = (ok, e') → quietly e e'.
Proof.
  intros (Hm & _ & _ & Ht)%save_spec. split; [|by injection Hm]. eexists. split; [exact Ht|].
  destruct ok; by repeat constructor.
Qed.

Lemma quietly_same e e' : etrace e' = etrace e → eenv e' = eenv e → quietly e e'.
Proof. intros H1 H2. split; [|done]. exists []. by rewrite app_nil_r. Qed.

Lemma quietly_set f e u e' : set_state f e = (u, e') → quietly e e'.
Proof. intros [= _ <-]. by apply quietly_same. Qed.

Lemma quietly_forget e u e' : forgetQuality e = (u, e') → quietly e e'.
Proof. intros [= _ <-]. by apply quietly_same. Qed.

Lemma quietly_reconcile e ok e' : reconcile e = (ok, e') → quietly e e'.
Proof.
  intros H. unfold reconcile in H. minv H.
  apply quietly_set in E. apply quietly_save in E0. destruct (negb _) in H; minv H; injection H as _ <-.
  - apply quietly_set in E1. apply quietly_forget in E2. by do 3 (etrans; [eassumption|]).
  - by etrans.
Qed.

(** A step appears in what is appended, after [pre] and before [post]. *)
Lemma quiet_no_step l o : Forall (λ o, isStep o = false) l → o ∈ l → isStep o = true → False.
Proof. rewrite Forall_forall. intros F Hin Ho. rewrite (F _ Hin) in Ho. done. Qed.

(** The command is started while the admission is still current. *)
Definition stillCurrent (e : Engine) (s : EState) (t : Tracking) (bt : Z) : Prop :=
  ∃ n now2 bt2, ec_now (eenv e) n = Some (now2, bt2) ∧ bt ≤ bt2 < Deadline s ∧
    i64 (TAge t + i64 (bt2 - bt)) ≤ sampleMaxAge.

Lemma startStep_trace t b e u e' st :
  startStep t b e = (u, e') → ∃ l, etrace e' = etrace e ++ l ∧ (OStep st ∈ l →
    stillCurrent e (state e) t b ∧ ∃ post, l = OStep st :: post ∧ Forall (λ o, isStep o = false) post).
Proof.
  intros H. unfold startStep in H. minv H. injection E as Ec <-.
  destruct (match a with Some _ => _ | None => _ end) eqn:Hx; minv H.
  - injection H as _ <-. apply quietly_set in E. apply quietly_save in E0.
    destruct (transitivity E E0) as [(l & Hl & Fl) _]. exists l. split; [exact Hl|]. intros Hin. exfalso. by eapply quiet_no_step.
  - injection E as _ <-. injection E0 as _ <-.
    match type of H with ?m ?wm = _ => assert (Hp : quietly wm e') end.
    { destruct a0; [injection H as _ <-; by apply quietly_same|]. minv H. apply quietly_set in E. apply quietly_save in E0.
      etrans; [exact E|]. etrans; [exact E0|]. destruct (negb _) in H; [by eapply quietly_set|minv H; by injection H as _ <-]. }
    destruct Hp as [(l & Hl & Fl) _]. cbn in Hl. exists (OStep a0 :: l). split; [by rewrite Hl, <- app_assoc|].
    intros Hin. apply elem_of_cons in Hin as [[= <-]|Hin]; [|exfalso; by eapply quiet_no_step].
    split; [|by exists l]. destruct a as [[now2 bt2]|]; [|done]. exists (etick e), now2, bt2.
    rewrite !orb_false_iff, Z.ltb_ge, Z.leb_gt, Z.ltb_ge in Hx. cbn in Hx. repeat split; try done; tauto.
Qed.

Lemma dispatch_trace t now b e u e' st :
  dispatch t now b e = (u, e') → ∃ l, etrace e' = etrace e ++ l ∧ (OStep st ∈ l →
    stepDue (state e) t b = true ∧
    stillCurrent e (admitStep (samples e) t now b (state e)) t b ∧
    ∃ post, l = [OSave (admitStep (samples e) t now b (state e)); OStep st] ++ post ∧
            Forall (λ o, isStep o = false) post).
Proof.
  intros H. unfold dispatch in H. minv H. destruct (stepDue _ _ _) eqn:Hdue; cbn [negb] in H; cbv iota in H; minv H.
  2: { injection H as _ <-. exists []. rewrite app_nil_r. split; [done|]. by intros ?%elem_of_nil. }
  injection E as _ <-. injection E0 as _ <-. destruct (save_spec _ _ _ E1) as (Hm & _ & _ & Ht).
  injection Hm as M1 _ _ _ _ M6. cbn in M1, M6, Ht. destruct a1; cbn [negb] in H; cbv iota in H.
  - destruct (startStep_trace _ _ _ _ _ st H) as (l & Hl & Hs). exists (OSave (state w1) :: l).
    split; [by rewrite Hl, Ht, M1, <- app_assoc|]. intros Hin. apply elem_of_cons in Hin as [Hin|Hin]; [done|].
    destruct (Hs Hin) as [Hc (post & -> & Fp)]. split; [done|]. unfold stillCurrent in *. rewrite M1, M6 in Hc.
    split; [done|]. exists post. by rewrite M1.
  - injection H as _ <-. cbn. rewrite Ht. exists []. split; [done|]. by intros ?%elem_of_nil.
Qed.

Lemma reconcile_true e e' :
  reconcile e = (true, e') →
  etrace e' = etrace e ++ [OSave ((state e) <| Outcome := "reconciled" |>)] ∧
  state e' = (state e) <| Outcome := "reconciled" |> ∧ samples e' = samples e ∧ eenv e' = eenv e.
Proof.
  intros H. unfold reconcile in H. minv H. injection E as _ <-. destruct (save_spec _ _ _ E0) as (Hm & _ & _ & Ht).
  injection Hm as M1 M2 _ _ _ M6. cbn in M1, M2, M6, Ht.
  destruct a0; cbn [negb] in H; cbv iota in H; minv H; [|done]. injection H as <-. by rewrite M1, M2, M6.
Qed.

(** A part of a round that issues no step and keeps preparation and generation;
    an unknown outcome stays unknown or is reconciled on disk. *)
Definition settled (e e1 : Engine) (l : list EObs) : Prop :=
  etrace e1 = etrace e ++ l ∧ Forall (λ o, isStep o = false) l ∧ eenv e1 = eenv e ∧
  (Preparing (state e1), Generation (state e1)) = (Preparing (state e), Generation (state e)) ∧
  (Outcome (state e) = "unknown" →
     Outcome (state e1) = "unknown" ∨ ∃ s', OSave s' ∈ l ∧ Outcome s' = "reconciled").

Lemma settled_same e e1 :
  (etrace e1, eenv e1, state e1) = (etrace e, eenv e, state e) → settled e e1 [].
Proof. intros [= H1 H2 H3]. unfold settled. rewrite H1, H2, H3, app_nil_r. split_and!; auto. Qed.

Lemma settled_trans e e1 e2 l l' : settled e e1 l → settled e1 e2 l' → settled e e2 (l ++ l').
Proof.
  intros (T1 & F1 & V1 & G1 & R1) (T2 & F2 & V2 & G2 & R2).
  split; [by rewrite T2, T1, <- app_assoc|]. split; [by apply Forall_app|].
  split; [congruence|]. split; [congruence|]. intros Hu.
  destruct (R1 Hu) as [Hu1|(s' & ? & ?)]; [destruct (R2 Hu1) as [|(s' & ? & ?)]; [by left|]|].
  - right. exists s'. rewrite elem_of_app. auto.
  - right. exists s'. rewrite elem_of_app. auto.
Qed.

Lemma settled_quietly e e1 l : settled e e1 l → quietly e e1.
Proof. intros (T & F & V & _). split; [by exists l|done]. Qed.

Lemma settled_reconcile (c : bool) e ok e1 :
  (if c then reconcile else mret true) e = (ok, e1) →
  quietly e e1 ∧ (ok = true → ∃ l, settled e e1 l).
Proof.
  destruct c; intros H.
  - split; [by eapply quietly_reconcile|]. intros ->. apply reconcile_true in H as (T & S & _ & V).
    exists [OSave ((state e) <| Outcome := "reconciled" |>)]. unfold settled. rewrite S.
    split_and!; try done; [by repeat constructor|]. intros _. right. eexists. split; [by left|done].
  - minv H. injection H as <- <-. split; [done|]. intros _. exists []. by apply settled_same.
Qed.

(** A change that is saved and touches neither of the three. *)
Lemma settled_save (f : EState → EState) e u w ok e1 :
  (∀ s, (Preparing (f s), Generation (f s)) = (Preparing s, Generation s)) →
  Outcome (f (state e)) = Outcome (state e) ∨ Outcome (state e) ≠ "unknown" →
  set_state f e = (u, w) → save w = (ok, e1) → ∃ l, settled e e1 l.
Proof.
  intros Hf Ho Hw Hs. injection Hw as _ <-. destruct (save_spec _ _ _ Hs) as (Hm & _ & _ & Ht).
  injection Hm as M1 _ _ _ _ M6. cbn in M1, M6, Ht. eexists. split; [exact Ht|]. rewrite M1, M6, Hf.
  split_and!; try done; [destruct ok; by repeat constructor|].
  intros Hu. left. destruct Ho as [Ho|Ho]; [by rewrite Ho|done].
Qed.

(** From some point of a round to its end, for a round that starts in the
    state [s0]. *)
Definition stepRecord (s0 : EState) (e : Engine) (t : Tracking) (now : Time) (b : Z) (st : bool) (l : list EObs) : Prop :=
  ∃ s smp pre post,
    l = pre ++ [OSave (admitStep smp t now b s); OStep st] ++ post ∧ Forall (λ o, isStep o = false) (pre ++ post) ∧
    stepDue s t b = true ∧ Preparing s = false ∧ Preparing s0 = false ∧ Generation s = Generation s0 ∧
    stillCurrent e (admitStep smp t now b s) t b ∧
    (Outcome s0 = "unknown" → ∃ s', OSave s' ∈ pre ∧ Outcome s' = "reconciled").

(** [e'] ends a round that is at [e]: a step it issues from there is recorded. *)
Definition finishes (t : Tracking) (now : Time) (b : Z) (st : bool) (e e' : Engine) : Prop :=
  ∃ l, etrace e' = etrace e ++ l ∧ (OStep st ∈ l → stepRecord (state e) e t now b st l).

Lemma finishes_quietly t now b st e e' : quietly e e' → finishes t now b st e e'.
Proof.
  intros [(l & Hl & F) _]. exists l. split; [done|]. intros Hin. exfalso. by eapply quiet_no_step.
Qed.

Lemma finishes_settled t now b st e e1 e' l :
  settled e e1 l → finishes t now b st e1 e' → finishes t now b st e e'.
Proof.
  intros (T & F & V & [= Hp Hg] & R) (l1 & T1 & Hs). exists (l ++ l1).
  split; [by rewrite T1, T, <- app_assoc|]. intros Hin. apply elem_of_app in Hin as [Hin|Hin].
  { exfalso. by eapply quiet_no_step. }
  destruct (Hs Hin) as (s & smp & pre & post & -> & F1 & Hd & Hps & Hp1 & Hgs & Hc & Hr).
  exists s, smp, (l ++ pre), post. split; [by rewrite <- app_assoc|]. rewrite Forall_app in F1.
  split; [rewrite !Forall_app; tauto|]. do 2 (split; [done|]). do 2 (split; [congruence|]).
  split; [unfold stillCurrent in *; by rewrite V in Hc|]. intros Hu.
  destruct (R Hu) as [Hu1|(s' & Hin' & Hs')]; [destruct (Hr Hu1) as (s' & Hin' & Hs')|];
    exists s'; rewrite elem_of_app; auto.
Qed.

Lemma dispatch_finishes t now b e u e' st :
  Preparing (state e) = false → Outcome (state e) ≠ "unknown" →
  dispatch t now b e = (u, e') → finishes t now b st e e'.
Proof.
  intros Hp Ho H. destruct (dispatch_trace _ _ _ _ _ _ st H) as (l & Hl & Hs). exists l. split; [done|].
  intros Hin. destruct (Hs Hin) as (Hd & Hc & post & -> & F).
  exists (state e), (samples e), [], post. by split_and!.
Qed.

Lemma lateEpisode_frame t b s :
  (Preparing (lateEpisode t b s), Generation (lateEpisode t b s)) = (Preparing s, Generation s).
Proof. unfold lateEpisode. by destruct (lateExternal _ _). Qed.

Lemma afterQuality_finishes t now b e u e' st :
  afterQuality t now b e = (u, e') → finishes t now b st e e'.
Proof.
  intros H. unfold afterQuality in H. minv H.
  lazymatch type of E with _ = (?ok, ?w) => rename ok into ok0; rename w into w1 end.
  apply settled_reconcile in E as [Q1 S1].
  destruct ok0; cbn [negb] in H; cbv iota in H; [|minv H; injection H as _ <-; by apply finishes_quietly].
  destruct (S1 eq_refl) as [l1 S]. clear S1.
  destruct (_ || _) eqn:Hunk in H; [apply quietly_forget in H; apply finishes_quietly; by etrans|].
  rewrite orb_false_iff, !streq_false in Hunk. destruct Hunk as [Hu _].
  destruct (Preparing (state w1)) eqn:Hpr; [minv H; injection H as _ <-; by apply finishes_quietly|].
  apply (finishes_settled _ _ _ _ _ _ _ _ S).
  destruct (opensLateEpisode _ _ _); [|by eapply dispatch_finishes].
  minv H. rename E into Es, E0 into Ev.
  destruct (settled_save _ _ _ _ _ _ (lateEpisode_frame t b) (or_intror Hu) Es Ev) as [l2 S2].
  destruct a0; cbn [negb] in H; cbv iota in H.
  - apply (finishes_settled _ _ _ _ _ _ _ _ S2). injection Es as _ <-.
    destruct (save_spec _ _ _ Ev) as (Hm & _). injection Hm as M1 _ _ _ _ _. cbn in M1.
    assert (Fp := f_equal fst (lateEpisode_frame t b (state w1))). cbn [fst] in Fp.
    eapply dispatch_finishes; [| |exact H]; rewrite M1; [congruence|].
    unfold lateEpisode. by destruct (lateExternal _ _).
  - apply finishes_quietly. etrans; [by eapply settled_quietly|by eapply quietly_set].
Qed.

Lemma acceptReport_finishes t now b e u e' st :
  acceptReport t now b e = (u, e') → finishes t now b st e e'.
Proof.
  intros H. unfold acceptReport in H. minv H. lazymatch type of E with _ = (?ok, ?w) => rename ok into ok1; rename w into w1 end.
  assert (S : ∃ l, settled e w1 l).
  { destruct (establishes _ _); minv E; [eapply settled_save; [| |eassumption|exact E]; [done|by left]|].
    injection E as _ <-. exists []. by apply settled_same. }
  destruct S as [l S]. destruct ok1; cbn [negb] in H; cbv iota in H.
  - minv H. apply (finishes_settled _ _ _ _ _ _ _ _ S). injection E0 as _ <-. apply afterQuality_finishes with (st := st) in H.
    by apply (finishes_settled _ _ _ _ _ _ _ [] (settled_same _ _ eq_refl)) in H.
  - apply quietly_forget in H. apply finishes_quietly. etrans; [by eapply settled_quietly|done].
Qed.

(** A step issued by a refresh, with the round it belongs to. *)
Lemma refresh_step (g b : Z) (t : option Tracking) (e : Engine) (u : unit) (e' : Engine) (st : bool) (l : list EObs) :
  refreshLocked g b t e = (u, e') → etrace e' = etrace e ++ l → OStep st ∈ l →
  ∃ now bt t0 tr,
    ec_now (eenv e) (etick e) = Some (now, bt) ∧ b ≤ bt ∧ g = Generation (state e) ∧
    t = Some t0 ∧ judge e (Some (t0 <| TAge := i64 (TAge t0 + i64 (bt - b)) |>)) bt = Some tr ∧
    stepRecord (state e) e tr now bt st l.
Proof.
  intros H Hl Hin. unfold refreshLocked in H. minv H. injection E as Ec <-.
  set (e0 := e <| etick := S (etick e) |>) in *.
  assert (Hq : ∀ w, quietly e w → w = e' → False).
  { intros x [(l' & Hl' & F) _] ->. rewrite Hl in Hl'. apply app_inv_head in Hl' as ->. by eapply quiet_no_step. }
  assert (Q0 : quietly e e0) by by apply quietly_same.
  destruct a as [[now bt]|]; [|minv H; injection H as _ Hw; exfalso; by eapply Hq].
  destruct (_ || _) eqn:Hg in H; [minv H; injection H as _ Hw; exfalso; by eapply Hq|]. minv H.
  rewrite orb_false_iff, Z.ltb_ge, negb_false_iff, Z.eqb_eq in Hg. destruct Hg as [Hb Hg].
  lazymatch type of E0 with _ = (?ok, ?w) => rename ok into ok1; rename w into w1 end.
  assert (S0 : settled e w []) by (apply settled_same; by injection E as _ <-).
  apply settled_reconcile in E0 as [Q1 S1].
  destruct ok1; cbn [negb] in H; cbv iota in H.
  2: { minv H. injection H as _ Hw. exfalso. apply (Hq w1); [|done]. etrans; [by eapply settled_quietly|done]. }
  destruct (S1 eq_refl) as [l1 S2]. assert (S := settled_trans _ _ _ _ _ S0 S2).
  destruct (judge _ _ _) as [tr|] eqn:Hj in H.
  2: { exfalso. apply quietly_forget in H. apply (Hq e'); [|done]. etrans; [by eapply settled_quietly|done]. }
  apply acceptReport_finishes with (st := st) in H.
  destruct (finishes_settled _ _ _ _ _ _ _ _ S H) as (l' & Hl' & Hs).
  rewrite Hl in Hl'. apply app_inv_head in Hl' as <-.
  destruct t as [t0|]; [|by unfold judge in Hj].
  exists now, bt, t0, tr. split_and!; try done. by apply Hs.
Qed.

(** C7: the evidence for every chrony step.  A refresh that issues the command
    issues it once, and has found before, in this round: the generation it
    started with is still current and no suspend preparation is pending; a
    tracking report that survives the judgement (a local sample that backs it,
    a measurement after the last clock loss); an outcome "available", a boot
    time before the deadline of the episode, a known source, a report at most
    30 s old, an uncertainty not above 5 s and a residual not below 1 s.  The
    admission, with the attempt counted and the outcome "in-flight", was written
    to disk right before the command, and a second reading of the clock found
    deadline and age still respected.  A correction whose outcome was unknown
    has been reconciled in this same round, on disk, before anything new is
    attempted. *)
Theorem step_evidence (g b : Z) (t : option Tracking) (e : Engine) (u : unit) (e' : Engine) (st : bool) (l : list EObs) :
  refreshLocked g b t e = (u, e') → etrace e' = etrace e ++ l → OStep st ∈ l →
  ∃ now bt t0 tr s smp pre post,
    ec_now (eenv e) (etick e) = Some (now, bt) ∧ b ≤ bt ∧ g = Generation (state e) ∧
    Preparing (state e) = false ∧
    t = Some t0 ∧ judge e (Some (t0 <| TAge := i64 (TAge t0 + i64 (bt - b)) |>)) bt = Some tr ∧
    l = pre ++ [OSave (admitStep smp tr now bt s); OStep st] ++ post ∧
    Forall (λ o, isStep o = false) (pre ++ post) ∧
    Generation s = g ∧ Preparing s = false ∧ Outcome s = "available" ∧ bt < Deadline s ∧
    TSource tr ∈ ["ntp"; SourceNRF; SourceGPS; SourceUser; SourceNetworkHoldover] ∧
    TAge tr ≤ sampleMaxAge ∧ flt (of_Z 5) (TUncertainty tr) = false ∧
    flt (Abs (TResidual tr)) (of_Z 1) = false ∧
    stillCurrent e s tr bt ∧
    (Outcome (state e) = "unknown" → ∃ s', OSave s' ∈ pre ∧ Outcome s' = "reconciled").
Proof.
  intros H Hl Hin.
  destruct (refresh_step _ _ _ _ _ _ st l H Hl Hin) as (now & bt & t0 & tr & Hc & Hb & Hg & -> & Hj & Hrec).
  destruct Hrec as (s & smp & pre & post & -> & F & Hd & Hps & Hpe & Hgs & Hcur & Hr).
  exists now, bt, t0, tr, s, smp, pre, post.
  unfold stepDue in Hd. rewrite !andb_true_iff, !negb_true_iff, one_of_spec, streq_true, Z.ltb_lt, Z.leb_le in Hd.
  destruct_and! Hd. split_and!; try done. by rewrite Hgs, Hg.
Qed.

(** ** Submitted samples *)

(** How a delivery ends: nothing was sent, or one sample was, after the old
    metadata had been dropped on disk; without an error the new metadata is on
    disk as well. *)
Definition delivered (r : Request) (now : Time) (off : float64) (x : option string) (e' : Engine) (l : list EObs) : Prop :=
  ∃ s0 sent, Samples s0 !! RqSource r = None ∧
    l = [OSave s0; OSample (RqSource r) now off sent] ++ (match x with Some _ => [] | None => [OSave (state e')] end) ∧
    (x = None → sent = true ∧ disk e' = Some (state e') ∧ samples e' !! RqSource r = Samples (state e') !! RqSource r ∧
       Samples (state e') !! RqSource r = Some (mkSample (ReceiptBootNS r) (SampleAgeNS r) (UncertaintyNS r))).

Lemma deliverSample_trace r now off e x e' :
  deliverSample r now off e = (x, e') →
  ∃ l, etrace e' = etrace e ++ l ∧ ((l = [] ∧ x ≠ None) ∨ delivered r now off x e' l).
Proof.
  intros H. unfold deliverSample in H. minv H. injection E as _ <-.
  destruct (save_spec _ _ _ E0) as (Hm & _ & _ & Ht). injection Hm as M1 M2 _ _ _ _. cbn in M1, M2, Ht.
  destruct a0; cbn [negb] in H; cbv iota in H.
  2: { minv H. injection H as <- <-. exists []. rewrite Ht. by auto. }
  minv H. injection E as _ <-. injection E1 as _ <-. cbn in H.
  set (s0 := (state e) <| Samples := partial_alter (λ _, None) (RqSource r) (Samples (state e)) |>).
  assert (Hs0 : Samples s0 !! RqSource r = None) by (cbn; apply lookup_partial_alter_eq).
  match type of H with context [negb ?b] => set (sent := b) in * end.
  exists ([OSave s0; OSample (RqSource r) now off sent] ++ match x with Some _ => [] | None => [OSave (state e')] end).
  destruct sent eqn:Es; cbn [negb] in H; cbv iota in H; minv H.
  - injection E as _ <-. destruct (save_spec _ _ _ E1) as (Hm & _ & Hok & Ht2). injection Hm as N1 N2 _ _ _ _.
    cbn in N1, N2, Ht2. lazymatch type of E1 with _ = (?b, _) => destruct b end; cbn [negb] in H; cbv iota in H; minv H; injection H as <- <-.
    + split; [by rewrite Ht2, Ht, N1, <- !app_assoc|]. right. exists s0, true. split; [done|]. split; [done|]. intros _.
      split; [done|]. split; [by rewrite (Hok eq_refl), N1|]. rewrite N1, N2, M1, M2. cbn.
      by rewrite !lookup_partial_alter_eq.
    + injection E as _ <-. cbn. split; [by rewrite Ht2, Ht, app_nil_r, <- !app_assoc|]. right. by exists s0, true.
  - injection H as <- <-. cbn. split; [by rewrite Ht, <- !app_assoc|]. right. by exists s0, false.
Qed.

Lemma statusLocked_spec e q e' :
  statusLocked e = (q, e') →
  q = statusAt e (ec_now (eenv e) (etick e)) ∧ e' = e <| etick := S (etick e) |>.
Proof.
  unfold statusLocked, clockNow, query, get_st, mbind, ST_bind, mret, ST_ret. cbn. by intros [= <- <-].
Qed.

Lemma admission_none r s :
  admission r s = None →
  RqBootID r = BootID s ∧ RqGeneration r = Generation s ∧ Preparing s = false ∧
  RqSource r ∈ [SourceNRF; SourceGPS; SourceUser].
Proof.
  unfold admission. destruct (_ || _) eqn:E1; [done|]. destruct (Preparing s); [done|].
  destruct (_ && _) eqn:E2; [done|]. intros _.
  rewrite orb_false_iff, !negb_false_iff, streq_true, Z.eqb_eq in E1.
  rewrite !andb_false_iff, !negb_false_iff, !streq_true in E2. rewrite !elem_of_cons. tauto.
Qed.

Lemma eligible_status e clk :
  QNRFEligible (statusAt e clk) = true →
  Preparing (state e) = false ∧ ExternalEstablished (state e) = false ∧
  Episode (state e) ∈ ["initial"; "resume"] ∧ Outcome (state e) = "available" ∧
  ∃ now bt, clk = Some (now, bt) ∧ qualityBoot e ≤ bt < Deadline (state e).
Proof.
  unfold statusAt. destruct clk as [[now bt]|]; cbn; [|done]. unfold nrfEligible.
  rewrite !andb_true_iff, orb_true_iff, !negb_true_iff, !streq_true, Z.leb_le, Z.ltb_lt.
  intros H. destruct_and! H. rewrite !elem_of_cons. split_and!; try done; [tauto|]. exists now, bt. by split.
Qed.

Lemma sampleCheck_nrf r q s now bt :
  sampleCheck r q s now bt = None → RqSource r = SourceNRF →
  QNRFEligible q = true ∧ bt < Deadline s ∧ fle (sampleOffset r now (submitAge r bt)) (of_Z 0) = false.
Proof.
  intros H Hs. unfold sampleCheck in H. rewrite Hs, streq_refl in H. cbn [andb] in H.
  destruct (_ || _) eqn:E1 in H; [done|]. rewrite orb_false_iff, negb_false_iff, Z.leb_gt in E1.
  destruct (_ && _) in H; [done|]. destruct (_ || _) in H; [done|]. cbv zeta in H.
  destruct (_ || _) in H; [done|]. destruct (_ || _) in H; [done|].
  destruct (fle _ _) eqn:E2 in H; [done|]. tauto.
Qed.

(** The checks of the deadline, the time and the offset of a sample. *)
Lemma sampleCheck_rest r q s now bt :
  sampleCheck r q s now bt = None →
  let off := sampleOffset r now (submitAge r bt) in
  (DeadlineBootNS r = 0 ∨ ReceiptBootNS r < DeadlineBootNS r ∧ bt < DeadlineBootNS r) ∧ 0 < UTCUnixNS r ∧
  flt (of_Z (100 * 365 * 24 * 3600)) (Abs off) = false ∧
  (RqSource r = SourceGPS → QSource q = "ntp" → QExternal q = true → 0 ≤ QAgeNS q ≤ sampleMaxAge →
   fle (of_Z 0) (QUncertainty q) = true → fle (fadd (Abs (QResidual q)) (QUncertainty q)) (of_Z 5) = true →
   flt (fadd (fadd (Abs (QResidual q)) (QUncertainty q)) (fdiv (of_Z (UncertaintyNS r)) (of_Z Second))) (Abs off) = false).
Proof.
  intros H. cbv zeta. unfold sampleCheck in H.
  destruct (_ && _) in H; [done|]. destruct (_ && _) eqn:E1 in H; [done|]. destruct (_ || _) in H; [done|]. cbv zeta in H.
  destruct (_ || _) in H; [done|]. destruct (_ || _) eqn:E2 in H; [done|]. destruct (_ && _) in H; [done|].
  change (i64 (i64 (bt - ReceiptBootNS r) + SampleAgeNS r)) with (submitAge r bt) in *.
  destruct (disagreesWithNTP _ _ _) eqn:E3 in H; [done|].
  replace (100 * 365 * 24 * Hour / Second) with (100 * 365 * 24 * 3600) in H by (vm_compute; reflexivity).
  destruct (flt _ _) eqn:E4 in H; [done|].
  rewrite andb_false_iff, negb_false_iff, Z.eqb_eq, orb_false_iff, !Z.leb_gt in E1. apply orb_false_iff in E2 as [E2 _].
  apply Z.leb_gt in E2. split; [tauto|]. split; [done|]. split; [exact E4|].
  intros Hg Hs He [Ha1 Ha2] Hu Hw. unfold disagreesWithNTP, within5 in E3.
  rewrite Hg, Hs, He, Hu, Hw, (proj2 (Z.leb_le _ _) Ha1), (proj2 (Z.leb_le _ _) Ha2) in E3. exact E3.
Qed.

(** A tracking report [t] from boot time [b0] that shows external time at [bt]:
    a fresh ntp or GPS report of at most 30 s, within 5 s of the clock; a GPS
    report needs the live sample behind it. *)
Definition externalEvidence (e : Engine) (t : Tracking) (b0 bt : Z) : Prop :=
  let t' := t <| TAge := i64 (TAge t + i64 (bt - b0)) |> in
  b0 ≤ bt ∧
  ((TSource t = "ntp" ∧ TExternal t = true ∧ TAge t' ≤ sampleMaxAge ∧ externalObservationFresh e t' bt = true ∧
      fle (fadd (Abs (TResidual t)) (TUncertainty t)) (of_Z 5) = true)
   ∨ (TSource t = SourceGPS ∧ ∃ s, samples e !! SourceGPS = Some s ∧ sampleLive s bt = true ∧
      let age := i64 (i64 (bt - Receipt s) + SAge s) in
      TAge t' ≤ i64 (age + 2 * Second) ∧ Z.max (TAge t') age ≤ sampleMaxAge ∧
      (ExternalAfterBoot (state e) = 0 ∨ ExternalAfterBoot (state e) < bt ∧ ExternalAfterBoot (state e) < Receipt s) ∧
      fle (fadd (Abs (TResidual t)) (Max (TUncertainty t) (uncertaintySeconds s))) (of_Z 5) = true)).

Lemma confirmsExternal_evidence e t b0 bt :
  externalEvidence e t b0 bt → confirmsExternal e (Some (t, b0)) bt = true.
Proof.
  intros [Hb Hev]. unfold confirmsExternal. rewrite (proj2 (Z.ltb_ge _ _) Hb). cbv zeta.
  set (t' := t <| TAge := _ |>) in *. destruct Hev as [(Hs & He & Ha & Hf & Hw)|(Hs & s & Hl & Hlive & Ha1 & Ha2 & Hf & Hw)].
  - replace (TSource t') with (TSource t) by done. rewrite Hs. change ("ntp" =s SourceGPS) with false. cbv iota beta.
    replace (TExternal t') with (TExternal t) by done. rewrite He, Hf, (proj2 (Z.leb_le _ _) Ha). exact Hw.
  - replace (TSource t') with (TSource t) by done. rewrite Hs, streq_refl. unfold gpsObservation. rewrite Hl, Hlive. cbv zeta.
    rewrite (proj2 (Z.leb_le _ _) Ha1). cbv iota beta. rewrite !andb_true_iff. split_and!; [done|..].
    + unfold externalObservationFresh. cbn -[i64 Max]. rewrite Hs, streq_refl, Hl.
      destruct Hf as [->|[H1 H2]]; [done|]. destruct (_ =? 0); [done|].
      by rewrite (proj2 (Z.leb_gt _ _) H1), (proj2 (Z.ltb_lt _ _) H2).
    + apply Z.leb_le. cbn -[i64 Max Z.ltb] in *. destruct (Z.ltb_spec (i64 (TAge t + i64 (bt - b0))) (i64 (i64 (bt - Receipt s) + SAge s))); lia.
    + exact Hw.
Qed.

(** C11: what reaches the reference clock.  A submission sends at most one sample,
    and only if: boot and generation are current and no suspend is being
    prepared; the source is known; its deadline, if it has one, is after its
    receipt and not reached; its receipt lies in the past and not before boot,
    its total age is at most 30 s, its uncertainty at most 1 s (3 s for GPS),
    its time is positive, and none of the 64-bit sums wrapped around; the offset
    sent is the one of the sample aged to now and not above a hundred years; a
    GPS sample only if its offset is within the error bounds of a current
    external ntp quality, when there is one; an nRF sample only while recovery
    is possible (an available initial or resume episode before its deadline, no
    external source established, and the report observed for it shows none) and
    only to move the clock forward.  Before anything is sent the old metadata
    of the source is gone from disk, and success means that the new metadata is
    on disk. *)
Theorem Submit_spec (r : Request) (obs : option (Tracking * Z)) (e e' : Engine) (x : option string)
    (src : string) (at_ : Time) (off : float64) (ok : bool) (l : list EObs) :
  env_ok (eenv e) → request_ok r →
  submitLocked r obs e = (x, e') → etrace e' = etrace e ++ l → OSample src at_ off ok ∈ l ∨ x = None →
  ∃ now0 bt0 now bt q,
    ec_now (eenv e) (etick e) = Some (now0, bt0) ∧ (∃ n, ec_now (eenv e) n = Some (now, bt)) ∧
    (∃ n, q = statusAt e (ec_now (eenv e) n)) ∧
    RqBootID r = BootID (state e) ∧ RqGeneration r = Generation (state e) ∧ Preparing (state e) = false ∧
    RqSource r ∈ [SourceNRF; SourceGPS; SourceUser] ∧
    (DeadlineBootNS r = 0 ∨ ReceiptBootNS r < DeadlineBootNS r ∧ bt < DeadlineBootNS r) ∧
    0 ≤ ReceiptBootNS r ≤ bt ∧ 0 ≤ UncertaintyNS r ≤ maxUncertainty (RqSource r) ∧
    submitAge r bt = bt - ReceiptBootNS r + SampleAgeNS r ∧ 0 ≤ SampleAgeNS r ∧ 0 ≤ submitAge r bt ≤ sampleMaxAge ∧
    0 < UTCUnixNS r ∧ UTCUnixNS r + submitAge r bt ≤ maxInt64 ∧
    flt (of_Z (100 * 365 * 24 * 3600)) (Abs (sampleOffset r now (submitAge r bt))) = false ∧
    (RqSource r = SourceGPS → QSource q = "ntp" → QExternal q = true → 0 ≤ QAgeNS q ≤ sampleMaxAge →
     fle (of_Z 0) (QUncertainty q) = true → fle (fadd (Abs (QResidual q)) (QUncertainty q)) (of_Z 5) = true →
     flt (fadd (fadd (Abs (QResidual q)) (QUncertainty q)) (fdiv (of_Z (UncertaintyNS r)) (of_Z Second)))
         (Abs (sampleOffset r now (submitAge r bt))) = false) ∧
    (RqSource r = SourceNRF →
       (∀ t b0, obs = Some (t, b0) → ¬ externalEvidence e t b0 bt0) ∧
       Outcome (state e) = "available" ∧ ExternalEstablished (state e) = false ∧
       Episode (state e) ∈ ["initial"; "resume"] ∧ bt < Deadline (state e) ∧
       fle (sampleOffset r now (submitAge r bt)) (of_Z 0) = false) ∧
    delivered r now (sampleOffset r now (submitAge r bt)) x e' l.
Proof.
  intros Hv (R1 & R2 & R3 & _) H Hl Hin. unfold submitLocked in H. minv H. injection E as Ec <-.
  assert (Hno : ∀ w y, etrace w = etrace e ∨ (∃ s, etrace w = etrace e ++ [OSave s]) → (Some y, w) = (x, e') → False).
  { intros w y Hw [= <- <-]. destruct Hin as [Hin|?]; [|done]. destruct Hw as [Hw|[s Hw]]; rewrite Hl in Hw.
    - rewrite <- (app_nil_r (etrace e)) in Hw at 2. apply app_inv_head in Hw as ->. by apply elem_of_nil in Hin.
    - apply app_inv_head in Hw as ->. by apply list_elem_of_singleton in Hin. }
  destruct a as [[now0 bt0]|]; [|minv H; exfalso; eapply Hno; [|exact H]; by left]. minv H.
  destruct (_ && _) eqn:Hconf in H.
  { minv H. injection E as _ <-. destruct (save_spec _ _ _ E0) as (_ & _ & _ & Ht). cbn in Ht. exfalso.
    eapply Hno; [|exact H]. rewrite Ht. destruct a0; [right; by eexists|left; by rewrite app_nil_r]. }
  destruct (admission _ _) eqn:Had in H; [minv H; exfalso; eapply Hno; [|exact H]; by left|]. minv H.
  apply statusLocked_spec in E as [-> ->]. cbn in E0.
  injection E0 as Ec0 <-.
  destruct a0 as [[now bt]|]; [|minv H; exfalso; eapply Hno; [|exact H]; by left].
  destruct (sampleCheck _ _ _ _ _) eqn:Hck in H; [minv H; exfalso; eapply Hno; [|exact H]; by left|].
  cbn in Hck. assert (Hbt : is_i64 bt) by (eapply Hv; exact Ec0).
  destruct (sampleCheck_bounds _ _ _ _ _ Hck Hbt R1 R2 R3) as (P1 & P2 & P3 & P4 & P5 & P6 & P7).
  destruct (deliverSample_trace _ _ _ _ _ _ H) as (l' & Hl' & Hd). cbn in Hl'.
  rewrite Hl in Hl'. apply app_inv_head in Hl' as <-.
  assert (Hdel : delivered r now (sampleOffset r now (submitAge r bt)) x e' l).
  { destruct Hd as [[-> Hx]|Hd]; [|done]. destruct Hin as [Hin|?]; [by apply elem_of_nil in Hin|done]. }
  destruct (admission_none _ _ Had) as (A1 & A2 & A3 & A4).
  destruct (sampleCheck_rest _ _ _ _ _ Hck) as (D1 & D2 & D3 & D4).
  exists now0, bt0, now, bt, (statusAt e (ec_now (eenv e) (S (etick e)))). split; [done|]. split; [by eexists|]. split; [by eexists|].
  do 8 (split; [done|]). split; [lia|]. do 5 (split; [done|]). split; [|done].
  intros Hs. split.
  { intros t b0 -> Hev. apply confirmsExternal_evidence in Hev. rewrite Hs, streq_refl in Hconf.
    cbn [andb] in Hconf. discriminate (eq_trans (eq_sym Hev) Hconf). }
  destruct (sampleCheck_nrf _ _ _ _ _ Hck Hs) as (N1 & N2 & N3).
  apply eligible_status in N1 as (_ & N4 & N5 & N6 & _). done.
Qed.

(** ** Suspends *)

(** C14: a suspend cycle.  A resume is refused, and leaves state and samples in
    memory as they were (a save whose sync failed may have reached the disk),
    unless the preparation it names is the pending one; when it
    succeeds after a complete preparation it ends that preparation, opens a new
    generation and forgets every sample, and it opens a new correction episode
    exactly when boot time advanced more than two seconds further than the wall
    clock; otherwise the episode, its outcome and its attempts stay. *)
Theorem Resume_spec (boot : string) (g : Z) (e e' : Engine) (x : option string) :
  Resume boot g e = (x, e') →
  match x with
  | Some _ => state e' = state e ∧ samples e' = samples e
  | None =>
      Preparing (state e) = true ∧ boot = BootID (state e) ∧ g = Generation (state e) ∧
      Preparing (state e') = false ∧ disk e' = Some (state e') ∧ BootID (state e') = boot ∧
      if PrepareBaselineValid (state e) then
        ∃ now bt, ec_now (eenv e) (etick e) = Some (now, bt) ∧ PrepareBoot (state e) ≤ bt ∧
          Generation (state e') = u64 (g + 1) ∧ samples e' = ∅ ∧ Samples (state e') = ∅ ∧
          PrepareBaselineValid (state e') = false ∧
          if 2 * Second <? clockLoss (state e) now bt
          then Episode (state e') = "resume" ∧ Outcome (state e') = "available" ∧ Attempts (state e') = 0 ∧
               Deadline (state e') = i64 (bt + episodeWindow) ∧ ExternalEstablished (state e') = false ∧
               ExternalAfterBoot (state e') = bt
          else Episode (state e') = Episode (state e) ∧ Outcome (state e') = Outcome (state e) ∧
               Attempts (state e') = Attempts (state e) ∧ Deadline (state e') = Deadline (state e) ∧
               ExternalEstablished (state e') = ExternalEstablished (state e)
      else state e' = (state e) <| Preparing := false |>
  end.
Proof.
  intros H. unfold Resume in H. minv H. destruct (_ || _) eqn:Hc in H; [minv H; by injection H as <- <-|].
  rewrite !orb_false_iff, !negb_false_iff, streq_true, Z.eqb_eq in Hc. destruct Hc as [[Hp Hb] Hg].
  destruct (PrepareBaselineValid (state e)) eqn:Hbv; cbn [negb] in H; cbv iota in H; minv H.
  - injection E as Ec <-. destruct a as [[now bt]|]; [|minv H; by injection H as <- <-].
    destruct (_ <? _) eqn:Hlt in H; [minv H; by injection H as <- <-|]. apply Z.ltb_ge in Hlt. minv H.
    set (lost := 2 * Second <? clockLoss (state e) now bt) in *.
    lazymatch type of E with _ = (_, ?w) => assert (L : state w = state e ∧ samples w = samples e) end.
    { destruct lost; [by injection E as _ <-|minv E; by injection E as _ <-]. }
    destruct L as [L1 L2]. injection E0 as _ <-. destruct (save_spec _ _ _ E1) as (Hm & _ & Hok & _).
    injection Hm as M1 M2 _ _ _ _. cbn in M1, M2. 
    lazymatch type of E1 with _ = (?b, _) => destruct b end; cbn [negb] in H; cbv iota in H; minv H; injection H as <- <-.
    + injection E0 as _ <-. specialize (Hok eq_refl). cbn in Hok |- *. rewrite Hok, M1, L1.
      split_and!; try done; [unfold resumed; by destruct lost|unfold resumed; destruct lost; by cbn|].
      exists now, bt. split_and!; try done; unfold resumed; subst g; fold lost; by destruct lost.
    + injection E0 as _ <-. cbn. by rewrite M2, L2.
  - injection E as _ <-. destruct (save_spec _ _ _ E0) as (Hm & _ & Hok & _). injection Hm as M1 M2 _ _ _ _. cbn in M1, M2.
    lazymatch type of E0 with _ = (?b, _) => destruct b end; cbn [negb] in H; cbv iota in H; minv H; injection H as <- <-.
    + by rewrite (Hok eq_refl), M1.
    + injection E as _ <-. cbn. rewrite M1, M2. split; [|done]. destruct (state e). cbn in *. by subst.
Qed.

(** ** Restarts *)

(** C16: what a restart believes.  When the coordinator starts, the state it runs
    with is on disk; with a state file of the same boot it is the stored state,
    except that a step that was in flight has an unknown outcome, so it is
    never taken for done nor simply repeated; of the stored samples the valid
    ones are kept; with no file or one of another boot the first episode begins
    with a full window.  An unreadable file, a state without generation or
    outcome, an empty boot id, a failing clock or a failing save stop the
    start. *)
Theorem NewEngine_spec (boot : string) (f : FileRead) (e e' : Engine) :
  NewEngine boot f e = (true, e') →
  boot ≠ "" ∧ disk e' = Some (state e') ∧ inFlight e' = false ∧ QSource (quality e') = "unknown" ∧
  ∃ now bt, ec_now (eenv e) (etick e) = Some (now, bt) ∧
  match f with
  | FState s =>
      if BootID s =s boot then
        state e' = (if Outcome s =s "in-flight" then s <| Outcome := "unknown" |> else s) ∧
        Generation s ≠ 0 ∧ Outcome (state e') ≠ "" ∧ Outcome (state e') ≠ "in-flight" ∧
        (∀ k v, samples e' !! k = Some v ↔ Samples s !! k = Some v ∧ validSample k v = true)
      else state e' = freshState boot bt ∧ samples e' = ∅
  | FMissing => state e' = freshState boot bt ∧ samples e' = ∅
  | FError | FInvalid => False
  end.
Proof.
  intros H. unfold NewEngine in H. destruct (String.eqb_spec boot "") as [|Hb]; [minv H; done|]. minv H.
  injection E as Ec <-. destruct a as [[now bt]|]; [|minv H; done].
  destruct (loadState boot bt f) as [s|] eqn:Hl; [|minv H; done]. minv H. injection E as _ <-.
  destruct (save_spec _ _ _ H) as (Hm & _ & Hok & _). injection Hm as M1 M2 M3 _ M5 _. cbn in M1, M2, M3, M5.
  split; [done|]. split; [by rewrite (Hok eq_refl), M1|]. split; [done|]. split; [by rewrite M3|].
  exists now, bt. split; [done|]. rewrite M1, M2.
  assert (Hfresh : filter (λ kv, validSample kv.1 kv.2 = true) (Samples (freshState boot bt)) = ∅) by apply map_filter_empty.
  destruct f as [| | |s0]; cbn in Hl; try done; [by injection Hl as <-|].
  destruct (String.eqb_spec (BootID s0) boot) as [Hbs|]; cbn [negb] in Hl; [|by injection Hl as <-].
  destruct (_ || _) eqn:Hz in Hl; [done|]. rewrite orb_false_iff, Z.eqb_neq, streq_false in Hz. destruct Hz as [Hz1 Hz2].
  assert (Hs : s = (if Outcome s0 =s "in-flight" then s0 <| Outcome := "unknown" |> else s0)).
  { destruct (_ =s _); by injection Hl as <-. }
  split; [exact Hs|]. split; [done|]. rewrite Hs. destruct (String.eqb_spec (Outcome s0) "in-flight"); cbn.
  - split; [done|]. split; [done|]. intros k v. by rewrite map_lookup_filter_Some.
  - split; [done|]. split; [done|]. intros k v. by rewrite map_lookup_filter_Some.
Qed.

(** ** The server *)

Lemma observe_steps r e o e' : observe r e = (o, e') → rtc estep e e' ∧ eenv e' = eenv e ∧ state e' = state e ∧ inFlight e' = inFlight e.
Proof.
  intros H. unfold observe in H. destruct (negb _); [minv H; injection H as _ <-; done|]. minv H.
  injection E as Ec <-. destruct a as [[now bt]|]; [|minv H; injection H as _ <-; split; [apply rtc_once, es_query|done]].
  minv H. injection E as _ <-. injection H as _ <-.
  split; [apply rtc_once; apply (es_query e (S (S (etick e))))|done].
Qed.

Lemma Prepare_steps wait e x e' : Prepare wait e = (x, e') → rtc estep e e'.
Proof.
  intros H. unfold Prepare in H. minv H. pose proof (es_begin _ _ _ E) as S1.
  destruct a; [minv H; injection H as _ <-; by apply rtc_once|]. minv H.
  destruct (inFlight w) eqn:Hi; [|eapply rtc_l; [exact S1|apply rtc_once; by eapply es_finish]].
  destruct wait as [c|]; [|eapply rtc_l; [exact S1|apply rtc_once; by eapply es_cancelled]]. minv H.
  eapply rtc_l; [exact S1|]. eapply rtc_l; [by eapply es_done|]. apply rtc_once. by eapply es_finish.
Qed.

Lemma handle_steps wait r e e' resp :
  handle wait r e = (resp, e') → match r with Some r => request_ok r | None => True end → rtc estep e e'.
Proof.
  intros H Hr. unfold handle in H. minv H. injection H as <- <-. apply statusLocked_spec in E0 as [-> ->].
  eapply rtc_r; [|apply es_query].
  destruct r as [r|]; [|minv E; by injection E as _ <-].
  destruct (_ =s _) in E; [minv E; by injection E as _ <-|].
  destruct (_ =s _) in E.
  { unfold Submit in E. minv E. destruct (observe_steps _ _ _ _ E0) as [S0 _]. destruct a0 as [[err|] obs].
    - minv E. by injection E as _ <-.
    - etrans; [exact S0|]. apply rtc_once. by eapply es_submit. }
  destruct (_ =s _) in E; [by eapply Prepare_steps|].
  destruct (_ =s _) in E; [apply rtc_once; by eapply es_abort|].
  destruct (_ =s _) in E; [apply rtc_once; by eapply es_resume|minv E; by injection E as _ <-].
Qed.

(** So is the loop of [Run]. *)
Lemma refresh_steps e u e' : env_ok (eenv e) → refresh e = (u, e') → rtc estep e e'.
Proof.
  intros Hv H. unfold refresh in H. minv H. injection E as Ec <-.
  destruct a as [[now bt]|]; [|minv H; injection H as _ <-; apply rtc_once, es_query]. minv H. injection E as E <-.
  eapply rtc_l; [apply (es_query e (S (S (etick e))))|]. apply rtc_once. eapply es_refresh; [|exact H].
  intros t ->. by eapply env_tracking.
Qed.

Lemma esteps_rinv e e' : rtc estep e e' → rinv e → rinv e'.
Proof. induction 1; [done|]. intros He. by apply IHrtc, (estep_rinv x). Qed.

Lemma RunTicks_steps ticks : ∀ e u e', rinv e → RunTicks ticks e = (u, e') → rtc estep e e'.
Proof.
  induction ticks as [|ticks IH]; intros e u e' Hr H; cbn [RunTicks] in H; minv H; (apply refresh_steps in E; [|apply Hr]).
  - injection H as _ <-. exact E.
  - etrans; [exact E|]. eapply IH; [by eapply esteps_rinv|done].
Qed.

Lemma ereachable_steps e e' : rtc estep e e' → ereachable e → ereachable e'.
Proof. induction 1; [done|]. intros He. apply IHrtc. by econstructor. Qed.

(** ** A run *)

(** An ntp source 3 s away, seen 1 s ago; one answer per question. *)
Definition ntpReport : Tracking := mkTracking "ntp" true Second (of_Z 3) (lit 1 100) (of_Z 1) true.

Definition sampleEEnv (track : option Tracking) : EEnv :=
  mkEEnv (λ n, Some (mkTime (1700000000 * Second) None, Second)) (λ _, track) (λ _, true) (λ _, true) (λ _, SaveOK).

Definition blankEngine (v : EEnv) : Engine :=
  mkEngine (freshState "b1" 0) ∅ unknownQuality 0 false None v 0 [].

Definition startedEngine (track : option Tracking) : Engine := (NewEngine "b1" FMissing (blankEngine (sampleEEnv track))).2.

Lemma ntpReport_typed : typed_tracking ntpReport.
Proof. split; try (vm_compute; reflexivity). unfold is_i64. vm_compute. split; discriminate. Qed.

Lemma sampleEEnv_ok track : track = None ∨ track = Some ntpReport → env_ok (sampleEEnv track).
Proof.
  intros Ht. split; [intros n now bt [= <- <-]; unfold is_i64; vm_compute; split; discriminate|].
  intros n t E. cbn in E. destruct Ht as [-> | ->]; [done|]. injection E as <-. apply ntpReport_typed.
Qed.

Lemma startedEngine_reachable track : track = None ∨ track = Some ntpReport → ereachable (startedEngine track).
Proof.
  intros Ht. eapply (ereach_start "b1" FMissing (blankEngine (sampleEEnv track)));
    [by apply sampleEEnv_ok|done|by left|by left|]. destruct Ht as [-> | ->]; vm_compute; reflexivity.
Qed.

(** One refresh of the started engine: it steps the clock. *)
Definition steppedEngine : Engine := (refreshLocked 1 0 (Some ntpReport) (startedEngine (Some ntpReport))).2.

Lemma steppedEngine_reachable : ereachable steppedEngine.
Proof.
  eapply ereach_step; [apply (startedEngine_reachable (Some ntpReport)); by right|].
  eapply (es_refresh 1 0 (Some ntpReport) _ tt); [intros t [= <-]; apply ntpReport_typed|vm_compute; reflexivity].
Qed.

Lemma steps_bounded_witness :
  starts steppedEngine = 1 ∧ Outcome (state steppedEngine) = "in-flight" ∧ starts steppedEngine ≤ 3 + losses steppedEngine.
Proof.
  split; [vm_compute; reflexivity|]. split; [vm_compute; reflexivity|].
  exact (proj1 (proj2 (steps_bounded steppedEngine steppedEngine_reachable))).
Defined.

Lemma step_evidence_witness :
  ∃ l, etrace steppedEngine = etrace (startedEngine (Some ntpReport)) ++ l ∧ OStep true ∈ l ∧
  Preparing (state (startedEngine (Some ntpReport))) = false.
Proof.
  exists (drop 1 (etrace steppedEngine)).
  assert (Hl : etrace steppedEngine = etrace (startedEngine (Some ntpReport)) ++ drop 1 (etrace steppedEngine))
    by (vm_compute; reflexivity).
  assert (Hin : OStep true ∈ drop 1 (etrace steppedEngine)) by (apply list_elem_of_In; vm_compute; tauto).
  split; [exact Hl|]. split; [exact Hin|].
  destruct (step_evidence 1 0 (Some ntpReport) (startedEngine (Some ntpReport)) tt steppedEngine true _
    ltac:(vm_compute; reflexivity) Hl Hin) as (now & bt & t0 & tr & s & smp & pre & post & _ & _ & _ & Hp & _).
  exact Hp.
Defined.

(** A GPS sample for the started engine. *)
Definition gpsRequest : Request :=
  mkRequest "submit" "b1" 1 SourceGPS (1700000003 * Second) 0 0 0 (2 * Second).

Lemma gpsRequest_ok : request_ok gpsRequest.
Proof. unfold request_ok, gpsRequest. cbn [ReceiptBootNS SampleAgeNS UTCUnixNS UncertaintyNS]. tlia. Qed.

Lemma Submit_spec_witness :
  let e := startedEngine None in
  let e' := (submitLocked gpsRequest None e).2 in
  (submitLocked gpsRequest None e).1 = None ∧ RqSource gpsRequest ∈ [SourceNRF; SourceGPS; SourceUser] ∧
  Preparing (state e) = false.
Proof.
  intros e e'.
  assert (Hr : submitLocked gpsRequest None e = (None, e')) by (vm_compute; reflexivity).
  assert (Hl : etrace e' = etrace e ++ drop 1 (etrace e')) by (vm_compute; reflexivity).
  split; [by rewrite Hr|].
  destruct (Submit_spec gpsRequest None e e' None "" zeroTime (of_Z 0) true _
    (sampleEEnv_ok None (or_introl eq_refl)) gpsRequest_ok Hr Hl (or_intror eq_refl)) as (now0 & bt0 & now & bt & q & _ & _ & _ & _ & _ & Hp & Hs & _).
  split; [exact Hs|exact Hp].
Defined.

(** A clock that stands still while boot time passes: ten seconds a reading. *)
Definition lossyEEnv : EEnv :=
  mkEEnv (λ n, Some (mkTime (1700000000 * Second) None, Z.of_nat n * (10 * Second))) (λ _, None) (λ _, true)
    (λ _, true) (λ _, SaveOK).
Definition preparedEngine : Engine :=
  (Prepare None (NewEngine "b1" FMissing (blankEngine lossyEEnv)).2).2.

Lemma Resume_spec_witness :
  let e' := (Resume "b1" 1 preparedEngine).2 in
  (Resume "b1" 1 preparedEngine).1 = None ∧ Preparing (state e') = false ∧ BootID (state e') = "b1" ∧
  Episode (state e') = "resume".
Proof.
  intros e'. assert (Hr : Resume "b1" 1 preparedEngine = (None, e')) by (vm_compute; reflexivity).
  split; [by rewrite Hr|].
  destruct (Resume_spec "b1" 1 preparedEngine e' None Hr) as (_ & _ & _ & H1 & _ & H2 & _).
  split; [exact H1|]. split; [exact H2|]. vm_compute. reflexivity.
Defined.

Lemma NewEngine_spec_witness :
  let s := (state steppedEngine) in
  let e' := (NewEngine "b1" (FState s) steppedEngine).2 in
  Outcome s = "in-flight" ∧ disk e' = Some (state e') ∧ Outcome (state e') = "unknown".
Proof.
  intros s e'. split; [vm_compute; reflexivity|].
  assert (Hn : NewEngine "b1" (FState s) steppedEngine = (true, e')) by (vm_compute; reflexivity).
  destruct (NewEngine_spec "b1" (FState s) steppedEngine e' Hn) as (_ & Hd & _).
  split; [exact Hd|]. vm_compute. reflexivity.
Defined.
