(* ===== verification/ClockEngineTypes.v ===== *)
(** * The values of the coordinator have their types

    In every reachable state of [ClockEngine] the integers in memory and on
    disk are in the range of their Go types, the floating-point numbers are
    binary64 values, the texts come from the constants of the program, and what
    is on disk is finite.  So every answer and every state file can be written
    ([WireFormat]). *)

From S2P Require Import Prelude GoInt GoTime GoFloat FloatCanon ClockProto ClockClient ClockEngine ClockEngineFacts ClockEngineSafety.
From Stdlib Require Import SpecFloat.

Definition typed_sample (s : Sample) : Prop := is_i64 (Receipt s) ∧ is_i64 (SAge s) ∧ is_i64 (SUncertainty s).

Record typed_quality (q : Quality) : Prop := {
  tq_generation : is_u64 (QGeneration q);
  tq_deadline : is_i64 (QNRFDeadlineBootNS q);
  tq_age : is_i64 (QAgeNS q);
  tq_residual : canonical (QResidual q) = true;
  tq_uncertainty : canonical (QUncertainty q) = true;
}.

Definition episodes : list string := ["initial"; "resume"; "late-external"; "late-holdover"].

Record typed_fields (s : EState) : Prop := {
  tf_generation : is_u64 (Generation s);
  tf_deadline : is_i64 (Deadline s);
  tf_after : is_i64 (ExternalAfterBoot s);
  tf_prepare_utc : is_i64 (PrepareUTC s);
  tf_prepare_boot : is_i64 (PrepareBoot s);
  tf_dispatch_boot : is_i64 (DispatchBoot s);
  tf_dispatch_utc : is_i64 (DispatchUTC s);
  tf_residual : canonical (DispatchResidual s) = true;
  tf_sample : typed_sample (DispatchSample s);
  tf_samples : map_Forall (λ _, typed_sample) (Samples s);
  tf_episode : one_of (Episode s) episodes = true;
  tf_source : one_of (DispatchSource s) ("" :: trackingSources) = true;
}.

Record tinv (e : Engine) : Prop := {
  ti_state : typed_fields (state e);
  ti_disk : ∀ s, disk e = Some s → typed_fields s ∧ finite (DispatchResidual s) = true;
  ti_samples : map_Forall (λ _, typed_sample) (samples e);
  ti_quality : typed_quality (quality e);
  ti_env : env_ok (eenv e);
}.

(** ** Operations that retain the types *)

Definition retains {A} (m : ST Engine A) : Prop := ∀ e, tinv e → tinv (m e).2.

Lemma retains_ret {A} (a : A) : retains (mret a). Proof. by intros e. Qed.
Lemma retains_skip : retains skip. Proof. by intros e. Qed.
Lemma retains_bind {A B} (m : ST Engine A) (k : A → ST Engine B) : retains m → (∀ a, retains (k a)) → retains (m ≫= k).
Proof. intros Hm Hk e He. rewrite run_bind. by apply Hk, Hm. Qed.
Lemma retains_state {B} (k : EState → ST Engine B) : (∀ s, typed_fields s → retains (k s)) → retains (gets state ≫= k).
Proof. intros Hk e He. rewrite gets_bind. exact (Hk _ (ti_state _ He) e He). Qed.
Lemma retains_get {B} (k : Engine → ST Engine B) : (∀ e, tinv e → retains (k e)) → retains (get_st ≫= k).
Proof. intros Hk e He. rewrite get_st_bind. by apply Hk. Qed.
Lemma retains_tick e n : tinv e → tinv (e <| etick := n |>).
Proof. by intros []. Qed.
Lemma retains_query {A} (f : EEnv → nat → A) : retains (query f). Proof. intros e. apply retains_tick. Qed.
Lemma retains_now {B} (k : option (Time * Z) → ST Engine B) :
  (∀ c, (∀ now bt, c = Some (now, bt) → is_i64 bt) → retains (k c)) → retains (clockNow ≫= k).
Proof.
  intros Hk e He. rewrite run_bind. apply Hk; [|by apply retains_tick]. intros now bt. apply (env_now _ (ti_env _ He)).
Qed.
Lemma retains_log o : retains (log o). Proof. by intros e []. Qed.
Lemma retains_set f : (∀ s, typed_fields s → typed_fields (f s)) → retains (set_state f).
Proof. intros Hf e []. split; try done. by apply Hf. Qed.
Lemma retains_quality q : typed_quality q → retains (set_quality q). Proof. by intros Hq e []. Qed.
Lemma retains_inFlight b : retains (modify (λ e, e <| inFlight := b |>)). Proof. by intros e []. Qed.
Lemma retains_qualityBoot bt : retains (modify (λ e, e <| qualityBoot := bt |>)). Proof. by intros e []. Qed.

(** The disk only changes to a finite state. *)
Lemma retains_save : retains save.
Proof.
  intros e He. unfold save. rewrite gets_bind. destruct (finite (DispatchResidual (state e))) eqn:Ef; [|done].
  cbn [negb]. rewrite run_bind. set (e1 := (query ec_save e).2). assert (H1 : tinv e1) by by apply retains_tick.
  assert (Hd : tinv (e1 <| disk := Some (state e1) |>)).
  { destruct H1. split; try done. by intros s [= <-]. }
  destruct (query ec_save e).1; rewrite ?run_bind; try done. by destruct Hd.
Qed.

Lemma unknown_typed : typed_quality unknownQuality.
Proof. split; try done; vm_compute; split; discriminate. Qed.

Lemma retains_forget : retains forgetQuality.
Proof. apply retains_quality, unknown_typed. Qed.

Create HintDb types.
#[export] Hint Resolve i64_range u64_range unknown_typed retains_ret retains_skip retains_query retains_log retains_inFlight
  retains_qualityBoot retains_save retains_forget : types.

Lemma is_i64_0 : is_i64 0. Proof. tlia. Qed.
#[export] Hint Resolve is_i64_0 : types.

(** A reading of the clock in the context gives the type of its boot time. *)
Lemma now_typed now bt : (∀ now' bt' : _, Some (now : Time, bt) = Some (now', bt') → is_i64 bt') → is_i64 bt.
Proof. intros H. by eapply H. Qed.

(** A state of which some fields are updated. *)
Ltac typed_record := match goal with H : typed_fields ?s |- _ => destruct H; split; cbn end.

(** Run through an operation; what is left are the updates of the state. *)
Ltac retains_step :=
  lazymatch goal with
  | |- retains (gets state ≫= _) => apply retains_state; intros ? ?
  | |- retains (get_st ≫= _) => apply retains_get; intros ? ?
  | |- retains (clockNow ≫= _) => apply retains_now; let H := fresh in intros [[? ?]|] H; [apply now_typed in H|clear H]
  | |- retains (_ ≫= _) => apply retains_bind; [|intros ?]
  | |- retains (set_state (λ _, _)) => apply retains_set; intros ? ?; first [assumption | typed_record]
  | |- retains (set_state _) => apply retains_set; intros ? ?; first [solve [eauto with types nocore] | typed_record]
  | |- retains (set_quality _) => apply retains_quality
  | |- retains (if ?c then _ else _) => destruct c eqn:?
  | |- retains (match ?c with _ => _ end) => destruct c eqn:?
  | |- retains (let _ := _ in _) => cbv zeta
  end.
Ltac retains_tac := repeat retains_step; eauto with types nocore.

Lemma retains_state_to s : typed_fields s → retains (set_state (λ _, s)).
Proof. intros Hs. by apply retains_set. Qed.
#[export] Hint Resolve retains_state_to : types.

Lemma retains_reconcile : retains reconcile.
Proof. unfold reconcile. retains_tac. Qed.
#[export] Hint Resolve retains_reconcile : types.

Lemma retains_startStep t b : retains (startStep t b).
Proof. unfold startStep. retains_tac. Qed.
#[export] Hint Resolve retains_startStep : types.

Lemma source_of t : typed_tracking t → one_of (TSource t) ("" :: trackingSources) = true.
Proof.
  intros H. apply tt_source in H. apply one_of_spec in H. apply one_of_spec. by apply list_elem_of_further.
Qed.

Lemma sample_of (m : gmap string Sample) k : map_Forall (λ _, typed_sample) m → typed_sample (default (mkSample 0 0 0) (m !! k)).
Proof.
  intros Hm. destruct (m !! k) as [v|] eqn:E; cbn; [exact (Hm _ _ E)|]. unfold typed_sample. cbn. by split_and!; apply is_i64_0.
Qed.
#[export] Hint Resolve source_of sample_of tt_residual tt_age ti_samples : types.

Lemma retains_dispatch t now b : typed_tracking t → is_i64 b → retains (dispatch t now b).
Proof.
  intros Ht Hb. unfold dispatch. retains_tac.
Qed.
#[export] Hint Resolve retains_dispatch : types.

Lemma late_typed t b s : typed_fields s → typed_fields (lateEpisode t b s).
Proof. intros []. unfold lateEpisode. destruct (lateExternal s t); split; cbn; auto with types. Qed.

#[export] Hint Resolve late_typed : types.

Lemma retains_afterQuality t now b : typed_tracking t → is_i64 b → retains (afterQuality t now b).
Proof. intros Ht Hb. unfold afterQuality. retains_tac.
Qed.
#[export] Hint Resolve retains_afterQuality : types.

(** ** Refreshes *)

Lemma uncertainty_typed s : canonical (uncertaintySeconds s) = true.
Proof. apply canonical_fdiv. Qed.
#[export] Hint Resolve uncertainty_typed canonical_of_Z canonical_fdiv canonical_fadd canonical_fmul canonical_Max
  canonical_Seconds tt_uncertainty tt_skew : types.

#[local] Arguments Max : simpl never.
#[local] Arguments of_Z : simpl never.

Lemma judge_typed e t bt t' : (∀ t0, t = Some t0 → typed_tracking t0) → judge e t bt = Some t' → typed_tracking t'.
Proof.
  unfold judge. destruct t as [t|]; [|done]. intros Ht. specialize (Ht t eq_refl).
  destruct (negb (TValid t)); [done|]. destruct (one_of _ _).
  - destruct (samples e !! TSource t) as [s|]; [|done]. destruct (negb _); [done|]. cbv zeta.
    destruct (_ <? TAge t); [done|]. destruct (_ && _); [done|]. intros [= <-]. destruct Ht. split; cbn; auto with types.
    + destruct (_ <? _); auto with types.
    + destruct (_ || _); auto with types.
  - destruct (_ && _); [done|]. by intros [= <-].
Qed.

Lemma retains_acceptReport t now bt : typed_tracking t → is_i64 bt → retains (acceptReport t now bt).
Proof.
  intros Ht Hb. unfold acceptReport, publishQuality. retains_tac. destruct Ht. split; cbn; auto with types. unfold is_u64. lia.
Qed.

Lemma retains_refreshLocked g b t : (∀ t0, t = Some t0 → typed_tracking t0) → retains (refreshLocked g b t).
Proof.
  intros Ht. unfold refreshLocked. retains_tac.
  apply retains_acceptReport; [|assumption].
  eapply judge_typed; [|eassumption]. intros t' E. apply fmap_Some in E as (u & -> & ->). specialize (Ht u eq_refl).
  destruct Ht. split; cbn; auto with types.
Qed.

(** ** Samples, preparations *)

Lemma retains_setSample src v : (∀ s, v = Some s → typed_sample s) → retains (setSample src v).
Proof.
  intros Hv e []. unfold setSample.
  assert (Hm : ∀ m : gmap string Sample, map_Forall (λ _, typed_sample) m → map_Forall (λ _, typed_sample) (partial_alter (λ _, v) src m)).
  { intros m Hm k s. destruct (decide (k = src)) as [->|]; [rewrite lookup_partial_alter_eq|rewrite lookup_partial_alter_ne by done].
    - intros ->. by apply Hv.
    - apply Hm. }
  split; cbn; auto. typed_record; auto.
Qed.

Lemma retains_deliver r now off : request_ok r → retains (deliverSample r now off).
Proof.
  intros (R1 & R2 & R3 & R4). unfold deliverSample. retains_tac; try (by apply retains_setSample).
  apply retains_setSample. intros s [= <-]. by split_and!.
Qed.

Lemma retains_submitLocked r obs : request_ok r → retains (submitLocked r obs).
Proof. intros Hr. unfold submitLocked, statusLocked. retains_tac; by apply retains_deliver. Qed.

Lemma retains_stepDone c : retains (stepDone c).
Proof. unfold stepDone. retains_tac. Qed.

Lemma retains_prepareBegin : retains prepareBegin.
Proof. unfold prepareBegin. retains_tac. Qed.

Lemma retains_prepareCancelled : retains prepareCancelled.
Proof. unfold prepareCancelled. retains_tac. Qed.

Lemma retains_prepareFinish : retains prepareFinish.
Proof. unfold prepareFinish. retains_tac. Qed.

Lemma retains_Abort : retains Abort.
Proof. unfold Abort. retains_tac. Qed.

Lemma resumed_typed lost b s : is_i64 b → typed_fields s → typed_fields (resumed lost b s).
Proof. intros Hb []. unfold resumed. destruct lost; split; cbn; auto with types; apply map_Forall_empty. Qed.

Lemma retains_forgetSamples : retains (modify (λ e, e <| samples := ∅ |> <| quality := unknownQuality |>)).
Proof. intros e []. by split. Qed.
#[local] Hint Resolve resumed_typed retains_forgetSamples : types.

Lemma retains_Resume b g : retains (Resume b g).
Proof. unfold Resume. retains_tac. Qed.

(** ** Starts *)

Lemma fresh_typed boot bt : typed_fields (freshState boot bt).
Proof.
  split; cbn; auto with types; [unfold is_u64; lia| |apply map_Forall_empty]. by split_and!; apply is_i64_0.
Qed.

Lemma loadState_typed boot bt f s : (∀ s, f = FState s → BootID s = boot → typed_fields s) →
  loadState boot bt f = Some s → typed_fields s.
Proof.
  intros Hf. destruct f as [| | |s0]; cbn; try done; [intros [= <-]; apply fresh_typed|].
  destruct (String.eqb_spec (BootID s0) boot) as [Hb|]; cbn [negb]; [|intros [= <-]; apply fresh_typed].
  specialize (Hf s0 eq_refl Hb). destruct (_ || _); [done|].
  destruct (_ =s _); intros [= <-]; [|done]. by typed_record.
Qed.

Lemma save_finite e e' : save e = (true, e') → finite (DispatchResidual (state e)) = true.
Proof. unfold save. rewrite gets_bind. by destruct (finite _). Qed.

Lemma NewEngine_tinv boot f e e' : env_ok (eenv e) → (∀ s, f = FState s → BootID s = boot → typed_fields s) →
  NewEngine boot f e = (true, e') → tinv e'.
Proof.
  intros Hv Hf H. unfold NewEngine in H. destruct (_ =s _); [minv H; done|]. minv H. injection E as Ec <-.
  destruct a as [[now bt]|]; [|minv H; done]. destruct (loadState boot bt f) as [s|] eqn:El; [|minv H; done]. minv H.
  apply loadState_typed in El; [|done]. injection E as _ <-. pose proof (save_finite _ _ H) as Hfin.
  destruct (save_spec _ _ _ H) as (Hm & _ & Hok & _). injection Hm as K1 K2 K3 _ _ K6. cbn in *.
  split; rewrite ?K1, ?K2, ?K3, ?K6, ?(Hok eq_refl); try done.
  - by intros s' [= <-].
  - intros k v [Hk _]%map_lookup_filter_Some. exact (tf_samples _ El k v Hk).
Qed.

(** ** Every reachable state *)

Lemma estep_tinv e e' : estep e e' → tinv e → tinv e'.
Proof.
  intros Hs He.
  assert (Hk : ∀ A (m : ST Engine A) x, retains m → m e = (x, e') → tinv e').
  { intros A m x Hm E. specialize (Hm e He). by rewrite E in Hm. }
  destruct Hs; try (by eapply Hk; [|eassumption]; auto using retains_submitLocked, retains_refreshLocked, retains_stepDone,
    retains_prepareBegin, retains_prepareCancelled, retains_prepareFinish, retains_Abort, retains_Resume).
  - by apply retains_tick.
  - eapply NewEngine_tinv; [apply He| |exact H]. intros s E _. destruct (disk e) as [s'|] eqn:Ed; [|done].
    injection E as ->. by apply (ti_disk _ He).
Qed.

Lemma ereachable_tinv e : ereachable e → tinv e.
Proof.
  induction 1 as [boot f e e' Hv Ht Hf _ Hn|e e' _ IH Hs]; [|by eapply estep_tinv].
  eapply NewEngine_tinv; [exact Hv| |exact Hn]. intros s -> Hb. by destruct Hf as [?|(s' & [= <-] & Hb')].
Qed.

(** The answer to a request is typed as well. *)
Lemma aged_typed e clk : tinv e → typed_quality (agedQuality e clk).
Proof.
  intros [_ _ _ Hq _]. unfold agedQuality. destruct clk as [[now bt]|]; [|apply unknown_typed].
  destruct (bt <? qualityBoot e); [apply unknown_typed|]. destruct (_ && _); [|done].
  cbv zeta. destruct (_ <? _); destruct Hq; split; cbn; auto with types.
Qed.

Lemma status_typed e clk : tinv e → typed_quality (statusAt e clk).
Proof.
  intros He. destruct (aged_typed e clk He) as [? ? ? ? ?]. destruct (ti_state _ He). unfold statusAt. cbv zeta. by split.
Qed.

Lemma handle_typed wait r e e' resp : ereachable e → match r with Some r => request_ok r | None => True end →
  handle wait r e = (resp, e') → ereachable e' ∧ typed_quality (RQuality resp).
Proof.
  intros He Hr H. pose proof (handle_steps _ _ _ _ _ H Hr) as Hs. apply ereachable_steps in Hs; [|done].
  split; [done|]. apply ereachable_tinv in Hs. unfold handle in H. minv H. injection H as <- <-.
  apply statusLocked_spec in E0 as [-> ->]. apply status_typed. by destruct Hs.
Qed.
