(* ===== verification/ClockContract.v ===== *)
(** * What the coordinator promises to its clients

    The contract of the control socket, operation by operation: which error a
    request gets and what state it leaves.  [handle] of [ClockEngine] keeps it. *)

From S2P Require Import Prelude GoInt GoTime GoFloat ClockProto ClockClient ClockEngine ClockEngineFacts ClockEngineSafety.
From Stdlib Require Import SpecFloat.

(** ** The contract *)

(** Why a save can fail: the state is not a number, or the file system. *)
Definition cannotSave (e : Engine) : Prop :=
  finite (DispatchResidual (state e)) = false ∨ ∃ n, ec_save (eenv e) n ≠ SaveOK.

Definition noClock (e : Engine) : Prop := ∃ n, ec_now (eenv e) n = None.

(** The token of a resume names the pending preparation. *)
Definition token (e : Engine) (r : Request) : Prop :=
  Preparing (state e) = true ∧ RqBootID r = BootID (state e) ∧ RqGeneration r = Generation (state e).

Definition unresolved (s : EState) : Prop := Outcome s = "unknown" ∨ Outcome s = "in-flight".

Definition stored (e : Engine) (s : EState) : Prop := state e = s ∧ disk e = Some s.

(** A preparation never renames what it prepares. *)
Definition named (s : EState) := (BootID s, Generation s, Episode s).
Definition renames (e e' : Engine) : Prop := named (state e') ≠ named (state e).

(** The clock reading a preparation keeps for its resume. *)
Definition baseline (e : Engine) (s : EState) : Prop :=
  PrepareBaselineValid s = true ∧
  ∃ now bt n, ec_now (eenv e) n = Some (now, bt) ∧ PrepareUTC s = i64 (wall now) ∧ PrepareBoot s = bt.

(** [served wait e e' r err]: the request [r] may take [e] to [e'] with the
    error [err], empty for none. *)
Inductive served (wait : option bool) (e e' : Engine) (r : Request) : string → Prop :=
| sv_status : Op r = "status" → body e' = body e → served wait e e' r ""
| sv_unknown : Op r ∉ ["status"; "submit"; "prepare"; "abort"; "resume"] → body e' = body e →
    served wait e e' r "unknown operation"
| sv_submit x e1 : Op r = "submit" → Submit r e = (x, e1) → body e' = body e1 → served wait e e' r (default "" x)
| sv_abort_idle : Op r = "abort" → Preparing (state e) = false → body e' = body e → served wait e e' r "not preparing"
| sv_abort : Op r = "abort" → Preparing (state e) = true → stored e' ((state e) <| Preparing := false |>) →
    served wait e e' r ""
| sv_abort_kept : Op r = "abort" → Preparing (state e) = true → state e' = state e → cannotSave e →
    served wait e e' r "persist"
| sv_resume_refused : Op r = "resume" → ¬ token e r → body e' = body e → served wait e e' r "invalid resume generation"
| sv_resume_incomplete : Op r = "resume" → token e r → PrepareBaselineValid (state e) = false →
    stored e' ((state e) <| Preparing := false |>) → served wait e e' r ""
| sv_resume now bt n : Op r = "resume" → token e r → PrepareBaselineValid (state e) = true →
    ec_now (eenv e) n = Some (now, bt) → PrepareBoot (state e) ≤ bt →
    stored e' (resumed (2 * Second <? clockLoss (state e) now bt) bt (state e)) → samples e' = ∅ → served wait e e' r ""
| sv_resume_backwards now bt n : Op r = "resume" → token e r → PrepareBaselineValid (state e) = true →
    ec_now (eenv e) n = Some (now, bt) → bt < PrepareBoot (state e) → body e' = body e →
    served wait e e' r "boottime went backwards"
| sv_resume_clock : Op r = "resume" → token e r → PrepareBaselineValid (state e) = true → noClock e → body e' = body e →
    served wait e e' r "clock"
| sv_resume_kept : Op r = "resume" → token e r → state e' = state e → cannotSave e → served wait e e' r "persist"
| sv_prepare_busy : Op r = "prepare" → Preparing (state e) = true → body e' = body e → served wait e e' r "already preparing"
| sv_prepare : Op r = "prepare" → Preparing (state e) = false → (inFlight e = true → is_Some wait) →
    Preparing (state e') = true → baseline e (state e') → ¬ unresolved (state e') →
    stored e' (state e') → ¬ renames e e' → served wait e e' r ""
| sv_prepare_context : Op r = "prepare" → inFlight e = true → wait = None → Preparing (state e') = false →
    ¬ renames e e' → served wait e e' r "context"
| sv_prepare_unresolved : Op r = "prepare" → unresolved (state e') → Preparing (state e') = false →
    ¬ renames e e' → served wait e e' r "step outcome unresolved"
| sv_prepare_clock : Op r = "prepare" → noClock e → Preparing (state e') = false → ¬ renames e e' →
    served wait e e' r "clock"
| sv_prepare_persist : Op r = "prepare" → Preparing (state e) = false → cannotSave e → ¬ renames e e' →
    served wait e e' r "persist".

(** ** The operations keep it *)

Lemma save_fails e e' : save e = (false, e') → cannotSave e.
Proof.
  unfold save. rewrite gets_bind. destruct (finite _) eqn:Ef; cbn [negb]; [|by left].
  unfold query, log, modify, mbind, ST_bind, mret, ST_ret. cbn.
  destruct (ec_save _ _) eqn:E; intros [=]; right; eexists; by rewrite E.
Qed.

(** What may decide about a later save or reading of the clock. *)
Definition means (e : Engine) := (DispatchResidual (state e), eenv e).

Lemma cannotSave_means e e' : means e' = means e → cannotSave e' → cannotSave e.
Proof. unfold cannotSave. by intros [= -> ->]. Qed.

Lemma noClock_means e e' : means e' = means e → noClock e' → noClock e.
Proof. unfold noClock. by intros [= _ ->]. Qed.

Lemma save_means e ok e' : save e = (ok, e') → means e' = means e ∧ state e' = state e.
Proof. intros H. apply save_spec in H as (Hm & _). injection Hm as E1 _ _ _ _ E6. unfold means. by rewrite E1, E6. Qed.

Lemma save_stored e e' : save e = (true, e') → stored e' (state e).
Proof. intros H. apply save_spec in H as (Hm & _ & Hok & _). injection Hm as E1 _ _ _ _ _. by split; [|apply Hok]. Qed.

Lemma Abort_served wait r e x e' : Op r = "abort" → Abort e = (x, e') → served wait e e' r (default "" x).
Proof.
  intros Ho H. unfold Abort in H. minv H. destruct (Preparing (state e)) eqn:Hp; cbn [negb] in H; cbv iota in H.
  2: { minv H. injection H as <- <-. by apply sv_abort_idle. }
  minv H. injection E as _ <-. lazymatch type of E0 with _ = (?b, _) => destruct b end; cbn [negb] in H; cbv iota in H; minv H.
  - injection H as <- <-. apply sv_abort; [done..|]. exact (save_stored _ _ E0).
  - injection E as _ <-. injection H as <- <-. pose proof (save_means _ _ _ E0) as Hm. apply save_fails in E0.
    apply sv_abort_kept; [done..| |exact E0]. destruct Hm as [_ Hm]. cbn. rewrite Hm. cbn. destruct (state e). cbn in *. by subst.
Qed.

Lemma Resume_served wait r e x e' : Op r = "resume" → Resume (RqBootID r) (RqGeneration r) e = (x, e') →
  served wait e e' r (default "" x).
Proof.
  intros Ho H. unfold Resume in H. minv H. destruct (_ || _) eqn:Ht in H.
  { minv H. injection H as <- <-. apply sv_resume_refused; [done| |done]. intros (T1 & T2 & T3).
    by rewrite T1, T2, T3, streq_refl, Z.eqb_refl in Ht. }
  rewrite !orb_false_iff, !negb_false_iff, streq_true, Z.eqb_eq in Ht.
  assert (Htok : token e r) by (split; tauto). destruct Htok as (Hp & Hb & Hg).
  destruct (PrepareBaselineValid (state e)) eqn:Hv; cbn [negb] in H; cbv iota in H.
  2: { minv H. injection E as _ <-. lazymatch type of E0 with _ = (?b, _) => destruct b end; cbn [negb] in H; cbv iota in H; minv H.
       - injection H as <- <-. apply sv_resume_incomplete; [done..|]. exact (save_stored _ _ E0).
       - injection E as _ <-. injection H as <- <-. pose proof (save_means _ _ _ E0) as [_ Hm]. apply save_fails in E0.
         apply sv_resume_kept; [done..| |exact E0]. cbn. rewrite Hm. cbn. destruct (state e). cbn in *. by subst. }
  minv H. injection E as Ec <-. destruct a as [[now bt]|]; [|minv H; injection H as <- <-; apply sv_resume_clock; try done; by eexists].
  destruct (Z.ltb_spec bt (PrepareBoot (state e))) as [Hlt|Hge] in H.
  { minv H. injection H as <- <-. by eapply sv_resume_backwards. }
  minv H. assert (Hw : state w = state e ∧ eenv w = eenv e).
  { destruct (2 * Second <? clockLoss (state e) now bt); [injection E as _ <-|minv E; injection E as _ <-]; done. }
  destruct Hw as [W1 W2]. injection E0 as _ <-.
  lazymatch type of E1 with _ = (?b, _) => destruct b end; cbn [negb] in H; cbv iota in H; minv H.
  - injection E0 as _ <-. injection H as <- <-. apply save_stored in E1. cbn in E1. rewrite W1 in E1.
    by eapply sv_resume.
  - injection E0 as _ <-. injection H as <- <-. apply save_fails in E1. apply sv_resume_kept; [done..|].
    unfold cannotSave in *. cbn in E1. rewrite W1, W2 in E1. unfold resumed in E1.
    destruct (2 * Second <? clockLoss (state e) now bt); exact E1.
Qed.

Lemma stepDone_means c e u e' : stepDone c e = (u, e') →
  means e' = means e ∧ Preparing (state e') = Preparing (state e) ∧ named (state e') = named (state e).
Proof.
  intros H. unfold stepDone in H. minv H. injection E as _ <-. pose proof (save_means _ _ _ E0) as [Hm Hs]. cbn in Hs.
  injection H as _ <-. unfold means, named in *. cbn in Hm. injection Hm as M1 M2.
  destruct a0; cbn in *; [minv E1; injection E1 as _ <-|injection E1 as _ <-]; cbn; by rewrite ?Hs, ?M1, ?M2.
Qed.

(** The end of a preparation, from a state that is being prepared. *)
Lemma prepareFinish_served e x e' : prepareFinish e = (x, e') → Preparing (state e) = true →
  named (state e') = named (state e) ∧
  match x with
  | None => Preparing (state e') = true ∧ baseline e (state e') ∧ ¬ unresolved (state e') ∧ stored e' (state e')
  | Some err =>
      err = "persist" ∧ cannotSave e ∨ err = "clock" ∧ noClock e ∧ Preparing (state e') = false ∨
      err = "step outcome unresolved" ∧ unresolved (state e') ∧ Preparing (state e') = false
  end.
Proof.
  intros H Hp. unfold prepareFinish in H. minv H. rewrite Hp in H. cbn [negb] in H. cbv iota in H.
  destruct (_ || _) eqn:Ho in H.
  { minv H. injection E as _ <-. pose proof (save_means _ _ _ E0) as [_ Hm]. cbn in Hm.
    rewrite orb_true_iff, !streq_true in Ho. injection H as <- <-. rewrite Hm. split; [done|].
    lazymatch type of E0 with _ = (?b, _) => destruct b end; [right; right|left; split; [done|by apply save_fails in E0]].
    split; [done|]. by split. }
  rewrite orb_false_iff, !streq_false in Ho. minv H. injection E as Ec <-.
  destruct a as [[now bt]|].
  2: { minv H. injection E as _ <-. pose proof (save_means _ _ _ E0) as [_ Hm]. cbn in Hm. injection H as <- <-.
       rewrite Hm. split; [done|]. right; left. split; [done|]. split; [by eexists|done]. }
  minv H. injection E as _ <-. pose proof (save_means _ _ _ E0) as [_ Hm]. cbn in Hm.
  lazymatch type of E0 with _ = (?b, _) => destruct b end; cbn [negb] in H; cbv iota in H; minv H.
  - injection H as <- <-. apply save_stored in E0 as [_ E0]. cbn in E0. rewrite Hm. split; [done|].
    split; [done|]. split; [by repeat eexists|]. split; [unfold unresolved; cbn; tauto|]. by split.
  - injection E as _ <-. injection H as <- <-. split; [cbn; by rewrite Hm|]. left. split; [done|].
    apply save_fails in E0. exact E0.
Qed.

Lemma Prepare_served wait r e x e' : Op r = "prepare" → Prepare wait e = (x, e') → served wait e e' r (default "" x).
Proof.
  intros Ho H. unfold Prepare, prepareBegin in H. minv H. minv E. destruct (Preparing (state e)) eqn:Hp.
  { minv E. injection E as <- <-. minv H. injection H as <- <-. by apply sv_prepare_busy. }
  minv E. injection E0 as _ <-. pose proof (save_means _ _ _ E1) as Hm.
  lazymatch type of E1 with _ = (?b, _) => destruct b end; cbn [negb] in E; cbv iota in E; minv E.
  2: { injection E0 as _ <-. injection E as <- <-. minv H. injection H as <- <-. apply save_fails in E1.
       destruct Hm as [_ Hs]. cbn in Hs. apply sv_prepare_persist; [done..|]. unfold renames. cbn. rewrite Hs. by intros []. }
  injection E as <- <-. minv H. destruct Hm as [Hm Hs]. cbn in Hs.
  match type of H with context [inFlight ?v] => set (w := v) in * end.
  assert (Hi : inFlight w = inFlight e) by (apply save_spec in E1 as (Hmem & _); by injection Hmem).
  assert (Hfin : ∀ v, means v = means w → Preparing (state v) = true → named (state v) = named (state e) →
            (inFlight e = true → is_Some wait) → prepareFinish v = (x, e') → served wait e e' r (default "" x)).
  { intros v Hv Hpv Hn Hwait Hf. pose proof (prepareFinish_served _ _ _ Hf Hpv) as [Hnv Hres]. rewrite Hm in Hv.
    assert (Hr : ¬ renames e e') by (unfold renames; rewrite Hnv, Hn; by intros []).
    destruct x as [err|]; cbn [default].
    - destruct Hres as [[-> Hc]|[(-> & Hc & Hpe)|(-> & Hu & Hpe)]].
      + apply sv_prepare_persist; [done..| |done]. by eapply (cannotSave_means e v).
      + apply sv_prepare_clock; [done| |done..]. by eapply (noClock_means e v).
      + by apply sv_prepare_unresolved.
    - destruct Hres as (R1 & R2 & R3 & R4). apply sv_prepare; try done.
      destruct R2 as (B1 & now & bt & n & B2 & B3). split; [done|]. exists now, bt, n.
      injection Hv as _ Hv. by rewrite <- Hv. }
  destruct (inFlight w) eqn:Hf; [|apply (Hfin w); try done; [by rewrite Hs|by rewrite Hs|congruence]].
  destruct wait as [c|].
  - minv H. apply stepDone_means in E as (S1 & S2 & S3).
    eapply Hfin; [exact S1|by rewrite S2, Hs|by rewrite S3, Hs|by eexists|exact H].
  - unfold prepareCancelled in H. minv H. injection E as _ <-. pose proof (save_means _ _ _ E0) as [_ Hs2]. cbn in Hs2.
    injection H as <- <-. match type of Hs2 with state ?v = _ =>
      assert (Hr : ¬ renames e v) by (unfold renames; rewrite Hs2; unfold named; cbn; rewrite Hs; by intros []) end.
    lazymatch type of E0 with _ = (?b, _) => destruct b end; cbn [default].
    + apply sv_prepare_context; [done|congruence|done|by rewrite Hs2|done].
    + apply save_fails in E0. apply sv_prepare_persist; [done..| |done]. apply (cannotSave_means e w); [exact Hm|exact E0].
Qed.

(** No operation reports an error without a text. *)
Definition texted (x : option string) : Prop := x ≠ Some "".

Lemma admission_texted r s : texted (admission r s).
Proof. unfold admission. by repeat (case_match; try done). Qed.

Lemma sampleCheck_texted r q s now bt : texted (sampleCheck r q s now bt).
Proof. unfold sampleCheck. cbv zeta. by repeat (case_match; try done). Qed.

Lemma deliverSample_texted r now off e x e' : deliverSample r now off e = (x, e') → texted x.
Proof.
  intros H. unfold deliverSample in H. minv H. destruct (negb _) in H; minv H; [by injection H as <-|].
  destruct (negb _) in H; minv H; [by injection H as <-|]. destruct (negb _) in H; minv H; by injection H as <-.
Qed.

Lemma Submit_texted r e x e' : Submit r e = (x, e') → texted x.
Proof.
  intros H. unfold Submit in H. minv H. destruct a as [[err|] obs].
  - minv H. injection H as <- _. unfold observe in E. destruct (negb _); [minv E; done|]. minv E.
    destruct a as [[now bt]|]; minv E; by injection E as <-.
  - unfold submitLocked in H. minv H. destruct a as [[now bt]|]; [|minv H; by injection H as <-]. minv H.
    destruct (_ && _) in H; [minv H; injection H as <- _; by destruct a0|].
    destruct (admission _ _) eqn:Ha in H; [minv H; injection H as <- _; rewrite <- Ha; apply admission_texted|]. minv H.
    destruct a0 as [[now' bt']|]; [|minv H; by injection H as <-].
    destruct (sampleCheck _ _ _ _ _) eqn:Hc in H; [minv H; injection H as <- _; rewrite <- Hc; apply sampleCheck_texted|].
    by eapply deliverSample_texted.
Qed.

Ltac texted_tac H :=
  repeat first [progress minv H | match type of H with context [if ?b then _ else _] => destruct b end
    | match type of H with context [match ?c with _ => _ end] => destruct c end]; by injection H as <- _.

Lemma Abort_texted e x e' : Abort e = (x, e') → texted x.
Proof. intros H. unfold Abort in H. texted_tac H. Qed.

Lemma Resume_texted b g e x e' : Resume b g e = (x, e') → texted x.
Proof. intros H. unfold Resume in H. texted_tac H. Qed.

Lemma prepareFinish_texted e x e' : prepareFinish e = (x, e') → texted x.
Proof. intros H. unfold prepareFinish in H. texted_tac H. Qed.

Lemma Prepare_texted wait e x e' : Prepare wait e = (x, e') → texted x.
Proof.
  intros H. unfold Prepare in H. minv H. destruct a as [err|].
  - minv H. injection H as <- _. unfold prepareBegin in E. texted_tac E.
  - minv H. destruct (inFlight w); [destruct wait; [minv H|unfold prepareCancelled in H; texted_tac H]|];
      by eapply prepareFinish_texted.
Qed.

Lemma served_tick wait e e' n r err : served wait e e' r err → served wait e (e' <| etick := n |>) r err.
Proof. intros []; [constructor 1|constructor 2|econstructor 3|constructor 4|constructor 5|constructor 6|constructor 7|constructor 8
  |econstructor 9|econstructor 10|constructor 11|constructor 12|constructor 13|constructor 14|constructor 15|constructor 16
  |constructor 17|constructor 18]; eassumption. Qed.

(** ** The socket *)

(** C15: the control socket keeps the contract [served], whatever a client
    sends: a request that does not decode, or names no operation, changes
    nothing; every other one gets the error and leaves the state that its
    operation promises, and an answer is ok exactly when there is no error.
    Serving is a sequence of the locked steps whose runs the other theorems are
    about, so every reachable state stays reachable; the answer carries boot,
    generation, episode, outcome and preparation of the state that was reached,
    and reports the nRF recovery as possible only in an available initial or
    resume episode outside a preparation. *)
Theorem handle_refines (wait : option bool) (r : option Request) (e e' : Engine) (resp : Response) :
  match r with Some r => request_ok r | None => True end →
  handle wait r e = (resp, e') →
  rtc estep e e' ∧ (ereachable e → ereachable e') ∧
  match r with
  | None => RError resp = "decode" ∧ body e' = body e
  | Some r => served wait e e' r (RError resp)
  end ∧
  ROK resp = bool_decide (RError resp = "") ∧
  QBootID (RQuality resp) = BootID (state e') ∧ QGeneration (RQuality resp) = Generation (state e') ∧
  QEpisode (RQuality resp) = Episode (state e') ∧ QOutcome (RQuality resp) = Outcome (state e') ∧
  QPreparing (RQuality resp) = Preparing (state e') ∧
  (QNRFEligible (RQuality resp) = true →
     Outcome (state e') = "available" ∧ Preparing (state e') = false ∧ Episode (state e') ∈ ["initial"; "resume"]).
Proof.
  intros Hr H. pose proof (handle_steps _ _ _ _ _ H Hr) as Hall.
  unfold handle in H. minv H. injection H as <- <-. cbn [RQuality RError ROK]. apply statusLocked_spec in E0 as [-> ->].
  split; [exact Hall|]. split; [by apply ereachable_steps|].
  assert (Hs : texted a ∧ match r with
    | None => default "" a = "decode" ∧ body w = body e
    | Some r => served wait e w r (default "" a) end).
  { destruct r as [r|]; [|cbv iota in E; minv E; by injection E as <- <-].
    destruct (Op r =s "status") eqn:O1 in E; [apply streq_true in O1; minv E; injection E as <- <-; split; [done|by apply sv_status]|].
    destruct (Op r =s "submit") eqn:O2 in E; [apply streq_true in O2; split; [by eapply Submit_texted|by eapply sv_submit]|].
    destruct (Op r =s "prepare") eqn:O3 in E; [apply streq_true in O3; split; [by eapply Prepare_texted|by eapply Prepare_served]|].
    destruct (Op r =s "abort") eqn:O4 in E; [apply streq_true in O4; split; [by eapply Abort_texted|by eapply Abort_served]|].
    destruct (Op r =s "resume") eqn:O5 in E; [apply streq_true in O5; split; [by eapply Resume_texted|by eapply Resume_served]|].
    minv E. injection E as <- <-. split; [done|]. apply sv_unknown; [|done].
    rewrite !not_elem_of_cons, <- !streq_false. split_and!; try done. by apply not_elem_of_nil. }
  destruct Hs as [Ht Hs]. split.
  { destruct r; [by apply served_tick|exact Hs]. }
  split.
  { destruct a as [t|]; [|done]. rewrite (bool_decide_eq_false_2 (Some t = None)) by done. symmetry.
    apply bool_decide_eq_false_2. cbn. intros ->. by apply Ht. }
  do 5 (split; [done|]). intros He. apply eligible_status in He. cbn. tauto.
Qed.

(** ** A run *)

Lemma handle_refines_witness :
  let e := startedEngine None in
  let e' := (handle None (Some gpsRequest) e).2 in
  let resp := (handle None (Some (opRequest "abort")) e).1 in
  ROK (handle None (Some gpsRequest) e).1 = true ∧ rtc estep e e' ∧
  served None e (handle None (Some (opRequest "abort")) e).2 (opRequest "abort") (RError resp) ∧ RError resp = "not preparing".
Proof.
  intros e e' resp. split; [vm_compute; reflexivity|]. split.
  - refine (proj1 (handle_refines None (Some gpsRequest) e e' _ gpsRequest_ok _)). apply surjective_pairing.
  - split; [|vm_compute; reflexivity].
    refine (proj1 (proj2 (proj2 (handle_refines None (Some (opRequest "abort")) e _ _ _ _)))); [|apply surjective_pairing].
    unfold request_ok, opRequest. cbn. tlia.
Defined.
