(* ===== verification/Handshake.v ===== *)
(** * The suspend handshake

    What the coordinator promises the service between "prepare" and "resume"
    ([Prepare] and [Resume] of [internal/clockcontrol/engine.go]): while the
    system goes down and comes back, samples may be submitted, reports judged,
    other preparations refused, and the coordinator may crash and start over;
    the preparation and its token outlive all of it, and the clock is left
    alone. *)

From S2P Require Import Prelude GoInt GoTime GoFloat ClockProto ClockEngine ClockEngineFacts ClockEngineSafety.

(** ** What happens while a preparation is pending *)

Inductive attend : Engine → Engine → Prop :=
| at_query e n : attend e (e <| etick := n |>)
| at_submit r obs e x e' : submitLocked r obs e = (x, e') → attend e e'
| at_refresh g b t e x e' : refreshLocked g b t e = (x, e') → attend e e'
| at_begin e x e' : prepareBegin e = (x, e') → attend e e'
| at_restart e e' : NewEngine (BootID (state e)) (file_of (disk e)) e = (true, e') → attend e e'.

(** The part of the state that is the preparation. *)
Record Token := mkToken {
  tk_boot : string;
  tk_generation : Z;
  tk_preparing : bool;
  tk_valid : bool;
  tk_utc : Z;
  tk_at : Z;
}.

Definition tokenOf (s : EState) : Token :=
  mkToken (BootID s) (Generation s) (Preparing s) (PrepareBaselineValid s) (PrepareUTC s) (PrepareBoot s).

Section pending.
Context (k : Token) (T : list EObs) (Hk : tk_preparing k = true).

(** The preparation is there, in memory and on disk, and no step was started
    since the trace was [T]. *)
Definition pending (e : Engine) : Prop :=
  tokenOf (state e) = k ∧ (∃ s, disk e = Some s ∧ tokenOf s = k) ∧
  ∃ l, etrace e = T ++ l ∧ Forall (λ o, isStep o = false) l.

Definition kept {A} (m : ST Engine A) : Prop := ∀ e, pending e → pending (m e).2.

Lemma kept_ret {A} (a : A) : kept (mret a). Proof. by intros e. Qed.
Lemma kept_skip : kept skip. Proof. by intros e. Qed.
Lemma kept_bind {A B} (m : ST Engine A) (f : A → ST Engine B) : kept m → (∀ a, kept (f a)) → kept (m ≫= f).
Proof. intros Hm Hf e He. rewrite run_bind. by apply Hf, Hm. Qed.
Lemma kept_state {B} (f : EState → ST Engine B) : (∀ s, tokenOf s = k → kept (f s)) → kept (gets state ≫= f).
Proof. intros Hf e He. rewrite gets_bind. exact (Hf _ (proj1 He) e He). Qed.
Lemma kept_get {B} (f : Engine → ST Engine B) : (∀ e, pending e → kept (f e)) → kept (get_st ≫= f).
Proof. intros Hf e He. rewrite get_st_bind. by apply Hf. Qed.
Lemma kept_query {A} (f : EEnv → nat → A) : kept (query f). Proof. by intros e. Qed.
Lemma kept_quality q : kept (set_quality q). Proof. by intros e. Qed.

Lemma kept_log o : isStep o = false → kept (log o).
Proof.
  intros Ho e (H1 & H2 & l & Hl & F). split; [done|]. split; [done|]. exists (l ++ [o]).
  cbn. rewrite Hl, <- app_assoc. split; [done|]. apply Forall_app. split; [done|by constructor].
Qed.

Lemma kept_set f : (∀ s, tokenOf s = k → tokenOf (f s) = k) → kept (set_state f).
Proof. intros Hf e (H1 & H2 & H3). split; [by apply Hf|by split]. Qed.

Lemma kept_save : kept save.
Proof.
  intros e (H1 & H2 & l & Hl & F). destruct (save e) as [ok e'] eqn:E. apply save_spec in E as (Hm & Hd & _ & Ht).
  injection Hm as M1 _ _ _ _ _. cbn. split; [by rewrite M1|]. split.
  - destruct Hd as [-> | ->]; [exact H2|by eexists].
  - exists (l ++ if ok then [OSave (state e)] else []). rewrite Ht, Hl, <- app_assoc. split; [done|].
    apply Forall_app. split; [done|]. destruct ok; by repeat constructor.
Qed.
End pending.

Ltac kept_step :=
  lazymatch goal with
  | |- kept _ _ (gets state ≫= _) => apply kept_state; intros ? ?
  | |- kept _ _ (get_st ≫= _) => apply kept_get; intros ? ?
  | |- kept _ _ (_ ≫= _) => apply kept_bind; [|intros ?]
  | |- kept _ _ (mret _) => apply kept_ret
  | |- kept _ _ skip => apply kept_skip
  | |- kept _ _ (query _) => apply kept_query
  | |- kept _ _ clockNow => apply kept_query
  | |- kept _ _ (log _) => apply kept_log; done
  | |- kept _ _ (set_quality _) => apply kept_quality
  | |- kept _ _ forgetQuality => apply kept_quality
  | |- kept _ _ save => apply kept_save
  | |- kept _ _ (set_state _) => apply kept_set; intros ? ?; try done
  | |- kept _ _ (modify _) => intros ? ?; done
  | |- kept _ _ (if ?c then _ else _) => destruct c eqn:?
  | |- kept _ _ (match ?c with _ => _ end) => destruct c
  | |- kept _ _ (let _ := _ in _) => cbv zeta
  end.
Ltac kept_tac := repeat kept_step; auto with engine nocore.

Section pending_operations.
Context (k : Token) (T : list EObs) (Hk : tk_preparing k = true).
Local Abbreviation kept := (kept k T).

Lemma preparing_token s : tokenOf s = k → Preparing s = true.
Proof. by intros <-. Qed.

Lemma kept_reconcile : kept reconcile. Proof. unfold reconcile. kept_tac. Qed.
#[local] Hint Resolve kept_reconcile : engine.

(** No step, and no new episode, while a preparation is pending. *)
Lemma kept_afterQuality t now n : kept (afterQuality t now n).
Proof.
  unfold afterQuality. kept_tac.
  all: match goal with H : tokenOf ?s = k, E : Preparing ?s = false |- _ => rewrite (preparing_token s H) in E; done end.
Qed.
#[local] Hint Resolve kept_afterQuality : engine.

Lemma kept_refresh g n t : kept (refreshLocked g n t).
Proof. unfold refreshLocked, acceptReport, publishQuality. kept_tac. Qed.

Lemma kept_submit r obs : kept (submitLocked r obs).
Proof. unfold submitLocked, statusLocked, deliverSample, setSample. kept_tac. Qed.

Lemma kept_begin : kept prepareBegin.
Proof.
  unfold prepareBegin. apply kept_state. intros s Hs. rewrite (preparing_token s Hs). apply kept_ret.
Qed.

(** A restart takes the preparation over from the file. *)
Lemma loadState_token boot bt s s' :
  BootID s = boot → loadState boot bt (FState s) = Some s' → tokenOf s' = tokenOf s.
Proof.
  intros <-. cbn [loadState]. rewrite streq_refl. cbn [negb]. destruct (_ || _); [done|].
  destruct (_ =s _); intros H; apply (inj Some) in H as <-; done.
Qed.

Lemma restart_pending e e' :
  NewEngine (BootID (state e)) (file_of (disk e)) e = (true, e') → pending k T e → pending k T e'.
Proof.
  intros H (H1 & (s & Hd & H2) & l & Hl & F). rewrite Hd in H. cbn [file_of] in H. unfold NewEngine in H.
  destruct (_ =s _); [minv H; done|]. minv H. injection E as _ <-.
  destruct a as [[now bt]|]; [|minv H; done]. destruct (loadState _ _ _) as [s'|] eqn:Es; [|minv H; done]. minv H.
  assert (Hb : BootID s = BootID (state e)) by (apply (f_equal tk_boot) in H1, H2; cbn in H1, H2; congruence).
  apply loadState_token in Es; [|done]. injection E as _ <-.
  destruct (save_spec _ _ _ H) as (Hm & _ & Hok & Ht). injection Hm as M1 _ _ _ _ _. cbn in M1, Ht, Hok.
  split; [rewrite M1; congruence|]. split; [exists s'; split; [by apply Hok|congruence]|].
  exists (l ++ [OSave s']). rewrite Ht, Hl, <- app_assoc. split; [done|]. apply Forall_app. by repeat constructor.
Qed.

Lemma attend_pending e e' : rtc attend e e' → pending k T e → pending k T e'.
Proof.
  induction 1 as [|e1 e2 e3 H _ IH]; [done|]. intros He. apply IH. destruct H as [| | | |].
  - exact He.
  - pose proof (kept_submit r obs e He) as Hp. by rewrite H in Hp.
  - pose proof (kept_refresh g b t e He) as Hp. by rewrite H in Hp.
  - pose proof (kept_begin e He) as Hp. by rewrite H in Hp.
  - by eapply restart_pending.
Qed.
End pending_operations.

(** ** Preparing *)

Lemma prepareFinish_ok e e' : prepareFinish e = (None, e') →
  Preparing (state e) = true ∧ (Outcome (state e) ∉ ["unknown"; "in-flight"]) ∧
  PrepareBaselineValid (state e') = true ∧ Preparing (state e') = true ∧ disk e' = Some (state e') ∧
  BootID (state e') = BootID (state e) ∧ Generation (state e') = Generation (state e) ∧ inFlight e' = inFlight e.
Proof.
  intros H. unfold prepareFinish in H. minv H. destruct (Preparing (state e)) eqn:Hp; cbn [negb] in H; [|done].
  destruct (_ || _) eqn:Ho; [minv H; done|]. rewrite orb_false_iff, !streq_false in Ho. minv H. injection E as _ <-.
  destruct a as [[now bt]|]; [|minv H; done]. minv H. injection E as _ <-.
  destruct (save_spec _ _ _ E0) as (Hm & _ & Hok & _). injection Hm as M1 _ _ _ M5 _. cbn in M1, M5, Hok.
  destruct a0; cbn [negb] in H; cbv iota in H; minv H; [|done]. injection H as <-.
  rewrite (Hok eq_refl), M1, M5. cbn. split_and!; try done. set_solver.
Qed.

Lemma prepareBegin_ok e e' : prepareBegin e = (None, e') →
  Preparing (state e) = false ∧ state e' = (state e) <| Preparing := true |> <| PrepareBaselineValid := false |> ∧
  inFlight e' = inFlight e.
Proof.
  intros H. unfold prepareBegin in H. minv H. destruct (Preparing (state e)) eqn:Hp; [done|]. minv H. injection E as _ <-.
  destruct (save_spec _ _ _ E0) as (Hm & _). injection Hm as M1 _ _ _ M5 _. cbn in M1, M5.
  destruct a0; cbn [negb] in H; cbv iota in H; minv H; [|done]. injection H as <-. by rewrite M1, M5.
Qed.

Lemma stepDone_frame c e u e' : stepDone c e = (u, e') →
  inFlight e' = false ∧ BootID (state e') = BootID (state e) ∧ Generation (state e') = Generation (state e) ∧
  Preparing (state e') = Preparing (state e).
Proof.
  intros H. unfold stepDone in H. minv H. injection E as _ <-.
  destruct (save_spec _ _ _ E0) as (Hm & _). injection Hm as M1 _ _ _ _ _. cbn in M1.
  injection H as _ <-. destruct a0; cbn in *; [minv E1; injection E1 as _ <-|injection E1 as _ <-]; cbn; by rewrite M1.
Qed.

Lemma Prepare_ok wait e e' : Prepare wait e = (None, e') →
  Preparing (state e') = true ∧ PrepareBaselineValid (state e') = true ∧ disk e' = Some (state e') ∧
  inFlight e' = false ∧ BootID (state e') = BootID (state e) ∧ Generation (state e') = Generation (state e).
Proof.
  intros H. unfold Prepare in H. minv H. destruct a; [done|]. apply prepareBegin_ok in E as (_ & Hs & Hi). minv H.
  assert (Hb : BootID (state w) = BootID (state e) ∧ Generation (state w) = Generation (state e)) by by rewrite Hs.
  destruct (inFlight w) eqn:Hf; [destruct wait as [c|]; [minv H|]|].
  - apply stepDone_frame in E as (F1 & F2 & F3 & _). apply prepareFinish_ok in H as (_ & _ & P1 & P2 & P3 & P4 & P5 & P6).
    split_and!; try done; [by rewrite P6|rewrite P4, F2; apply Hb|rewrite P5, F3; apply Hb].
  - exfalso. unfold prepareCancelled in H. minv H. done.
  - apply prepareFinish_ok in H as (_ & _ & P1 & P2 & P3 & P4 & P5 & P6).
    split_and!; try done; [by rewrite P6|rewrite P4; apply Hb|rewrite P5; apply Hb].
Qed.


(** ** Resuming *)

(** What can still go wrong with the right token. *)
Definition resumeErrors : list string := ["clock"; "boottime went backwards"; "persist"].

Lemma Resume_pending boot g e x e' :
  Resume boot g e = (x, e') →
  Preparing (state e) = true → PrepareBaselineValid (state e) = true → boot = BootID (state e) → g = Generation (state e) →
  match x with
  | None => Preparing (state e') = false ∧ Generation (state e') = u64 (g + 1) ∧ disk e' = Some (state e')
  | Some err => err ∈ resumeErrors ∧ tokenOf (state e') = tokenOf (state e)
  end.
Proof.
  intros H Hp Hv -> ->. unfold Resume in H. minv H. rewrite Hp, Hv, streq_refl, Z.eqb_refl in H. cbn [negb orb] in H. minv H.
  injection E as _ <-. destruct a as [[now bt]|]; [|minv H; injection H as <- <-; split; [set_solver|done]].
  destruct (bt <? _); [minv H; injection H as <- <-; split; [set_solver|done]|]. minv H.
  assert (He : ∀ w u, (when 2 * Second <? clockLoss (state e) now bt do log OLoss) (e <| etick := S (etick e) |>) = (u, w) →
    state w = state e) by (intros w' u'; destruct (_ <? _); by intros [= _ <-]).
  apply He in E. injection E0 as _ <-. destruct (save_spec _ _ _ E1) as (Hm & _ & Hok & _).
  injection Hm as M1 _ _ _ _ _. cbn in M1, Hok. rewrite E in M1, Hok.
  destruct a1; cbn [negb] in H; cbv iota in H; minv H.
  - injection H as <- <-. injection E0 as _ <-. cbn. rewrite (Hok eq_refl), M1. unfold resumed.
    by destruct (2 * Second <? _).
  - injection H as <- <-. injection E0 as _ <-. split; [set_solver|done].
Qed.

Lemma resume_handled wait boot g e resp e' :
  handle wait (Some (tokenRequest "resume" boot g)) e = (resp, e') →
  ∃ x e0, Resume boot g e = (x, e0) ∧ ROK resp = bool_decide (x = None) ∧ RError resp = default "" x ∧
    state e' = state e0 ∧ disk e' = disk e0.
Proof.
  intros H. unfold handle in H. cbn [Op tokenRequest RqBootID RqGeneration] in H. streq. minv H.
  injection H as <- <-. apply statusLocked_spec in E0 as [_ ->]. by exists a, w.
Qed.

(** ** The handshake *)

(** C8: the suspend handshake.  After a preparation that was answered without
    an error the coordinator has no step running and the preparation on disk,
    and whatever it attends to until the service comes back, its own crash and
    restart included, it starts no step and keeps the preparation; so the token
    of the answer is never refused.  A resume with it either completes, with a
    new generation on disk, or fails for the clock or the disk alone, and then
    the preparation is still there to be resumed or aborted. *)
Theorem suspend_handshake (wait wait' : option bool) (e e1 e2 e3 : Engine) (r1 r2 : Response) :
  handle wait (Some (opRequest "prepare")) e = (r1, e1) → ROK r1 = true → rtc attend e1 e2 →
  handle wait' (Some (tokenRequest "resume" (QBootID (RQuality r1)) (QGeneration (RQuality r1)))) e2 = (r2, e3) →
  QPreparing (RQuality r1) = true ∧ inFlight e1 = false ∧
  (∃ s, disk e2 = Some s ∧ Preparing s = true ∧ PrepareBaselineValid s = true) ∧
  (∃ l, etrace e2 = etrace e1 ++ l ∧ Forall (λ o, isStep o = false) l) ∧
  if ROK r2
  then Preparing (state e3) = false ∧ Generation (state e3) = u64 (Generation (state e1) + 1) ∧ disk e3 = Some (state e3)
  else (RError r2 ∈ resumeErrors) ∧ tokenOf (state e3) = tokenOf (state e1).
Proof.
  intros H1 Hok Hrun H2. unfold handle in H1. cbn [Op opRequest] in H1. streq. minv H1. cbn in Hok.
  injection H1 as <- <-. cbn [ROK RQuality] in *. apply bool_decide_eq_true in Hok as ->.
  apply Prepare_ok in E as (P1 & P2 & P3 & P4 & P5 & P6). apply statusLocked_spec in E0 as [-> ->].
  set (e1 := w <| etick := S (etick w) |>) in *.
  assert (Hpend : pending (tokenOf (state e1)) (etrace e1) e2).
  { eapply attend_pending; [exact P1|exact Hrun|]. split; [done|]. split; [by exists (state w)|]. exists [].
    by rewrite app_nil_r. }
  destruct Hpend as (K1 & (s & Hd & K2) & Ht).
  assert (Hq : QBootID (statusAt w (ec_now (eenv w) (etick w))) = BootID (state e2) ∧
    QGeneration (statusAt w (ec_now (eenv w) (etick w))) = Generation (state e2)).
  { apply (f_equal (λ k, (tk_boot k, tk_generation k))) in K1. cbn in K1. injection K1 as -> ->. done. }
  destruct Hq as [Hq1 Hq2]. rewrite Hq1, Hq2 in H2.
  split; [exact P1|]. split; [exact P4|]. split.
  { exists s. split; [done|]. apply (f_equal (λ k, (tk_preparing k, tk_valid k))) in K2. cbn in K2. injection K2 as -> ->. done. }
  split; [exact Ht|]. apply resume_handled in H2 as (x & e0 & H2 & -> & -> & -> & Hdisk). cbn [ROK RError].
  apply (f_equal (λ k, (tk_preparing k, tk_valid k))) in K1 as Kp. cbn in Kp. injection Kp as Kp Kv.
  pose proof (Resume_pending _ _ _ _ _ H2 (eq_trans Kp P1) (eq_trans Kv P2) eq_refl eq_refl) as HR.
  apply (f_equal tk_generation) in K1 as Kg. cbn in Kg.
  destruct x as [err|]; cbn; [destruct HR as [HR1 HR2]; split; [exact HR1|etrans; [exact HR2|exact K1]]|].
  by rewrite <- Kg, Hdisk.
Qed.

Lemma suspend_handshake_witness :
  let e := startedEngine None in
  let a := handle None (Some (opRequest "prepare")) e in
  let e2 := (NewEngine "b1" (file_of (disk a.2)) a.2).2 in
  let b := handle None (Some (tokenRequest "resume" (QBootID (RQuality a.1)) (QGeneration (RQuality a.1)))) e2 in
  ROK a.1 = true ∧ ROK b.1 = true ∧ Preparing (state b.2) = false ∧ Generation (state b.2) = 2.
Proof.
  intros e a e2 b. split; [vm_compute; reflexivity|].
  assert (Hb : ROK b.1 = true) by (vm_compute; reflexivity). split; [exact Hb|].
  assert (Ha : ROK a.1 = true) by (vm_compute; reflexivity).
  assert (Hr : rtc attend a.2 e2).
  { apply rtc_once, at_restart. vm_compute. reflexivity. }
  destruct (suspend_handshake None None e a.2 e2 b.2 a.1 b.1 (surjective_pairing _) Ha Hr (surjective_pairing _))
    as (_ & _ & _ & _ & H). rewrite Hb in H. destruct H as (H1 & H2 & _). split; [exact H1|].
  rewrite H2. vm_compute. reflexivity.
Defined.
