(* ===== verification/ChronyFacts.v ===== *)
(** * What the coordinator learns from chrony

    The reports of [ChronycTracking] are evidence for their source, and the
    coordinator steps the clock only on such evidence; the answer to a step and
    the samples for the reference clock are read and written as a whole. *)

From S2P Require Import Prelude GoInt GoTime GoFloat GoText GoDuration FloatCanon ClockProto ClockClient ClockEngine.
From S2P Require Import ClockEngineFacts ClockEngineSafety ChronyAdapter.
From Stdlib Require Import SpecFloat.

(** ** Bounded output *)

Lemma Write_spec b p :
  (length (Buffer b) ≤ outputLimit)%nat →
  (length (Buffer (Write b p)) ≤ outputLimit)%nat ∧
  (overflow (Write b p) = false ↔ overflow b = false ∧ (length (Buffer b ++ p) ≤ outputLimit)%nat) ∧
  (overflow (Write b p) = false → Buffer (Write b p) = Buffer b ++ p).
Proof.
  intros Hb. unfold Write. rewrite length_app. case_bool_decide as Hc; cbn [Buffer overflow].
  - split_and!; [done| |done]. split; [done|intros [_ ?]; lia].
  - rewrite length_app. split_and!; [lia| |done]. split; [intros; split; [done|lia]|tauto].
Qed.

Lemma Writes_spec chunks : ∀ b,
  (length (Buffer b) ≤ outputLimit)%nat →
  let b' := fold_left Write chunks b in
  (length (Buffer b') ≤ outputLimit)%nat ∧
  (overflow b' = false ↔ overflow b = false ∧ (length (Buffer b ++ concat chunks) ≤ outputLimit)%nat) ∧
  (overflow b' = false → Buffer b' = Buffer b ++ concat chunks).
Proof.
  induction chunks as [|p ps IH]; intros b Hb; cbn [fold_left concat].
  - rewrite app_nil_r. naive_solver.
  - destruct (Write_spec b p Hb) as (H1 & H2 & H3). destruct (IH _ H1) as (I1 & I2 & I3).
    rewrite (app_assoc (Buffer b) p). split; [done|]. split; [rewrite I2; split|].
    + intros [Ho Hl]. rewrite (H3 Ho) in Hl. apply H2 in Ho. tauto.
    + intros [Ho Hl]. rewrite length_app in Hl.
      assert (Hw : overflow (Write b p) = false) by (apply H2; split; [done|lia]).
      by rewrite (H3 Hw), length_app.
    + intros Ho. rewrite (I3 Ho). apply I2 in Ho as [Ho _]. by rewrite (H3 Ho).
Qed.

(** A step counts as done only on chrony's own confirmation: the command
    ended without error, and everything it wrote, in whatever chunks it
    arrived, is at most 4096 bytes and reads [200 OK] between white space.
    However much the command writes, at most 4096 bytes are kept. *)
Theorem stepConfirmed_spec (exited : bool) (chunks : list (list Z)) :
  (stepConfirmed exited chunks = true ↔
     exited = true ∧ (length (concat chunks) ≤ outputLimit)%nat ∧
     TrimSpace (unbytes (concat chunks)) = "200 OK") ∧
  (length (Buffer (fold_left Write chunks (mkOutput [] false))) ≤ outputLimit)%nat.
Proof.
  destruct (Writes_spec chunks (mkOutput [] false)) as (H1 & H2 & H3); [cbn; lia|].
  cbn [Buffer overflow app] in *. split; [|done].
  unfold stepConfirmed. rewrite negb_orb, negb_involutive, !andb_true_iff, negb_true_iff, streq_true, H2.
  split.
  - intros (? & [_ ?] & Ht). rewrite H3 in Ht by by apply H2. done.
  - intros (? & ? & Ht). rewrite H3 by by apply H2. done.
Qed.

(** ** Tracking reports *)

(** An address of the loopback network 127.0.0.0/8. *)
Definition loopback (id : Z) : Prop := 127 * 2 ^ 24 ≤ id < 128 * 2 ^ 24.

(** The reference id of a peer that is synchronized to a real clock: not the
    loopback network and none of LOCL, NRF1 and USR1 in ASCII. *)
Definition realPeer (id : Z) : Prop :=
  id ≠ 0 ∧ ¬ loopback id ∧ id ∉ [0x4c4f434c; 0x4e524631; 0x55535231].

Lemma isLoopbackID_spec id : isLoopbackID id = true ↔ loopback id.
Proof.
  unfold isLoopbackID, loopback. rewrite Z.eqb_eq, Z.shiftr_div_pow2 by lia.
  pose proof (Z.div_mod id (2 ^ 24) ltac:(lia)). pose proof (Z.mod_pos_bound id (2 ^ 24) ltac:(lia)).
  change (2 ^ 24) with 16777216 in *. lia.
Qed.

Lemma genuinePeer_spec id : genuinePeer id = true ↔ realPeer id.
Proof.
  unfold genuinePeer, realPeer. rewrite <- isLoopbackID_spec, !andb_true_iff, !negb_true_iff, !Z.eqb_neq.
  rewrite !not_elem_of_cons, <- not_true_iff_false. pose proof (not_elem_of_nil id). tauto.
Qed.

(** The evidence for a source: the selected line of [sources] and the
    reference it belongs to. *)
Inductive grounded (io : ChronycIO) (r : Reference) (mode name : string) : string → Prop :=
| gr_gps : mode = "#" → name = "GPS1" → rf_text r = "47505331" → grounded io r mode name SourceGPS
| gr_nrf : mode = "#" → name = "NRF1" → rf_text r = "4E524631" → grounded io r mode name SourceNRF
| gr_user : mode = "#" → name = "USR1" → rf_text r = "55535231" → grounded io r mode name SourceUser
| gr_ntp id :
    mode = "^" → name = rf_name r → ¬ loopback (rf_id r) →
    ntpdata_out io name ≫= peerID = Some id → realPeer id → grounded io r mode name "ntp"
| gr_holdover id :
    mode = "^" → name = rf_name r → ¬ loopback (rf_id r) →
    ntpdata_out io name ≫= peerID = Some id → id ≠ 0 → ¬ realPeer id →
    grounded io r mode name SourceNetworkHoldover
| gr_local : grounded io r mode name "local".

Lemma selectSource_spec io r mode name q q' :
  TSource q = "local" → TExternal q = false → selectSource io r mode name q = Some q' →
  grounded io r mode name (TSource q') ∧
  TExternal q' = one_of (TSource q') [SourceGPS; "ntp"] ∧
  q' = q <| TSource := TSource q' |> <| TExternal := TExternal q' |>.
Proof.
  intros Hs He. unfold selectSource. destruct q as [src ext age res unc skew ok]. cbn in Hs, He. subst src ext.
  repeat (match goal with |- context [if ?b then _ else _] => destruct b eqn:? end; bools).
  all: repeat match goal with H : (_ =s _) = true |- _ => apply streq_true in H end.
  all: try (intros [= <-]; cbn; split_and!; [by constructor|done|done]).
  destruct (ntpdata_out io name ≫= peerID) as [id|] eqn:Hid; [|done].
  assert (Hlo : ¬ loopback (rf_id r)) by (rewrite <- isLoopbackID_spec; congruence).
  pose proof (genuinePeer_spec id) as Hgp.
  destruct (genuinePeer id) eqn:Hg; [|destruct (Z.eqb_spec id 0) as [|Hz]]; cbn [negb]; cbv iota;
    intros [= <-]; cbn; split_and!; try done;
    [by apply (gr_ntp _ _ _ _ id); [..|apply Hgp]|by apply gr_local|
     by apply (gr_holdover _ _ _ _ id); [..|rewrite <- Hgp]].
Qed.

(** Exactly one line is selected. *)
Lemma sourcesLoop_found io r q lines b q' :
  sourcesLoop io r true q lines = Some (b, q') →
  b = true ∧ q' = q ∧ Forall (λ l, selectedLine l = None) lines.
Proof.
  induction lines as [|l ls IH]; cbn; [by intros [= <- <-]|].
  destruct (selectedLine l) as [[mode name]|] eqn:El; [done|]. intros H. apply IH in H as (? & ? & ?). auto.
Qed.

Lemma sourcesLoop_spec io r q lines q' :
  sourcesLoop io r false q lines = Some (true, q') →
  ∃ pre line post mode name,
    lines = pre ++ line :: post ∧ selectedLine line = Some (mode, name) ∧
    Forall (λ l, selectedLine l = None) (pre ++ post) ∧ selectSource io r mode name q = Some q'.
Proof.
  induction lines as [|l ls IH]; cbn; [done|].
  destruct (selectedLine l) as [[mode name]|] eqn:El.
  - destruct (selectSource io r mode name q) as [q1|] eqn:Es; [|done]. intros H.
    apply sourcesLoop_found in H as (_ & -> & F). exists [], l, ls, mode, name. auto.
  - intros H. apply IH in H as (pre & line & post & mode & name & -> & H1 & H2 & H3).
    exists (l :: pre), line, post, mode, name. cbn. auto.
Qed.

Lemma parseNumber_finite s v : parseNumber s = Some v → finite v = true.
Proof.
  unfold parseNumber. destruct (ParseFloat s) as [x|]; [|done].
  destruct (_ || _) eqn:E; [done|]. intros [= <-]. unfold finite. by rewrite <- negb_orb, E.
Qed.

Lemma nonNegative_spec o v : o ≫= nonNegative = Some v → o = Some v ∧ flt v (of_Z 0) = false.
Proof.
  destruct o as [x|]; cbn; [|done]. unfold nonNegative. destruct (flt x (of_Z 0)) eqn:E; [done|]. by intros [= <-].
Qed.

Lemma parseNumber_canonical s v : parseNumber s = Some v → canonical v = true.
Proof.
  unfold parseNumber. destruct (ParseFloat s) as [x|] eqn:E; [|done].
  destruct (_ || _); [done|]. intros [= <-]. by eapply canonical_ParseFloat.
Qed.

(** The age fits into an [int64]. *)
Lemma trunc_below x k : 0 ≤ k → mag x ≤ k → Z.abs (trunc x) ≤ 2 ^ k.
Proof.
  intros Hk Hm. unfold trunc. destruct x as [s|s| |s m e]; cbn [Z.abs]; try lia. cbn [mag] in Hm.
  pose proof (digits2_bounds m) as [_ Hd]. set (d := Zpos (digits2_pos m)) in *.
  assert (H : 0 ≤ (if 0 <=? e then Zpos m * 2 ^ e else Z.quot (Zpos m) (2 ^ (- e))) ≤ 2 ^ k).
  { destruct (Z.leb_spec 0 e).
    - pose proof (Z.pow_pos_nonneg 2 e ltac:(lia)). split; [lia|]. etrans; [apply (Z.mul_le_mono_nonneg_r _ (2 ^ d)); lia|].
      rewrite <- Z.pow_add_r by lia. apply Z.pow_le_mono_r; lia.
    - pose proof (Z.pow_pos_nonneg 2 (- e) ltac:(lia)). rewrite Z.quot_div_nonneg by lia. split; [apply Z.div_pos; lia|].
      apply Z.div_le_upper_bound; [lia|]. rewrite <- Z.pow_add_r by lia.
      etrans; [apply Z.lt_le_incl, Hd|]. apply Z.pow_le_mono_r; lia. }
  destruct s; lia.
Qed.

Lemma age_mag x : canonical x = true → flt (of_Z 7200) x = false → flt x (of_Z 0) = false → mag x ≤ 13.
Proof.
  intros Hc Hu Hl. destruct x as [s|s| |s m e]; cbn [mag]; try lia. destruct s; [done|].
  unfold flt, SFltb in Hu. replace (of_Z 7200) with (S754_finite false 7916483719987200 (-40)) in Hu by (vm_compute; reflexivity).
  unfold SFcompare in Hu. apply canonical_finite in Hc. pose proof (digits2_bounds m) as [Hd _].
  assert (Hd53 : Zpos (digits2_pos m) ≤ 53).
  { apply Z.nlt_ge. intros Hlt. assert (2 ^ 53 ≤ 2 ^ (Zpos (digits2_pos m) - 1)) by (apply Z.pow_le_mono_r; lia). lia. }
  destruct (Z.le_gt_cases e (-40)) as [|Hgt]; [lia|]. by rewrite (proj2 (Z.compare_lt_iff (-40) e)) in Hu by lia.
Qed.

Lemma age_typed x : canonical x = true → flt (of_Z 7200) x = false →
  is_i64 (trunc (fmul (if flt x (of_Z 0) then of_Z 0 else x) (of_Z Second))).
Proof.
  intros Hc Hu. set (y := if flt x (of_Z 0) then of_Z 0 else x).
  assert (Hy : canonical y = true ∧ mag y ≤ 13).
  { unfold y. destruct (flt x (of_Z 0)) eqn:E; [split; [apply canonical_of_Z|cbn; lia]|]. split; [done|by apply age_mag]. }
  clearbody y. destruct Hy as [Hy Hm]. assert (Hb : Z.abs (trunc (fmul y (of_Z Second))) ≤ 2 ^ 44); [|tlia].
  apply trunc_below; [lia|]. etrans; [apply mag_fmul; [done|apply canonical_of_Z]|].
  replace (mag (of_Z Second)) with 30 by (vm_compute; reflexivity). lia.
Qed.

(** What a tracking line says: fourteen fields, the last one [Normal]; a
    reference with a non-zero id of eight hexadecimal digits; a stratum from 1 to
    15; finite numbers, none of the error bounds negative; and a last update
    between two hours ago and 5 s ahead of the reading [now], which counts as
    now. *)
Definition reported (now : Time) (out : string) (r : Reference) (q : Tracking) : Prop :=
  ∃ f0 f1 f2 f3 f4 f5 f6 f7 f8 f9 f10 f11 f12 stratum stamp delay dispersion,
    Split (TrimSpace out) 44 = [f0; f1; f2; f3; f4; f5; f6; f7; f8; f9; f10; f11; f12; "Normal"] ∧
    rf_text r = f0 ∧ String.length f0 = 8%nat ∧ ParseHex 32 f0 = Some (rf_id r) ∧ 0 < rf_id r < 2 ^ 32 ∧
    rf_name r = f1 ∧ Atoi f2 = Some stratum ∧ 1 ≤ stratum ≤ 15 ∧
    ParseFloat f3 = Some stamp ∧ ParseFloat f4 = Some (TResidual q) ∧ ParseFloat f9 = Some (TSkewPPM q) ∧
    ParseFloat f10 = Some delay ∧ ParseFloat f11 = Some dispersion ∧
    Forall (λ v, finite v = true) [stamp; TResidual q; TSkewPPM q; delay; dispersion] ∧
    Forall (λ v, flt v (of_Z 0) = false) [TSkewPPM q; delay; dispersion] ∧
    TUncertainty q = fadd (fdiv delay (of_Z 2)) dispersion ∧
    (let age := trackingAge now (TResidual q) stamp in
     flt age (of_Z (-5)) = false ∧ flt (of_Z 7200) age = false ∧
     TAge q = trunc (fmul (if flt age (of_Z 0) then of_Z 0 else age) (of_Z Second))).

(** The numbers have their Go types. *)
Definition typed_numbers (q : Tracking) : Prop :=
  canonical (TResidual q) = true ∧ canonical (TUncertainty q) = true ∧ canonical (TSkewPPM q) = true ∧ is_i64 (TAge q).

(** The first step of a computation that may fail. *)
Ltac obind_tac x E :=
  match goal with |- ?o ≫= _ = Some _ → _ => destruct o as [x|] eqn:E; cbn [mbind option_bind]; [|done] end.
Tactic Notation "obind" "as" "[" ident(x) ident(E) "]" := obind_tac x E.
Tactic Notation "obind" "as" "[" ident(x) "_" "]" := let E := fresh in obind_tac x E; clear E.

Lemma parseNumber_spec s v : parseNumber s = Some v → ParseFloat s = Some v ∧ finite v = true ∧ canonical v = true.
Proof.
  intros H. split; [|split; [by eapply parseNumber_finite|by eapply parseNumber_canonical]].
  unfold parseNumber in H. destruct (ParseFloat s); [|done]. by destruct (_ || _).
Qed.

Lemma readReference_spec now out r :
  readReference now out = Some r →
  reported now out r (rf_quality r) ∧ typed_numbers (rf_quality r) ∧ TValid (rf_quality r) = true ∧
  TSource (rf_quality r) = "local" ∧ TExternal (rf_quality r) = false.
Proof.
  unfold readReference. do 15 (case_match; try done). subst.
  destruct (negb _) eqn:Hn; [done|]. apply negb_false_iff, streq_true in Hn as ->.
  obind as [ref Er]. destruct (_ || _) eqn:Hr; [done|]. apply orb_false_iff in Hr as [Hlen Hr].
  apply negb_false_iff, Nat.eqb_eq in Hlen. apply Z.eqb_neq in Hr.
  obind as [stratum Es]. destruct (_ || _) eqn:Hs; [done|]. apply orb_false_iff in Hs as [Hs1 Hs2].
  obind as [stamp N1]. obind as [residual N2]. obind as [skew N3]. obind as [delay N4]. obind as [disp N5].
  destruct (_ || _) eqn:Ha; [done|]. apply orb_false_iff in Ha as [Ha1 Ha2].
  intros [= <-]. cbn [rf_quality TSource TExternal TValid].
  apply nonNegative_spec in N3 as [N3 P3], N4 as [N4 P4], N5 as [N5 P5].
  apply parseNumber_spec in N1 as (N1 & F1 & C1), N2 as (N2 & F2 & C2), N3 as (N3 & F3 & C3), N4 as (N4 & F4 & C4), N5 as (N5 & F5 & C5).
  split; [|split; [|done]].
  - do 13 eexists. exists stratum, stamp, delay, disp. split; [eassumption|].
    cbn [rf_text rf_id rf_name TResidual TSkewPPM TUncertainty TAge].
    pose proof (ParseHex_range _ _ _ Er). split_and!; try done; try lia; by repeat (apply Forall_cons; split).
  - unfold typed_numbers. cbn [TResidual TSkewPPM TUncertainty TAge].
    split; [done|]. split; [apply canonical_fadd; [apply canonical_fdiv|done]|]. split; [done|].
    apply age_typed; [|done]. apply canonical_fsub; [|done]. apply canonical_fadd; [apply canonical_fdiv|done].
Qed.

(** Exactly one source is selected, with this mode and name. *)
Definition selected (sources mode name : string) : Prop :=
  ∃ pre line post, Split (TrimSpace sources) 10 = pre ++ line :: post ∧
    selectedLine line = Some (mode, name) ∧ Forall (λ l, selectedLine l = None) (pre ++ post).

Lemma ChronycTracking_inv io now q :
  ChronycTracking io now = Some q →
  ∃ out r sources mode name,
    tracking_out io = Some out ∧ readReference now out = Some r ∧ sources_out io = Some sources ∧
    selected sources mode name ∧ selectSource io r mode name (rf_quality r) = Some q.
Proof.
  unfold ChronycTracking.
  destruct (tracking_out io) as [out|] eqn:Ho; cbn [mbind option_bind]; [|done].
  obind as [r Hr]. obind as [sources Hs].
  destruct (sourcesLoop _ _ _ _ _) as [[[|] q']|] eqn:Hl; try done. intros [= ->].
  apply sourcesLoop_spec in Hl as (pre & line & post & mode & name & Hsp & Hsel & F & Hq).
  exists out, r, sources, mode, name. split_and!; try done. by exists pre, line, post.
Qed.

Lemma tracking_typed io r mode name q : grounded io r mode name (TSource q) → typed_numbers q → typed_tracking q.
Proof. intros Hg (H1 & H2 & H3 & H4). split; [|done..]. by destruct Hg. Qed.

(** The report, from the selected line and the tracking line together. *)
Lemma ChronycTracking_report io now q :
  ChronycTracking io now = Some q →
  TValid q = true ∧ typed_tracking q ∧ TExternal q = one_of (TSource q) [SourceGPS; "ntp"] ∧
  ∃ out r sources mode name,
    tracking_out io = Some out ∧ reported now out r q ∧ sources_out io = Some sources ∧
    selected sources mode name ∧ grounded io r mode name (TSource q).
Proof.
  intros H. destruct (ChronycTracking_inv _ _ _ H) as (out & r & sources & mode & name & Ho & Hr & Hs & Hsel & Hq).
  destruct (readReference_spec _ _ _ Hr) as (Hrep & Ht & Hv & Hsrc & Hext).
  destruct (selectSource_spec _ _ _ _ _ _ Hsrc Hext Hq) as (Hg & He & Heq).
  split; [by rewrite Heq|]. split; [apply (tracking_typed io r mode name); [done|by rewrite Heq]|]. split; [done|].
  exists out, r, sources, mode, name. split; [done|]. split; [by rewrite Heq|done].
Qed.


(** With the adapter the environment of the coordinator is as its runs demand. *)
Lemma chrony_env_ok (v : EEnv) (io : nat → ChronycIO) :
  (∀ n now bt, ec_now v n = Some (now, bt) → is_i64 bt) →
  (∀ n, ∃ now, ec_tracking v n = ChronycTracking (io n) now) → env_ok v.
Proof.
  intros Hn Ht. split; [done|]. intros n t E. destruct (Ht n) as [now Ht']. rewrite Ht' in E.
  by apply ChronycTracking_report in E as (_ & H & _).
Qed.

Lemma judge_source e t bt tr : judge e (Some t) bt = Some tr → TSource tr = TSource t.
Proof.
  unfold judge. repeat (case_match; try done); intros [= <-]; done.
Qed.

Lemma judge_residual e t bt tr : judge e (Some t) bt = Some tr → TResidual tr = TResidual t.
Proof.
  unfold judge. repeat (case_match; try done); intros [= <-]; done.
Qed.

(** C5: the coordinator together with chrony.  With the tracking reports of
    [ChronycTracking], whatever its programs print, a refresh steps the clock
    only on the report it asked chrony for in this round, and the source and
    the residual of that report are what it has written to disk as the reason
    right before the command.  The source is what chrony printed: a named
    refclock, or a selected peer; "ntp" only when the peer's own reference is a
    real one, "network-holdover" only when it is not; never "local". *)
Theorem step_grounded (io : nat → ChronycIO) (e e' : Engine) (u : unit) (st : bool) (l : list EObs) :
  (∀ n, ∃ now, ec_tracking (eenv e) n = ChronycTracking (io n) now) →
  refresh e = (u, e') → etrace e' = etrace e ++ l → OStep st ∈ l →
  let n := S (etick e) in
  ∃ now q out r sources mode name s pre post,
    ec_tracking (eenv e) n = Some q ∧
    tracking_out (io n) = Some out ∧ reported now out r q ∧ sources_out (io n) = Some sources ∧
    selected sources mode name ∧ grounded (io n) r mode name (TSource q) ∧ TSource q ≠ "local" ∧
    (TSource q = "ntp" → mode = "^" ∧ name = rf_name r ∧ ¬ loopback (rf_id r) ∧
       ∃ id, ntpdata_out (io n) name ≫= peerID = Some id ∧ realPeer id) ∧
    l = pre ++ [OSave s; OStep st] ++ post ∧ Outcome s = "in-flight" ∧
    DispatchSource s = TSource q ∧ DispatchResidual s = TResidual q.
Proof.
  intros Hb H Hl Hin n. unfold refresh in H. minv H. injection E as Ec <-.
  destruct a as [[now0 startBoot]|].
  2: { minv H. injection H as _ <-. cbn in Hl. rewrite <- (app_nil_r (etrace e)) in Hl at 1.
       apply app_inv_head in Hl as <-. by apply elem_of_nil in Hin. }
  minv H. injection E as <- <-. cbn in H.
  destruct (refresh_step _ _ _ _ _ _ st l H) as (now1 & bt & t0 & tr & _ & _ & _ & Ht & Hj & Hrec); [exact Hl|exact Hin|].
  destruct Hrec as (s & smp & pre & post & Hsave & _ & Hd & _).
  destruct (Hb n) as [now Hn]. pose proof Ht as Ht'. fold n in Ht. rewrite Hn in Ht.
  apply ChronycTracking_report in Ht as (_ & _ & _ & out & r & sources & mode & name & Ho & Hr & Hs & Hsel & Hg).
  pose proof (judge_source _ _ _ _ Hj) as Hsrc. pose proof (judge_residual _ _ _ _ Hj) as Hres. cbn in Hsrc, Hres.
  exists now, t0, out, r, sources, mode, name, (admitStep smp tr now1 bt s), pre, post. split_and!; try done.
  - rewrite <- Hsrc. intros Heq. unfold stepDue in Hd. by rewrite Heq in Hd.
  - intros Heq. rewrite Heq in Hg. inversion Hg as [| | |id|id|]; subst; try done. split_and!; try done. by exists id.
Qed.

(** ** A concrete chrony *)

Definition sampleIO : ChronycIO :=
  mkIO (Some "C0000201,gw,2,1699999999.5,3.25,0.0,0.1,0.2,0.3,1.5,0.02,0.001,64.0,Normal")
       (Some ("#,-,NRF1,0" +:+ String (chr 10) "^,*,gw,2,6,377"))
       (λ name, if name =s "gw" then Some ("Remote address  : 192.0.2.1" +:+ String (chr 10) "Reference ID    : 51A3B0C2 (x)")
                else None).

Definition chronyEngine : Engine :=
  startedEngine (ChronycTracking sampleIO (mkTime (1700000000 * Second) None)).


Lemma step_grounded_witness :
  ∃ q r mode name, ec_tracking (eenv chronyEngine) 2%nat = Some q ∧ TSource q = "ntp" ∧
    grounded sampleIO r mode name (TSource q) ∧ ∃ id, ntpdata_out sampleIO name ≫= peerID = Some id ∧ realPeer id.
Proof.
  set (e' := (refresh chronyEngine).2).
  assert (Hl : etrace e' = etrace chronyEngine ++ drop 1 (etrace e')) by (vm_compute; reflexivity).
  assert (Hin : OStep true ∈ drop 1 (etrace e')) by (apply list_elem_of_In; vm_compute; tauto).
  destruct (step_grounded (λ _, sampleIO) chronyEngine e' tt true _
    ltac:(intros n; exists (mkTime (1700000000 * Second) None); reflexivity) ltac:(vm_compute; reflexivity) Hl Hin)
    as (now & q & out & r & sources & mode & name & s & pre & post & Hq & _ & _ & _ & _ & Hg & _ & Hntp & _).
  assert (Hs : TSource q = "ntp").
  { vm_compute in Hq. by injection Hq as <-. }
  exists q, r, mode, name. split; [exact Hq|]. split; [exact Hs|]. split; [exact Hg|]. apply (Hntp Hs).
Defined.

(** ** The reference clock *)

(** What [Send] writes is what chrony reads: the datagram for a known source is
    40 bytes and carries the time, every bit of the offset and the magic
    number; it is refused only for an unknown source or an offset that is not
    finite. *)
Lemma refclockDatagram_roundtrip (order : ByteOrder) (source : string) (at_ : Time) (offset : float64) :
  canonical offset = true → - 2 ^ 63 ≤ Unix at_ < 2 ^ 63 →
  match refclockDatagram order source at_ offset with
  | Some (name, b) =>
      sockNames source = Some name ∧ length b = 40%nat ∧
      DecodeSOCK 8 order b = mkSockSample (Unix at_) (Z.quot (NanosecondOf at_) 1000) offset sockMagic
  | None => sockNames source = None ∨ finite offset = false
  end.
Proof.
  intros Hc Hu. unfold refclockDatagram, finite.
  destruct (sockNames source) as [name|]; cbn [mbind option_bind]; [|by left].
  pose proof (sock_roundtrip at_ offset 8 order Hc Hu) as H.
  destruct (EncodeSOCK at_ offset 8 order) as [b|]; cbn [mbind option_bind].
  - destruct H as (H1 & _ & H2). done.
  - right. destruct H as [->|[->|[[_ ?]|[? _]]]]; [done|by destruct (IsNaN offset)|done|done].
Qed.
