(* ===== verification/Server.v ===== *)
(** * The coordinator's socket server

    [internal/clockcontrol/server.go] around the dispatcher of [ClockEngine]:
    the accept loop with its sixteen slots, and what of a connection's bytes
    becomes a request.  The goroutines of [Serve] are the events of a history;
    the decoder of requests is a parameter, [None] when it fails or more JSON
    follows ([WireFormat] gives the one of the program). *)

From S2P Require Import Prelude GoInt GoTime GoFloat ClockProto ClockClient ClockEngine.
From S2P Require Import ClockEngineFacts ClockEngineSafety.

(** ** Reading a request *)

Definition MaxRequest : nat := Z.to_nat 4096.

(** [ReadBytes] with the delimiter newline on a reader limited to [n] bytes;
    [stream] is what arrives before the connection's deadline or end. *)
Fixpoint ReadBytes (n : nat) (stream : list Z) : option (list Z) :=
  match n, stream with
  | O, _ | _, [] => None
  | S n, b :: stream => if b =? 10 then Some [b] else cons b <$> ReadBytes n stream
  end.

Definition readRequest (stream : list Z) : option (list Z) :=
  line ← ReadBytes (S MaxRequest) stream;
  if bool_decide (MaxRequest < length line)%nat then None else Some line.

Section serve.
Context (decode : list Z → option Request).

(** [handle] of a connection: the response written, if any. *)
Definition handleConn (wait : option bool) (stream : list Z) : ST Engine (option Response) :=
  match readRequest stream with
  | None => mret None
  | Some line => r ← handle wait (decode line); mret (Some r)
  end.
End serve.

(** ** The accept loop *)

Definition slotCount : nat := 16.

(** Connections are numbered in order of [Accept]. *)
Record Server := mkServer {
  accepted : nat;
  slots : list nat;     (* being handled *)
  served : list nat;    (* handled and closed *)
  refused : list nat;   (* closed at once *)
}.
#[export] Instance eta_Server : Eta Server := λ s, mkServer (accepted s) (slots s) (served s) (refused s).

Definition newServer : Server := mkServer 0 [] [] [].

Inductive ServerEvent :=
| Accepted              (* [ln.Accept] returns a connection *)
| Done (id : nat).      (* the goroutine of a connection returns *)

(** The [select] of [Serve], and the deferred release of the slot. *)
Definition server_step (s : Server) (e : ServerEvent) : Server :=
  match e with
  | Accepted =>
      let id := accepted s in
      let s := s <| accepted := S id |> in
      if bool_decide (length (slots s) < slotCount)%nat then s <| slots := id :: slots s |>
      else s <| refused := id :: refused s |>
  | Done id =>
      if bool_decide (id ∈ slots s)
      then s <| slots := List.filter (λ j, negb (j =? id)%nat) (slots s) |> <| served := id :: served s |>
      else s
  end.

(** What [Serve] returns when [Accept] fails: [None] is no error. *)
Definition acceptFailed (cancelled : bool) (err : string) : option string :=
  if cancelled then None else Some err.

(** The listening socket of [Serve]: a stale one is removed first, and no
    connection is accepted before the mode is set; [Some] is the error. *)
Inductive RemoveResult := Removed | NotExist | RemoveFailed (err : string).
Record ListenIO := mkListen { l_remove : RemoveResult; l_listen : option string; l_chmod : option string }.

Definition startServe (io : ListenIO) : option string :=
  match l_remove io with
  | RemoveFailed err => Some err
  | Removed | NotExist =>
      match l_listen io with
      | Some err => Some err
      | None => l_chmod io
      end
  end.

(** ** What a connection can do *)

Lemma ReadBytes_spec n stream line :
  ReadBytes n stream = Some line ↔
  ∃ body rest, stream = body ++ 10 :: rest ∧ 10 ∉ body ∧ line = body ++ [10] ∧ (length line ≤ n)%nat.
Proof.
  revert stream line. induction n as [|n IH]; intros stream line.
  { split; [by destruct stream|]. intros (body & rest & _ & _ & -> & Hl). rewrite length_app in Hl. cbn in Hl. lia. }
  destruct stream as [|b stream]; cbn [ReadBytes].
  { split; [done|]. intros (body & rest & He & _). by destruct body. }
  destruct (Z.eqb_spec b 10) as [->|Hb].
  - split.
    + intros [= <-]. exists [], stream. split; [done|]. split; [apply not_elem_of_nil|]. split; [done|cbn; lia].
    + intros (body & rest & He & Hn & -> & _). destruct body as [|c body]; [done|].
      injection He as <- _. exfalso. apply Hn. by left.
  - split.
    + intros Hr. apply fmap_Some in Hr as (l & Hr & ->). apply IH in Hr as (body & rest & -> & Hn & -> & Hl).
      exists (b :: body), rest. split; [done|]. split; [by apply not_elem_of_cons|]. split; [done|]. cbn in *. lia.
    + intros (body & rest & He & Hn & -> & Hl). destruct body as [|c body]; [by injection He as ->|].
      injection He as <- ->. apply not_elem_of_cons in Hn as [_ Hn]. cbn in Hl.
      apply fmap_Some. exists (body ++ [10]). split; [|done]. apply IH. exists body, rest. repeat split; [done|lia].
Qed.

Lemma readRequest_spec stream line :
  readRequest stream = Some line ↔
  ∃ body rest, stream = body ++ 10 :: rest ∧ 10 ∉ body ∧ line = body ++ [10] ∧ (length body < MaxRequest)%nat.
Proof.
  unfold readRequest. split.
  - intros H. apply bind_Some in H as (l & Hl & H). apply ReadBytes_spec in Hl as (body & rest & He & Hn & -> & Hl).
    case_bool_decide as Hlen; [done|]. injection H as <-. exists body, rest. repeat split; try done.
    rewrite length_app in Hlen. cbn in Hlen. lia.
  - intros (body & rest & He & Hn & -> & Hl).
    assert (Hr : ReadBytes (S MaxRequest) stream = Some (body ++ [10])).
    { apply ReadBytes_spec. exists body, rest. repeat split; try done. rewrite length_app. cbn. lia. }
    rewrite Hr. cbn. rewrite bool_decide_eq_false_2; [done|]. rewrite length_app. cbn. lia.
Qed.

Section connection.
Context (decode : list Z → option Request) (Hdecode : ∀ line r, decode line = Some r → request_ok r).

Lemma newline_unique body body' r r' :
  10 ∉ body → 10 ∉ body' → body ++ 10 :: r = body' ++ 10 :: r' → body = body'.
Proof.
  revert body'. induction body as [|c body IH]; intros [|c' body'] Hb Hb' He; [done| | |].
  - injection He as <- _. exfalso. apply Hb'. by left.
  - injection He as -> _. exfalso. apply Hb. by left.
  - injection He as -> He. apply not_elem_of_cons in Hb as [_ Hb], Hb' as [_ Hb']. f_equal. by apply IH.
Qed.

(** What follows the line does not matter. *)
Lemma readRequest_rest body r1 r2 : 10 ∉ body → readRequest (body ++ 10 :: r1) = readRequest (body ++ 10 :: r2).
Proof.
  intros Hb.
  assert (Hone : ∀ r1 r2 l, readRequest (body ++ 10 :: r1) = Some l → readRequest (body ++ 10 :: r2) = Some l).
  { intros r1' r2' l Hr. apply readRequest_spec in Hr as (b & r & He & Hb' & -> & Hl).
    apply newline_unique in He as <-; [|done|done]. apply readRequest_spec. by exists body, r2'. }
  destruct (readRequest (body ++ 10 :: r1)) as [l|] eqn:E1; [symmetry; by eapply Hone|].
  destruct (readRequest (body ++ 10 :: r2)) as [l|] eqn:E2; [|done]. apply (Hone _ r1) in E2. congruence.
Qed.

(** C25: a connection gets at most one answer and can do nothing but run
    coordinator steps.  It is answered exactly when a line of at most 4096
    bytes, newline included, arrives in time; whatever follows the line is
    ignored, and without such a line the coordinator is not touched at all. *)
Theorem connection_spec (wait : option bool) (stream : list Z) (e e' : Engine) (resp : option Response) :
  handleConn decode wait stream e = (resp, e') →
  rtc estep e e' ∧ (ereachable e → ereachable e') ∧
  (is_Some resp ↔ ∃ body rest, stream = body ++ 10 :: rest ∧ 10 ∉ body ∧ (length body < MaxRequest)%nat) ∧
  (resp = None → e' = e) ∧
  (∀ body rest rest', 10 ∉ body → stream = body ++ 10 :: rest →
     handleConn decode wait (body ++ 10 :: rest') e = (resp, e')).
Proof.
  intros H.
  assert (Hsame : ∀ body rest rest', 10 ∉ body → stream = body ++ 10 :: rest →
    handleConn decode wait (body ++ 10 :: rest') e = (resp, e')).
  { intros body rest rest' Hb ->. rewrite <- H. unfold handleConn. by rewrite (readRequest_rest body rest' rest). }
  unfold handleConn in H. destruct (readRequest stream) as [line|] eqn:Er.
  - minv H. injection H as <- <-. pose proof (handle_steps _ _ _ _ _ E) as Hs.
    assert (Hsteps : rtc estep e w) by (apply Hs; destruct (decode line) eqn:Ed; [by eapply Hdecode|done]).
    split; [done|]. split; [by apply ereachable_steps|].
    split; [|split; [done|done]]. split; [|by eexists].
    intros _. apply readRequest_spec in Er as (body & rest & He & Hb & _ & Hl). by exists body, rest.
  - minv H. injection H as <- <-. split; [apply rtc_refl|]. split; [done|]. split; [|done]. split; [by intros [? ?]|].
    intros (body & rest & He & Hb & Hl). exfalso.
    assert (readRequest stream = Some (body ++ [10])) by (apply readRequest_spec; by exists body, rest). congruence.
Qed.
End connection.

Lemma connection_spec_witness :
  let decode := λ line : list Z, if bool_decide (line = [123; 125; 10]) then Some (opRequest "status") else None in
  let e := startedEngine None in
  let r := handleConn decode None [123; 125; 10; 7] e in
  is_Some r.1 ∧ rtc estep e r.2.
Proof.
  intros decode e r. assert (Hd : ∀ line q, decode line = Some q → request_ok q).
  { intros line q. unfold decode. case_bool_decide; [|discriminate]. intros Hq. injection Hq as <-.
    unfold request_ok, is_i64, minInt64, maxInt64. cbn. lia. }
  destruct (connection_spec decode Hd None [123; 125; 10; 7] e r.2 r.1 (surjective_pairing _)) as (H1 & _ & H2 & _).
  split; [|exact H1]. apply H2. exists [123; 125], [7]. split; [reflexivity|]. split; [set_solver|cbn [length]; unfold MaxRequest; lia].
Defined.

(** ** Slots *)

Record server_ok (s : Server) : Prop := {
  so_slots : (length (slots s) ≤ slotCount)%nat;
  so_all : slots s ++ served s ++ refused s ≡ₚ seq 0 (accepted s);
}.

Lemma filter_remove id l :
  NoDup l → id ∈ l → id :: List.filter (λ j, negb (j =? id)%nat) l ≡ₚ l.
Proof.
  induction l as [|k l IH]; intros Hn Hin; [by apply elem_of_nil in Hin|]. apply NoDup_cons in Hn as [Hk Hn].
  cbn [List.filter]. destruct (Nat.eqb_spec k id) as [->|Hne]; cbn [negb].
  - f_equiv. clear IH Hin Hn. induction l as [|m l IHl]; [done|]. apply not_elem_of_cons in Hk as [H1 H2].
    cbn [List.filter]. destruct (Nat.eqb_spec m id); [congruence|]. cbn [negb]. by rewrite IHl.
  - apply elem_of_cons in Hin as [->|Hin]; [done|]. rewrite Permutation_swap, IH; done.
Qed.

Lemma server_step_ok s e : server_ok s → server_ok (server_step s e).
Proof.
  intros [Hs Ha]. destruct e as [|id]; unfold server_step; cbv zeta.
  - case_bool_decide as Hl; split; cbn -[seq] in *; try lia;
      rewrite seq_S, <- Ha; cbn [Nat.add]; solve_Permutation.
  - case_bool_decide as Hin; [|by split]. assert (Hn : NoDup (slots s)).
    { assert (Hnd : NoDup (slots s ++ served s ++ refused s)) by (rewrite Ha; apply NoDup_seq). by apply NoDup_app in Hnd as [? _]. }
    pose proof (filter_remove id (slots s) Hn Hin) as Hf. split; cbn.
    + apply Permutation_length in Hf. cbn in Hf. lia.
    + rewrite <- Ha. etrans; [|apply Permutation_app_tail; exact Hf]. solve_Permutation.
Qed.

(** At most sixteen connections are served at a time, and none is lost.
    After any history, every accepted connection is in exactly one place:
    being served, served, or refused; a connection is refused exactly when all
    sixteen slots are taken, is served otherwise, and its slot is free again
    when its goroutine returns. *)
Theorem server_slots (es : list ServerEvent) :
  let s := run server_step newServer es in
  (length (slots s) ≤ 16)%nat ∧
  NoDup (slots s ++ served s ++ refused s) ∧
  (∀ id, id ∈ slots s ++ served s ++ refused s ↔ (id < accepted s)%nat) ∧
  (let s' := server_step s Accepted in
   if bool_decide (length (slots s) = 16%nat) then slots s' = slots s ∧ accepted s ∈ refused s'
   else accepted s ∈ slots s' ∧ refused s' = refused s) ∧
  (∀ id, id ∈ slots s → id ∉ slots (server_step s (Done id)) ∧ id ∈ served (server_step s (Done id))).
Proof.
  intros s. assert (Hok : server_ok s).
  { apply (run_invariant server_step server_ok (λ _, True)); [intros; by apply server_step_ok| |by apply Forall_true].
    split; [cbn; lia|apply Permutation_refl]. }
  destruct Hok as [Hl Ha]. assert (Hn : NoDup (slots s ++ served s ++ refused s)) by (rewrite Ha; apply NoDup_seq).
  split; [done|]. split; [done|]. split.
  { intros id. rewrite Ha, elem_of_seq. lia. }
  split.
  - unfold server_step. cbv zeta. destruct s as [a sl se re]. cbn in *. unfold slotCount in *.
    repeat case_bool_decide; cbn in *; try lia; (split; [by left || done|by left || done]).
  - intros id Hin. unfold server_step. rewrite bool_decide_eq_true_2 by done. cbn. split; [|by left].
    rewrite list_elem_of_In, filter_In, negb_true_iff, Nat.eqb_neq. tauto.
Qed.
