(* ===== verification/WireFormat.v ===== *)
(** * What the programs write and read as JSON

    The messages of the control socket ([handle] of
    [internal/clockcontrol/server.go] and [coordinatorRequest] of
    [internal/service/clock_coordinator.go]), the state file ([persist] and
    [NewEngine] of [internal/clockcontrol/engine.go]) and the inhibitors of the
    Redis hash ([internal/inhibitor/redis.go]), byte by byte.  They instantiate
    the decoders that [Server], [ClockClient], [ClockEngine] and [Inhibitor]
    leave open. *)

From S2P Require Import Prelude GoInt GoTime GoFloat GoText GoDuration GoFlag GoJson JsonFacts FloatText FloatShortest.
From S2P Require Import Inhibitor ClockProto ClockClient ClockEngine ClockEngineFacts ClockEngineSafety ClockEngineTypes Server.
From Stdlib Require Import SpecFloat.

(** ** Requests *)

#[export] Instance eta_Request : Eta Request := λ r,
  mkRequest (Op r) (RqBootID r) (RqGeneration r) (RqSource r) (UTCUnixNS r) (ReceiptBootNS r) (DeadlineBootNS r)
    (SampleAgeNS r) (UncertaintyNS r).

Definition requestFields : list (Field Request) :=
  [mkField "op" (scalar readStr (λ v r, r <| Op := v |>));
   mkField "boot_id" (scalar readStr (λ v r, r <| RqBootID := v |>));
   mkField "generation" (scalar readUint (λ v r, r <| RqGeneration := v |>));
   mkField "source" (scalar readStr (λ v r, r <| RqSource := v |>));
   mkField "utc_unix_ns" (scalar (readInt 64) (λ v r, r <| UTCUnixNS := v |>));
   mkField "receipt_boot_ns" (scalar (readInt 64) (λ v r, r <| ReceiptBootNS := v |>));
   mkField "deadline_boot_ns" (scalar (readInt 64) (λ v r, r <| DeadlineBootNS := v |>));
   mkField "sample_age_ns" (scalar (readInt 64) (λ v r, r <| SampleAgeNS := v |>));
   mkField "uncertainty_ns" (scalar (readInt 64) (λ v r, r <| UncertaintyNS := v |>))].

Definition requestMembers (r : Request) : list (list Z * json) :=
  member "op" (str (Op r))
  :: omitempty (RqBootID r =s "") "boot_id" (str (RqBootID r))
  ++ omitempty (RqGeneration r =? 0) "generation" (uint (RqGeneration r))
  ++ omitempty (RqSource r =s "") "source" (str (RqSource r))
  ++ omitempty (UTCUnixNS r =? 0) "utc_unix_ns" (int (UTCUnixNS r))
  ++ omitempty (ReceiptBootNS r =? 0) "receipt_boot_ns" (int (ReceiptBootNS r))
  ++ omitempty (DeadlineBootNS r =? 0) "deadline_boot_ns" (int (DeadlineBootNS r))
  ++ omitempty (SampleAgeNS r =? 0) "sample_age_ns" (int (SampleAgeNS r))
  ++ omitempty (UncertaintyNS r =? 0) "uncertainty_ns" (int (UncertaintyNS r)) ++ [].

(** What the service writes; an encoder ends a value with a line break. *)
Definition encodeRequest (r : Request) : list Z := print (JObj (requestMembers r)) ++ [10].

(** What [handle] reads of a line: one value, no unknown member, nothing
    behind it. *)
Definition decodeRequest (line : list Z) : option Request :=
  match decodeStream line with
  | None => None
  | Some (j, rest) =>
      match decodeStruct true requestFields j (opRequest "") with
      | None => None
      | Some r => if onlySpace rest then Some r else None
      end
  end.

(** A request with the widths of its fields, and as it is read back. *)
Record typed_request (r : Request) : Prop := {
  tr_generation : is_u64 (RqGeneration r);
  tr_utc : is_i64 (UTCUnixNS r);
  tr_receipt : is_i64 (ReceiptBootNS r);
  tr_deadline : is_i64 (DeadlineBootNS r);
  tr_age : is_i64 (SampleAgeNS r);
  tr_uncertainty : is_i64 (UncertaintyNS r);
}.

Definition cleanRequest (r : Request) : Request :=
  r <| Op := cleanStr (Op r) |> <| RqBootID := cleanStr (RqBootID r) |> <| RqSource := cleanStr (RqSource r) |>.

Lemma wf_object ms : Forall (λ kv, wf kv.2) ms → wf (JObj ms).
Proof. apply wf_obj. Qed.

Lemma wf_omitempty (empty : bool) name v : wf v → Forall (λ kv, wf kv.2) (omitempty empty name v).
Proof. intros H. destruct empty; repeat constructor. done. Qed.

Lemma is_i64_abs v : is_i64 v → Z.abs v < 10 ^ 20.
Proof. intros. tlia. Qed.

Lemma wf_requestMembers r : typed_request r → wf (JObj (requestMembers r)).
Proof.
  intros []. apply wf_obj. unfold requestMembers. constructor; [constructor|].
  rewrite !Forall_app. repeat split; try apply wf_omitempty; try (by constructor);
    first [apply wf_int, is_i64_abs; assumption | apply wf_uint; unfold is_u64 in *; lia].
Qed.

(** Reading back one member of each kind. *)
Section scalars.
Context {C : Type} (strict : bool) (fields : list (Field C)).

Definition set_all (ms : list (list Z * json)) (c : C) : option C := setMembers strict fields (map cleanMember ms) c.
Definition is_field (name : string) (f : json → C → option C) : Prop :=
  ∃ name', findField fields (toValid (bytes name)) = Some (mkField name' f).

Lemma set_str name put v c ms :
  is_field name (scalar readStr put) → set_all (member name (str v) :: ms) c = set_all ms (put (cleanStr v) c).
Proof. intros [name' Hf]. by eapply set_member. Qed.

Lemma set_bool name put v c ms :
  is_field name (scalar readBool put) → set_all (member name (JBool v) :: ms) c = set_all ms (put v c).
Proof. intros [name' Hf]. by eapply set_member. Qed.

Lemma set_int name put bits v c ms : 0 < bits ≤ 64 → - 2 ^ (bits - 1) ≤ v < 2 ^ (bits - 1) →
  is_field name (scalar (readInt bits) put) → set_all (member name (int v) :: ms) c = set_all ms (put v c).
Proof.
  intros Hb Hv [name' Hf]. eapply set_member; [done|]. cbn [fd_set]. unfold scalar.
  change (clean (int v)) with (int v). by rewrite readInt_int.
Qed.

Lemma set_i64 name put v c ms : is_i64 v →
  is_field name (scalar (readInt 64) put) → set_all (member name (int v) :: ms) c = set_all ms (put v c).
Proof. intros Hv. apply set_int; [lia|]. unfold is_i64, minInt64, maxInt64 in Hv. lia. Qed.

Lemma set_uint name put v c ms : is_u64 v →
  is_field name (scalar readUint put) → set_all (member name (uint v) :: ms) c = set_all ms (put v c).
Proof.
  intros Hv [name' Hf]. eapply set_member; [done|]. cbn [fd_set]. unfold scalar.
  change (clean (uint v)) with (uint v). by rewrite readUint_uint.
Qed.

Lemma set_float name put v l c ms : canonical v = true → FormatFloat v = Some l →
  is_field name (scalar readFloat put) → set_all (member name (JNum l) :: ms) c = set_all ms (put v c).
Proof.
  intros Hc Hv [name' Hf]. apply FormatFloat_reads in Hv as [_ Hv]; [|done].
  eapply set_member; [done|]. cbn [fd_set clean]. unfold scalar. cbn [readFloat]. by rewrite Hv.
Qed.

(** The same for members that are left out when empty. *)
Lemma omit_str name put v c ms : is_field name (scalar readStr put) → put "" c = c →
  set_all (omitempty (v =s "") name (str v) ++ ms) c = set_all ms (put (cleanStr v) c).
Proof. intros Hf H. unfold omitempty. streq_case; [|by apply set_str]. subst. change (cleanStr "") with "". by rewrite H. Qed.

Lemma omit_i64 name put v c ms : is_i64 v → is_field name (scalar (readInt 64) put) → put 0 c = c →
  set_all (omitempty (v =? 0) name (int v) ++ ms) c = set_all ms (put v c).
Proof.
  intros Hv Hf H. unfold omitempty. destruct (Z.eqb_spec v 0) as [->|]; [by rewrite H|]. by apply set_i64.
Qed.

Lemma omit_uint name put v c ms : is_u64 v → is_field name (scalar readUint put) → put 0 c = c →
  set_all (omitempty (v =? 0) name (uint v) ++ ms) c = set_all ms (put v c).
Proof.
  intros Hv Hf H. unfold omitempty. destruct (Z.eqb_spec v 0) as [->|]; [by rewrite H|]. by apply set_uint.
Qed.
End scalars.

(** The field a member belongs to, by its position. *)
Ltac field i := eexists; apply (findField_at _ _ i); [reflexivity|vm_compute; reflexivity|vm_compute; reflexivity].

Lemma decode_requestMembers r : typed_request r →
  decodeStruct true requestFields (clean (JObj (requestMembers r))) (opRequest "") = Some (cleanRequest r).
Proof.
  intros []. change (set_all true requestFields (requestMembers r) (opRequest "") = Some (cleanRequest r)).
  unfold requestMembers.
  erewrite set_str by field 0%nat.
  erewrite omit_str; [|field 1%nat|reflexivity].
  erewrite omit_uint; [|done|field 2%nat|reflexivity].
  erewrite omit_str; [|field 3%nat|reflexivity].
  erewrite omit_i64; [|done|field 4%nat|reflexivity].
  erewrite omit_i64; [|done|field 5%nat|reflexivity].
  erewrite omit_i64; [|done|field 6%nat|reflexivity].
  erewrite omit_i64; [|done|field 7%nat|reflexivity].
  erewrite omit_i64; [|done|field 8%nat|reflexivity].
  reflexivity.
Qed.

Lemma flat_depth ms : Forall (λ kv, depth kv.2 = O) ms → (depth (JObj ms) ≤ maxNestingDepth)%nat.
Proof.
  intros H. cbn [depth]. assert (Hm : (list_max (map (λ kv, depth kv.2) ms) ≤ 0)%nat); [|unfold maxNestingDepth; lia].
  apply list_max_le, Forall_map. eapply Forall_impl; [exact H|]. intros kv ->. done.
Qed.

Lemma requestMembers_flat r : Forall (λ kv, depth kv.2 = O) (requestMembers r).
Proof.
  unfold requestMembers, omitempty. constructor; [done|]. rewrite !Forall_app.
  repeat split; try constructor; match goal with |- Forall _ (if ?b then _ else _) => destruct b end; by repeat constructor.
Qed.

Lemma encodeRequest_read r rest : typed_request r →
  decodeStream (print (JObj (requestMembers r)) ++ 10 :: rest) = Some (clean (JObj (requestMembers r)), 10 :: rest).
Proof.
  intros Hr. apply decodeStream_print; [by apply wf_requestMembers|apply flat_depth, requestMembers_flat|done].
Qed.

Lemma decode_encodeRequest r : typed_request r → decodeRequest (encodeRequest r) = Some (cleanRequest r).
Proof.
  intros Hr. unfold decodeRequest, encodeRequest. rewrite encodeRequest_read by done.
  rewrite decode_requestMembers by done. done.
Qed.

(** What is decoded has the widths of its fields. *)
Lemma setMembers_invariant {C} (P : C → Prop) strict (fields : list (Field C)) :
  (∀ f v c c', f ∈ fields → P c → fd_set f v c = Some c' → P c') →
  ∀ ms c c', P c → setMembers strict fields ms c = Some c' → P c'.
Proof.
  intros Hf ms. induction ms as [|[k v] ms IH]; intros c c' Hc; cbn [setMembers]; [by intros [= <-]|].
  destruct (findField fields k) as [f|] eqn:E; [|destruct strict; [done|by apply IH]].
  destruct (fd_set f v c) as [c1|] eqn:Es; [|done]. cbn. apply IH. eapply Hf; [|done..].
  unfold findField in E. destruct (List.find _ _) eqn:E1 in E; [injection E as ->; by apply List.find_some in E1 as [E1 _]; apply list_elem_of_In|].
  apply List.find_some in E as [E _]. by apply list_elem_of_In.
Qed.

Lemma scalar_invariant {C A} (P : C → Prop) (Q : A → Prop) read (put : A → C → C) j c c' :
  (∀ a, read j = Some a → Q a) → (∀ a, Q a → P c → P (put a c)) → P c → scalar read put j c = Some c' → P c'.
Proof.
  intros Hq Hp Hc. unfold scalar. destruct j; [by intros [= <-]|..];
    (intros Hs; apply fmap_Some in Hs as (a & Ha & ->); by apply Hp; [apply Hq|]).
Qed.

Lemma readInt_range j v : readInt 64 j = Some v → is_i64 v.
Proof. destruct j; try done. intros H. apply ParseInt_range in H; [|lia]. unfold is_i64, minInt64, maxInt64. lia. Qed.

Lemma readUint_range j v : readUint j = Some v → is_u64 v.
Proof. destruct j; try done. intros H. by apply ParseUint_range in H. Qed.

Lemma decodeRequest_typed line r : decodeRequest line = Some r → typed_request r.
Proof.
  unfold decodeRequest. destruct (decodeStream line) as [[j rest]|]; [|done].
  destruct (decodeStruct _ _ _ _) as [r'|] eqn:E; [|done]. destruct (onlySpace rest); [|done]. intros [= <-].
  assert (H0 : typed_request (opRequest "")) by (split; cbn; unfold is_u64; tlia).
  unfold decodeStruct in E. destruct j; try done; [by injection E as <-|].
  eapply setMembers_invariant; [|exact H0|exact E]. intros f v c c' Hin Hc Hs.
  repeat (apply elem_of_cons in Hin as [->|Hin]); [..|by apply elem_of_nil in Hin]; cbn [fd_set] in Hs;
    first
    [ eapply (scalar_invariant typed_request (λ _, True)); [| |exact Hc|exact Hs]; [done|by intros a _ []; split]
    | eapply (scalar_invariant typed_request is_u64); [| |exact Hc|exact Hs]; [by apply readUint_range|by intros a Ha []; split]
    | eapply (scalar_invariant typed_request is_i64); [| |exact Hc|exact Hs]; [by apply readInt_range|by intros a Ha []; split]].
Qed.

Lemma decodeRequest_ok line r : decodeRequest line = Some r → request_ok r.
Proof. intros H. by apply decodeRequest_typed in H as []. Qed.

(** The coordinator's side: a request within the limit is dispatched as it was
    meant, whatever follows; one that is too long touches nothing. *)
Lemma handle_encoded (r : Request) (wait : option bool) (rest : list Z) (e : Engine) :
  typed_request r →
  handleConn decodeRequest wait (encodeRequest r ++ rest) e
  = if bool_decide (length (encodeRequest r) ≤ MaxRequest)%nat
    then let '(resp, e') := handle wait (Some (cleanRequest r)) e in (Some resp, e')
    else (None, e).
Proof.
  intros Hr. unfold handleConn.
  assert (Hl : one_line (print (JObj (requestMembers r)))) by by apply print_line, wf_requestMembers.
  assert (Hlen : length (encodeRequest r) = S (length (print (JObj (requestMembers r))))).
  { unfold encodeRequest. rewrite length_app. cbn. lia. }
  assert (Hread : readRequest (encodeRequest r ++ rest)
    = if bool_decide (length (encodeRequest r) ≤ MaxRequest)%nat then Some (encodeRequest r) else None).
  { case_bool_decide as Hd.
    - apply readRequest_spec. exists (print (JObj (requestMembers r))), rest. unfold encodeRequest in *.
      rewrite <- app_assoc. repeat split; done || lia.
    - destruct (readRequest _) as [l|] eqn:E; [|done]. apply readRequest_spec in E as (body & rest' & E & Hb & -> & Hlb).
      unfold encodeRequest in E. rewrite <- app_assoc in E. apply newline_unique in E as <-; [|done|done]. lia. }
  rewrite Hread. case_bool_decide; [|done]. rewrite decode_encodeRequest by done.
  unfold mbind, ST_bind. destruct (handle wait (Some (cleanRequest r)) e). done.
Qed.

(** ** Replies *)

Definition qualityFields : list (Field Quality) :=
  [mkField "boot_id" (scalar readStr (λ v q, q <| QBootID := v |>));
   mkField "generation" (scalar readUint (λ v q, q <| QGeneration := v |>));
   mkField "episode" (scalar readStr (λ v q, q <| QEpisode := v |>));
   mkField "outcome" (scalar readStr (λ v q, q <| QOutcome := v |>));
   mkField "preparing" (scalar readBool (λ v q, q <| QPreparing := v |>));
   mkField "nrf_eligible" (scalar readBool (λ v q, q <| QNRFEligible := v |>));
   mkField "nrf_deadline_boot_ns" (scalar (readInt 64) (λ v q, q <| QNRFDeadlineBootNS := v |>));
   mkField "source" (scalar readStr (λ v q, q <| QSource := v |>));
   mkField "external" (scalar readBool (λ v q, q <| QExternal := v |>));
   mkField "age_ns" (scalar (readInt 64) (λ v q, q <| QAgeNS := v |>));
   mkField "residual_seconds" (scalar readFloat (λ v q, q <| QResidual := v |>));
   mkField "uncertainty_seconds" (scalar readFloat (λ v q, q <| QUncertainty := v |>))].

Definition qualityMembers (q : Quality) (residual uncertainty : list Z) : list (list Z * json) :=
  [member "boot_id" (str (QBootID q)); member "generation" (uint (QGeneration q));
   member "episode" (str (QEpisode q)); member "outcome" (str (QOutcome q));
   member "preparing" (JBool (QPreparing q)); member "nrf_eligible" (JBool (QNRFEligible q));
   member "nrf_deadline_boot_ns" (int (QNRFDeadlineBootNS q)); member "source" (str (QSource q));
   member "external" (JBool (QExternal q)); member "age_ns" (int (QAgeNS q));
   member "residual_seconds" (JNum residual); member "uncertainty_seconds" (JNum uncertainty)].

Definition responseMembers (r : Response) (residual uncertainty : list Z) : list (list Z * json) :=
  member "ok" (JBool (ROK r))
  :: omitempty (RError r =s "") "error" (str (RError r))
  ++ [member "quality" (JObj (qualityMembers (RQuality r) residual uncertainty))].

(** What the coordinator writes; a quality that is not a number cannot be
    written, and the connection closes without an answer. *)
Definition encodeResponse (r : Response) : option (list Z) :=
  residual ← FormatFloat (QResidual (RQuality r));
  uncertainty ← FormatFloat (QUncertainty (RQuality r));
  Some (print (JObj (responseMembers r residual uncertainty)) ++ [10]).

(** JSON has no NaN and no infinity. *)
Definition writable (q : Quality) : bool := finite (QResidual q) && finite (QUncertainty q).

(** The raw reply of [coordinatorRequest]: the quality is kept as it is. *)
Record RawReply := mkRaw { raw_ok : bool; raw_error : string; raw_quality : option json }.
#[export] Instance eta_RawReply : Eta RawReply := λ r, mkRaw (raw_ok r) (raw_error r) (raw_quality r).

Definition rawFields : list (Field RawReply) :=
  [mkField "ok" (scalar readBool (λ v r, r <| raw_ok := v |>));
   mkField "error" (scalar readStr (λ v r, r <| raw_error := v |>));
   mkField "quality" (λ j r, Some (r <| raw_quality := Some j |>))].

(** The members of an object read into a map of raw values: of a repeated name
    the last one counts. *)
Fixpoint isLast (k : list Z) (ms : list (list Z * json)) : bool :=
  match ms with
  | [] => true
  | (k', _) :: ms => negb (bool_decide (k' = k)) && isLast k ms
  end.

Definition isNull (j : json) : bool := match j with JNull => true | _ => false end.

Fixpoint presentFields (ms : list (list Z * json)) : list string :=
  match ms with
  | [] => []
  | (k, v) :: ms =>
      (if isLast k ms && negb (isNull v) then [unbytes k] else []) ++ presentFields ms
  end.

Definition fieldsOf (j : json) : list string := match j with JObj ms => presentFields ms | _ => [] end.

(** What the client makes of the bytes it receives. *)
Definition decodeReply (text : list Z) : option Wire :=
  match decodeStream text with
  | None => None
  | Some (j, _) =>
      match decodeStruct false rawFields j (mkRaw false "" None) with
      | None => None
      | Some raw =>
          Some (mkWire (raw_ok raw) (raw_error raw)
            (raw_quality raw ≫= λ q, decodeStruct false qualityFields q zeroQuality)
            (default [] (fieldsOf <$> raw_quality raw)))
      end
  end.

(** ** A reply is read back *)

Definition cleanQuality (q : Quality) : Quality :=
  q <| QBootID := cleanStr (QBootID q) |> <| QEpisode := cleanStr (QEpisode q) |>
    <| QOutcome := cleanStr (QOutcome q) |> <| QSource := cleanStr (QSource q) |>.

Lemma decode_qualityMembers q f1 f2 :
  typed_quality q → FormatFloat (QResidual q) = Some f1 → FormatFloat (QUncertainty q) = Some f2 →
  set_all false qualityFields (qualityMembers q f1 f2) zeroQuality = Some (cleanQuality q).
Proof.
  intros [] H1 H2. unfold qualityMembers.
  erewrite set_str by field 0%nat. erewrite set_uint; [|assumption|field 1%nat].
  erewrite set_str by field 2%nat. erewrite set_str by field 3%nat.
  erewrite set_bool by field 4%nat. erewrite set_bool by field 5%nat.
  erewrite set_i64; [|assumption|field 6%nat]. erewrite set_str by field 7%nat.
  erewrite set_bool by field 8%nat. erewrite set_i64; [|assumption|field 9%nat].
  erewrite (set_float _ _ _ _ (QResidual q)); [|assumption|exact H1|field 10%nat].
  erewrite (set_float _ _ _ _ (QUncertainty q)); [|assumption|exact H2|field 11%nat].
  reflexivity.
Qed.

Lemma wf_responseMembers r f1 f2 : typed_quality (RQuality r) → number f1 → number f2 →
  wf (JObj (responseMembers r f1 f2)).
Proof.
  intros [] H1 H2. apply wf_obj. unfold responseMembers. constructor; [constructor|].
  apply Forall_app. split; [apply wf_omitempty; constructor|]. repeat constructor; cbn; try done;
    first [apply FormatInt_number, is_i64_abs; assumption | apply FormatUint_number; unfold is_u64 in *; lia].
Qed.

Lemma responseMembers_depth r f1 f2 : (depth (JObj (responseMembers r f1 f2)) ≤ maxNestingDepth)%nat.
Proof.
  unfold responseMembers, omitempty.
  assert (H : (depth (JObj (member "ok" (JBool (ROK r)) :: (if RError r =s "" then [] else [member "error" (str (RError r))])
    ++ [member "quality" (JObj (qualityMembers (RQuality r) f1 f2))])) = 2)%nat) by by destruct (RError r =s "").
  rewrite H. unfold maxNestingDepth. lia.
Qed.

(** What has a text. *)
Lemma FormatFloat_finite x : canonical x = true →
  if finite x then ∃ l, FormatFloat x = Some l else FormatFloat x = None.
Proof.
  intros Hc. destruct (finite x) eqn:Ef; [|by destruct x].
  destruct (FormatFloat_correct x Hc) as (l & Hl & _); [by destruct x|]. by exists l.
Qed.

Lemma encodeResponse_writable r : typed_quality (RQuality r) →
  if writable (RQuality r) then ∃ text, encodeResponse r = Some text else encodeResponse r = None.
Proof.
  intros []. unfold writable, encodeResponse. pose proof (FormatFloat_finite _ tq_residual) as H1.
  pose proof (FormatFloat_finite _ tq_uncertainty) as H2.
  destruct (finite (QResidual _)); [destruct H1 as [f1 ->]|by rewrite H1]. cbn [andb mbind option_bind].
  destruct (finite (QUncertainty _)); [destruct H2 as [f2 ->]|by rewrite H2]. by eexists.
Qed.

(** The service reads the coordinator's answer as it was given. *)
Lemma decodeReply_encode r text rest : typed_quality (RQuality r) → encodeResponse r = Some text →
  decodeReply (text ++ rest)
  = Some (mkWire (ROK r) (cleanStr (RError r)) (Some (cleanQuality (RQuality r))) (map fd_name qualityFields)).
Proof.
  intros Hq He. unfold encodeResponse in He. apply bind_Some in He as (f1 & H1 & He).
  apply bind_Some in He as (f2 & H2 & He). apply (inj Some) in He as <-.
  pose proof (FormatFloat_reads _ _ (tq_residual _ Hq) H1) as [Hn1 _].
  pose proof (FormatFloat_reads _ _ (tq_uncertainty _ Hq) H2) as [Hn2 _].
  unfold decodeReply. rewrite <- app_assoc. change ([10] ++ rest) with (10 :: rest).
  rewrite decodeStream_print; [|by apply wf_responseMembers|apply responseMembers_depth|done].
  assert (Hraw : decodeStruct false rawFields (clean (JObj (responseMembers r f1 f2))) (mkRaw false "" None)
    = Some (mkRaw (ROK r) (cleanStr (RError r)) (Some (clean (JObj (qualityMembers (RQuality r) f1 f2)))))).
  { change (set_all false rawFields (responseMembers r f1 f2) (mkRaw false "" None)
      = Some (mkRaw (ROK r) (cleanStr (RError r)) (Some (clean (JObj (qualityMembers (RQuality r) f1 f2)))))).
    unfold responseMembers. erewrite set_bool by field 0%nat. erewrite omit_str; [|field 1%nat|reflexivity].
    unfold set_all. erewrite set_member;
      [|apply (findField_at _ _ 2%nat); [reflexivity|vm_compute; reflexivity..]|reflexivity]. reflexivity. }
  rewrite Hraw. cbn [raw_ok raw_error raw_quality mbind option_bind fmap option_fmap default].
  f_equal. f_equal.
  - by apply decode_qualityMembers.
Qed.

(** The strings of a list between quotation marks, the odd ones quoted. *)
Definition dq (l : list string) : string := String (chr 34) (String.concat (String (chr 34) "") l +:+ String (chr 34) "").

(** ** The waiting client

    [cmd/clock-coordinator/main.go] writes a fixed line and decodes the reply
    into a [Response]. *)

#[export] Instance eta_Response : Eta Response := λ r, mkResponse (ROK r) (RError r) (RQuality r).

Definition statusLine : list Z := bytes ("{" +:+ dq ["op"; ":"; "status"] +:+ "}") ++ [10].

Definition responseFields : list (Field Response) :=
  [mkField "ok" (scalar readBool (λ v r, r <| ROK := v |>));
   mkField "error" (scalar readStr (λ v r, r <| RError := v |>));
   mkField "quality" (λ j r, (λ q, r <| RQuality := q |>) <$> decodeStruct false qualityFields j (RQuality r))].

Definition decodeResponse (text : list Z) : option Response :=
  match decodeStream text with
  | None => None
  | Some (j, _) => decodeStruct false responseFields j (mkResponse false "" zeroQuality)
  end.

(** It asks for the status as the service does, and reads what is answered. *)
Lemma statusLine_request : statusLine = encodeRequest (opRequest "status").
Proof. vm_compute. reflexivity. Qed.

Lemma decodeResponse_encode r text rest : typed_quality (RQuality r) → encodeResponse r = Some text →
  decodeResponse (text ++ rest) = Some (mkResponse (ROK r) (cleanStr (RError r)) (cleanQuality (RQuality r))).
Proof.
  intros Hq He. unfold encodeResponse in He. apply bind_Some in He as (f1 & H1 & He).
  apply bind_Some in He as (f2 & H2 & He). apply (inj Some) in He as <-.
  pose proof (FormatFloat_reads _ _ (tq_residual _ Hq) H1) as [Hn1 _].
  pose proof (FormatFloat_reads _ _ (tq_uncertainty _ Hq) H2) as [Hn2 _].
  unfold decodeResponse. rewrite <- app_assoc. change ([10] ++ rest) with (10 :: rest).
  rewrite decodeStream_print; [|by apply wf_responseMembers|apply responseMembers_depth|done].
  change (set_all false responseFields (responseMembers r f1 f2) (mkResponse false "" zeroQuality)
    = Some (mkResponse (ROK r) (cleanStr (RError r)) (cleanQuality (RQuality r)))).
  unfold responseMembers. erewrite set_bool by field 0%nat. erewrite omit_str; [|field 1%nat|reflexivity].
  pose proof (decode_qualityMembers _ _ _ Hq H1 H2
    : decodeStruct false qualityFields (clean (JObj (qualityMembers (RQuality r) f1 f2))) zeroQuality = _) as HQ.
  transitivity (set_all false responseFields [member "quality" (JObj (qualityMembers (RQuality r) f1 f2))]
    (mkResponse (ROK r) (cleanStr (RError r)) zeroQuality)); [reflexivity|].
  unfold set_all. erewrite set_member;
    [|apply (findField_at _ _ 2%nat); [reflexivity|vm_compute; reflexivity..]
     |cbn [fd_set RQuality]; rewrite HQ; reflexivity].
  reflexivity.
Qed.

(** ** A call over the socket *)

(** [coordinatorRequest] and [handle] connected: the two readings of the clock
    around the call, and the coordinator after it. *)
Definition callOver (wait : option bool) (started finished : option Z) (req : Request) (e : Engine) : Exchange * Engine :=
  let '(resp, e') := handleConn decodeRequest wait (encodeRequest req) e in
  let wire := match resp with
              | None => None
              | Some resp => match encodeResponse resp with Some text => decodeReply text | None => None end
              end in
  (mkExchange started wire finished, e').

Lemma clean_request_ok r : typed_request r → request_ok (cleanRequest r).
Proof. by intros []. Qed.

(** C9: a call of the service over the socket, from the fields of the request
    to the fields of the answer, both texts included.  A reachable coordinator
    performs exactly the requested operation, unless the request is over its
    limit of 4096 bytes; then it does nothing.  The service gets the
    coordinator's quality exactly when the operation was performed without an
    error and the quality has no NaN or infinity in it; a status passes the
    service's checks of completeness, transit and age on exactly the quality
    that was reported. *)
Theorem callOver_spec (req : Request) (wait : option bool) (started finished : option Z) (e e' : Engine) (resp : Response) :
  typed_request req → ereachable e → handle wait (Some (cleanRequest req)) e = (resp, e') →
  let fits := bool_decide (length (encodeRequest req) ≤ MaxRequest)%nat in
  (callOver wait started finished req e).2 = (if fits then e' else e) ∧
  coordinatorRequest req (callOver wait started finished req e).1 =
    match started with
    | None => None
    | Some t0 =>
        if fits && writable (RQuality resp) then
          q ← (if Op req =s "status"
               then finishStatus t0 finished required_fields (cleanQuality (RQuality resp))
               else Some (cleanQuality (RQuality resp)));
          if ROK resp then Some q else None
        else None
    end.
Proof.
  intros Hr He Hh fits. destruct (handle_typed _ (Some (cleanRequest req)) _ _ _ He (clean_request_ok req Hr) Hh) as [_ Hq].
  unfold callOver. rewrite <- (app_nil_r (encodeRequest req)), handle_encoded by done. fold fits.
  destruct fits; [|split; [done|]; unfold coordinatorRequest; cbn; by destruct started].
  rewrite Hh. split; [done|]. unfold coordinatorRequest. cbn [ex_started ex_wire ex_finished fst andb].
  destruct started as [t0|]; [|done]. pose proof (encodeResponse_writable resp Hq) as Hw.
  destruct (writable (RQuality resp)); [destruct Hw as [text Et]; rewrite Et|by rewrite Hw].
  pose proof (decodeReply_encode resp text [] Hq Et) as Hd. rewrite app_nil_r in Hd. rewrite Hd. cbn [wr_ok wr_quality wr_fields].
  replace (finishStatus t0 finished (map fd_name qualityFields)) with (finishStatus t0 finished required_fields) by done.
  destruct (Op req =s "status"); [destruct (finishStatus _ _ _ _)|]; cbn; by destruct (ROK resp).
Qed.

(** ** The state file *)

#[export] Instance eta_Sample : Eta Sample := λ s, mkSample (Receipt s) (SAge s) (SUncertainty s).

Definition zeroSample : Sample := mkSample 0 0 0.

Definition sampleFields : list (Field Sample) :=
  [mkField "receipt_boot_ns" (scalar (readInt 64) (λ v s, s <| Receipt := v |>));
   mkField "age_ns" (scalar (readInt 64) (λ v s, s <| SAge := v |>));
   mkField "uncertainty_ns" (scalar (readInt 64) (λ v s, s <| SUncertainty := v |>))].

Definition sampleMembers (s : Sample) : list (list Z * json) :=
  [member "receipt_boot_ns" (int (Receipt s)); member "age_ns" (int (SAge s)); member "uncertainty_ns" (int (SUncertainty s))].

(** The members of an object are added to the map, each read from zero; a null
    empties the map. *)
Fixpoint putSamples (ms : list (list Z * json)) (m : gmap string Sample) : option (gmap string Sample) :=
  match ms with
  | [] => Some m
  | (k, v) :: ms =>
      s ← decodeStruct false sampleFields v zeroSample;
      putSamples ms (<[unbytes k := s]> m)
  end.

Definition readSamples (j : json) (s : EState) : option EState :=
  match j with
  | JNull => Some (s <| Samples := ∅ |>)
  | JObj ms => (λ m, s <| Samples := m |>) <$> putSamples ms (Samples s)
  | _ => None
  end.

Definition stateFields : list (Field EState) :=
  [mkField "boot_id" (scalar readStr (λ v s, s <| BootID := v |>));
   mkField "generation" (scalar readUint (λ v s, s <| Generation := v |>));
   mkField "episode" (scalar readStr (λ v s, s <| Episode := v |>));
   mkField "deadline_boot_ns" (scalar (readInt 64) (λ v s, s <| Deadline := v |>));
   mkField "outcome" (scalar readStr (λ v s, s <| Outcome := v |>));
   mkField "attempts" (scalar (readInt intSize) (λ v s, s <| Attempts := v |>));
   mkField "late_used" (scalar readBool (λ v s, s <| LateUsed := v |>));
   mkField "late_holdover_used" (scalar readBool (λ v s, s <| LateHoldoverUsed := v |>));
   mkField "external_established" (scalar readBool (λ v s, s <| ExternalEstablished := v |>));
   mkField "external_after_boot_ns" (scalar (readInt 64) (λ v s, s <| ExternalAfterBoot := v |>));
   mkField "preparing" (scalar readBool (λ v s, s <| Preparing := v |>));
   mkField "prepare_baseline_valid" (scalar readBool (λ v s, s <| PrepareBaselineValid := v |>));
   mkField "prepare_utc_ns" (scalar (readInt 64) (λ v s, s <| PrepareUTC := v |>));
   mkField "prepare_boot_ns" (scalar (readInt 64) (λ v s, s <| PrepareBoot := v |>));
   mkField "dispatch_boot_ns" (scalar (readInt 64) (λ v s, s <| DispatchBoot := v |>));
   mkField "dispatch_utc_ns" (scalar (readInt 64) (λ v s, s <| DispatchUTC := v |>));
   mkField "dispatch_residual_seconds" (scalar readFloat (λ v s, s <| DispatchResidual := v |>));
   mkField "dispatch_source" (scalar readStr (λ v s, s <| DispatchSource := v |>));
   mkField "dispatch_sample" (λ j s, (λ d, s <| DispatchSample := d |>) <$> decodeStruct false sampleFields j (DispatchSample s));
   mkField "samples" readSamples].

(** A map is written in the order of its keys. *)
Fixpoint insertSorted (kv : string * Sample) (l : list (string * Sample)) : list (string * Sample) :=
  match l with
  | [] => [kv]
  | kv' :: l' => if String.leb kv.1 kv'.1 then kv :: l else kv' :: insertSorted kv l'
  end.

Definition sortedSamples (m : gmap string Sample) : list (string * Sample) := foldr insertSorted [] (map_to_list m).

Definition sampleMember (kv : string * Sample) : list Z * json := member kv.1 (JObj (sampleMembers kv.2)).

Definition stateMembers (s : EState) (residual : list Z) : list (list Z * json) :=
  [member "boot_id" (str (BootID s)); member "generation" (uint (Generation s)); member "episode" (str (Episode s));
   member "deadline_boot_ns" (int (Deadline s)); member "outcome" (str (Outcome s));
   member "attempts" (int (Attempts s)); member "late_used" (JBool (LateUsed s));
   member "late_holdover_used" (JBool (LateHoldoverUsed s));
   member "external_established" (JBool (ExternalEstablished s));
   member "external_after_boot_ns" (int (ExternalAfterBoot s)); member "preparing" (JBool (Preparing s));
   member "prepare_baseline_valid" (JBool (PrepareBaselineValid s)); member "prepare_utc_ns" (int (PrepareUTC s));
   member "prepare_boot_ns" (int (PrepareBoot s)); member "dispatch_boot_ns" (int (DispatchBoot s));
   member "dispatch_utc_ns" (int (DispatchUTC s)); member "dispatch_residual_seconds" (JNum residual);
   member "dispatch_source" (str (DispatchSource s));
   member "dispatch_sample" (JObj (sampleMembers (DispatchSample s)))]
  ++ omitempty (bool_decide (Samples s = ∅)) "samples" (JObj (map sampleMember (sortedSamples (Samples s)))).

(** [json.Marshal] in [persist]: the bytes of the file, [None] when the
    residual is not a number. *)
Definition encodeState (s : EState) : option (list Z) :=
  residual ← FormatFloat (DispatchResidual s);
  Some (print (JObj (stateMembers s residual))).

(** [json.Unmarshal] in [NewEngine]. *)
Definition zeroState : EState :=
  mkEState "" 0 "" 0 "" 0 false false false 0 false false 0 0 0 0 (S754_zero false) "" zeroSample ∅.

Definition parseState (text : list Z) : FileRead :=
  match unmarshalText text with
  | None => FInvalid
  | Some j =>
      match decodeStruct false stateFields j zeroState with
      | Some s => FState s
      | None => FInvalid
      end
  end.

(** A state with the widths of its fields and well-formed texts. *)
Record typed_state (s : EState) : Prop := {
  ts_generation : is_u64 (Generation s);
  ts_times : Forall is_i64 [Deadline s; ExternalAfterBoot s; PrepareUTC s; PrepareBoot s; DispatchBoot s; DispatchUTC s];
  ts_attempts : - 2 ^ 31 ≤ Attempts s < 2 ^ 31;
  ts_residual : canonical (DispatchResidual s) = true;
  ts_sample : typed_sample (DispatchSample s);
  ts_samples : map_Forall (λ k v, cleanStr k = k ∧ typed_sample v) (Samples s);
  ts_texts : Forall (λ t, cleanStr t = t) [BootID s; Episode s; Outcome s; DispatchSource s];
}.

(** *** Samples *)

Lemma insertSorted_perm kv l : insertSorted kv l ≡ₚ kv :: l.
Proof.
  induction l as [|kv' l IH]; cbn; [done|]. destruct (String.leb _ _); [done|]. rewrite IH. by apply perm_swap.
Qed.

Lemma sortedSamples_perm m : sortedSamples m ≡ₚ map_to_list m.
Proof.
  unfold sortedSamples. induction (map_to_list m) as [|kv l IH]; [done|]. cbn. by rewrite insertSorted_perm, IH.
Qed.

Lemma decode_sample s : typed_sample s → ∀ s0, set_all false sampleFields (sampleMembers s) s0 = Some s.
Proof.
  intros (H1 & H2 & H3) s0. unfold sampleMembers.
  erewrite set_i64; [|assumption|field 0%nat]. erewrite set_i64; [|assumption|field 1%nat].
  erewrite set_i64; [|assumption|field 2%nat]. destruct s, s0. reflexivity.
Qed.

Lemma wf_sample s : typed_sample s → wf (JObj (sampleMembers s)).
Proof.
  intros (H1 & H2 & H3). apply wf_obj. repeat constructor; apply FormatInt_number, is_i64_abs; done.
Qed.

Lemma putSamples_sorted l : Forall (λ kv, cleanStr kv.1 = kv.1 ∧ typed_sample kv.2) l → NoDup l.*1 → ∀ m,
  putSamples (map cleanMember (map sampleMember l)) m = Some (list_to_map l ∪ m).
Proof.
  induction l as [|[k v] l IH]; intros Hl Hn m; cbn [map]; [cbn; by rewrite (left_id_L ∅ (∪))|].
  inversion Hl as [|? ? [Hk Hv] Hl']; subst. inversion Hn as [|? ? Hnk Hn']; subst. cbn [fst snd] in *.
  change (cleanMember (sampleMember (k, v))) with (toValid (bytes k), clean (JObj (sampleMembers v))).
  cbn [putSamples]. change (decodeStruct false sampleFields (clean (JObj (sampleMembers v))) zeroSample)
    with (set_all false sampleFields (sampleMembers v) zeroSample).
  rewrite decode_sample by done. cbn [mbind option_bind]. rewrite IH by done. f_equal.
  change (unbytes (toValid (bytes k))) with (cleanStr k). rewrite Hk. cbn [list_to_map foldr].
  change (foldr (λ p, <[p.1:=p.2]>) ∅ l) with (list_to_map (M := gmap string Sample) l).
  rewrite <- insert_union_l, insert_union_r; [done|]. by apply not_elem_of_list_to_map_1.
Qed.

Lemma readSamples_sorted s s0 : Samples s0 = ∅ → map_Forall (λ k v, cleanStr k = k ∧ typed_sample v) (Samples s) →
  readSamples (clean (JObj (map sampleMember (sortedSamples (Samples s))))) s0 = Some (s0 <| Samples := Samples s |>).
Proof.
  intros H0 Hs. pose proof (sortedSamples_perm (Samples s)) as Hp. unfold readSamples.
  change (clean (JObj ?l)) with (JObj (map cleanMember l)). cbv iota beta. rewrite putSamples_sorted, H0, (right_id_L ∅ (∪)).
  - cbn. rewrite (list_to_map_proper _ (map_to_list (Samples s))); [by rewrite list_to_map_to_list| |done].
    rewrite Hp. apply NoDup_fst_map_to_list.
  - rewrite Hp. apply Forall_forall. intros [k v] Hkv. apply elem_of_map_to_list in Hkv. exact (Hs k v Hkv).
  - rewrite Hp. apply NoDup_fst_map_to_list.
Qed.

(** *** The whole file *)

Lemma decode_stateMembers s f : typed_state s → FormatFloat (DispatchResidual s) = Some f →
  set_all false stateFields (stateMembers s f) zeroState = Some s.
Proof.
  intros [Hg Ht Ha Hr Hd Hs Hx] Hf. unfold stateMembers. cbn [app].
  repeat (apply Forall_cons in Ht as [? Ht]).
  apply Forall_cons in Hx as [Hx1 Hx]. apply Forall_cons in Hx as [Hx2 Hx]. apply Forall_cons in Hx as [Hx3 Hx]. apply Forall_cons in Hx as [Hx4 _].
  erewrite set_str by field 0%nat. erewrite set_uint; [|assumption|field 1%nat].
  erewrite set_str by field 2%nat. erewrite set_i64; [|assumption|field 3%nat].
  erewrite set_str by field 4%nat. erewrite (set_int _ _ _ _ intSize); [|done|exact Ha|field 5%nat].
  erewrite set_bool by field 6%nat. erewrite set_bool by field 7%nat. erewrite set_bool by field 8%nat.
  erewrite set_i64; [|assumption|field 9%nat]. erewrite set_bool by field 10%nat. erewrite set_bool by field 11%nat.
  erewrite set_i64; [|assumption|field 12%nat]. erewrite set_i64; [|assumption|field 13%nat].
  erewrite set_i64; [|assumption|field 14%nat]. erewrite set_i64; [|assumption|field 15%nat].
  erewrite (set_float _ _ _ _ (DispatchResidual s)); [|assumption|exact Hf|field 16%nat].
  erewrite set_str by field 17%nat. unfold set_all.
  erewrite (set_member _ _ "dispatch_sample");
    [|apply (findField_at _ _ 18%nat); [reflexivity|vm_compute; reflexivity..]
     |cbn [fd_set]; change (decodeStruct false sampleFields (clean (JObj (sampleMembers ?d))) ?d0)
        with (set_all false sampleFields (sampleMembers d) d0); rewrite decode_sample by done; reflexivity].
  match goal with |- setMembers _ _ _ ?c = _ => set (s0 := c) end.
  assert (E0 : s0 <| Samples := Samples s |> = s).
  { subst s0. rewrite Hx1, Hx2, Hx3, Hx4. by destruct s. }
  unfold omitempty. case_bool_decide as Hm.
  - transitivity (Some (s0 <| Samples := ∅ |>)); [done|]. by rewrite <- Hm, E0.
  - rewrite <- (app_nil_r [_]). cbn [app].
    erewrite (set_member _ _ "samples");
      [|apply (findField_at _ _ 19%nat); [reflexivity|vm_compute; reflexivity..]
       |cbn [fd_set]; by apply readSamples_sorted]. by rewrite E0.
Qed.

Lemma wf_stateMembers s f : typed_state s → number f → wf (JObj (stateMembers s f)).
Proof.
  intros [Hg Ht Ha Hr Hd Hs Hx] Hf. repeat (apply Forall_cons in Ht as [? Ht]).
  apply wf_obj. unfold stateMembers. apply Forall_app. split.
  - repeat constructor; cbn; try done; try (by apply FormatInt_number, is_i64_abs);
      first [apply FormatUint_number; unfold is_u64 in *; lia | apply FormatInt_number; lia
            | destruct Hd as (? & ? & ?); by apply FormatInt_number, is_i64_abs].
  - apply wf_omitempty. apply wf_obj. rewrite Forall_map, sortedSamples_perm. apply Forall_forall.
    intros [k v] Hkv. apply elem_of_map_to_list in Hkv. apply wf_sample. by destruct (Hs k v Hkv).
Qed.

Lemma stateMembers_depth s f : (depth (JObj (stateMembers s f)) ≤ maxNestingDepth)%nat.
Proof.
  assert (H : (depth (JObj (stateMembers s f)) ≤ 3)%nat); [|unfold maxNestingDepth; lia].
  cbn [depth]. apply le_n_S. apply list_max_le, Forall_map. unfold stateMembers. apply Forall_app. split.
  - repeat constructor; cbn; lia.
  - unfold omitempty. case_bool_decide; constructor; [|constructor]. cbn [snd member depth]. apply le_n_S.
    apply list_max_le, Forall_map, Forall_map, Forall_true. intros [k v]. cbn. lia.
Qed.

Lemma parse_encodeState s text : typed_state s → encodeState s = Some text → parseState text = FState s.
Proof.
  intros Hs He. unfold encodeState in He. apply bind_Some in He as (f & Hf & He). apply (inj Some) in He as <-.
  pose proof (FormatFloat_reads _ _ (ts_residual _ Hs) Hf) as [Hn _].
  unfold parseState. rewrite unmarshalText_print; [|by apply wf_stateMembers|apply stateMembers_depth].
  by rewrite (decode_stateMembers s f Hs Hf : decodeStruct false stateFields (clean (JObj (stateMembers s f))) zeroState = Some s).
Qed.

Lemma encodeState_finite s : canonical (DispatchResidual s) = true →
  if finite (DispatchResidual s) then ∃ text, encodeState s = Some text else encodeState s = None.
Proof.
  intros Hc. pose proof (FormatFloat_finite _ Hc) as H. unfold encodeState.
  destruct (finite _); [destruct H as [f ->]; by eexists|by rewrite H].
Qed.

Lemma clean_one_of s l : Forall (λ t, cleanStr t = t) l → one_of s l = true → cleanStr s = s.
Proof. intros Hl Hs. apply one_of_spec in Hs. rewrite Forall_forall in Hl. by apply Hl. Qed.

Lemma validSample_key k v : validSample k v = true → cleanStr k = k.
Proof.
  unfold validSample. intros H. repeat (apply andb_true_iff in H as [H _]).
  eapply clean_one_of; [|exact H]. by repeat constructor.
Qed.

(** The states of a run are what the format is made for. *)
Lemma reached_typed n l s : sinv n l s → typed_fields s → cleanStr (BootID s) = BootID s → typed_state s.
Proof.
  intros [Ho [Ha _] _ Hk _] [] Hb. split; try done.
  - repeat (apply Forall_cons; split; [done|]). by apply Forall_nil.
  - lia.
  - intros k v Hv. split; [eapply validSample_key, Hk, Hv|exact (tf_samples k v Hv)].
  - apply Forall_cons. split; [done|].
    repeat (apply Forall_cons; split; [eapply clean_one_of; [|eassumption]; by repeat constructor|]). by apply Forall_nil.
Qed.

(** C17: the state file is read back as it was written.  In every reachable
    state of the coordinator, the boot id being well-formed UTF-8 (the kernel's
    is a UUID), what a crash leaves on disk is a text, and
    reading that text gives exactly the saved state: every field, the residual
    to the last bit and every sample.  And the state in memory can be written
    exactly when its residual is neither NaN nor infinite. *)
Theorem state_file_roundtrip (e : Engine) :
  ereachable e → cleanStr (BootID (state e)) = BootID (state e) →
  (∃ s text, disk e = Some s ∧ encodeState s = Some text ∧ parseState text = file_of (disk e)) ∧
  (is_Some (encodeState (state e)) ↔ finite (DispatchResidual (state e)) = true).
Proof.
  intros He Hb. destruct (ereachable_rinv e He) as ([[_ Hd] _ _] & _ & (_ & (s & Es & Ebs) & _)).
  pose proof (ereachable_tinv e He) as [Hs Hdisk _ _ _]. destruct (Hdisk s Es) as [Hts Hfin]. split.
  - pose proof (encodeState_finite s (tf_residual _ Hts)) as Ht. rewrite Hfin in Ht. destruct Ht as [text Ht].
    exists s, text. split; [done|]. split; [done|]. rewrite Es. eapply parse_encodeState; [|exact Ht].
    eapply reached_typed; [by apply Hd|done|]. by rewrite Ebs.
  - pose proof (encodeState_finite _ (tf_residual _ Hs)) as Ht. destruct (finite (DispatchResidual (state e))).
    + destruct Ht as [text ->]. split; [done|by eexists].
    + rewrite Ht. split; [by intros []|done].
Qed.

(** ** Inhibitors of the Redis hash *)

(** The identifier is the key of the entry; duration and creation time are
    only checked to be integers. *)
Definition inhibitFields : list (Field redisInhibitData) :=
  [mkField "id" (scalar readStr (λ _ d, d));
   mkField "who" (scalar readStr (λ v d, mkRedisInhibit v (rWhat d) (rWhy d) (rType d)));
   mkField "what" (scalar readStr (λ v d, mkRedisInhibit (rWho d) v (rWhy d) (rType d)));
   mkField "why" (scalar readStr (λ v d, mkRedisInhibit (rWho d) (rWhat d) v (rType d)));
   mkField "type" (scalar readStr (λ v d, mkRedisInhibit (rWho d) (rWhat d) (rWhy d) v));
   mkField "duration" (scalar (readInt 64) (λ _ d, d));
   mkField "created" (scalar (readInt 64) (λ _ d, d))].

Definition unmarshalInhibit (raw : string) : option redisInhibitData :=
  match unmarshalText (bytes raw) with
  | None => None
  | Some j => decodeStruct false inhibitFields j (mkRedisInhibit "" "" "" "")
  end.

(** ** Concrete texts *)

(** Unknown members, repeated ones, other letter cases and escapes. *)
Example unmarshalInhibit_ex :
  unmarshalInhibit ("{ " +:+ dq ["WHO"; ": "; "a\u0026b"; ", "; "type"; ":"; "block"; ", "; "type"; ":"; "delay"; ", "; "x"; ":[1e3,{}]}"; ""]) = None ∧
  unmarshalInhibit ("{ " +:+ dq ["WHO"; ": "; "a\u0026b"; ", "; "type"; ":"; "block"; ", "; "type"; ":"; "delay"; ", "; "x"] +:+ ":[1e3,{}]} ")
  = Some (mkRedisInhibit "a&b" "" "" "delay") ∧
  unmarshalInhibit ("{" +:+ dq ["duration"] +:+ ":1.5}") = None ∧ unmarshalInhibit "null" = Some (mkRedisInhibit "" "" "" "") ∧
  unmarshalInhibit "{} {}" = None.
Proof. vm_compute. done. Qed.

Example encodeRequest_ex :
  encodeRequest (tokenRequest "resume" "b<1>" 7)
  = bytes ("{" +:+ dq ["op"; ":"; "resume"; ","; "boot_id"; ":"; "b\u003c1\u003e"; ","; "generation"] +:+ ":7}") ++ [10].
Proof. vm_compute. reflexivity. Qed.

(** A request with an unknown member or with more JSON behind it is refused. *)
Example decodeRequest_ex :
  decodeRequest (bytes ("{" +:+ dq ["op"; ":"; "status"] +:+ "} ") ++ [10]) = Some (opRequest "status") ∧
  decodeRequest (bytes ("{" +:+ dq ["op"; ":"; "status"] +:+ "} 1") ++ [10]) = None ∧
  decodeRequest (bytes ("{" +:+ dq ["op"; ":"; "status"; ","; "extra"] +:+ ":0}") ++ [10]) = None ∧
  decodeRequest (bytes ("{" +:+ dq ["op"; ":"; "submit"; ","; "utc_unix_ns"] +:+ ":9223372036854775808}") ++ [10]) = None.
Proof. vm_compute. done. Qed.

Example FormatFloat_ex :
  List.map (λ x, unbytes <$> FormatFloat x)
    [lit 1 10; lit 2 3; of_Z (-100); of_Z (10 ^ 21); lit 1 10000000; lit 123456789 1000; S754_zero true; S754_nan]
  = [Some "0.1"; Some "0.6666666666666666"; Some "-100"; Some "1e+21"; Some "1e-7"; Some "123456.789"; Some "-0"; None].
Proof. vm_compute. reflexivity. Qed.

Lemma callOver_spec_witness :
  let e := startedEngine None in
  let req := opRequest "prepare" in
  coordinatorRequest req (callOver None (Some 0) None req e).1 = Some (RQuality (handle None (Some req) e).1) ∧
  Preparing (state (callOver None (Some 0) None req e).2) = true.
Proof.
  intros e req. assert (Hr : typed_request req) by (split; unfold is_u64, is_i64, minInt64, maxInt64; cbn; lia).
  destruct (callOver_spec req None (Some 0) None e _ _ Hr (startedEngine_reachable None (or_introl eq_refl))
    (surjective_pairing _)) as [H1 H2].
  rewrite H1, H2. split; vm_compute; reflexivity.
Defined.

Lemma state_file_roundtrip_witness :
  ∃ s text, disk steppedEngine = Some s ∧ Outcome s = "in-flight" ∧ encodeState s = Some text ∧ parseState text = FState s.
Proof.
  destruct (state_file_roundtrip steppedEngine steppedEngine_reachable) as [(s & text & Hs & Ht & Hp) _]; [vm_compute; reflexivity|].
  exists s, text. rewrite Hs in Hp. split; [exact Hs|]. split; [|split; [exact Ht|exact Hp]].
  vm_compute in Hs. injection Hs as <-. reflexivity.
Defined.

(** A state with every kind of field in it. *)
Definition fullState : EState :=
  mkEState "b1" 7 "resume-<3>" 91000000000 "in-flight" 2 true false true (- 5) false true 1700000000000000001 12 13 14
    (lit (-1) 3) "gps" (mkSample 1 2 3) {["user" := mkSample 4 5 6; "gps" := mkSample 7 8 9]}.

Example fullState_ex : (parseState <$> encodeState fullState) = Some (FState fullState).
Proof. vm_compute. reflexivity. Qed.
