(* ===== verification/InhibitorRuns.v ===== *)
(** * What drives the inhibitor manager

    [acceptConnections] of [internal/inhibitor/inhibitor.go], and
    [StartRedisListener] of [internal/inhibitor/redis.go] beside the writers of
    the hash, with the entries read as the JSON they are. *)

From S2P Require Import Prelude GoInt GoTime GoFloat GoText GoDuration GoFlag GoJson JsonFacts FloatText.
From S2P Require Import Inhibitor ClockProto ClockClient ClockEngine ClockEngineFacts ClockEngineSafety Server WireFormat.

(** ** The accept loop *)

Inductive AcceptResult :=
| Accepts (c : Z)       (* a connection *)
| AcceptEnds            (* EINVAL, or use of a closed network connection *)
| AcceptFails.          (* any other error *)

(** The connections that get a handler, and whether the loop has returned; an
    error that does not end it is only logged. *)
Fixpoint acceptConnections (results : list AcceptResult) : list Z * bool :=
  match results with
  | [] => ([], false)
  | Accepts c :: results => let '(cs, ended) := acceptConnections results in (c :: cs, ended)
  | AcceptEnds :: _ => ([], true)
  | AcceptFails :: results => acceptConnections results
  end.

(** The handlers of a run take their steps in some interleaving; each starts
    with its registration. *)
Definition serveConnections (results : list AcceptResult) : list (list conn_step) :=
  map (λ c, handleConnection c true) (acceptConnections results).1.

(** ** The subscription *)

Inductive ListenPhase := Connecting | Listening | NotListening.

Record Listener := mkListener {
  l_hash : gmap string string;     (* in Redis *)
  l_manager : Manager;
  l_phase : ListenPhase;
}.
#[export] Instance eta_Listener : Eta Listener := λ s, mkListener (l_hash s) (l_manager s) (l_phase s).

Inductive ListenEvent :=
| HashChanged (h : gmap string string)   (* a client writes *)
| Announced (readable : bool)            (* a message on the channel, and whether the hash can be read *)
| Subscribed (ok : bool)                 (* [Subscribe] returns *)
| ListenDone.                            (* the context ends *)

Definition sync (readable : bool) (s : Listener) : Listener :=
  s <| l_manager := syncRedisInhibitors unmarshalInhibit (if readable then Some (l_hash s) else None) (l_manager s) |>.

(** The beginning of [StartRedisListener]: one synchronisation, then the
    subscription is asked for. *)
Definition StartRedisListener (readable : bool) (h : gmap string string) (m : Manager) : Listener :=
  sync readable (mkListener h m Connecting).

(** A message is delivered to subscribers only. *)
Definition listen_step (s : Listener) (e : ListenEvent) : Listener :=
  match e, l_phase s with
  | HashChanged h, _ => s <| l_hash := h |>
  | Announced readable, Listening => sync readable s
  | Subscribed ok, Connecting => s <| l_phase := if ok then Listening else NotListening |>
  | ListenDone, Listening => s <| l_phase := NotListening |>
  | _, _ => s
  end.

(** ** What is mirrored, and since when *)

Lemma listen_undelivered es : ∀ s, l_phase s ≠ Listening → Forall (λ e, e ≠ Subscribed true) es →
  l_manager (run listen_step s es) = l_manager s.
Proof.
  induction es as [|e es IH]; intros s Hp Hes; [done|]. inversion Hes as [|? ? He Hes']; subst. cbn [run fold_left].
  change (fold_left listen_step es ?s) with (run listen_step s es). rewrite IH; [| |done];
    by destruct e as [h|r|[]|]; unfold listen_step; destruct (l_phase s) eqn:E; cbn; rewrite ?E.
Qed.

Lemma listen_quiet es : ∀ s, Forall (λ e, match e with Announced _ => False | _ => True end) es →
  l_manager (run listen_step s es) = l_manager s.
Proof.
  induction es as [|e es IH]; intros s Hes; [done|]. inversion Hes as [|? ? He Hes']; subst. cbn [run fold_left].
  change (fold_left listen_step es ?s) with (run listen_step s es). rewrite IH by done.
  by destruct e as [h|r|[]|]; unfold listen_step; destruct (l_phase s).
Qed.

(** The announcements that come before the subscription are lost: until the
    next one the manager mirrors the hash of the start, whatever was written. *)
Lemma startup_gap readable h0 m before after :
  Forall (λ e, e ≠ Subscribed true) before →
  Forall (λ e, match e with Announced _ => False | _ => True end) after →
  l_manager (run listen_step (StartRedisListener readable h0 m) (before ++ Subscribed true :: after))
  = l_manager (StartRedisListener readable h0 m).
Proof.
  intros Hb Ha. rewrite run_app. cbn [run fold_left].
  change (fold_left listen_step after ?s) with (run listen_step s after). rewrite listen_quiet by done.
  change (fold_left listen_step before ?s) with (run listen_step s before).
  rewrite <- (listen_undelivered before (StartRedisListener readable h0 m)) by done.
  generalize (run listen_step (StartRedisListener readable h0 m) before) as s. intros s. unfold listen_step. by destruct (l_phase s).
Qed.

(** An entry that blocks, written while the subscription is being made. *)
Definition blockEntry : string :=
  "{" +:+ dq ["who"; ":"; "ota"; ","; "type"; ":"; "block"] +:+ "}".

Example startup_gap_ex :
  let s := run listen_step (StartRedisListener true ∅ NewManager)
             [HashChanged {["ota" := blockEntry]}; Announced true; Subscribed true] in
  l_phase s = Listening ∧ l_hash s = {["ota" := blockEntry]} ∧
  HasBlockingInhibitors (l_manager s) "suspend" = false ∧
  HasBlockingInhibitors (l_manager (listen_step s (Announced true))) "suspend" = true.
Proof. vm_compute. done. Qed.
