(* ===== verification/Daemon.v ===== *)
(** * Starting the coordinator

    [cmd/clock-coordinator/main.go] and [internal/clockcontrol/lock.go]: the
    waiting mode, the checks of the runtime directory, the ownership lock and
    the order in which the daemon takes the lock, reads its state and serves.
    Processes are numbered; the kernel's [flock] is a parameter. *)

From S2P Require Import Prelude GoInt GoTime GoFloat ClockProto ClockClient ClockEngine.
From S2P Require Import ClockEngineFacts ClockEngineSafety Server.

(** ** Waiting for local quality *)

(** The readings of the clock by [time.Now], and the decoded answer to each
    poll, [None] when there is none. *)
Record WaitEnv := mkWait { wt_now : nat → Time; wt_status : nat → option Response }.

Definition waitInterval : Z := 100 * Millisecond.
Definition maxWait : Z := 5 * Minute.

(** Does the answer end the wait? *)
Definition hasQuality (r : option Response) : bool :=
  match r with
  | None => false
  | Some r => ROK r && negb (QSource (RQuality r) =s "") && negb (QSource (RQuality r) =s "unknown")
  end.

Inductive WaitExit := WaitReady | WaitExpired | WaitFuel.

Fixpoint wait_loop (fuel : nat) (v : WaitEnv) (n : nat) (deadline : Time) : WaitExit * nat :=
  match fuel with
  | O => (WaitFuel, n)
  | S fuel =>
      if negb (Before (wt_now v n) deadline) then (WaitExpired, n)
      else if hasQuality (wt_status v n) then (WaitReady, n)
      else wait_loop fuel v (S n) deadline
  end.

(** The deadline is computed before the first turn. *)
Definition waitForQuality (fuel : nat) (v : WaitEnv) (wait : Z) : WaitExit * nat :=
  wait_loop fuel v 1 (Add (wt_now v 0) wait).

(** Five minutes of turns that sleep 100 ms each, and the last test. *)
Definition wait_fuel : nat := Z.to_nat 3001.

(** ** The runtime directory and the lock *)

Record DirInfo := mkDir { d_stat : bool; d_isDir : bool; d_perm : Z; d_uid : Z }.

(** 18 is octal 022. *)
Definition safeDir (i : DirInfo) : bool :=
  negb (negb (d_stat i) || negb (d_isDir i) || negb (Z.land (d_perm i) 18 =? 0) || negb (d_uid i =? 0)).

(** The lock file: does [Open] succeed, and what [Stat] says of it. *)
Record LockIO := mkLockIO { k_open : bool; k_regular : option bool }.

Record RunIO := mkRun {
  r_narg : Z;
  r_wait : Z;
  r_euid : Z;
  r_mkdir : bool;
  r_lstat : option DirInfo;
  r_lock : LockIO;
}.

Section flock.
(** Is the exclusive lock granted at once to a process, given its holder? *)
Context (flock : option nat → nat → bool).

(** [Some] is the error; otherwise the process owns the lock. *)
Definition AcquireLock (io : LockIO) (p : nat) (owner : option nat) : option string * option nat :=
  if negb (k_open io) then (Some "open coordinator lock", owner)
  else match k_regular io with
  | None => (Some "stat coordinator lock", owner)
  | Some false => (Some "coordinator lock is not a regular file", owner)
  | Some true => if flock owner p then (None, Some p) else (Some "lock coordinator", owner)
  end.

(** [Close] of the lock, and what the kernel does when its owner exits. *)
Definition CloseLock (p : nat) (owner : option nat) : option nat :=
  if bool_decide (owner = Some p) then None else owner.

Inductive RunResult := RunError (err : string) | RunWaited | RunLocked.

(** [run] up to the lock. *)
Definition runStart (io : RunIO) (p : nat) (owner : option nat) : RunResult * option nat :=
  if negb (r_narg io =? 0) then (RunError "unexpected arguments", owner)
  else if (r_wait io <? 0) || (maxWait <? r_wait io) then (RunError "invalid wait duration", owner)
  else if 0 <? r_wait io then (RunWaited, owner)
  else if negb (r_euid io =? 0) then (RunError "daemon requires root", owner)
  else if negb (r_mkdir io) then (RunError "mkdir", owner)
  else match r_lstat io with
  | None => (RunError "lstat", owner)
  | Some i =>
      if negb (safeDir i) then (RunError "runtime directory", owner)
      else match AcquireLock (r_lock io) p owner with
      | (Some err, owner) => (RunError err, owner)
      | (None, owner) => (RunLocked, owner)
      end
  end.

(** ** The processes of a host *)

Inductive Phase := Loading | Serving.

(** [engine] is the state of the coordinator, on disk and in the memory of the
    process that serves. *)
Record Host := mkHost { owner : option nat; procs : list (nat * Phase); engine : Engine }.
#[export] Instance eta_Host : Eta Host := λ h, mkHost (owner h) (procs h) (engine h).

Definition gone (p : nat) (l : list (nat * Phase)) : list (nat * Phase) :=
  List.filter (λ q, negb (q.1 =? p)%nat) l.

Definition leaves (p : nat) (h : Host) : Host := h <| owner := CloseLock p (owner h) |> <| procs := gone p (procs h) |>.

(** The boot id and the engine, after the lock. *)
Definition runLoad (boot : option string) (f : FileRead) (p : nat) (h : Host) : Host :=
  match boot with
  | None => leaves p h
  | Some boot =>
      let '(ok, e) := NewEngine (TrimSpace boot) f (engine h) in
      if ok then h <| engine := e |> <| procs := (p, Serving) :: gone p (procs h) |>
      else leaves p (h <| engine := e |>)
  end.

Inductive hstep : Host → Host → Prop :=
| h_start io p h r o :
    p ∉ (procs h).*1 → runStart io p (owner h) = (r, o) →
    hstep h (mkHost o (match r with RunLocked => (p, Loading) :: procs h | _ => procs h end) (engine h))
| h_load boot p h : (p, Loading) ∈ procs h → hstep h (runLoad boot (file_of (disk (engine h))) p h)
| h_work p h e : (p, Serving) ∈ procs h → estep (engine h) e → hstep h (h <| engine := e |>)
| h_exit p h : p ∈ (procs h).*1 → hstep h (leaves p h).
End flock.

(** ** The wait ends *)

(** Every turn sleeps, so the [i]-th one reads the clock at least [i] intervals
    after the start. *)
Definition sleeps (v : WaitEnv) : Prop :=
  ∀ i : nat, elapsed (wt_now v 0) (wt_now v (S i)) (Z.of_nat i * waitInterval).

Definition wait_post (v : WaitEnv) (wait : Z) (x : WaitExit) (n : nat) : Prop :=
  match x with
  | WaitReady => hasQuality (wt_status v n) = true ∧ Before (wt_now v n) (Add (wt_now v 0) wait) = true
  | WaitExpired => Before (wt_now v n) (Add (wt_now v 0) wait) = false
  | WaitFuel => False
  end.

Lemma Before_bound v wait i :
  sleeps v → 0 < wait ≤ maxWait → Before (wt_now v (S i)) (Add (wt_now v 0) wait) = true →
  Z.of_nat i * waitInterval < wait.
Proof.
  intros Hs Hw Hb. apply Z.lt_nge. intros Hle. unfold maxWait in Hw.
  rewrite (elapsed_not_Before _ _ _ wait (Hs i)) in Hb; [done|lia|tlia].
Qed.

Lemma wait_turn fuel v n deadline :
  wait_loop (S fuel) v n deadline =
    if negb (Before (wt_now v n) deadline) then (WaitExpired, n)
    else if hasQuality (wt_status v n) then (WaitReady, n) else wait_loop fuel v (S n) deadline.
Proof. reflexivity. Qed.

Lemma wait_loop_spec v wait fuel i :
  sleeps v → wait ≤ Z.of_nat (i + fuel) * waitInterval → (i = 0%nat ∨ (Z.of_nat i - 1) * waitInterval < wait) → 0 < wait ≤ maxWait →
  let '(x, n) := wait_loop (S fuel) v (S i) (Add (wt_now v 0) wait) in
  wait_post v wait x n ∧ (Z.of_nat n - 2) * waitInterval < wait ∧ (S i ≤ n)%nat ∧
  (∀ j, (S i ≤ j < n)%nat → hasQuality (wt_status v j) = false).
Proof.
  intros Hs. revert i. induction fuel as [|fuel IH]; intros i Hf Hi Hw; rewrite wait_turn.
  - destruct (Before _ _) eqn:Eb; cbn [negb].
    { exfalso. apply Before_bound in Eb; [|done|done]. rewrite Nat.add_0_r in Hf. lia. }
    repeat split; try done; unfold waitInterval, Millisecond in *; intros; lia.
  - destruct (Before _ _) eqn:Eb; cbn [negb].
    2: { repeat split; try done; unfold waitInterval, Millisecond in *; intros; lia. }
    destruct (hasQuality (wt_status v (S i))) eqn:Eq.
    { repeat split; try done; unfold waitInterval, Millisecond in *; intros; lia. }
    apply Before_bound in Eb; [|done|done]. specialize (IH (S i)).
    destruct (wait_loop (S fuel) v (S (S i)) _) as [x n].
    destruct IH as (H1 & H2 & H3 & H4); [by rewrite Nat.add_succ_comm|right; lia|done|].
    split; [done|]. split; [done|]. split; [lia|]. intros j Hj.
    destruct (decide (j = S i)) as [->|]; [done|]. apply H4. lia.
Qed.

(** C24: waiting for quality always ends.  For any wait the flag admits, while
    the clock runs, the loop stops within the fuel of the model, after at most
    one poll per 100 ms and one more: at the first answer that carries a
    quality with a known source, read before the deadline, or at the first
    turn past the deadline; no earlier poll had such an answer. *)
Theorem wait_ends (v : WaitEnv) (wait : Z) :
  0 < wait ≤ maxWait → sleeps v →
  let '(x, n) := waitForQuality wait_fuel v wait in
  x ≠ WaitFuel ∧ wait_post v wait x n ∧ (Z.of_nat n - 2) * waitInterval < wait ∧
  (∀ j, (1 ≤ j < n)%nat → hasQuality (wt_status v j) = false).
Proof.
  intros Hw Hs. unfold waitForQuality. change wait_fuel with (S (Z.to_nat 3000)).
  pose proof (wait_loop_spec v wait (Z.to_nat 3000) 0 Hs) as H.
  destruct (wait_loop _ _ _ _) as [x n]. destruct H as (H1 & H2 & _ & H4); [|by left|lia|].
  - unfold waitInterval, maxWait in *. rewrite Nat.add_0_l, Z2Nat.id by lia. tlia.
  - split; [by destruct x|]. done.
Qed.

(** ** One owner *)

Section owner.
Context (flock : option nat → nat → bool).

(** What the code relies on of [flock]: an exclusive lock is not granted while
    another process holds it. *)
Context (flock_exclusive : ∀ q p, flock (Some q) p = true → q = p).

Definition noHost (e : Engine) : Host := mkHost None [] e.

(** The processes past the lock: the owner, or nobody. *)
Definition host_ok (h : Host) : Prop :=
  (owner h = None ∧ procs h = []) ∨ ∃ p ph, owner h = Some p ∧ procs h = [(p, ph)].

Lemma AcquireLock_granted io p o o' : AcquireLock flock io p o = (None, o') → flock o p = true ∧ o' = Some p.
Proof.
  unfold AcquireLock. destruct (negb _); [done|]. destruct (k_regular io) as [[]|]; try done.
  destruct (flock o p) eqn:E; [|done]. intros [= <-]. done.
Qed.

Lemma runStart_owner io p o r o' :
  runStart flock io p o = (r, o') → match r with RunLocked => flock o p = true ∧ o' = Some p | _ => o' = o end.
Proof.
  unfold runStart. repeat (split_if; [by intros [= <- <-]|]).
  destruct (r_lstat io) as [i|]; [|by intros [= <- <-]]. split_if; [by intros [= <- <-]|].
  destruct (AcquireLock _ _ _ _) as [[err|] o1] eqn:E; intros [= <- <-].
  - revert E. unfold AcquireLock. repeat case_match; by intros [= _ <-].
  - by apply AcquireLock_granted in E.
Qed.

Lemma leaves_single p ph h : owner h = Some p → procs h = [(p, ph)] → host_ok (leaves p h).
Proof.
  intros Ho Hp. left. unfold leaves, CloseLock, gone. cbn. rewrite Ho, Hp, bool_decide_eq_true_2 by done.
  cbn. by rewrite Nat.eqb_refl.
Qed.

Lemma hstep_ok h h' : host_ok h → hstep flock h h' → host_ok h'.
Proof.
  intros Hok Hst. destruct Hst as [io p h r o Hp Hr|boot p h Hin|p h e Hin He|p h Hin].
  - apply runStart_owner in Hr. destruct r; try (subst o; exact Hok). destruct Hr as [Hf ->].
    destruct Hok as [[Ho Hps]|(q & ph & Ho & Hps)].
    + right. exists p, Loading. by rewrite Hps.
    + exfalso. rewrite Ho in Hf. apply flock_exclusive in Hf as ->. apply Hp. rewrite Hps. by left.
  - destruct Hok as [[_ Hps]|(q & ph & Ho & Hps)]; rewrite Hps in Hin; [by apply elem_of_nil in Hin|].
    apply list_elem_of_singleton in Hin. injection Hin as <- <-. unfold runLoad.
    destruct boot as [boot|]; [|by eapply leaves_single]. destruct (NewEngine _ _ _) as [[] e].
    + right. exists p, Serving. cbn. rewrite Hps. unfold gone. cbn. by rewrite Nat.eqb_refl.
    + by eapply leaves_single.
  - exact Hok.
  - destruct Hok as [[_ Hps]|(q & ph & Ho & Hps)]; rewrite Hps in Hin; [by apply elem_of_nil in Hin|].
    apply list_elem_of_singleton in Hin. cbn in Hin. subst q. by eapply leaves_single.
Qed.

(** C18: one coordinator at a time.  However many coordinator processes start,
    fail, crash and exit on a host, at any moment at most one of them is past
    the ownership lock, and it owns the lock; and only that process changes
    the coordinator's state, in memory or on disk.  So the restarts of a boot
    are one after the other. *)
Theorem single_owner (e : Engine) (h : Host) :
  rtc (hstep flock) (noHost e) h →
  (length (procs h) ≤ 1)%nat ∧ (∀ p ph, (p, ph) ∈ procs h → owner h = Some p) ∧
  (∀ h', hstep flock h h' → engine h' ≠ engine h → ∃ p ph, owner h = Some p ∧ procs h = [(p, ph)]).
Proof.
  intros Hr. assert (Hok : host_ok h).
  { assert (H0 : host_ok (noHost e)) by by left. remember (noHost e) as h0 eqn:E0. clear E0. revert H0.
    induction Hr as [|h0 h1 h2 Hst _ IH]; [done|]. intros H0. apply IH. by eapply hstep_ok. }
  split; [|split].
  - destruct Hok as [[_ ->]|(p & ph & _ & ->)]; cbn; lia.
  - intros p ph Hin. destruct Hok as [[_ Hps]|(q & ph' & Ho & Hps)]; rewrite Hps in Hin; [by apply elem_of_nil in Hin|].
    apply list_elem_of_singleton in Hin. by injection Hin as -> ->.
  - intros h' Hst Hne. destruct Hok as [[_ Hps]|(q & ph' & Ho & Hps)]; [|by exists q, ph']. exfalso.
    destruct Hst as [| boot p h Hin|p h e' Hin _|p h Hin]; try (rewrite Hps in Hin; by apply elem_of_nil in Hin).
    by apply Hne.
Qed.
End owner.

Lemma wait_ends_witness :
  let v := mkWait (λ n, mkTime (Z.of_nat n * waitInterval) (Some (Z.of_nat n * waitInterval))) (λ _, None) in
  waitForQuality wait_fuel v Second = (WaitExpired, 10%nat) ∧ wait_post v Second WaitExpired 10.
Proof.
  intros v. assert (Hv : waitForQuality wait_fuel v Second = (WaitExpired, 10%nat)) by (vm_compute; reflexivity).
  split; [exact Hv|].
  assert (H : 0 < Second ≤ maxWait) by (unfold maxWait; tlia).
  assert (Hs : sleeps v).
  { intros i. unfold elapsed, v. cbn [wt_now wall mono]. unfold waitInterval, Millisecond. lia. }
  pose proof (wait_ends v Second H Hs) as Hw. rewrite Hv in Hw. exact (proj1 (proj2 Hw)).
Defined.

(** The kernel's rule. *)
Definition exclusiveLock (o : option nat) (p : nat) : bool :=
  match o with None => true | Some q => (q =? p)%nat end.

Definition goodRun : RunIO := mkRun 0 0 0 true (Some (mkDir true true 448 0)) (mkLockIO true (Some true)).

Lemma single_owner_witness :
  let e := startedEngine None in
  let h := mkHost (Some 1%nat) [(1%nat, Loading)] e in
  rtc (hstep exclusiveLock) (noHost e) h ∧ (length (procs h) ≤ 1)%nat ∧
  runStart exclusiveLock goodRun 2 (owner h) = (RunError "lock coordinator", Some 1%nat).
Proof.
  intros e h. assert (Hr : rtc (hstep exclusiveLock) (noHost e) h).
  { apply rtc_once. unfold h. apply (h_start exclusiveLock goodRun 1 (noHost e) RunLocked (Some 1%nat)).
    - by apply not_elem_of_nil.
    - reflexivity. }
  split; [exact Hr|]. split; [|vm_compute; reflexivity].
  refine (proj1 (single_owner exclusiveLock _ e h Hr)). intros q p Hq. by apply Nat.eqb_eq.
Defined.
