(* ===== verification/SvcState.v ===== *)
(** * The state of the service and its environment

    The [Service] struct of [internal/service/service.go] with everything its
    methods change, the configuration of [internal/config/config.go], and the
    environment they talk to.  Redis, logind, the clock coordinator, the files
    and the clocks answer whatever they like: [Env] holds one answer per tick
    and every interaction takes the next tick, so a theorem over all
    environments holds for every interleaving of the outside world.  Reads,
    writes, commands and sent events are recorded in [trace]. *)

From S2P Require Import Prelude GoInt GoTime HibTimer Scheduler Fsm Inhibitor LastDitch GoFloat.
From S2P Require Import ClockProto Systemd ClockClient.

(** ** config.go *)

Record Config := mkConfig {
  RedisHost : string;
  RedisPort : Z;
  PreSuspendDelay : Z;
  SuspendImminentDelay : Z;
  InhibitorDuration : Z;
  HibernationTimer : Z;
  WakeTimerMaxSeconds : Z;
  WakeTimerAckTimeout : Z;
  SocketPath : string;
  DryRun : bool;
  DefaultState : string;
  WakeupSources : list string;
}.
#[export] Instance eta_Config : Eta Config := λ c,
  mkConfig (RedisHost c) (RedisPort c) (PreSuspendDelay c) (SuspendImminentDelay c)
    (InhibitorDuration c) (HibernationTimer c) (WakeTimerMaxSeconds c) (WakeTimerAckTimeout c)
    (SocketPath c) (DryRun c) (DefaultState c) (WakeupSources c).

(** [config.New]. *)
Definition newConfig : Config :=
  mkConfig "localhost" 6379 (60 * Second) (5 * Second) (500 * Millisecond) (3 * 24 * Hour)
    (7 * 24 * 60 * 60) (10 * Second) "/tmp/suspend_inhibitor" false "suspend" ["ttymxc0"; "ttymxc1"].

(** ** Constants of service.go *)

Definition lastDitchTelemetryWait : Z := 3 * Second.
Definition lastDitchTelemetryPoll : Z := 200 * Millisecond.
Definition remoteAccessConnectGrace : Z := 5 * Minute.
Definition suspendQuiesceTimeout : Z := 3 * Second.
Definition suspendQuiesceMargin : Z := 200 * Millisecond.
Definition suspendEnterTimeout : Z := 15 * Second.
Definition rtcWakeupIRQ : string := "45".
Definition hibernatePreparationTimeout : Z := 30 * Second.
Definition clockGuardSlack : Z := 2 * Minute.

(** ** The environment *)

Record Env := mkEnv {
  e_now : nat → Time;                              (* [time.Now] *)
  e_hget : nat → string → string → option string;  (* [redis.HGet]; [None] is an error *)
  e_hgetall : nat → string → option (list (string * string));
  e_write : nat → bool;                            (* does a write or push succeed *)
  e_inhib : nat → InhibitorView;                   (* the inhibitor manager *)
  e_acks : nat → list Z;                           (* wake-timer acks before the deadline *)
  e_quiesce : nat → bool;                          (* [power-state-sent] before the deadline *)
  e_exchange : nat → Exchange;                     (* one request to the clock coordinator *)
  e_boot_id : nat → option string;                 (* the boot-id file *)
  e_call : nat → string → bool;                    (* logind method calls *)
  e_ready : nat → list Ready;                      (* what the suspend wait sees *)
  e_ctx : nat → bool;                              (* [ctx.Err() != nil] *)
  e_irq : nat → option string;                     (* /sys/power/pm_wakeup_irq *)
  e_rand : nat → string;                           (* [rand.Text] *)
  e_uptime : nat → option string;                  (* the text of /proc/uptime *)
}.

(** What a run leaves behind. *)
Inductive Obs :=
| ORead (hash field : string) (r : option string)
| OReadAll (hash : string) (r : option (list (string * string)))
| OPublish (hash : string) (fields : list (string * string)) (ok : bool)
| OPush (key value : string) (ok : bool)
| OSend (e : Event)
| OGate (target : string) (blocked : bool)
| OWakeAck (expected : Z) (ok : bool)
| OQuiesce (ok : bool)
| OClock (op : string) (ok : bool)
| OSuspend (r : SuspendResult)
| OIssue (command : string) (ok : bool)
| ODelay (present : bool)
| OMarker
| OGovernor (governor : string) (ok : bool)
| OWakeupSource (port : string) (ok : bool).

(** ** The service *)

Record Settings := mkSettings {
  wakeTimerMaxSecondsOver : Z;
  wakeTimerAckTimeoutOver : Z;
  suspendWhenOnline : bool;
  remoteAccessGraceUntil : Time;
}.
#[export] Instance eta_Settings : Eta Settings := λ s,
  mkSettings (wakeTimerMaxSecondsOver s) (wakeTimerAckTimeoutOver s) (suspendWhenOnline s)
    (remoteAccessGraceUntil s).

(** The channels of capacity one hold at most one element;
    [hibernatePreparationTimer] names the request its closure captured. *)
Record Flags := mkFlags {
  wakeTimerAcks : option Z;
  wakeTimerArmed : bool;
  hibernatePreparationTimer : option string;
  suspendQuiesceAcks : bool;
  delayInhibitor : bool;
  cancelDelayRemoval : bool;
}.
#[export] Instance eta_Flags : Eta Flags := λ f,
  mkFlags (wakeTimerAcks f) (wakeTimerArmed f) (hibernatePreparationTimer f) (suspendQuiesceAcks f)
    (delayInhibitor f) (cancelDelayRemoval f).

Record ClockGuard := mkGuard { trusted : bool; gWall : Time; gBoot : Z }.

Record World := mkWorld {
  cfg : Config;
  data : FSMData;
  ld : LastDitch;
  settings : Settings;
  flags : Flags;
  guard : ClockGuard;
  clockFloor : Time;
  sched : Scheduler;
  htimer : Timer;
  client : Client;
  env : Env;
  tick : nat;
  trace : list Obs;
}.
#[export] Instance eta_World : Eta World := λ w,
  mkWorld (cfg w) (data w) (ld w) (settings w) (flags w) (guard w) (clockFloor w) (sched w)
    (htimer w) (client w) (env w) (tick w) (trace w).

(** The service as [New] builds it. *)
Definition newData (c : Config) : FSMData :=
  mkFSMData "" (DefaultState c) "" "" "" "" false false "" 0 false "".

Definition newService (c : Config) (cl : Client) (e : Env) : World :=
  mkWorld c (newData c) newLastDitch (mkSettings 0 0 true zeroTime)
    (mkFlags None false None false true false) (mkGuard false zeroTime 0) zeroTime NewScheduler
    (NewTimer (HibernationTimer c)) cl e 0 [].

(** An environment for concrete runs: one answer per question, whatever the
    tick, no inhibitor, every write succeeds. *)
Definition sampleEnv (hget : string → string → option string) : Env :=
  mkEnv (λ _, mkTime Hour None) (λ _, hget) (λ _ _, Some []) (λ _, true) (λ _, view_of NewManager)
    (λ _, []) (λ _, true) (λ _, mkExchange None None None) (λ _, None) (λ _ _, true) (λ _, [])
    (λ _, false) (λ _, None) (λ _, "ID") (λ _, Some "0.00 0.00").

Definition sampleService (hget : string → string → option string) : World :=
  newService newConfig (mkClient true true) (sampleEnv hget).

(** ** Interaction *)

(** Take the next answer of the environment. *)
Definition ask {A} (f : Env → nat → A) : ST World A :=
  λ w, (f (env w) (tick w), w <| tick := S (tick w) |>).

Definition emit (o : Obs) : ST World unit := modify (λ w, w <| trace := trace w ++ [o] |>).

Definition set_data (f : FSMData → FSMData) : ST World unit := modify (λ w, w <| data := f (data w) |>).
Definition set_ld (f : LastDitch → LastDitch) : ST World unit := modify (λ w, w <| ld := f (ld w) |>).
Definition set_settings (f : Settings → Settings) : ST World unit :=
  modify (λ w, w <| settings := f (settings w) |>).
Definition set_flags (f : Flags → Flags) : ST World unit := modify (λ w, w <| flags := f (flags w) |>).

Definition Now : ST World Time := ask e_now.

Definition HGet (hash field : string) : ST World (option string) :=
  r ← ask (λ e n, e_hget e n hash field); emit (ORead hash field r);; mret r.

Definition HGetAll (hash : string) : ST World (option (list (string * string))) :=
  r ← ask (λ e n, e_hgetall e n hash); emit (OReadAll hash r);; mret r.

(** [powerManagerPub.Set] and [SetMany]. *)
Definition publish (hash : string) (fields : list (string * string)) : ST World bool :=
  ok ← ask e_write; emit (OPublish hash fields ok);; mret ok.

Definition LPush (key value : string) : ST World bool :=
  ok ← ask e_write; emit (OPush key value ok);; mret ok.

(** [machine.Send] and [c.Send]. *)
Definition Send (id : EventID) (p : Payload) : ST World unit := emit (OSend (mkEvent id p)).

Definition SendRun : ST World unit := Send EvPowerRun (PowerCommandPayload TargetRun false 0).

Definition HasBlocking (target : string) : ST World bool :=
  b ← ask (λ e n, iv_blocking (e_inhib e n) target); emit (OGate target b);; mret b.

Definition Inhibitors : ST World (list Inhibitor) := ask (λ e n, iv_list (e_inhib e n)).

(** One request to the coordinator. *)
Definition coordinator (req : Request) : ST World (option Quality) :=
  r ← ask (λ e n, coordinatorRequest req (e_exchange e n));
  emit (OClock (Op req) (bool_decide (is_Some r)));; mret r.

(** A value that is present and not empty is used. *)
Definition nonempty (r : option string) : option string :=
  match r with Some v => if v =s "" then None else Some v | None => None end.

(** The short-circuit operators with an effectful second operand. *)
Definition or_else (b : bool) (m : ST World bool) : ST World bool := if b then mret true else m.
Definition and_then (b : bool) (m : ST World bool) : ST World bool := if b then m else mret false.

(** ** Frames

    [keeps π m]: the computation [m] never changes the component [π] of the
    state. *)

Definition keeps {B} (π : World → B) {A} (m : ST World A) : Prop := steps (λ w w', π w' = π w) m.

Section keeps.
Context {B : Type} (π : World → B).

#[local] Instance keeps_preorder : PreOrder (λ w w' : World, π w' = π w).
Proof. split; [done|]. intros x y z H1 H2. congruence. Qed.

Lemma keeps_ret {A} (a : A) : keeps π (mret a).
Proof. done. Qed.
Lemma keeps_skip : keeps π skip.
Proof. done. Qed.
Lemma keeps_gets {A} (f : World → A) : keeps π (gets f).
Proof. done. Qed.
Lemma keeps_bind {A C} (m : ST World A) (k : A → ST World C) :
  keeps π m → (∀ a, keeps π (k a)) → keeps π (m ≫= k).
Proof. apply steps_bind. apply _. Qed.
Lemma keeps_run {A} (m : ST World A) w : keeps π m → π (m w).2 = π w.
Proof. auto. Qed.
End keeps.

(** Settle a frame by following the structure of the computation; a call is
    settled by a lemma of the [frame] database. *)
Create HintDb frame.

Ltac keeps_step :=
  lazymatch goal with
  | |- keeps _ (mbind _ _) => apply keeps_bind; [| intros ?]
  | |- keeps _ (mret _) => apply keeps_ret
  | |- keeps _ skip => apply keeps_skip
  | |- keeps _ (gets _) => apply keeps_gets
  | |- keeps _ (if ?b then _ else _) => destruct b
  | |- keeps _ (match ?x with _ => _ end) => destruct x
  | |- keeps _ (let _ := _ in _) => cbv zeta
  end.

Ltac keeps_tac := repeat keeps_step; try solve [auto with frame nocore | intros ?; reflexivity].
