(* ===== verification/SvcGuards.v ===== *)
(** * The guards of the state machine

    The guard methods of the [Actions] interface in
    [internal/service/service.go] and [hibernate_request.go], with the live
    reads they make.  A guard takes the payload of the event being processed
    ([c.Event.Payload], [NoPayload] without one). *)

From S2P Require Import Prelude GoInt GoTime HibTimer Scheduler Fsm Inhibitor LastDitch GoFloat.
From S2P Require Import ClockProto Systemd ClockClient SvcState.

Definition vehicleStateFromContext (c : Payload) (d : FSMData) : string :=
  match c with VehicleStatePayload s => s | _ => VehicleState d end.

Definition targetPowerStateFromContext (c : Payload) (d : FSMData) : string :=
  match c with PowerCommandPayload t _ _ => t | _ => TargetPowerState d end.

(** ** Live reads *)

Definition liveVehicleInStandby : ST World bool :=
  r ← HGet "vehicle" "state";
  d ← gets data;
  mret (match r with
        | None => VehicleState d =s "stand-by"
        | Some state => state =s "stand-by"
        end).

Definition liveBatteryActive : ST World bool :=
  d ← gets data;
  r0 ← HGet "battery:0" "state";
  r1 ← HGet "battery:1" "state";
  mret ((default (Battery0State d) r0 =s "active") || (default (Battery1State d) r1 =s "active")).

(** A slot's presence: the reading unless it failed or is empty. *)
Definition slotPresent (r : option string) (known : bool) : bool :=
  match nonempty r with Some v => parseBool v | None => known end.

Definition liveBatteryPresent : ST World bool :=
  l ← gets ld;
  r0 ← HGet "battery:0" "present";
  r1 ← HGet "battery:1" "present";
  mret (slotPresent r0 (battery0Present l) || slotPresent r1 (battery1Present l)).

(** ** Last-ditch *)

Definition refreshLastDitchInputs : ST World unit :=
  a ← HGet "battery:0" "present";
  b ← HGet "battery:1" "present";
  c ← HGet "battery:0" "charge";
  d ← HGet "battery:1" "charge";
  e ← HGet "cb-battery" "present";
  f ← HGet "cb-battery" "charge";
  g ← HGet "aux-battery" "voltage";
  set_ld (applyReadings (mkReadings a b c d e f g)).

(** [lastDitchTriggeredLocked] with its reading of the clock. *)
Definition evalLastDitch : ST World bool :=
  now ← Now;
  l ← gets ld;
  let '(b, l') := lastDitchTriggeredLocked now l in
  set_ld (λ _, l');;
  mret b.

Definition IsLastDitchTriggered' : ST World bool :=
  refreshLastDitchInputs;; evalLastDitch.

Definition IsLastDitchApplicableTarget' (d : FSMData) : bool :=
  one_of (TargetPowerState d) [TargetRun; TargetSuspend].

Definition automaticLastDitchDisabled (w : World) : bool :=
  if negb (AutomaticLastDitch (data w)) then false else negb (lastDitchEnabled (ld w)).

(** ** Remote access *)

Definition hasConnectedRemoteAccessProvider (providers : list (string * string)) : bool :=
  existsb (λ '(provider, status), negb (provider =s "status") && (status =s "connected")) providers.

Definition shouldBlockSuspendForRemoteAccess (suspendWhenOnline : bool)
    (providers : list (string * string)) (readOK withinGrace : bool) : bool :=
  if suspendWhenOnline then false
  else withinGrace || negb readOK || hasConnectedRemoteAccessProvider providers.

Definition suspendBlockedWhileOnline : ST World bool :=
  s ← gets settings;
  now ← Now;
  let withinGrace := Before now (remoteAccessGraceUntil s) in
  if suspendWhenOnline s then mret false
  else
    r ← HGetAll "remote-access";
    mret (shouldBlockSuspendForRemoteAccess (suspendWhenOnline s) (default [] r)
            (bool_decide (is_Some r)) withinGrace).

(** ** Guards *)

Definition CanEnterLowPowerState' (c : Payload) : ST World bool :=
  d ← gets data;
  let targetState := targetPowerStateFromContext c d in
  let vehicleState := vehicleStateFromContext c d in
  if targetState =s TargetRun then mret false
  else if targetState =s TargetReboot then
    mret (negb (negb (vehicleState =s "stand-by") && negb (vehicleState =s "shutting-down")))
  else if negb (vehicleState =s "stand-by") then mret false
  else if targetState =s TargetSuspend then
    p ← liveBatteryPresent;
    a ← or_else p liveBatteryActive;
    if (a : bool) then mret false
    else
      b ← suspendBlockedWhileOnline;
      mret (negb b)
  else mret true.

Definition ShouldCancelLowPower' (c : Payload) : ST World bool :=
  w ← get_st;
  if AutomaticLastDitch (data w) then
    if automaticLastDitchDisabled w then mret true
    else t ← IsLastDitchTriggered'; mret (negb t)
  else if TargetPowerState (data w) =s TargetSuspend then
    s ← liveVehicleInStandby;
    e ← and_then s (CanEnterLowPowerState' c);
    mret (negb e)
  else mret false.

(** The loop of [hasOnlyModemBlockingInhibitors]: (modem, others). *)
Definition modemOthers (isHibernatePath : bool) (l : list Inhibitor) : bool * bool :=
  fold_left (λ acc inh,
    if (Typ inh =s TypeSuspendOnly) && isHibernatePath then acc
    else if (Typ inh =s TypeBlock) || (Typ inh =s TypeSuspendOnly) then
      if Who inh =s "librescoot-modem" then (true, acc.2) else (acc.1, true)
    else acc) l (false, false).

Definition onlyModem (targetPowerState : string) (l : list Inhibitor) : bool :=
  let '(modem, others) := modemOthers (IsHibernatePath targetPowerState) l in
  modem && negb others.

Definition hasOnlyModemBlockingInhibitors (targetPowerState : string) : ST World bool :=
  l ← Inhibitors; mret (onlyModem targetPowerState l).

Definition HasNoBlockingInhibitors' : ST World bool :=
  d ← gets data; b ← HasBlocking (TargetPowerState d); mret (negb b).

Definition HasOnlyModemInhibitors' : ST World bool :=
  d ← gets data;
  b ← hasOnlyModemBlockingInhibitors (TargetPowerState d);
  mret (b && negb (ModemDisabled d)).

Definition CanProceedPastModemWait' : ST World bool :=
  d ← gets data;
  b ← HasBlocking (TargetPowerState d);
  if negb b then mret true else hasOnlyModemBlockingInhibitors (TargetPowerState d).

Definition IsVehicleNotInStandby' (c : Payload) (d : FSMData) : bool :=
  negb (vehicleStateFromContext c d =s "stand-by").

Definition IsTargetNotRun' (c : Payload) (d : FSMData) : bool :=
  negb (targetPowerStateFromContext c d =s TargetRun).

Definition IsBatteryNotActive' (d : FSMData) : bool := negb (BatteryState d =s "active").

Definition IsTargetSuspend' (c : Payload) (d : FSMData) : bool :=
  targetPowerStateFromContext c d =s TargetSuspend.

Definition IsTargetHibernate' (c : Payload) (d : FSMData) : bool :=
  one_of (targetPowerStateFromContext c d)
    [TargetHibernate; TargetHibernateManual; TargetHibernateTimer; TargetHibernateFor; TargetReboot].

Definition IsPowerCommandHigherPriority' (c : Payload) (d : FSMData) : bool :=
  let newState := targetPowerStateFromContext c d in
  let current := TargetPowerState d in
  if newState =s "run" then true
  else if one_of current ["hibernate-manual"; "hibernate-for"] then
    negb (one_of newState ["hibernate"; "hibernate-timer"; "suspend"; "reboot"])
  else if current =s "hibernate" then
    negb (one_of newState ["hibernate-timer"; "suspend"; "reboot"])
  else if current =s "hibernate-timer" then
    negb (one_of newState ["suspend"; "reboot"])
  else true.

(** ** Explicit hibernation *)

Definition setHibernateStatus (status reason : string) : ST World unit :=
  publish "power-manager" [("hibernate-status", status); ("hibernate-error", reason)];; skip.

(** [inl] is the error text. *)
Definition explicitHibernateState (target : string) : ST World (string + string) :=
  r ← HGet "vehicle" "state";
  match r with
  | None => mret (inl "cannot read vehicle state")
  | Some state =>
      if negb (state =s "stand-by") && negb (state =s "parked")
      then mret (inl ("vehicle must be parked or in stand-by (is " +:+ state +:+ ")"))
      else if state =s "parked" then
        b ← HasBlocking target;
        m ← or_else (negb b) (hasOnlyModemBlockingInhibitors target);
        if negb m then mret (inl "vehicle preparation blocked by power inhibitor")
        else mret (inr state)
      else mret (inr state)
  end.

Definition CanAcceptExplicitHibernate' (c : Payload) : ST World bool :=
  d ← gets data;
  r ← explicitHibernateState (targetPowerStateFromContext c d);
  match r with
  | inl e => setHibernateStatus "rejected" e;; mret false
  | inr _ => mret true
  end.

(** The guards of the table by name. *)
Definition eval_guard (g : Guard) (c : Payload) : ST World bool :=
  match g with
  | CanEnterLowPowerState => CanEnterLowPowerState' c
  | ShouldCancelLowPower => ShouldCancelLowPower' c
  | CanAcceptExplicitHibernate => CanAcceptExplicitHibernate' c
  | HasNoBlockingInhibitors => HasNoBlockingInhibitors'
  | HasOnlyModemInhibitors => HasOnlyModemInhibitors'
  | CanProceedPastModemWait => CanProceedPastModemWait'
  | IsVehicleNotInStandby => gets (λ w, IsVehicleNotInStandby' c (data w))
  | IsTargetSuspend => gets (λ w, IsTargetSuspend' c (data w))
  | IsTargetHibernate => gets (λ w, IsTargetHibernate' c (data w))
  | IsLastDitchTriggered => IsLastDitchTriggered'
  | IsLastDitchApplicableTarget => gets (λ w, IsLastDitchApplicableTarget' (data w))
  | IsAutomaticLastDitch => gets (λ w, AutomaticLastDitch (data w))
  | IsPowerCommandHigherPriority => gets (λ w, IsPowerCommandHigherPriority' c (data w))
  end.
