(* ===== verification/SvcActions.v ===== *)
(** * Transition and entry actions

    The action methods of the [Actions] interface in
    [internal/service/service.go] and the explicit-hibernation requests of
    [hibernate_request.go].  The text of an error that comes from a library is
    not modelled and stands for itself in a fixed string. *)

From S2P Require Import Prelude GoInt GoTime HibTimer Scheduler Fsm Inhibitor LastDitch GoFloat.
From S2P Require Import ClockProto Systemd ClockClient SvcState SvcGuards.

(** ** Publishing *)

Definition mapPowerStateToRedis (state : string) : string :=
  if state =s "run" then "running"
  else if state =s "suspend" then "suspending"
  else if state =s "hibernate" then "hibernating"
  else if state =s "hibernate-manual" then "hibernating-manual"
  else if state =s "hibernate-timer" then "hibernating-timer"
  else if state =s "hibernate-for" then "hibernating-for"
  else if state =s "reboot" then "reboot"
  else if state =s "suspend-imminent" then "suspending-imminent"
  else if state =s "hibernate-imminent" then "hibernating-imminent"
  else if state =s "hibernate-manual-imminent" then "hibernating-manual-imminent"
  else if state =s "hibernate-timer-imminent" then "hibernating-timer-imminent"
  else if state =s "hibernate-for-imminent" then "hibernating-for-imminent"
  else if state =s "reboot-imminent" then "reboot-imminent"
  else state.

Definition publishState (state : string) : ST World unit :=
  publish "power-manager" [("state", mapPowerStateToRedis state)];; skip.

Definition publishWakeupSource (reason : string) : ST World unit :=
  publish "power-manager" [("wakeup-source", reason)];; skip.

(** The value [publishFSMState] hands to [SetIfChanged]. *)
Definition fsmRedisState (state : StateID) (target : string) : string :=
  match state with
  | StateRunning => "running"
  | StatePreSuspend => mapPowerStateToRedis target +:+ "-pending"
  | StateSuspendImminent | StateLowPowerImminent | StateWaitingInhibitors =>
      mapPowerStateToRedis (target +:+ "-imminent")
  | StateIssuingLowPower | StateSuspended => mapPowerStateToRedis target
  end.

Definition publishFSMState (state : StateID) : ST World unit :=
  d ← gets data;
  publish "power-manager" [("state", fsmRedisState state (TargetPowerState d))];; skip.

(** [publishInhibitors]: one field per inhibitor. *)
Definition inhibitorFields (l : list Inhibitor) : list (string * string) :=
  map (λ inh, (Who inh +:+ " " +:+ Why inh +:+ " " +:+ What inh, Typ inh)) l.

Definition publishInhibitors : ST World unit :=
  l ← Inhibitors; publish "power-manager:busy-services" (inhibitorFields l);; skip.

(** ** Modem *)

Definition pushModemCommand (cmd : string) : ST World bool := LPush "scooter:modem" cmd.

Definition disableModem : ST World unit :=
  d ← gets data;
  if ModemDisabled d then skip
  else
    ok ← pushModemCommand "disable";
    when (ok : bool) do set_data (λ d, d <| ModemDisabled := true |>).

Definition enableModem : ST World unit :=
  d ← gets data;
  if negb (ModemDisabled d) then skip
  else
    ok ← pushModemCommand "enable";
    when (ok : bool) do set_data (λ d, d <| ModemDisabled := false |>).

(** ** Small writers *)

Definition setTarget (t : string) : ST World unit := set_data (λ d, d <| TargetPowerState := t |>).
Definition setIssued (b : bool) : ST World unit := set_data (λ d, d <| LowPowerStateIssued := b |>).
Definition setWakeSeconds (n : Z) : ST World unit := set_data (λ d, d <| HibernateForWakeSeconds := n |>).
Definition setArmed (b : bool) : ST World unit := set_flags (λ f, f <| wakeTimerArmed := b |>).

Definition clearAutomaticLastDitch : ST World unit :=
  set_data (λ d, d <| AutomaticLastDitch := false |> <| LastDitchFallbackTarget := "" |>).

Definition resetHibernationTimer (activate : bool) : ST World unit :=
  now ← Now; modify (λ w, w <| htimer := ResetTimer now activate (htimer w) |>).

(** ** Explicit hibernation requests *)

Definition stopHibernatePreparationTimer : ST World unit :=
  set_flags (λ f, f <| hibernatePreparationTimer := None |>).

Definition clearHibernateRequest (status reason : string) : ST World unit :=
  stopHibernatePreparationTimer;;
  d ← gets data;
  (when negb (HibernateRequestID d =s "") do
     (set_data (λ d, d <| HibernateRequestID := "" |>);;
      publish "power-manager" [("hibernate-request-id", "")];;
      setHibernateStatus status reason));;
  w ← get_st;
  (when (0 <? HibernateForWakeSeconds (data w)) || wakeTimerArmed (flags w) do
     (publish "power-manager" [("wake-timer-seconds", "0")];; skip));;
  setWakeSeconds 0;;
  setArmed false.

(** [Some] is the error. *)
Definition prepareExplicitHibernate (state : string) : ST World (option string) :=
  id ← ask e_rand;
  set_data (λ d, d <| HibernateRequestID := id |>);;
  ok ← publish "power-manager"
    [("hibernate-request-id", id);
     ("hibernate-status", if state =s "parked" then "preparing-vehicle" else "preparing-power");
     ("hibernate-error", "")];
  if negb ok then mret (Some "redis")
  else if state =s "stand-by" then mret None
  else
    pushed ← LPush "scooter:state" ("prepare-hibernate:" +:+ id);
    if negb pushed then mret (Some "redis")
    else set_flags (λ f, f <| hibernatePreparationTimer := Some id |>);; mret None.

Definition OnHibernatePreparationFailed' (c : Payload) : ST World unit :=
  d ← gets data;
  match c with
  | HibernatePreparationResult id err =>
      if (id =s "") || negb (id =s HibernateRequestID d) then skip
      else clearHibernateRequest "failed" err;; setTarget TargetRun
  | _ => skip
  end.

(** ** Last-ditch *)

Definition beginAutomaticLastDitch : ST World unit :=
  d ← gets data;
  (when negb (AutomaticLastDitch d) do
     set_data (λ d, d <| LastDitchFallbackTarget := TargetPowerState d |>));;
  set_data (λ d, d <| AutomaticLastDitch := true |> <| TargetPowerState := TargetHibernate |>
                   <| HibernateForWakeSeconds := 0 |>);;
  setArmed false.

Definition OnWakeup' (c : Payload) : ST World unit :=
  setIssued false;;
  match c with WakeupPayload reason => publishWakeupSource reason | _ => skip end;;
  publishState "running".

Definition OnLastDitchTriggered' : ST World unit := beginAutomaticLastDitch.
Definition OnLastDitchWakeup' (c : Payload) : ST World unit := OnWakeup' c;; beginAutomaticLastDitch.

Definition OnLastDitchDisabled' : ST World unit :=
  w ← get_st;
  let fallback := if LastDitchFallbackTarget (data w) =s "" then DefaultState (cfg w)
                  else LastDitchFallbackTarget (data w) in
  setTarget fallback;; setWakeSeconds 0;; setArmed false;;
  clearAutomaticLastDitch;;
  setIssued false;;
  enableModem;;
  d ← gets data;
  r ← HGet "vehicle" "state";
  Send EvVehicleStateChanged (VehicleStatePayload (default (VehicleState d) (nonempty r))).

Definition OnLastDitchDefaultStateChanged' (c : Payload) : ST World unit :=
  match c with
  | PowerCommandPayload t _ _ => set_data (λ d, d <| LastDitchFallbackTarget := t |>)
  | _ => skip
  end.

(** ** Cancellation *)

Definition cancelIneligibleLowPower (c : Payload) : ST World bool :=
  b ← ShouldCancelLowPower' c;
  if negb b then mret false
  else
    setIssued false;;
    d ← gets data;
    (if AutomaticLastDitch d then Send EvLastDitchDisabled NoPayload
     else Send EvSuspendCancelled NoPayload);;
    mret true.

Definition OnLowPowerCancelled' : ST World unit :=
  setIssued false;;
  d ← gets data;
  if AutomaticLastDitch d then OnLastDitchDisabled' else enableModem.

(** ** Vehicle, battery and command actions *)

(** The hibernation timer follows [ready-to-drive]. *)
Definition followReadyToDrive (oldState newState : string) : ST World unit :=
  let isActive := newState =s "ready-to-drive" in
  let wasActive := oldState =s "ready-to-drive" in
  if wasActive && negb isActive then resetHibernationTimer true
  else if isActive && negb wasActive then resetHibernationTimer false
  else skip.

Definition resetToDefault : ST World unit :=
  c ← gets cfg;
  setTarget (DefaultState c);; clearAutomaticLastDitch;; enableModem.

Definition OnVehicleStateChanged' (c : Payload) : ST World unit :=
  match c with
  | VehicleStatePayload newState =>
      d ← gets data;
      let oldState := VehicleState d in
      set_data (λ d, d <| VehicleState := newState |>);;
      (if newState =s "stand-by" then
         stopHibernatePreparationTimer;;
         when negb (HibernateRequestID d =s "") do setHibernateStatus "preparing-power" ""
       else if negb (HibernateRequestID d =s "")
               && ((newState =s "ready-to-drive") || (oldState =s "stand-by")
                   || ((oldState =s "shutting-down") && negb (newState =s "shutting-down"))) then
         clearHibernateRequest "cancelled" "vehicle shutdown interrupted";;
         setTarget TargetRun
       else skip);;
      followReadyToDrive oldState newState;;
      when ((oldState =s "stand-by") && negb (newState =s "stand-by")) || (newState =s "ready-to-drive")
      do resetToDefault
  | _ => skip
  end.

Definition OnVehicleLeftLowPowerState' (c : Payload) : ST World unit :=
  clearHibernateRequest "cancelled" "vehicle left stand-by";;
  match c with
  | VehicleStatePayload newState =>
      d ← gets data;
      set_data (λ d, d <| VehicleState := newState |>);;
      followReadyToDrive (VehicleState d) newState
  | _ => skip
  end;;
  resetToDefault.

(** The slot update and the derived aggregate. *)
Definition batteryUpdate (slot state : string) (d : FSMData) : FSMData :=
  let d := if slot =s "0" then d <| Battery0State := state |>
           else if slot =s "1" then d <| Battery1State := state |> else d in
  d <| BatteryState := if (Battery0State d =s "active") || (Battery1State d =s "active")
                       then "active" else state |>.

Definition OnBatteryStateChanged' (c : Payload) : ST World unit :=
  match c with
  | BatteryStatePayload slot state =>
      set_data (batteryUpdate slot state);;
      d ← gets data;
      when (TargetPowerState d =s TargetSuspend) && (BatteryState d =s "active") do enableModem
  | _ => skip
  end.

(** The common part of an accepted command. *)
Definition acceptCommand (target : string) (wakeSeconds : Z) : ST World unit :=
  clearHibernateRequest "cancelled" "request superseded";;
  setTarget target;;
  clearAutomaticLastDitch;;
  (when target =s TargetRun do enableModem);;
  setWakeSeconds (if target =s TargetHibernateFor then wakeSeconds else 0);;
  setArmed false.

Definition OnPowerCommand' (c : Payload) : ST World unit :=
  match c with
  | PowerCommandPayload target explicit wakeSeconds =>
      if explicit then
        r ← explicitHibernateState target;
        match r with
        | inl err =>
            clearHibernateRequest "cancelled" "request superseded";;
            setTarget TargetRun;;
            setHibernateStatus "rejected" err
        | inr state =>
            acceptCommand target wakeSeconds;;
            set_data (λ d, d <| VehicleState := state |>);;
            e ← prepareExplicitHibernate state;
            match e with
            | Some err => clearHibernateRequest "failed" err;; setTarget TargetRun
            | None => when state =s "stand-by" do
                        Send EvVehicleStateChanged (VehicleStatePayload state)
            end
        end
      else acceptCommand target wakeSeconds
  | _ => skip
  end.

Definition OnDefaultStateChanged' (c : Payload) : ST World unit :=
  match c with
  | PowerCommandPayload t _ _ =>
      setTarget t;; clearAutomaticLastDitch;; setWakeSeconds 0;; setArmed false
  | _ => skip
  end.

(** The actions of the table by name. *)
Definition run_action (a : Action) (c : Payload) : ST World unit :=
  match a with
  | OnSuspendImminentTimeout => skip
  | OnLowPowerCancelled => OnLowPowerCancelled'
  | OnWakeup => OnWakeup' c
  | OnDisableModem => disableModem
  | OnVehicleStateChanged => OnVehicleStateChanged' c
  | OnVehicleLeftLowPowerState => OnVehicleLeftLowPowerState' c
  | OnBatteryStateChanged => OnBatteryStateChanged' c
  | OnPowerCommand => OnPowerCommand' c
  | OnHibernatePreparationFailed => OnHibernatePreparationFailed' c
  | OnLastDitchTriggered => OnLastDitchTriggered'
  | OnLastDitchWakeup => OnLastDitchWakeup' c
  | OnLastDitchDisabled => OnLastDitchDisabled'
  | OnLastDitchDefaultStateChanged => OnLastDitchDefaultStateChanged' c
  | OnDefaultStateChanged => OnDefaultStateChanged' c
  end.

(** ** Entry actions that do not issue a command *)

Definition EnterLowPowerImminent' : ST World unit :=
  d ← gets data;
  (when negb (HibernateRequestID d =s "") do setHibernateStatus "preparing-power" "");;
  when (TargetPowerState d =s TargetHibernateFor) && (0 <? HibernateForWakeSeconds d) do
    (set_flags (λ f, f <| wakeTimerArmed := false |> <| wakeTimerAcks := None |>);;
     publish "power-manager" [("wake-timer-seconds", FormatUint (HibernateForWakeSeconds d))];; skip).

Definition EnterWaitingInhibitors' (c : Payload) : ST World unit :=
  x ← cancelIneligibleLowPower c;
  if (x : bool) then skip
  else
    d ← gets data;
    (when negb (HibernateRequestID d =s "") do setHibernateStatus "waiting-inhibitors" "");;
    b ← HasBlocking (TargetPowerState d);
    if negb b then Send EvInhibitorsChanged NoPayload
    else
      m ← hasOnlyModemBlockingInhibitors (TargetPowerState d);
      when (m : bool) do disableModem.
