(* ===== verification/Issuing.v ===== *)
(** * Issuing a power command

    [EnterIssuingLowPower], [ExitIssuingLowPower] and
    [handleWakeupAfterSuspend] of [internal/service/service.go], with the waits
    they contain.  A wait is one atomic step whose outcome the environment
    chooses: everything that arrives meanwhile is a later event of the
    machine. *)

From S2P Require Import Prelude GoInt GoTime HibTimer Scheduler Fsm Inhibitor LastDitch GoFloat.
From S2P Require Import ClockProto Systemd ClockClient SvcState SvcGuards SvcActions.

(** ** Waiting for the wake timer *)

(** Does one of the acknowledgements, in order of arrival, match? *)
Fixpoint scanAcks (expected : Z) (acks : list Z) : bool :=
  match acks with
  | [] => false
  | seconds :: acks =>
      if (0 <? seconds) && (seconds =? expected) then true else scanAcks expected acks
  end.

(** [waitForWakeTimer]: the buffered acknowledgement is received first, then
    the ones that arrive before the timeout or the cancellation. *)
Definition waitForWakeTimer : ST World bool :=
  w ← get_st;
  acks ← ask e_acks;
  let expected := HibernateForWakeSeconds (data w) in
  let ok := scanAcks expected (option_list (wakeTimerAcks (flags w)) ++ acks) in
  set_flags (λ f, f <| wakeTimerAcks := None |>);;
  emit (OWakeAck expected ok);;
  mret ok.

(** The wake-source block of [EnterIssuingLowPower]; [false] when the entry
    ends here. *)
Definition awaitWakeSource : ST World bool :=
  w ← get_st;
  if (TargetPowerState (data w) =s TargetHibernateFor) && (0 <? HibernateForWakeSeconds (data w))
     && negb (wakeTimerArmed (flags w))
  then
    setHibernateStatus "waiting-wake-timer" "";;
    ok ← waitForWakeTimer;
    if negb ok then
      clearHibernateRequest "failed" "wake timer acknowledgement timed out";;
      SendRun;;
      mret false
    else setArmed true;; mret true
  else mret true.

(** ** After a suspend *)

Definition refreshBatteryStateFromRedis : ST World unit :=
  r0 ← HGet "battery:0" "state";
  set_data (λ d, d <| Battery0State := default (Battery0State d) (nonempty r0) |>);;
  r1 ← HGet "battery:1" "state";
  set_data (λ d, d <| Battery1State := default (Battery1State d) (nonempty r1) |>);;
  set_data (λ d,
    if (Battery0State d =s "active") || (Battery1State d =s "active") then d <| BatteryState := "active" |>
    else if BatteryState d =s "active" then d <| BatteryState := Battery0State d |> else d);;
  p0 ← HGet "battery:0" "present";
  set_ld (applies p0 (λ v l, l <| battery0Present := parseBool v |>));;
  p1 ← HGet "battery:1" "present";
  set_ld (applies p1 (λ v l, l <| battery1Present := parseBool v |>));;
  c0 ← HGet "battery:0" "charge";
  set_ld (applies c0 (λ v l, l <| battery0Charge := parseChargeOrUnknown v |>));;
  c1 ← HGet "battery:1" "charge";
  set_ld (applies c1 (λ v l, l <| battery1Charge := parseChargeOrUnknown v |>)).

(** The loop of [awaitFreshTelemetryForLastDitch]: each turn reads both values
    and the clock; [fuel] bounds the turns (see [telemetry_wait_ends]).  The
    result tells how the loop was left. *)
Inductive TelemetryExit := TeleChanged | TeleDeadline | TeleCancelled | TeleFuel.

Fixpoint telemetry_loop (fuel : nat) (preCBB preAux : Z) (deadline : Time) : ST World TelemetryExit :=
  match fuel with
  | O => mret TeleFuel
  | S fuel =>
      rc ← HGet "cb-battery" "charge";
      ra ← HGet "aux-battery" "voltage";
      let cbb := match nonempty rc with Some v => parseChargeOrUnknown v | None => preCBB end in
      let aux := match nonempty ra with Some v => parseNonNegativeInt v | None => preAux end in
      let changed := negb (cbb =? preCBB) || negb (aux =? preAux) in
      let apply := set_ld (λ l, setAuxVoltageLocked aux (l <| cbBatteryCharge := cbb |>)) in
      if changed then apply;; mret TeleChanged
      else
        now ← Now;
        if negb (Before now deadline) then apply;; mret TeleDeadline
        else
          done ← ask e_ctx;
          if (done : bool) then mret TeleCancelled
          else telemetry_loop fuel preCBB preAux deadline
  end.

Definition telemetry_fuel : nat := 17.

Definition awaitFreshTelemetryForLastDitch : ST World TelemetryExit :=
  l ← gets ld;
  now ← Now;
  telemetry_loop telemetry_fuel (cbBatteryCharge l) (auxVoltageMv l) (Add now lastDitchTelemetryWait).

(** The delay inhibitor is held again after a resume. *)
Definition restoreDelayInhibitor : ST World unit :=
  f ← gets flags;
  set_flags (λ f, f <| cancelDelayRemoval := false |>);;
  when negb (delayInhibitor f) do
    (set_flags (λ f, f <| delayInhibitor := true |>);; emit (ODelay true)).

Definition wakeEvent (reason : string) : EventID :=
  if reason =s rtcWakeupIRQ then EvWakeupRTC else EvWakeup.

Definition handleWakeupAfterSuspend : ST World unit :=
  now ← Now;
  set_settings (λ s, s <| remoteAccessGraceUntil := Add now remoteAccessConnectGrace |>);;
  irq ← ask e_irq;
  let wakeupReason := match irq with Some s => TrimSpace s | None => "unknown" end in
  set_data (λ d, d <| WakeupReason := wakeupReason |> <| LowPowerStateIssued := false |>
                   <| ModemDisabled := false |>);;
  refreshBatteryStateFromRedis;;
  w ← get_st;
  (when (TargetPowerState (data w) =s TargetSuspend) && bothSlotsMissing (ld w) do
     (awaitFreshTelemetryForLastDitch;; skip));;
  restoreDelayInhibitor;;
  Send (wakeEvent wakeupReason) (WakeupPayload wakeupReason).

(** ** Clock coordination around a suspend *)

(** [recoverClockPreparation]: [true] without an error. *)
Definition recoverClockPreparation : ST World bool :=
  q ← coordinator (opRequest "status");
  match q with
  | None => mret false
  | Some q =>
      if negb (QPreparing q) then mret true
      else
        boot ← ask e_boot_id;
        match boot with
        | None => mret false
        | Some boot =>
            if negb (preparationIdentity q boot) then mret false
            else
              r ← coordinator (tokenRequest "resume" (QBootID q) (QGeneration q));
              mret (bool_decide (is_Some r))
        end
  end.

(** The token a successful "prepare" must carry. *)
Definition preparationToken (q : Quality) (boot : option string) : bool :=
  match boot with
  | None => false
  | Some boot => preparationIdentity q boot && QPreparing q
  end.

(** The admission of a suspend by the coordinator: the preparation's token. *)
Definition admitSuspend : ST World (option Quality) :=
  recovered ← recoverClockPreparation;
  q ← (if recovered : bool then coordinator (opRequest "prepare") else mret None);
  boot ← ask e_boot_id;
  match q with
  | None => mret None
  | Some q =>
      if preparationToken q boot then mret (Some q)
      else coordinator (opRequest "abort");; mret None
  end.

(** ** The suspend branch *)

(** The common tail of an aborted suspend. *)
Definition abortToRun : ST World unit := enableModem;; SendRun.

(** Announce and wait for the confirmation; [false] when the entry ends here. *)
Definition announceSuspend : ST World bool :=
  live ← liveVehicleInStandby;
  if negb live then setIssued false;; abortToRun;; mret false
  else
    set_flags (λ f, f <| suspendQuiesceAcks := false |>);;
    d ← gets data;
    publish "power-manager" [("state", mapPowerStateToRedis (TargetPowerState d))];;
    q ← ask e_quiesce;
    emit (OQuiesce q);;
    if negb q then abortToRun;; mret false else mret true.

(** From the last live check to the end of the sleep cycle. *)
Definition commitSuspend (c : Payload) : ST World unit :=
  live ← liveVehicleInStandby;
  if negb live then setIssued false;; abortToRun
  else
    x ← cancelIneligibleLowPower c;
    if (x : bool) then skip
    else
      tok ← admitSuspend;
      match tok with
      | None => setIssued false;; abortToRun
      | Some q =>
          cl ← gets client;
          r ← ask (λ e n, SuspendAndWaitResume cl (e_call e n) (e_ready e n));
          emit (OSuspend r);;
          if bool_decide (r = Resumed) then
            coordinator (tokenRequest "resume" (QBootID q) (QGeneration q));;
            handleWakeupAfterSuspend
          else
            coordinator (opRequest "abort");;
            setIssued false;;
            stopped ← ask e_ctx;
            if (stopped : bool) then skip else abortToRun
      end.

(** ** EnterIssuingLowPower *)

(** The logind command of a target. *)
Definition powerCommand (target : string) : option string :=
  if target =s "suspend" then Some "suspend"
  else if one_of target ["hibernate"; "hibernate-manual"; "hibernate-timer"; "hibernate-for"]
  then Some "poweroff"
  else if target =s "reboot" then Some "reboot"
  else None.

(** The last re-check and the command of the poweroff/reboot branch. *)
Definition commitPoweroff (c : Payload) (command : string) : ST World (option string) :=
  x ← (if command =s "poweroff" then cancelIneligibleLowPower c else mret false);
  if (x : bool) then mret None
  else
    cl ← gets client;
    ok ← ask (λ e n, IssueCommand cl (e_call e n) command);
    emit (OIssue command ok);;
    if negb ok then setIssued false;; mret (Some "failed to issue")
    else mret None.

(** Past the late inhibitor gate. *)
Definition issueCommand (c : Payload) (command : string) : ST World (option string) :=
  setIssued true;;
  d ← gets data;
  (when negb (HibernateRequestID d =s "") do setHibernateStatus "powering-off" "");;
  if command =s "suspend" then
    ok ← announceSuspend;
    (when (ok : bool) do commitSuspend c);;
    mret None
  else commitPoweroff c command.

(** The result is the returned error. *)
Definition EnterIssuingLowPower' (c : Payload) : ST World (option string) :=
  x ← cancelIneligibleLowPower c;
  if (x : bool) then mret None
  else
    armed ← awaitWakeSource;
    if negb armed then mret None
    else
      w ← get_st;
      let target := TargetPowerState (data w) in
      if DryRun (cfg w) then
        (when target =s "suspend" do Send EvWakeup (WakeupPayload "dry-run"));;
        mret None
      else match powerCommand target with
      | None => mret (Some "unsupported power state")
      | Some command =>
          late ← HasBlocking target;
          if (late : bool) then Send EvLateBlockingInhibitor NoPayload;; mret None
          else issueCommand c command
      end.

(** ** The delay inhibitor *)

(** [ExitIssuingLowPower] replaces the pending removal; its goroutine then
    either removes the inhibitor or has been cancelled. *)
Definition ExitIssuingLowPower' : ST World unit :=
  set_flags (λ f, f <| cancelDelayRemoval := true |>).

Definition delayRemovalFires : ST World unit :=
  f ← gets flags;
  if cancelDelayRemoval f then
    (when delayInhibitor f do
       (set_flags (λ f, f <| delayInhibitor := false |>);; emit (ODelay false)));;
    set_flags (λ f, f <| cancelDelayRemoval := false |>)
  else skip.

Definition run_entry (en : Entry) (c : Payload) : ST World unit :=
  match en with
  | EnterPreSuspend => skip
  | EnterSuspendImminent => skip
  | EnterLowPowerImminent => EnterLowPowerImminent'
  | EnterWaitingInhibitors => EnterWaitingInhibitors' c
  | EnterIssuingLowPower => EnterIssuingLowPower' c;; skip
  end.
