(* ===== verification/SvcFacts.v ===== *)
(** * Frames of the service's methods

    Which part of the state a guard or an action may change, that only the
    issuing entry talks to logind, and that every event the service sends is
    well formed.  The component theorems build on these. *)

From S2P Require Import Prelude GoInt GoTime HibTimer Scheduler Fsm Inhibitor LastDitch GoFloat.
From S2P Require Import ClockProto Systemd ClockClient SvcState SvcGuards SvcActions Issuing.

(** ** Well-formed events *)

(** The targets a power event may carry; [None] for the events that carry no
    power command. *)
Definition event_targets (e : EventID) : option (list string) :=
  match e with
  | EvPowerRun => Some [TargetRun]
  | EvPowerSuspend => Some [TargetSuspend]
  | EvPowerHibernate | EvLastDitchCheck => Some [TargetHibernate]
  | EvPowerHibernateManual => Some [TargetHibernateManual]
  | EvPowerHibernateTimer | EvHibernationTimerExpired => Some [TargetHibernateTimer]
  | EvPowerHibernateFor => Some [TargetHibernateFor]
  | EvPowerReboot => Some [TargetReboot]
  | EvExplicitHibernate => Some [TargetHibernateManual; TargetHibernateFor]
  | EvDefaultStateChanged =>
      Some [TargetSuspend; TargetHibernate; TargetHibernateManual; TargetHibernateTimer; TargetReboot]
  | _ => None
  end.

(** The payload a sender attaches to each event; [EvLowPowerIssued] has no
    sender. *)
Definition wf_event (e : Event) : bool :=
  match event_targets (evID e), evPayload e with
  | Some ts, PowerCommandPayload t explicit _ =>
      one_of t ts && Bool.eqb explicit (bool_decide (evID e = EvExplicitHibernate))
  | Some _, _ => false
  | None, PowerCommandPayload _ _ _ => false
  | None, p =>
      match evID e, p with
      | EvVehicleStateChanged, VehicleStatePayload _ => true
      | EvVehicleStateChanged, _ => false
      | (EvBatteryBecameActive | EvBatteryBecameInactive), BatteryStatePayload _ _ => true
      | (EvBatteryBecameActive | EvBatteryBecameInactive), _ => false
      | (EvWakeup | EvWakeupRTC), WakeupPayload _ => true
      | (EvWakeup | EvWakeupRTC), _ => false
      | EvHibernatePreparationFailed, HibernatePreparationResult _ _ => true
      | EvHibernatePreparationFailed, _ => false
      | EvLowPowerIssued, _ => false
      | _, NoPayload => true
      | _, _ => false
      end
  end.

(** ** What a computation may leave in the trace *)

(** [commands] allows power commands. *)
Definition obs_ok (commands : bool) (o : Obs) : bool :=
  match o with
  | OSend e => wf_event e
  | OIssue _ _ | OSuspend _ => commands
  | _ => true
  end.

(** The events sent, in order. *)
Fixpoint sent (l : list Obs) : list Event :=
  match l with
  | [] => []
  | OSend e :: l => e :: sent l
  | _ :: l => sent l
  end.

Lemma sent_elem e l : e ∈ sent l → OSend e ∈ l.
Proof.
  induction l as [|o l IH]; [by intros ?%elem_of_nil|].
  destruct o; cbn; rewrite ?elem_of_cons; naive_solver.
Qed.

Definition grows (Q : Obs → bool) (w w' : World) : Prop :=
  ∃ l, trace w' = trace w ++ l ∧ Forall (λ o, Q o = true) l.

#[export] Instance grows_preorder Q : PreOrder (grows Q).
Proof.
  split.
  - intros w. exists []. by rewrite app_nil_r.
  - intros w1 w2 w3 (l1 & H1 & F1) (l2 & H2 & F2). exists (l1 ++ l2).
    rewrite H2, H1, app_assoc. split; [done|]. by apply Forall_app.
Qed.

Definition emits (Q : Obs → bool) {A} (m : ST World A) : Prop := steps (grows Q) m.

Section emits.
Context (Q : Obs → bool).

Lemma emits_ret {A} (a : A) : emits Q (mret a).
Proof. apply steps_ret. apply _. Qed.
Lemma emits_skip : emits Q skip.
Proof. apply steps_skip. apply _. Qed.
Lemma emits_gets {A} (f : World → A) : emits Q (gets f).
Proof. apply steps_gets. apply _. Qed.
Lemma emits_bind {A C} (m : ST World A) (k : A → ST World C) :
  emits Q m → (∀ a, emits Q (k a)) → emits Q (m ≫= k).
Proof. apply steps_bind. apply _. Qed.
Lemma emits_silent {A} (m : ST World A) : keeps trace m → emits Q m.
Proof. intros H w. exists []. rewrite app_nil_r. split; [apply H|constructor]. Qed.
Lemma emits_emit o : Q o = true → emits Q (emit o).
Proof. intros H w. exists [o]. split; [done|]. by constructor. Qed.
Lemma emits_mono (Q' : Obs → bool) {A} (m : ST World A) :
  (∀ o, Q o = true → Q' o = true) → emits Q m → emits Q' m.
Proof.
  intros H Hm w. destruct (Hm w) as (l & Hl & Hf). exists l. split; [done|].
  eapply Forall_impl; [exact Hf|]. auto.
Qed.
End emits.

Lemma obs_ok_mono o : obs_ok false o = true → obs_ok true o = true.
Proof. by destruct o. Qed.

(** The observations of reads and writes are always allowed. *)
Definition lenient (Q : Obs → bool) : Prop :=
  ∀ o, match o with OSend _ | OIssue _ _ | OSuspend _ => True | _ => Q o = true end.

Lemma obs_ok_lenient b : lenient (obs_ok b).
Proof. by intros []. Qed.
#[export] Hint Resolve obs_ok_lenient : frame.

Section primitives.
Context (Q : Obs → bool) (HQ : lenient Q).
#[local] Ltac prim := repeat (apply emits_bind; [|intros ?]);
  try solve [by apply emits_silent | apply emits_ret | apply emits_emit, (HQ (ORead _ _ _))
    | apply emits_emit, (HQ (OReadAll _ _)) | apply emits_emit, (HQ (OPublish _ _ _))
    | apply emits_emit, (HQ (OPush _ _ _)) | apply emits_emit, (HQ (OGate _ _))
    | apply emits_emit, (HQ (OClock _ _))].
Lemma emits_ask {A} (f : Env → nat → A) : emits Q (ask f).
Proof. by apply emits_silent. Qed.
Lemma emits_HGet h f : emits Q (HGet h f).
Proof. unfold HGet. prim. Qed.
Lemma emits_HGetAll h : emits Q (HGetAll h).
Proof. unfold HGetAll. prim. Qed.
Lemma emits_publish h l : emits Q (publish h l).
Proof. unfold publish. prim. Qed.
Lemma emits_LPush k v : emits Q (LPush k v).
Proof. unfold LPush. prim. Qed.
Lemma emits_HasBlocking t : emits Q (HasBlocking t).
Proof. unfold HasBlocking. prim. Qed.
Lemma emits_coordinator r : emits Q (coordinator r).
Proof. unfold coordinator. prim. Qed.
Lemma emits_Send id p : Q (OSend (mkEvent id p)) = true → emits Q (Send id p).
Proof. apply emits_emit. Qed.
End primitives.

(** Settle an [emits] goal along the structure of the computation. *)
Ltac emits_step :=
  lazymatch goal with
  | |- emits _ (mbind _ _) => apply emits_bind; [| intros ?]
  | |- emits _ (mret _) => apply emits_ret
  | |- emits _ skip => apply emits_skip
  | |- emits _ (gets _) => apply emits_gets
  | |- emits _ (ask _) => apply emits_ask
  | |- emits _ (HGet _ _) => apply emits_HGet
  | |- emits _ (HGetAll _) => apply emits_HGetAll
  | |- emits _ (publish _ _) => apply emits_publish
  | |- emits _ (LPush _ _) => apply emits_LPush
  | |- emits _ (HasBlocking _) => apply emits_HasBlocking
  | |- emits _ (coordinator _) => apply emits_coordinator
  | |- emits _ (Send _ _) => apply emits_Send
  | |- emits _ (emit _) => apply emits_emit
  | |- emits _ (if ?b then _ else _) => destruct b
  | |- emits _ (match ?x with _ => _ end) => destruct x
  end.
Ltac emits_tac := repeat emits_step;
  try solve [auto with frame nocore | by apply emits_silent | reflexivity].

(** ** Guards *)

(** Everything but the last-ditch inputs, the tick and the trace. *)
Definition core (w : World) :=
  (cfg w, data w, settings w, flags w, guard w, sched w, htimer w, client w, env w).

Lemma keeps_HGet {B} (π : World → B) h f :
  (∀ w n l, π (w <| tick := n |> <| trace := l |>) = π w) → keeps π (HGet h f).
Proof. intros H w. apply (H w). Qed.

Section guards.
#[local] Ltac go := keeps_tac.
Lemma core_HGet h f : keeps core (HGet h f). Proof. done. Qed.
Lemma core_HGetAll h : keeps core (HGetAll h). Proof. done. Qed.
Lemma core_publish h l : keeps core (publish h l). Proof. done. Qed.
Lemma core_LPush k v : keeps core (LPush k v). Proof. done. Qed.
Lemma core_HasBlocking t : keeps core (HasBlocking t). Proof. done. Qed.
Lemma core_coordinator r : keeps core (coordinator r). Proof. done. Qed.
Lemma core_Send i p : keeps core (Send i p). Proof. done. Qed.
Lemma core_set_ld f : keeps core (set_ld f). Proof. done. Qed.
Lemma core_ask {A} (f : Env → nat → A) : keeps core (ask f). Proof. done. Qed.
Lemma core_emit o : keeps core (emit o). Proof. done. Qed.
End guards.
#[export] Hint Resolve core_HGet core_HGetAll core_publish core_LPush core_HasBlocking
  core_coordinator core_Send core_set_ld core_ask core_emit : frame.

Lemma core_liveVehicle : keeps core liveVehicleInStandby.
Proof. unfold liveVehicleInStandby. keeps_tac. Qed.
Lemma core_liveActive : keeps core liveBatteryActive.
Proof. unfold liveBatteryActive. keeps_tac. Qed.
Lemma core_livePresent : keeps core liveBatteryPresent.
Proof. unfold liveBatteryPresent. keeps_tac. Qed.
Lemma core_refresh : keeps core refreshLastDitchInputs.
Proof. unfold refreshLastDitchInputs. keeps_tac. Qed.
Lemma core_evalLastDitch : keeps core evalLastDitch.
Proof. unfold evalLastDitch, Now. keeps_tac. Qed.
Lemma core_suspendBlocked : keeps core suspendBlockedWhileOnline.
Proof. unfold suspendBlockedWhileOnline, Now. keeps_tac. Qed.
#[export] Hint Resolve core_liveVehicle core_liveActive core_livePresent core_refresh
  core_evalLastDitch core_suspendBlocked : frame.

Lemma core_CanEnter c : keeps core (CanEnterLowPowerState' c).
Proof. unfold CanEnterLowPowerState', or_else. keeps_tac. Qed.
#[export] Hint Resolve core_CanEnter : frame.
Lemma core_IsLastDitchTriggered : keeps core IsLastDitchTriggered'.
Proof. unfold IsLastDitchTriggered'. keeps_tac. Qed.
#[export] Hint Resolve core_IsLastDitchTriggered : frame.
Lemma core_ShouldCancel c : keeps core (ShouldCancelLowPower' c).
Proof. unfold ShouldCancelLowPower', and_then, get_st. keeps_tac. Qed.
Lemma core_onlyModem t : keeps core (hasOnlyModemBlockingInhibitors t).
Proof. done. Qed.
Lemma core_setStatus s r : keeps core (setHibernateStatus s r).
Proof. done. Qed.
#[export] Hint Resolve core_ShouldCancel core_onlyModem core_setStatus : frame.
Lemma core_explicit t : keeps core (explicitHibernateState t).
Proof. unfold explicitHibernateState, or_else. keeps_tac. Qed.
#[export] Hint Resolve core_explicit : frame.

(** A guard never changes the core of the state: evaluating the table has no
    side effect but the refreshed last-ditch inputs. *)
Lemma eval_guard_core g c : keeps core (eval_guard g c).
Proof.
  destruct g; cbn [eval_guard]; try solve [auto with frame nocore | intros ?; reflexivity].
  all: unfold CanAcceptExplicitHibernate', CanProceedPastModemWait'; keeps_tac.
Qed.
#[export] Hint Resolve eval_guard_core : frame.

Lemma emits_CanEnter Q c : lenient Q → emits Q (CanEnterLowPowerState' c).
Proof.
  intros HQ. unfold CanEnterLowPowerState', or_else, liveBatteryPresent, liveBatteryActive,
    suspendBlockedWhileOnline, Now. emits_tac.
Qed.

Lemma emits_IsLastDitchTriggered Q : lenient Q → emits Q IsLastDitchTriggered'.
Proof. intros HQ. unfold IsLastDitchTriggered', refreshLastDitchInputs, evalLastDitch, Now. emits_tac. Qed.
#[export] Hint Resolve emits_CanEnter emits_IsLastDitchTriggered : frame.

Lemma emits_ShouldCancel Q c : lenient Q → emits Q (ShouldCancelLowPower' c).
Proof.
  intros HQ. unfold ShouldCancelLowPower', and_then, get_st, liveVehicleInStandby. emits_tac.
Qed.
Lemma emits_explicit Q t : lenient Q → emits Q (explicitHibernateState t).
Proof.
  intros HQ. unfold explicitHibernateState, or_else, hasOnlyModemBlockingInhibitors, Inhibitors.
  emits_tac.
Qed.
Lemma emits_setStatus Q s r : lenient Q → emits Q (setHibernateStatus s r).
Proof. intros HQ. unfold setHibernateStatus. emits_tac. Qed.
#[export] Hint Resolve emits_ShouldCancel emits_explicit emits_setStatus : frame.

Lemma eval_guard_emits Q g c : lenient Q → emits Q (eval_guard g c).
Proof.
  intros HQ. destruct g; cbn [eval_guard]; try solve [auto with frame nocore | apply emits_gets].
  all: unfold CanAcceptExplicitHibernate', HasNoBlockingInhibitors', HasOnlyModemInhibitors',
         CanProceedPastModemWait', hasOnlyModemBlockingInhibitors, Inhibitors; emits_tac.
Qed.
#[export] Hint Resolve eval_guard_emits : frame.

#[export] Instance Entry_eq_dec : EqDecision Entry.
Proof. solve_decision. Defined.

(** ** Actions and entries: what they emit *)

Section emits_actions.
Context (b : bool).
Local Abbreviation Q := (obs_ok b).

Lemma emits_set_data f : emits Q (set_data f).
Proof. by apply emits_silent. Qed.
Lemma emits_set_ld f : emits Q (set_ld f).
Proof. by apply emits_silent. Qed.
Lemma emits_set_flags f : emits Q (set_flags f).
Proof. by apply emits_silent. Qed.
Lemma emits_disableModem : emits Q disableModem.
Proof. unfold disableModem, pushModemCommand. emits_tac. Qed.
Lemma emits_enableModem : emits Q enableModem.
Proof. unfold enableModem, pushModemCommand. emits_tac. Qed.
#[local] Hint Resolve emits_set_data emits_set_ld emits_set_flags emits_disableModem emits_enableModem : frame.

Lemma emits_clearHibernateRequest s r : emits Q (clearHibernateRequest s r).
Proof. unfold clearHibernateRequest, stopHibernatePreparationTimer, get_st, setWakeSeconds, setArmed. emits_tac. Qed.
Lemma emits_prepareExplicit s : emits Q (prepareExplicitHibernate s).
Proof. unfold prepareExplicitHibernate. emits_tac. Qed.
Lemma emits_beginLastDitch : emits Q beginAutomaticLastDitch.
Proof. unfold beginAutomaticLastDitch, setArmed. emits_tac. Qed.
Lemma emits_clearLastDitch : emits Q clearAutomaticLastDitch.
Proof. unfold clearAutomaticLastDitch. emits_tac. Qed.
#[local] Hint Resolve emits_clearHibernateRequest emits_prepareExplicit emits_beginLastDitch
  emits_clearLastDitch : frame.
Lemma emits_OnWakeup c : emits Q (OnWakeup' c).
Proof. unfold OnWakeup', setIssued, publishWakeupSource, publishState. emits_tac. Qed.
Lemma emits_OnLastDitchDisabled : emits Q OnLastDitchDisabled'.
Proof. unfold OnLastDitchDisabled', get_st, setTarget, setWakeSeconds, setArmed, setIssued. emits_tac. Qed.
Lemma emits_resetToDefault : emits Q resetToDefault.
Proof. unfold resetToDefault, setTarget. emits_tac. Qed.
Lemma emits_follow o n : emits Q (followReadyToDrive o n).
Proof. unfold followReadyToDrive, resetHibernationTimer, Now. cbv zeta. emits_tac. Qed.
Lemma emits_acceptCommand t n : emits Q (acceptCommand t n).
Proof. unfold acceptCommand, setTarget, setWakeSeconds, setArmed. emits_tac. Qed.
#[local] Hint Resolve emits_OnWakeup emits_OnLastDitchDisabled emits_resetToDefault emits_follow
  emits_acceptCommand : frame.

Lemma run_action_emits a c : emits Q (run_action a c).
Proof.
  destruct a; cbn [run_action]; try solve [auto with frame nocore | apply emits_skip].
  all: unfold OnLowPowerCancelled', OnVehicleStateChanged', OnVehicleLeftLowPowerState',
    OnBatteryStateChanged', OnPowerCommand', OnHibernatePreparationFailed', OnLastDitchTriggered',
    OnLastDitchWakeup', OnLastDitchDefaultStateChanged', OnDefaultStateChanged', setIssued, setTarget,
    setWakeSeconds, setArmed, stopHibernatePreparationTimer; cbv zeta; emits_tac.
Qed.

Lemma emits_cancelIneligible c : emits Q (cancelIneligibleLowPower c).
Proof. unfold cancelIneligibleLowPower, setIssued. emits_tac. Qed.
Lemma emits_EnterLowPowerImminent : emits Q EnterLowPowerImminent'.
Proof. unfold EnterLowPowerImminent'. emits_tac. Qed.
#[local] Hint Resolve emits_cancelIneligible : frame.
Lemma emits_EnterWaiting c : emits Q (EnterWaitingInhibitors' c).
Proof.
  unfold EnterWaitingInhibitors', hasOnlyModemBlockingInhibitors, Inhibitors. emits_tac.
Qed.
Lemma emits_waitForWakeTimer : emits Q waitForWakeTimer.
Proof. unfold waitForWakeTimer, get_st. emits_tac. Qed.
#[local] Hint Resolve emits_waitForWakeTimer : frame.
Lemma emits_awaitWakeSource : emits Q awaitWakeSource.
Proof. unfold awaitWakeSource, get_st, SendRun, setArmed. emits_tac. Qed.
Lemma emits_telemetry n a x d : emits Q (telemetry_loop n a x d).
Proof. revert a x d. induction n as [|n IH]; intros; cbn [telemetry_loop]; cbv zeta; unfold Now; emits_tac. Qed.
#[local] Hint Resolve emits_telemetry : frame.
Lemma obs_ok_wake r : obs_ok b (OSend (mkEvent (wakeEvent r) (WakeupPayload r))) = true.
Proof. unfold wakeEvent. by destruct (r =s rtcWakeupIRQ). Qed.
#[local] Hint Resolve obs_ok_wake : frame.
Lemma emits_handleWakeup : emits Q handleWakeupAfterSuspend.
Proof.
  unfold handleWakeupAfterSuspend, refreshBatteryStateFromRedis, awaitFreshTelemetryForLastDitch,
    restoreDelayInhibitor, get_st, Now. cbv zeta. emits_tac.
Qed.
Lemma emits_abortToRun : emits Q abortToRun.
Proof. unfold abortToRun, SendRun. emits_tac. Qed.
#[local] Hint Resolve emits_handleWakeup emits_abortToRun emits_awaitWakeSource : frame.
Lemma emits_announceSuspend : emits Q announceSuspend.
Proof. unfold announceSuspend, liveVehicleInStandby, setIssued. emits_tac. Qed.
Lemma emits_admitSuspend : emits Q admitSuspend.
Proof. unfold admitSuspend, recoverClockPreparation. emits_tac. Qed.
End emits_actions.
#[export] Hint Resolve emits_set_data emits_set_ld emits_set_flags emits_disableModem emits_enableModem
  emits_clearHibernateRequest emits_prepareExplicit emits_beginLastDitch emits_clearLastDitch
  emits_OnWakeup emits_OnLastDitchDisabled emits_resetToDefault emits_follow emits_acceptCommand
  run_action_emits emits_cancelIneligible emits_EnterLowPowerImminent emits_EnterWaiting
  emits_waitForWakeTimer emits_awaitWakeSource emits_handleWakeup emits_abortToRun
  emits_announceSuspend emits_admitSuspend : frame.

(** The issuing entry emits well-formed events too, and power commands. *)
Lemma emits_EnterIssuing c : emits (obs_ok true) (EnterIssuingLowPower' c).
Proof.
  unfold EnterIssuingLowPower', issueCommand, commitSuspend, commitPoweroff, liveVehicleInStandby,
    get_st, setIssued. cbv zeta. emits_tac.
Qed.

(** Every other entry is free of power commands. *)
Lemma run_entry_emits en c : emits (obs_ok (bool_decide (en = EnterIssuingLowPower))) (run_entry en c).
Proof.
  destruct en; cbn [run_entry]; try solve [auto with frame nocore | apply emits_skip].
  apply emits_bind; [apply emits_EnterIssuing|intros; apply emits_skip].
Qed.

(** ** Frames as weakest preconditions *)

Lemma wp_keeps {B} (π : World → B) {A} (m : ST World A) (Q : A → World → Prop) w :
  keeps π m → (∀ a w', π w' = π w → Q a w') → wp m Q w.
Proof. intros Hm HQ. apply HQ, Hm. Qed.
