(* ===== verification/IssuingFacts.v ===== *)
(** * Safety of the issuing entry

    What must have happened, and in which order, before
    [EnterIssuingLowPower] asks logind for a power transition. *)

From S2P Require Import Prelude GoInt GoTime HibTimer Scheduler Fsm Inhibitor LastDitch GoFloat.
From S2P Require Import ClockProto Systemd ClockClient SvcState SvcGuards SvcActions Issuing.
From S2P Require Import SvcFacts.

(** Observations that neither command nor send. *)
Definition silent (o : Obs) : bool :=
  match o with OSend _ | OIssue _ _ | OSuspend _ => false | _ => true end.

Lemma silent_lenient : lenient silent.
Proof. by intros []. Qed.
#[export] Hint Resolve silent_lenient : frame.

(** Observations without a power command. *)
Definition uncommanded (o : Obs) : bool :=
  match o with OIssue _ _ | OSuspend _ => false | _ => true end.

Lemma quiet_uncommanded o : obs_ok false o = true → uncommanded o = true.
Proof. by destruct o. Qed.
Lemma silent_uncommanded o : silent o = true → uncommanded o = true.
Proof. by destruct o. Qed.

(** The computation appends [l], and [Q] holds of its elements. *)
Definition adds (Q : Obs → bool) (w w' : World) (l : list Obs) : Prop :=
  trace w' = trace w ++ l ∧ Forall (λ o, Q o = true) l.

Lemma adds_trans Q w1 w2 w3 l1 l2 : adds Q w1 w2 l1 → adds Q w2 w3 l2 → adds Q w1 w3 (l1 ++ l2).
Proof.
  intros [H1 F1] [H2 F2]. split; [by rewrite H2, H1, app_assoc|]. by apply Forall_app.
Qed.

Lemma adds_weaken (Q Q' : Obs → bool) w w' l :
  (∀ o, Q o = true → Q' o = true) → adds Q w w' l → adds Q' w w' l.
Proof. intros H [H1 F1]. split; [done|]. eapply Forall_impl; [exact F1|auto]. Qed.

Lemma emits_adds Q {A} (m : ST World A) w a w' : emits Q m → m w = (a, w') → ∃ l, adds Q w w' l.
Proof. intros H E. apply (steps_inv _ _ _ _ _ H E). Qed.

Lemma keeps_inv {B} (π : World → B) {A} (m : ST World A) w a w' : keeps π m → m w = (a, w') → π w' = π w.
Proof. intros H E. apply (steps_inv _ _ _ _ _ H E). Qed.

(** The new part of the trace. *)
Definition since (w w' : World) : list Obs := drop (length (trace w)) (trace w').

Lemma since_adds Q w w' l : adds Q w w' l → since w w' = l.
Proof. intros [H _]. unfold since. by rewrite H, drop_app_length. Qed.

(** ** The re-check *)

(** The emergency condition holds in the state, for some reading of the clock. *)
Definition emergency (w : World) : Prop := ∃ now, (lastDitchTriggeredLocked now (ld w)).1 = true.

Lemma evalLastDitch_emergency w w' : evalLastDitch w = (true, w') → emergency w'.
Proof.
  unfold evalLastDitch, Now, ask, gets, set_ld, modify, mbind, ST_bind, mret, ST_ret. cbn.
  destruct (lastDitchTriggeredLocked _ _) as [b l'] eqn:E. cbn. intros [= -> <-].
  exists (e_now (env w) (tick w)). cbn.
  assert (l' = ld w) as -> by (revert E; unfold lastDitchTriggeredLocked; repeat split_if; congruence).
  by rewrite E.
Qed.

Lemma ShouldCancel_auto c w w' :
  AutomaticLastDitch (data w) = true → ShouldCancelLowPower' c w = (false, w') → emergency w'.
Proof.
  intros Ha H. unfold ShouldCancelLowPower' in H. minv H. rewrite Ha in H. cbv iota in H.
  destruct (automaticLastDitchDisabled w); minv H; [done|].
  unfold IsLastDitchTriggered' in E. minv E. simplify_eq.
  destruct a; [|done]. by eapply evalLastDitch_emergency.
Qed.

(** [cancelIneligibleLowPower] either ends the entry without a command, or has
    done nothing but look. *)
Lemma cancel_spec c w x w' :
  cancelIneligibleLowPower c w = (x, w') →
  if x then ∃ l, adds (obs_ok false) w w' l
  else core w' = core w ∧ ShouldCancelLowPower' c w = (false, w') ∧ (∃ l, adds silent w w' l) ∧
       (AutomaticLastDitch (data w) = true → emergency w').
Proof.
  intros H. destruct x.
  - eapply emits_adds; [|done]. auto with frame.
  - unfold cancelIneligibleLowPower in H. minv H. destruct a; cbn [negb] in H; cbv iota in H; minv H; [done|].
    simplify_eq. split; [by eapply keeps_inv; [apply core_ShouldCancel|]|].
    split; [done|]. split; [eapply emits_adds; [|done]; auto with frame|].
    intros Ha. by eapply ShouldCancel_auto.
Qed.

(** ** The wake source *)

Definition wakeNeeded (w : World) : bool :=
  (TargetPowerState (data w) =s TargetHibernateFor) && (0 <? HibernateForWakeSeconds (data w)).

(** The parts of the state the later steps depend on. *)
Definition base (w : World) := (cfg w, data w, ld w, client w, env w).

Lemma adds_nil Q w w' : trace w' = trace w → adds Q w w' [].
Proof. intros H. split; [by rewrite app_nil_r|constructor]. Qed.

Lemma waitForWakeTimer_spec w x w' :
  waitForWakeTimer w = (x, w') →
  base w' = base w ∧ adds silent w w' [OWakeAck (HibernateForWakeSeconds (data w)) x].
Proof.
  unfold waitForWakeTimer, get_st, ask, set_flags, modify, emit, mbind, ST_bind, mret, ST_ret. cbn.
  intros [= <- <-]. split; [done|]. split; [done|]. by repeat constructor.
Qed.

Lemma awaitWakeSource_spec w x w' :
  awaitWakeSource w = (x, w') →
  if x then base w' = base w ∧ ∃ l, adds silent w w' l ∧
    (wakeNeeded w = true →
       wakeTimerArmed (flags w) = true ∨ OWakeAck (HibernateForWakeSeconds (data w)) true ∈ l)
  else ∃ l, adds (obs_ok false) w w' l.
Proof.
  intros H. destruct x; [|eapply emits_adds; [|done]; auto with frame].
  unfold awaitWakeSource in H. minv H. unfold wakeNeeded.
  destruct (_ && _) eqn:E1 in H; minv H.
  - destruct a0; cbn [negb] in H; cbv iota in H; minv H; [|done]. injection H as <-.
    pose proof (emits_adds silent _ _ _ _ (emits_setStatus _ _ _ silent_lenient) E) as [l0 H0].
    assert (base w0 = base w) as Hb0 by (eapply keeps_inv; [|exact E]; done).
    apply waitForWakeTimer_spec in E0 as [Hb1 H1].
    assert (base w2 = base w1 ∧ trace w2 = trace w1) as [Hb2 H2] by by injection E2 as <- <-.
    split; [congruence|]. eexists. split.
    + eapply adds_trans; [exact H0|]. split; [rewrite H2; apply H1|apply H1].
    + intros _. right. injection Hb0 as _ -> _ _ _. rewrite elem_of_app, list_elem_of_singleton. auto.
  - injection H as <-. split; [done|]. exists []. split; [by apply adds_nil|].
    intros Hn. left. rewrite Hn in E1. by destruct (wakeTimerArmed (flags w)).
Qed.

(** ** The poweroff and reboot branch *)

Lemma quiet_no_command w w' l o :
  adds (obs_ok false) w w' l → o ∈ since w w' → uncommanded o = true.
Proof.
  intros H. rewrite (since_adds _ _ _ _ H). destruct H as [_ H].
  rewrite Forall_forall in H. intros Ho. apply quiet_uncommanded. by apply H.
Qed.

Lemma commitPoweroff_spec c cmd w r w' :
  commitPoweroff c cmd w = (r, w') →
  (∃ l, adds (obs_ok false) w w' l) ∨
  (∃ l ok, trace w' = trace w ++ l ++ [OIssue cmd ok] ∧ Forall (λ o, silent o = true) l ∧
     (cmd = "poweroff" → AutomaticLastDitch (data w) = true → emergency w')).
Proof.
  intros H. unfold commitPoweroff in H. minv H.
  assert (Hx : if a then ∃ l, adds (obs_ok false) w w0 l
               else (∃ l, adds silent w w0 l) ∧
                    (cmd = "poweroff" → AutomaticLastDitch (data w) = true → emergency w0)).
  { destruct (String.eqb_spec cmd "poweroff") as [->|Hne].
    - apply cancel_spec in E. destruct a; [done|]. destruct E as (_ & _ & ? & ?). auto.
    - rewrite run_ret in E. injection E as <- <-. split; [exists []; by apply adds_nil|done]. }
  destruct a; minv H.
  { left. injection H as _ <-. exact Hx. }
  destruct Hx as [[l [Hl Fl]] He]. right. exists l, a.
  assert (Hw : trace w' = trace w0 ++ [OIssue cmd a] ∧ ld w' = ld w0).
  { assert (trace w1 = trace w0 ∧ ld w1 = ld w0) as [E1' E2'] by by injection E0 as _ <-.
    assert (trace w2 = trace w1 ++ [OIssue cmd a] ∧ ld w2 = ld w1) as [E3' E4'] by by injection E1 as _ <-.
    assert (trace w' = trace w2 ∧ ld w' = ld w2) as [-> ->].
    { destruct a; cbn [negb] in H; cbv iota in H; minv H; [by injection H as _ <-|].
      injection H as _ <-. by injection E2 as _ <-. }
    rewrite E3', E4', E1'. auto. }
  destruct Hw as [-> Hld]. rewrite Hl, <- app_assoc. split; [done|]. split; [done|].
  intros Hc Ha. unfold emergency. rewrite Hld. by apply He.
Qed.

Definition unissued (o : Obs) : bool := match o with OIssue _ _ => false | _ => true end.

Lemma quiet_unissued o : obs_ok false o = true → unissued o = true.
Proof. by destruct o. Qed.
Lemma unissued_lenient : lenient unissued.
Proof. by intros []. Qed.

(** The suspend branch issues nothing else. *)
Lemma emits_suspend_unissued c : emits unissued (ok ← announceSuspend; when (ok : bool) do commitSuspend c).
Proof.
  pose proof unissued_lenient. pose proof quiet_unissued.
  apply emits_bind; [eapply emits_mono; [done|]; auto with frame|]. intros [|]; [|apply emits_skip].
  unfold commitSuspend, liveVehicleInStandby, setIssued. emits_tac;
    eapply emits_mono; try done; auto with frame.
Qed.

Lemma issueCommand_spec c cmd w r w' :
  cmd ≠ "suspend" → issueCommand c cmd w = (r, w') →
  (∃ l, adds (obs_ok false) w w' l) ∨
  (∃ l ok, trace w' = trace w ++ l ++ [OIssue cmd ok] ∧ Forall (λ o, silent o = true) l ∧
     (cmd = "poweroff" → AutomaticLastDitch (data w) = true → emergency w')).
Proof.
  intros Hne H. unfold issueCommand in H. minv H.
  assert (trace w0 = trace w ∧ AutomaticLastDitch (data w0) = AutomaticLastDitch (data w)) as [Ht Ha]
    by by injection E as _ <-.
  apply streq_false in Hne. rewrite Hne in H. cbv iota in H.
  assert (Hs : core w1 = core w0 ∧ ∃ l, adds silent w0 w1 l).
  { split; [eapply keeps_inv; [|exact E0]|eapply emits_adds; [|exact E0]].
    - destruct (negb _); [apply core_setStatus|apply keeps_skip].
    - destruct (negb _); [auto with frame|apply emits_skip]. }
  destruct Hs as [Hc [l1 [Hl1 Fl1]]]. injection Hc as _ Hd _ _ _ _ _ _ _.
  destruct (commitPoweroff_spec _ _ _ _ _ H) as [[l [Hl Fl]]|(l & ok & Hl & Fl & He)].
  - left. exists (l1 ++ l). split; [by rewrite Hl, Hl1, Ht, app_assoc|].
    apply Forall_app. split; [|done]. eapply Forall_impl; [exact Fl1|]. by intros [].
  - right. exists (l1 ++ l), ok. split; [by rewrite Hl, Hl1, Ht, !app_assoc|].
    split; [by apply Forall_app|]. rewrite <- Ha, <- Hd. done.
Qed.

Lemma silent_quiet o : silent o = true → obs_ok false o = true.
Proof. by destruct o. Qed.

Lemma emits_issue_suspend c : emits unissued (issueCommand c "suspend").
Proof.
  pose proof unissued_lenient. unfold issueCommand, setIssued. cbv iota.
  apply emits_bind; [by apply emits_silent|]. intros _. apply emits_bind; [apply emits_gets|]. intros d.
  apply emits_bind; [destruct (negb _); [auto with frame|apply emits_skip]|]. intros _.
  rewrite (streq_refl "suspend").
  pose proof (emits_suspend_unissued c) as He. intros w. rewrite run_bind.
  specialize (He w). rewrite run_bind in He. destruct (announceSuspend w) as [a w1]. cbn [fst snd] in *.
  rewrite run_bind. destruct ((if a then commitSuspend c else skip) w1) as [u w2]. exact He.
Qed.

Lemma emits_dryrun t :
  emits (obs_ok false) (when t =s "suspend" do Send EvWakeup (WakeupPayload "dry-run")).
Proof. destruct (t =s "suspend"); [by apply emits_emit|apply emits_skip]. Qed.

Lemma HasBlocking_spec t w b w' :
  HasBlocking t w = (b, w') → trace w' = trace w ++ [OGate t b] ∧ data w' = data w ∧ flags w' = flags w ∧
    ld w' = ld w ∧ settings w' = settings w.
Proof. intros H. by injection H as <- <-. Qed.

(** ** The suspend branch *)

(** A live reading of the vehicle state, with the fallback of an error. *)
Definition liveStandby (r : option string) (known : string) : bool := default known r =s "stand-by".

Lemma liveVehicle_spec w b w' :
  liveVehicleInStandby w = (b, w') →
  ∃ r, trace w' = trace w ++ [ORead "vehicle" "state" r] ∧ core w' = core w ∧ ld w' = ld w ∧
       b = liveStandby r (VehicleState (data w)).
Proof.
  unfold liveVehicleInStandby, HGet, ask, emit, modify, gets, mbind, ST_bind, mret, ST_ret. cbn.
  intros [= <- <-]. eexists. split; [done|]. split; [done|]. split; [done|].
  unfold liveStandby. by destruct (e_hget _ _ _ _).
Qed.

Lemma HGet_spec h f w r w' :
  HGet h f w = (r, w') → trace w' = trace w ++ [ORead h f r] ∧ core w' = core w ∧ ld w' = ld w.
Proof. intros H. by injection H as <- <-. Qed.

Lemma ld_CanEnter c : keeps ld (CanEnterLowPowerState' c).
Proof.
  unfold CanEnterLowPowerState', or_else, liveBatteryPresent, liveBatteryActive, suspendBlockedWhileOnline,
    Now, HGetAll, HGet. keeps_tac.
Qed.

Lemma ShouldCancel_ld c w b w' :
  AutomaticLastDitch (data w) = false → ShouldCancelLowPower' c w = (b, w') → ld w' = ld w.
Proof.
  intros Ha H. unfold ShouldCancelLowPower' in H. minv H. rewrite Ha in H. cbv iota in H.
  destruct (_ =s _); minv H; [|by injection H as _ <-]. injection H as _ <-.
  apply liveVehicle_spec in E as (_ & _ & _ & <- & _). unfold and_then in E0.
  destruct a; [by apply (keeps_inv ld) in E0; [|apply ld_CanEnter]|by injection E0 as _ <-].
Qed.

Lemma settings_awaitWakeSource : keeps settings awaitWakeSource.
Proof.
  unfold awaitWakeSource, waitForWakeTimer, clearHibernateRequest, setHibernateStatus, publish,
    stopHibernatePreparationTimer, setWakeSeconds, setArmed, SendRun, Send, get_st. keeps_tac.
Qed.

(** ** The gates of the entry *)

(** Up to the late inhibitor gate: the entry ends without a command, or it has
    only looked around and the late gate was clear. *)
Lemma issuing_gate c w r w' :
  EnterIssuingLowPower' c w = (r, w') →
  (∃ l, adds (obs_ok false) w w' l) ∨
  ∃ w2 l cmd,
    adds silent w w2 (l ++ [OGate (TargetPowerState (data w)) false]) ∧
    data w2 = data w ∧ settings w2 = settings w ∧ (AutomaticLastDitch (data w) = false → ld w2 = ld w) ∧
    DryRun (cfg w) = false ∧ powerCommand (TargetPowerState (data w)) = Some cmd ∧
    (wakeNeeded w = true →
       wakeTimerArmed (flags w) = true ∨ OWakeAck (HibernateForWakeSeconds (data w)) true ∈ l) ∧
    issueCommand c cmd w2 = (r, w').
Proof.
  intros H. unfold EnterIssuingLowPower' in H. minv H. apply cancel_spec in E.
  destruct a; minv H. { injection H as _ <-. by left. }
  destruct E as (Hc1 & Hsc & [l1 H1] & _). injection Hc1 as C1 D1 S1 F1 _ _ _ _ _.
  assert (S2 : settings w1 = settings w0) by (eapply (keeps_inv settings); [apply settings_awaitWakeSource|exact E0]).
  apply awaitWakeSource_spec in E0. destruct a; cbn [negb] in H; cbv iota in H; minv H.
  2: { injection H as _ <-. destruct E0 as [l2 H2]. left. eexists. eapply adds_trans; [|exact H2].
       eapply adds_weaken; [apply silent_quiet|exact H1]. }
  destruct E0 as [Hb2 (l2 & H2 & Hwake)]. injection Hb2 as C2 D2 L2 _ _.
  pose proof (adds_trans _ _ _ _ _ _ H1 H2) as H12.
  assert (Hq : ∀ l, adds (obs_ok false) w1 w' l → ∃ l, adds (obs_ok false) w w' l).
  { intros l Hl. eexists. eapply adds_trans; [eapply adds_weaken; [apply silent_quiet|exact H12]|exact Hl]. }
  rewrite D2, D1, C2, C1 in H. destruct (DryRun (cfg w)) eqn:Hdry; minv H.
  { injection H as _ <-. left. assert (∃ l, adds (obs_ok false) w1 w2 l) as [l Hl]; [|by eapply Hq].
    eapply emits_adds; [|exact E]. apply emits_dryrun. }
  destruct (powerCommand _) as [cmd|] eqn:Hcmd; minv H.
  2: { injection H as _ <-. left. by eapply (Hq []), adds_nil. }
  apply HasBlocking_spec in E as (T3 & D3 & F3 & L3 & S3). destruct a; cbv iota in H; minv H.
  { left. injection H as _ <-. injection E as _ <-. eapply (Hq [_; _]). split.
    - cbn. by rewrite T3, <- app_assoc.
    - by repeat constructor. }
  right. exists w2, (l1 ++ l2), cmd. split.
  { eapply adds_trans; [exact H12|]. split; [exact T3|by repeat constructor]. }
  split; [congruence|]. split; [congruence|]. split.
  { intros Ha. apply (ShouldCancel_ld _ _ _ _ Ha) in Hsc. congruence. }
  do 2 (split; [done|]). split; [|exact H].
  intros Hn. unfold wakeNeeded in Hn, Hwake. rewrite D1, F1 in Hwake.
  destruct (Hwake Hn) as [?|Hk]; [by left|right]. rewrite elem_of_app. auto.
Qed.

Lemma no_command w w' l o : adds (obs_ok false) w w' l → o ∈ since w w' → uncommanded o = false → False.
Proof. intros Hl Ho. pose proof (quiet_no_command _ _ _ _ Hl Ho). congruence. Qed.

(** ** Poweroff and reboot *)

Lemma issuing_poweroff c w r w' cmd ok :
  EnterIssuingLowPower' c w = (r, w') → OIssue cmd ok ∈ since w w' →
  powerCommand (TargetPowerState (data w)) = Some cmd ∧ cmd ≠ "suspend" ∧ DryRun (cfg w) = false ∧
  ∃ before after,
    since w w' = before ++ [OGate (TargetPowerState (data w)) false] ++ after ++ [OIssue cmd ok] ∧
    Forall (λ o, silent o = true) (before ++ after) ∧
    (wakeNeeded w = true →
       wakeTimerArmed (flags w) = true ∨ OWakeAck (HibernateForWakeSeconds (data w)) true ∈ before) ∧
    (cmd = "poweroff" → AutomaticLastDitch (data w) = true → emergency w').
Proof.
  intros H Hin. apply issuing_gate in H as [[l Hl]|(w2 & l & cmd0 & [T F] & D & S & _ & Hdry & Hcmd & Hwake & H)].
  { exfalso. by eapply no_command. }
  assert (Hs : ∀ l' Q, adds Q w2 w' l' → since w w' = l ++ [OGate (TargetPowerState (data w)) false] ++ l').
  { intros l' Q [T' _]. apply (since_adds (λ _, true)). split; [|by apply Forall_true].
    by rewrite T', T, <- !app_assoc. }
  rewrite Forall_app in F. destruct F as [F _]. pose proof F as F'. rewrite Forall_forall in F'.
  destruct (String.eqb_spec cmd0 "suspend") as [->|Hne].
  - exfalso. destruct (emits_adds unissued _ _ _ _ (emits_issue_suspend c) H) as [l' Hl].
    rewrite (Hs _ _ Hl), !elem_of_app, list_elem_of_singleton in Hin. destruct Hl as [_ Fl].
    rewrite Forall_forall in Fl. destruct Hin as [Hin|[Hin|Hin]]; [by apply F' in Hin|done|by apply Fl in Hin].
  - destruct (issueCommand_spec _ _ _ _ _ Hne H) as [[l' Hl]|(l' & ok' & Hl & Fl & He)].
    { exfalso. rewrite (Hs _ _ Hl), !elem_of_app, list_elem_of_singleton in Hin. destruct Hl as [_ Fl].
      rewrite Forall_forall in Fl. destruct Hin as [Hin|[Hin|Hin]]; [by apply F' in Hin|done|by apply Fl in Hin]. }
    assert (Hs' : since w w' = l ++ [OGate (TargetPowerState (data w)) false] ++ l' ++ [OIssue cmd0 ok']).
    { apply (Hs _ (λ _, true)). split; [done|by apply Forall_true]. }
    assert (cmd0 = cmd ∧ ok' = ok) as [-> ->].
    { rewrite Hs', !elem_of_app, !list_elem_of_singleton in Hin. rewrite Forall_forall in Fl.
      destruct Hin as [Hin|[Hin|[Hin|Hin]]]; [by apply F' in Hin|done|by apply Fl in Hin|by injection Hin]. }
    do 3 (split; [done|]). exists l, l'. split; [exact Hs'|]. split; [by apply Forall_app|].
    split; [exact Hwake|]. by rewrite <- D.
Qed.

(** Is remote access no reason to stay awake? *)
Definition remoteAllows (s : Settings) (l : list Obs) : Prop :=
  (suspendWhenOnline s = true ∧ l = []) ∨
  (∃ providers now, l = [OReadAll "remote-access" (Some providers)] ∧
     hasConnectedRemoteAccessProvider providers = false ∧
     Before now (remoteAccessGraceUntil s) = false).

Lemma suspendBlocked_spec w w' :
  suspendBlockedWhileOnline w = (false, w') →
  ∃ l, trace w' = trace w ++ l ∧ remoteAllows (settings w) l.
Proof.
  intros H. unfold suspendBlockedWhileOnline in H. minv H.
  assert (trace w0 = trace w) as Ht by by injection E as _ <-.
  destruct (suspendWhenOnline (settings w)) eqn:Es; minv H.
  - injection H as <-. exists []. rewrite app_nil_r. split; [done|]. by left.
  - injection H as H <-. unfold HGetAll in E0. minv E0. injection E0 as <- <-.
    assert (trace w2 = trace w0) as Ht2 by by injection E1 as _ <-.
    injection E2 as _ <-. cbn. rewrite Ht2, Ht. eexists. split; [done|]. right.
    unfold shouldBlockSuspendForRemoteAccess in H. cbv iota in H.
    rewrite !orb_false_iff, negb_false_iff in H. destruct H as [[Hg Hok] Hp].
    apply bool_decide_eq_true in Hok as [l ->]. cbn in *. eauto.
Qed.

(** What the re-check of a pending suspend has read, in order, when it lets the
    suspend proceed. *)
Record eligible (w : World) (l : list Obs) : Prop := {
  el_reads : ∃ v p0 p1 s0 s1 rest,
    l = [ORead "vehicle" "state" v; ORead "battery:0" "present" p0; ORead "battery:1" "present" p1;
         ORead "battery:0" "state" s0; ORead "battery:1" "state" s1] ++ rest ∧
    liveStandby v (VehicleState (data w)) = true ∧
    slotPresent p0 (battery0Present (ld w)) = false ∧ slotPresent p1 (battery1Present (ld w)) = false ∧
    default (Battery0State (data w)) s0 ≠ "active" ∧ default (Battery1State (data w)) s1 ≠ "active" ∧
    remoteAllows (settings w) rest;
  el_known : VehicleState (data w) = "stand-by";
}.

Lemma livePresent_spec w b w' :
  liveBatteryPresent w = (b, w') →
  ∃ p0 p1, trace w' = trace w ++ [ORead "battery:0" "present" p0; ORead "battery:1" "present" p1] ∧
    core w' = core w ∧ ld w' = ld w ∧
    b = slotPresent p0 (battery0Present (ld w)) || slotPresent p1 (battery1Present (ld w)).
Proof.
  intros H. unfold liveBatteryPresent in H. minv H.
  apply HGet_spec in E as (T0 & C0 & L0), E0 as (T1 & C1 & L1). injection H as <- <-.
  exists a, a0. rewrite T1, T0, <- app_assoc. repeat split; congruence.
Qed.

Lemma liveActive_spec w b w' :
  liveBatteryActive w = (b, w') →
  ∃ s0 s1, trace w' = trace w ++ [ORead "battery:0" "state" s0; ORead "battery:1" "state" s1] ∧
    core w' = core w ∧ ld w' = ld w ∧
    b = (default (Battery0State (data w)) s0 =s "active") || (default (Battery1State (data w)) s1 =s "active").
Proof.
  intros H. unfold liveBatteryActive in H. minv H.
  apply HGet_spec in E as (T0 & C0 & L0), E0 as (T1 & C1 & L1). injection H as <- <-.
  exists a, a0. rewrite T1, T0, <- app_assoc. repeat split; congruence.
Qed.

Lemma recheck_spec w w' :
  AutomaticLastDitch (data w) = false → TargetPowerState (data w) = TargetSuspend →
  ShouldCancelLowPower' NoPayload w = (false, w') →
  ∃ l, trace w' = trace w ++ l ∧ eligible w l.
Proof.
  intros Ha Ht H. unfold ShouldCancelLowPower' in H. minv H. rewrite Ha, Ht in H.
  rewrite (streq_refl TargetSuspend) in H. cbv iota in H. minv H. injection H as H <-.
  apply liveVehicle_spec in E as (v & Tv & Cv & Lv & ->).
  unfold and_then in E0. destruct (liveStandby v _) eqn:Ev; minv E0.
  2: { injection E0 as <- <-. done. }
  destruct a0; [|done]. injection Cv as Ccfg Cd Cs Cf Cg Csc Ch Cc Ce.
  unfold CanEnterLowPowerState' in E0. minv E0. cbn [targetPowerStateFromContext vehicleStateFromContext] in E0.
  cbv zeta in E0. rewrite Cd, Ht in E0.
  change (TargetSuspend =s TargetRun) with false in E0.
  change (TargetSuspend =s TargetReboot) with false in E0.
  change (TargetSuspend =s TargetSuspend) with true in E0. cbv iota in E0.
  destruct (String.eqb_spec (VehicleState (data w)) "stand-by") as [Hv|]; cbn [negb] in E0; minv E0; [|done].
  apply livePresent_spec in E as (p0 & p1 & Tp & Cp & Lp & ->). injection Cp as _ Dp Sp _ _ _ _ _ _.
  unfold or_else in E1.
  destruct (slotPresent p0 _ || slotPresent p1 _) eqn:Ep; cbv iota in E1; minv E1.
  { injection E1 as <- <-. by minv E0. }
  apply liveActive_spec in E1 as (s0 & s1 & Ts & Cs' & Ls & ->). injection Cs' as _ Ds Ss _ _ _ _ _ _.
  destruct ((default _ s0 =s "active") || (default _ s1 =s "active")) eqn:Es; minv E0; [done|].
  injection E0 as Hb <-. destruct a; [done|].
  apply suspendBlocked_spec in E as (l & Tl & Hl).
  eexists. split.
  { rewrite Tl, Ts, Tp, Tv, <- !app_assoc. reflexivity. }
  rewrite Lv in Ep. rewrite Dp, Cd in Es. rewrite Ss, Sp, Cs in Hl.
  apply orb_false_iff in Ep as [Ep0 Ep1]. apply orb_false_iff in Es as [Es0 Es1].
  apply streq_false in Es0, Es1. split; [|exact Hv]. exists v, p0, p1, s0, s1, l.
  repeat split; auto.
Qed.

Lemma announce_spec w w' :
  announceSuspend w = (true, w') →
  ∃ v ok, trace w' = trace w ++ [ORead "vehicle" "state" v;
            OPublish "power-manager" [("state", mapPowerStateToRedis (TargetPowerState (data w)))] ok;
            OQuiesce true] ∧
    liveStandby v (VehicleState (data w)) = true ∧
    data w' = data w ∧ ld w' = ld w ∧ settings w' = settings w ∧ client w' = client w.
Proof.
  intros H. unfold announceSuspend in H. minv H.
  apply liveVehicle_spec in E as (v & Tv & Cv & Lv & ->). injection Cv as _ Dv Sv _ _ _ _ Clv _.
  destruct (liveStandby v _) eqn:Ev; cbn [negb] in H; cbv iota in H; minv H; [|done].
  assert (H0 : trace w1 = trace w0 ∧ data w1 = data w0 ∧ ld w1 = ld w0 ∧ settings w1 = settings w0
    ∧ client w1 = client w0) by by injection E as _ <-.
  destruct H0 as (T1 & D1 & L1 & S1 & C1).
  assert (H0 : trace w2 = trace w1 ++ [OPublish "power-manager"
      [("state", mapPowerStateToRedis (TargetPowerState (data w1)))] a0] ∧ data w2 = data w1 ∧ ld w2 = ld w1
    ∧ settings w2 = settings w1 ∧ client w2 = client w1) by by injection E0 as <- <-.
  destruct H0 as (T2 & D2 & L2 & S2 & C2).
  assert (H0 : trace w4 = trace w2 ++ [OQuiesce a1] ∧ data w4 = data w2 ∧ ld w4 = ld w2
    ∧ settings w4 = settings w2 ∧ client w4 = client w2) by (injection E1 as <- <-; by injection E2 as _ <-).
  destruct H0 as (T4 & D4 & L4 & S4 & C4).
  destruct a1; cbn [negb] in H; cbv iota in H; minv H; [|done]. injection H as <-.
  exists v, a0. rewrite T4, T2, T1, Tv, D1, Dv, <- !app_assoc. repeat split; congruence.
Qed.

(** Requests to the coordinator change nothing and are recorded. *)
Lemma coordinator_spec req w q w' :
  coordinator req w = (q, w') →
  trace w' = trace w ++ [OClock (Op req) (bool_decide (is_Some q))] ∧ core w' = core w ∧ ld w' = ld w.
Proof. intros H. by injection H as <- <-. Qed.

Lemma emits_recover Q : lenient Q → emits Q recoverClockPreparation.
Proof. intros HQ. unfold recoverClockPreparation. emits_tac. Qed.
Lemma core_recover : keeps core recoverClockPreparation.
Proof. unfold recoverClockPreparation. keeps_tac. Qed.

(** An admitted suspend carries a live token: "prepare" succeeded, for this boot
    and a live generation. *)
Lemma admitSuspend_spec w q w' :
  admitSuspend w = (Some q, w') →
  core w' = core w ∧ QBootID q ≠ "" ∧ QGeneration q ≠ 0 ∧ QPreparing q = true ∧
  ∃ l, adds silent w w' (l ++ [OClock "prepare" true]).
Proof.
  intros H. unfold admitSuspend in H. minv H.
  destruct (emits_adds silent _ _ _ _ (emits_recover _ silent_lenient) E) as [l [Tl Fl]].
  apply (keeps_inv core) in E as C0; [|apply core_recover].
  destruct a; minv E0.
  2: { injection E0 as <- <-. minv H. done. }
  apply coordinator_spec in E0 as (T1 & C1 & _).
  assert (C2 : core w2 = core w1 ∧ trace w2 = trace w1) by by injection E1 as _ <-.
  destruct C2 as [C2 T2]. destruct a0 as [q0|]; minv H; [|done].
  destruct (preparationToken q0 a1) eqn:Ep; minv H; [|done]. injection H as -> <-.
  split; [congruence|].
  unfold preparationToken, preparationIdentity in Ep. destruct a1; [|done].
  rewrite !andb_true_iff, !negb_true_iff in Ep. destruct Ep as [[[Eb _] Eg] Epr].
  apply streq_false in Eb. apply Z.eqb_neq in Eg. split; [done|]. split; [done|]. split; [done|].
  exists l. split; [rewrite T2, T1, Tl, app_assoc; done|]. apply Forall_app. split; [done|]. by repeat constructor.
Qed.

(** After the sleep request nothing commands any more. *)
Lemma emits_after_suspend q r :
  emits uncommanded (if bool_decide (r = Resumed) then
            coordinator (tokenRequest "resume" (QBootID q) (QGeneration q));;
            handleWakeupAfterSuspend
          else
            coordinator (opRequest "abort");;
            setIssued false;;
            stopped ← ask e_ctx;
            if (stopped : bool) then skip else abortToRun).
Proof.
  assert (HQ : lenient uncommanded) by by intros [].
  unfold setIssued. emits_tac; (eapply emits_mono; [apply quiet_uncommanded|]); auto with frame.
Qed.

Lemma commitSuspend_spec w u w' :
  AutomaticLastDitch (data w) = false → TargetPowerState (data w) = TargetSuspend →
  commitSuspend NoPayload w = (u, w') →
  (∃ l, adds uncommanded w w' l) ∨
  ∃ v el pre r after,
    trace w' = trace w ++ ([ORead "vehicle" "state" v] ++ el ++ pre ++ [OClock "prepare" true])
                 ++ [OSuspend r] ++ after ∧
    liveStandby v (VehicleState (data w)) = true ∧ eligible w el ∧
    Forall (λ o, silent o = true) (el ++ pre) ∧ Forall (λ o, uncommanded o = true) after.
Proof.
  intros Ha Ht H. unfold commitSuspend in H. minv H.
  apply liveVehicle_spec in E as (v & Tv & Cv & Lv & ->). injection Cv as Cc Cd Cs Cf Cg Csc Ch Ccl Ce.
  assert (Hv : adds silent w w0 [ORead "vehicle" "state" v]) by (split; [done|by repeat constructor]).
  assert (Hu : ∀ l, adds uncommanded w0 w' l → ∃ l, adds uncommanded w w' l).
  { intros l Hl. eexists. eapply adds_trans; [|exact Hl]. eapply adds_weaken; [|exact Hv]. apply silent_uncommanded. }
  assert (HQ : lenient uncommanded) by by intros [].
  destruct (liveStandby v _) eqn:Ev; cbn [negb] in H; cbv iota in H.
  2: { left. edestruct (emits_adds uncommanded (setIssued false;; abortToRun)) as [l Hl]; [|exact H|by eapply Hu].
       unfold setIssued. emits_tac. eapply emits_mono; [apply quiet_uncommanded|]. auto with frame. }
  minv H. apply cancel_spec in E. destruct a; minv H.
  { left. injection H as _ <-. destruct E as [l Hl]. eapply Hu, adds_weaken; [apply quiet_uncommanded|exact Hl]. }
  destruct E as (C1 & Hrc & [l1 H1] & _). rewrite <- Cd in Ha, Ht.
  destruct (recheck_spec _ _ Ha Ht Hrc) as (el & Tel & Hel).
  destruct H1 as [T1 F1]. assert (l1 = el) as -> by (eapply app_inv_head; rewrite <- T1; exact Tel).
  destruct a as [q|].
  - apply admitSuspend_spec in E0 as (C2 & _ & _ & _ & l2 & T2 & F2). minv H.
    assert (trace w4 = trace w2 ++ [OSuspend a]) as T4 by (injection E as _ <-; by injection E0 as _ <-).
    destruct (emits_adds _ _ _ _ _ (emits_after_suspend q a) H) as [l [Tl Fl]].
    right. exists v, el, l2, a, l. split.
    { rewrite Tl, T4, T2, Tel, Tv, <- !app_assoc. done. }
    split; [done|]. split.
    { destruct Hel as [Hr Hk]. rewrite Cd, Lv, Cs in Hr. rewrite Cd in Hk. by split. }
    apply Forall_app in F2 as [F2 _]. split; [by apply Forall_app|done].
  - left. edestruct (emits_adds uncommanded (setIssued false;; abortToRun)) as [l [Tl Fl]]; [|exact H|].
    { unfold setIssued. emits_tac. eapply emits_mono; [apply quiet_uncommanded|]. auto with frame. }
    destruct (emits_adds (obs_ok false) _ _ _ _ (emits_admitSuspend false) E0) as [l2 [T2 F2]].
    apply (Hu ((el ++ l2) ++ l)). split; [by rewrite Tl, T2, Tel, !app_assoc|].
    apply Forall_app. split; [|done]. apply Forall_app. split; (eapply Forall_impl; [eassumption|]).
    + apply silent_uncommanded.
    + apply quiet_uncommanded.
Qed.

Definition unslept (o : Obs) : bool := match o with OSuspend _ => false | _ => true end.
Lemma uncommanded_unslept o : uncommanded o = true → unslept o = true.
Proof. by destruct o. Qed.

(** A command other than suspend never asks for sleep. *)
Lemma issueCommand_unslept c cmd w r w' :
  cmd ≠ "suspend" → issueCommand c cmd w = (r, w') → ∃ l, adds unslept w w' l.
Proof.
  intros Hne H. destruct (issueCommand_spec _ _ _ _ _ Hne H) as [[l Hl]|(l & ok & Hl & Fl & _)].
  - exists l. eapply adds_weaken; [|exact Hl]. by intros [].
  - exists (l ++ [OIssue cmd ok]). split; [done|]. apply Forall_app. split; [|by repeat constructor].
    eapply Forall_impl; [exact Fl|]. by intros [].
Qed.

(** The prefix of the suspend branch up to [commitSuspend]. *)
Lemma issueSuspend_spec w r w' :
  AutomaticLastDitch (data w) = false → TargetPowerState (data w) = TargetSuspend →
  issueCommand NoPayload "suspend" w = (r, w') →
  (∃ l, adds uncommanded w w' l) ∨
  ∃ pre v1 ok v2 el mid res after,
    trace w' = trace w ++ (pre ++ [ORead "vehicle" "state" v1; OPublish "power-manager" [("state", "suspending")] ok;
                                    OQuiesce true; ORead "vehicle" "state" v2] ++ el ++ mid ++ [OClock "prepare" true])
                 ++ [OSuspend res] ++ after ∧
    liveStandby v1 (VehicleState (data w)) = true ∧ liveStandby v2 (VehicleState (data w)) = true ∧
    eligible w el ∧ Forall (λ o, silent o = true) (pre ++ el ++ mid) ∧
    Forall (λ o, uncommanded o = true) after.
Proof.
  intros Ha Ht H. unfold issueCommand in H. minv H.
  assert (E0' : trace w0 = trace w ∧ ld w0 = ld w ∧ settings w0 = settings w ∧
    data w0 = (data w) <| LowPowerStateIssued := true |>) by by injection E as _ <-.
  destruct E0' as (T0 & L0 & S0 & D0).
  assert (∃ l, adds silent w0 w1 l) as [l1 [T1 F1]].
  { eapply emits_adds; [|exact E0]. destruct (negb _); [auto with frame|apply emits_skip]. }
  assert (C1 : (cfg w1, data w1, ld w1, settings w1) = (cfg w0, data w0, ld w0, settings w0)).
  { eapply (keeps_inv (λ w, (cfg w, data w, ld w, settings w))); [|exact E0].
    destruct (negb _); [done|apply keeps_skip]. }
  injection C1 as _ D1 L1 S1. rewrite (streq_refl "suspend") in H. minv H.
  assert (Ha1 : AutomaticLastDitch (data w1) = false) by by rewrite D1, D0.
  assert (Ht1 : TargetPowerState (data w1) = TargetSuspend) by by rewrite D1, D0.
  assert (Hve : VehicleState (data w1) = VehicleState (data w)) by by rewrite D1, D0.
  assert (Hu : ∀ l, adds uncommanded w1 w' l → ∃ l, adds uncommanded w w' l).
  { intros l [Tl Fl]. exists (l1 ++ l). split; [by rewrite Tl, T1, T0, app_assoc|].
    apply Forall_app. split; [|done]. eapply Forall_impl; [exact F1|apply silent_uncommanded]. }
  injection H as _ <-. destruct a1.
  2: { left. minv E2. injection E2 as _ <-. destruct (emits_adds _ _ _ _ _ (emits_announceSuspend false) E1) as [l Hl].
       eapply Hu, adds_weaken; [apply quiet_uncommanded|exact Hl]. }
  apply announce_spec in E1 as (v1 & ok & T2 & Hv1 & D2 & L2 & S2 & _).
  rewrite <- D2 in Ha1, Ht1. destruct (commitSuspend_spec _ _ _ Ha1 Ht1 E2) as [[l [Tl Fl]]|H].
  - left. eapply (Hu (_ ++ l)). split; [by rewrite Tl, T2, <- app_assoc|].
    apply Forall_app. split; [by repeat constructor|exact Fl].
  - right. destruct H as (v2 & el & mid & res & after & T3 & Hv2 & [Hel Hk] & F2 & F3).
    exists l1, v1, ok, v2, el, mid, res, after.
    rewrite D2 in Ht1. split; [|split; [|split; [|split; [|split]]]].
    + rewrite T3, T2, T1, T0, Ht1, <- !app_assoc. done.
    + by rewrite <- Hve.
    + by rewrite <- Hve, <- D2.
    + rewrite D2, L2, S2, D1, L1, S1, D0, L0, S0 in Hel. rewrite D2, D1, D0 in Hk. by split.
    + by apply Forall_app.
    + done.
Qed.

(** ** Suspend *)

Lemma powerCommand_suspend t : powerCommand t = Some "suspend" → t = TargetSuspend.
Proof.
  unfold powerCommand. destruct (String.eqb_spec t "suspend"); [done|]. by repeat split_if.
Qed.

Lemma issuing_suspend_target c w r w' res :
  EnterIssuingLowPower' c w = (r, w') → OSuspend res ∈ since w w' →
  TargetPowerState (data w) = TargetSuspend.
Proof.
  intros H Hin. apply issuing_gate in H as [[l Hl]|(w2 & l & cmd & [T F] & _ & _ & _ & _ & Hcmd & _ & H)].
  { exfalso. by eapply no_command. }
  destruct (String.eqb_spec cmd "suspend") as [->|Hne]; [by apply powerCommand_suspend|exfalso].
  destruct (issueCommand_unslept _ _ _ _ _ Hne H) as [l' [T' F']].
  assert (Hs : since w w' = (l ++ [OGate (TargetPowerState (data w)) false]) ++ l').
  { apply (since_adds (λ _, true)). split; [by rewrite T', T, <- !app_assoc|by apply Forall_true]. }
  rewrite Hs, elem_of_app in Hin. rewrite Forall_forall in F, F'.
  destruct Hin as [Hin|Hin]; [by apply F in Hin|by apply F' in Hin].
Qed.

(** What precedes the sleep request of the entry, in this order. *)
Definition suspend_protocol (v1 v2 : option string) (ok : bool) (el : list Obs) : list Obs :=
  [OGate TargetSuspend false; ORead "vehicle" "state" v1;
   OPublish "power-manager" [("state", "suspending")] ok; OQuiesce true; ORead "vehicle" "state" v2]
  ++ el ++ [OClock "prepare" true].

Lemma issuing_suspend w r w' res :
  AutomaticLastDitch (data w) = false →
  EnterIssuingLowPower' NoPayload w = (r, w') → OSuspend res ∈ since w w' →
  DryRun (cfg w) = false ∧
  ∃ before after v1 v2 ok el,
    since w w' = before ++ [OSuspend res] ++ after ∧
    suspend_protocol v1 v2 ok el `sublist_of` before ∧
    liveStandby v1 (VehicleState (data w)) = true ∧ liveStandby v2 (VehicleState (data w)) = true ∧
    eligible w el ∧
    Forall (λ o, uncommanded o = true) (before ++ after).
Proof.
  intros Ha H Hin. pose proof (issuing_suspend_target _ _ _ _ _ H Hin) as Ht.
  apply issuing_gate in H as [[l Hl]|(w2 & l & cmd & [T F] & D & S & L & Hdry & Hcmd & _ & H)].
  { exfalso. by eapply no_command. }
  split; [done|]. specialize (L Ha). rewrite Ht in Hcmd, T, F. injection Hcmd as <-.
  rewrite <- D in Ha, Ht. destruct (issueSuspend_spec _ _ _ Ha Ht H) as [[l' [T' F']]|Hs].
  { exfalso. rewrite (since_adds (λ _, true) _ _ ((l ++ [OGate TargetSuspend false]) ++ l')), elem_of_app in Hin.
    2: { split; [by rewrite T', T, <- !app_assoc|by apply Forall_true]. }
    rewrite Forall_forall in F, F'. destruct Hin as [Hin|Hin]; [by apply F in Hin|by apply F' in Hin]. }
  destruct Hs as (pre & v1 & ok & v2 & el & mid & res' & after & T4 & Hv1 & Hv2 & [Hel Hk] & F1 & F2).
  rewrite D in Hv1, Hv2, Hk, Hel. rewrite L, S in Hel.
  set (body := pre ++ _) in T4.
  assert (Hs : since w w' = ((l ++ [OGate TargetSuspend false]) ++ body) ++ [OSuspend res'] ++ after).
  { apply (since_adds (λ _, true)). split; [|by apply Forall_true]. rewrite T4, T, <- !app_assoc. done. }
  assert (Fb : Forall (λ o, silent o = true) ((l ++ [OGate TargetSuspend false]) ++ body)).
  { unfold body. rewrite !Forall_app in *. destruct F1 as (? & ? & ?), F.
    repeat split; try assumption; repeat first [constructor | reflexivity]. }
  assert (res' = res) as ->.
  { rewrite Forall_forall in Fb, F2. rewrite Hs in Hin. apply elem_of_app in Hin as [Hin|Hin]; [by apply Fb in Hin|].
    apply elem_of_app in Hin as [Hin|Hin]; [|by apply F2 in Hin].
    apply list_elem_of_singleton in Hin. by injection Hin. }
  eexists _, after, v1, v2, ok, el. split; [exact Hs|]. split; [|repeat split; try done].
  - unfold body, suspend_protocol. rewrite <- app_assoc.
    apply sublist_inserts_l, (sublist_app [_] [_]); [done|]. apply sublist_inserts_l.
    apply (sublist_app [_; _; _; _] [_; _; _; _]); [done|]. apply sublist_app; [done|].
    by apply sublist_inserts_l.
  - apply Forall_app. split; [|done]. eapply Forall_impl; [exact Fb|apply silent_uncommanded].
Qed.

(** A complete suspend cycle, as the witness. *)
Definition sleepyRedis (h f : string) : option string :=
  if (h =s "vehicle") && (f =s "state") then Some "stand-by"
  else if f =s "present" then Some "false" else Some "idle".

Definition preparedExchange : Exchange :=
  mkExchange (Some 0) (Some (mkWire true "" (Some ((sampleQuality 7) <| QPreparing := true |>)) required_fields))
    (Some 5).

Definition sleepyEnv : Env :=
  let e := sampleEnv sleepyRedis in
  mkEnv (e_now e) (e_hget e) (e_hgetall e) (e_write e) (e_inhib e) (e_acks e) (e_quiesce e)
    (λ _, preparedExchange) (λ _, Some "b1") (e_call e)
    (λ _, [RSignal (Some (mkSignal sleepSignal [VBool true])); RSignal (Some (mkSignal sleepSignal [VBool false]))])
    (e_ctx e) (λ _, Some "45") (e_rand e) (e_uptime e).

Definition sleepyWorld : World :=
  (newService newConfig (mkClient true true) sleepyEnv)
    <| data := (newData newConfig) <| VehicleState := "stand-by" |> |>.
