(* ===== verification/WakeFacts.v ===== *)
(** * Waking up

    The resume path of [internal/service/service.go]: the wait for fresh
    telemetry ends, and whatever Redis answers the machine is told exactly once
    that the system is awake. *)

From S2P Require Import Prelude GoInt GoTime HibTimer Scheduler Fsm Inhibitor LastDitch GoFloat.
From S2P Require Import ClockProto Systemd ClockClient SvcState SvcGuards SvcActions Issuing.
From S2P Require Import SvcFacts IssuingFacts.

(** ** The telemetry wait *)

(** The clock advances by a poll interval per turn: the [i]-th turn reads it at
    tick [n + 4 * i + 3] when the wait started at tick [n]. *)
Definition polls (e : Env) (n : nat) : Prop :=
  ∀ i : nat, elapsed (e_now e n) (e_now e (n + 4 * i + 3)) (Z.of_nat i * lastDitchTelemetryPoll).

(** The turns of the loop, with the ticks they take. *)
Lemma telemetry_turn fuel preC preA deadline w :
  telemetry_loop (S fuel) preC preA deadline w =
    let rc := e_hget (env w) (tick w) "cb-battery" "charge" in
    let ra := e_hget (env w) (S (tick w)) "aux-battery" "voltage" in
    let cbb := match nonempty rc with Some v => parseChargeOrUnknown v | None => preC end in
    let aux := match nonempty ra with Some v => parseNonNegativeInt v | None => preA end in
    let w2 := w <| tick := S (S (tick w)) |>
                <| trace := (trace w ++ [ORead "cb-battery" "charge" rc]) ++ [ORead "aux-battery" "voltage" ra] |> in
    let apply w := w <| ld := setAuxVoltageLocked aux ((ld w) <| cbBatteryCharge := cbb |>) |> in
    if negb (cbb =? preC) || negb (aux =? preA) then (TeleChanged, apply w2)
    else
      let w3 := w2 <| tick := S (tick w2) |> in
      if negb (Before (e_now (env w) (tick w2)) deadline) then (TeleDeadline, apply w3)
      else
        let w4 := w3 <| tick := S (tick w3) |> in
        if e_ctx (env w) (tick w3) then (TeleCancelled, w4) else telemetry_loop fuel preC preA deadline w4.
Proof.
  destruct w; cbn [telemetry_loop]. unfold HGet, Now, ask, emit, set_ld, modify, mbind, ST_bind, mret, ST_ret. cbn.
  repeat (match goal with |- context [if ?b then _ else _] => destruct b end; cbn; try reflexivity).
Qed.

Lemma telemetry_ends e n fuel preC preA w :
  polls e n → env w = e → (∃ i, tick w = n + 4 * i + 1 ∧ 15 ≤ i + fuel)%nat →
  (telemetry_loop (S fuel) preC preA (Add (e_now e n) lastDitchTelemetryWait) w).1 ≠ TeleFuel.
Proof.
  intros Hp. revert w. induction fuel as [|fuel IH]; intros w He (i & Hi & Hf);
    rewrite telemetry_turn; cbv zeta; (split_if; [done|]).
  - rewrite (elapsed_not_Before (e_now e n) _ (Z.of_nat i * lastDitchTelemetryPoll)); [done| | |].
    + cbn. rewrite Hi, He. replace (S (S (n + 4 * i + 1))) with (n + 4 * i + 3)%nat by lia. apply Hp.
    + unfold lastDitchTelemetryWait, lastDitchTelemetryPoll. tlia.
    + unfold lastDitchTelemetryWait. tlia.
  - split_if; [done|]. split_if; [done|].
    match goal with |- (telemetry_loop _ _ _ _ ?w').1 ≠ _ => apply (IH w') end; [exact He|].
    exists (S i). cbn. rewrite Hi. lia.
Qed.

(** What the loop leaves in the last-ditch state. *)
Definition telemetry_post (preC preA : Z) (l : LastDitch) (r : TelemetryExit) (w' : World) : Prop :=
  match r with
  | TeleChanged => (cbBatteryCharge (ld w') ≠ preC ∨ auxVoltageMv (ld w') ≠ preA)
  | TeleDeadline => cbBatteryCharge (ld w') = preC ∧ auxVoltageMv (ld w') = preA
  | TeleCancelled | TeleFuel => ld w' = l
  end.

Lemma setAux_reads mv l :
  auxVoltageMv (setAuxVoltageLocked mv l) = mv ∧ cbBatteryCharge (setAuxVoltageLocked mv l) = cbBatteryCharge l.
Proof. unfold setAuxVoltageLocked. cbn. by repeat split_if. Qed.

Lemma telemetry_loop_post fuel preC preA deadline w :
  telemetry_post preC preA (ld w) (telemetry_loop fuel preC preA deadline w).1
    (telemetry_loop fuel preC preA deadline w).2.
Proof.
  revert w. induction fuel as [|fuel IH]; intros w; [done|]. rewrite telemetry_turn. cbv zeta.
  repeat split_if; cbn [fst snd]; [| |done|].
  - unfold telemetry_post. cbn. rewrite !(proj1 (setAux_reads _ _)), !(proj2 (setAux_reads _ _)). cbn.
    apply orb_true_iff in Heqb as [Hx|Hx]; apply negb_true_iff, Z.eqb_neq in Hx; auto.
  - unfold telemetry_post. cbn. rewrite !(proj1 (setAux_reads _ _)), !(proj2 (setAux_reads _ _)). cbn.
    apply orb_false_iff in Heqb as [H1 H2]. apply negb_false_iff, Z.eqb_eq in H1, H2. auto.
  - match goal with |- context [telemetry_loop _ _ _ _ ?w'] => apply (IH w') end.
Qed.

(** C23: the telemetry wait on a wake-up always ends while the clock runs: within
    the fuel of the model it is left because a value changed, the deadline
    passed or the service stops.  A change leaves a value that differs from
    the one before the suspend, an elapsed deadline leaves both as they were,
    and a stop leaves the last-ditch inputs untouched. *)
Theorem telemetry_wait_ends (w : World) :
  polls (env w) (tick w) →
  let '(r, w') := awaitFreshTelemetryForLastDitch w in
  r ≠ TeleFuel ∧ telemetry_post (cbBatteryCharge (ld w)) (auxVoltageMv (ld w)) (ld w) r w'.
Proof.
  intros Hp. unfold awaitFreshTelemetryForLastDitch. rewrite gets_bind.
  rewrite run_bind. cbn [Now ask fst snd].
  destruct (telemetry_loop _ _ _ _ _) as [r w'] eqn:E. split.
  - change r with (r, w').1. rewrite <- E.
    apply (telemetry_ends (env w) (tick w) 16 _ _ (w <| tick := S (tick w) |>)); [done|done|].
    exists 0%nat. cbn. lia.
  - pose proof (telemetry_loop_post telemetry_fuel (cbBatteryCharge (ld w)) (auxVoltageMv (ld w))
      (Add (e_now (env w) (tick w)) lastDitchTelemetryWait) (w <| tick := S (tick w) |>)) as H.
    by rewrite E in H.
Qed.

(** ** The announcement *)

Lemma sent_silent l : Forall (λ o, silent o = true) l → sent l = [].
Proof. induction 1 as [|o l Ho _ IH]; [done|]. by destruct o. Qed.

Lemma sent_app l1 l2 : sent (l1 ++ l2) = sent l1 ++ sent l2.
Proof. induction l1 as [|[] l1 IH]; cbn; by f_equal. Qed.

(** The refreshes touch neither the command state nor the settings. *)
Definition wake_view (w : World) :=
  (WakeupReason (data w), LowPowerStateIssued (data w), ModemDisabled (data w), TargetPowerState (data w),
   AutomaticLastDitch (data w), settings w, cfg w).

Lemma wake_view_ld f : keeps wake_view (set_ld f). Proof. done. Qed.
Lemma wake_view_HGet h f : keeps wake_view (HGet h f). Proof. done. Qed.
Lemma wake_view_ask {A} (f : Env → nat → A) : keeps wake_view (ask f). Proof. done. Qed.
#[local] Hint Resolve wake_view_ld wake_view_HGet wake_view_ask : frame.

Lemma wake_view_refresh : keeps wake_view refreshBatteryStateFromRedis.
Proof.
  unfold refreshBatteryStateFromRedis. repeat keeps_step; try solve [auto with frame nocore | intros ?; reflexivity].
  intros w. unfold set_data, modify, wake_view. cbn. by repeat split_if.
Qed.

Lemma wake_view_telemetry n a x d : keeps wake_view (telemetry_loop n a x d).
Proof. induction n as [|n IH]; cbn [telemetry_loop]; unfold Now; keeps_tac. Qed.
#[local] Hint Resolve wake_view_refresh wake_view_telemetry : frame.

Lemma wake_view_await : keeps wake_view awaitFreshTelemetryForLastDitch.
Proof. unfold awaitFreshTelemetryForLastDitch, Now. keeps_tac. Qed.

Lemma emits_refresh : emits silent refreshBatteryStateFromRedis.
Proof. unfold refreshBatteryStateFromRedis. emits_tac. Qed.

Lemma emits_telemetry_silent n a x d : emits silent (telemetry_loop n a x d).
Proof. induction n as [|n IH]; cbn [telemetry_loop]; unfold Now; emits_tac. Qed.
#[local] Hint Resolve emits_telemetry_silent : frame.

Lemma emits_await : emits silent awaitFreshTelemetryForLastDitch.
Proof. unfold awaitFreshTelemetryForLastDitch, Now. emits_tac. Qed.

Lemma restoreDelayInhibitor_spec w u w' :
  restoreDelayInhibitor w = (u, w') →
  data w' = data w ∧ wake_view w' = wake_view w ∧ delayInhibitor (flags w') = true ∧
  cancelDelayRemoval (flags w') = false ∧
  adds silent w w' (if delayInhibitor (flags w) then [] else [ODelay true]).
Proof.
  unfold restoreDelayInhibitor. rewrite gets_bind.
  unfold set_flags, modify, emit, mbind, ST_bind. cbn. destruct (delayInhibitor (flags w)) eqn:Ed; intros [= <- <-].
  - repeat split; [cbn; by rewrite app_nil_r|constructor].
  - repeat split. by repeat constructor.
Qed.

(** What the wake-up file says in this resume: it is the second thing asked. *)
Definition wakeFile (w : World) : option string := e_irq (env w) (S (tick w)).

(** C22: a resume is announced exactly once, with the reason the kernel gives.
    Whatever Redis, the wake-up file and the clock answer, the resume path sends
    one wake-up event and nothing else; its reason is the trimmed text of the
    wake-up file, "unknown" only when the file cannot be read, and it is the
    RTC's event exactly when that reason is the RTC interrupt.  The reason is
    recorded, the grace for remote access starts anew, nothing is commanded,
    the target, the last-ditch mode and the configuration stay, the modem and
    the command state count as fresh, and the delay inhibitor is always held
    with no removal pending. *)
Theorem wakeup_announced (w : World) :
  let w' := (handleWakeupAfterSuspend w).2 in
  let reason := match wakeFile w with Some raw => TrimSpace raw | None => "unknown" end in
  sent (since w w') = [mkEvent (if reason =s "45" then EvWakeupRTC else EvWakeup) (WakeupPayload reason)] ∧
  Forall (λ o, uncommanded o = true) (since w w') ∧
  WakeupReason (data w') = reason ∧ LowPowerStateIssued (data w') = false ∧ ModemDisabled (data w') = false ∧
  TargetPowerState (data w') = TargetPowerState (data w) ∧
  AutomaticLastDitch (data w') = AutomaticLastDitch (data w) ∧ cfg w' = cfg w ∧
  settings w' = (settings w) <| remoteAccessGraceUntil := Add (e_now (env w) (tick w)) (5 * Minute) |> ∧
  delayInhibitor (flags w') = true ∧ cancelDelayRemoval (flags w') = false.
Proof.
  destruct (handleWakeupAfterSuspend w) as [u w'] eqn:H. cbn [snd].
  unfold handleWakeupAfterSuspend in H. minv H.
  set (reason := match wakeFile w with Some raw => TrimSpace raw | None => "unknown" end).
  assert (R : match a1 with Some s => TrimSpace s | None => "unknown" end = reason).
  { injection E as <- <-. injection E0 as _ <-. by injection E1 as <- _. }
  rewrite R in *.
  assert (H3 : adds silent w w3 [] ∧ wake_view w3 =
    (reason, false, false, TargetPowerState (data w), AutomaticLastDitch (data w),
     (settings w) <| remoteAccessGraceUntil := Add (e_now (env w) (tick w)) (5 * Minute) |>, cfg w)).
  { injection E as <- <-. injection E0 as <- <-. injection E1 as <- <-. injection E2 as <- <-.
    split; [by apply adds_nil|done]. }
  destruct H3 as [A3 V3].
  pose proof (keeps_inv _ _ _ _ _ wake_view_refresh E3) as V4.
  destruct (emits_adds _ _ _ _ _ emits_refresh E3) as [l4 A4].
  assert (H5 : wake_view w5 = wake_view w4 ∧ ∃ l, adds silent w4 w5 l).
  { destruct (_ && _) in E4; minv E4.
    - injection E4 as _ <-. split; [by eapply keeps_inv; [apply wake_view_await|]|].
      by eapply emits_adds; [apply emits_await|].
    - injection E4 as _ <-. split; [done|]. exists []. by apply adds_nil. }
  destruct H5 as [V5 [l5 A5]].
  apply restoreDelayInhibitor_spec in E5 as (_ & V6 & D6 & C6 & A6).
  pose proof (adds_trans _ _ _ _ _ _ (adds_trans _ _ _ _ _ _ (adds_trans _ _ _ _ _ _ A3 A4) A5) A6) as A.
  set (pre := (([] ++ l4) ++ l5) ++ _) in A. set (ev := mkEvent (wakeEvent reason) (WakeupPayload reason)) in *.
  assert (A' : since w w' = pre ++ [OSend ev]).
  { apply (since_adds (λ _, true)). injection H as _ <-. split; [|by apply Forall_true].
    destruct A as [A _]. change (trace w6 ++ [OSend ev] = trace w ++ pre ++ [OSend ev]). by rewrite A, <- app_assoc. }
  assert (V : wake_view w' = wake_view w6 ∧ flags w' = flags w6) by by injection H as _ <-.
  destruct V as [V F]. rewrite V6, V5, V4, V3 in V. injection V as V1 V2 V3' V4' V5' V6' V7. rewrite F.
  destruct A as [_ FA].
  split; [rewrite A', sent_app, (sent_silent _ FA); done|].
  split; [rewrite A', Forall_app; split; [eapply Forall_impl; [exact FA|apply silent_uncommanded]|by repeat constructor]|].
  repeat split; first [exact V6' | congruence].
Qed.

(** A clock that ticks once per interaction and a vehicle that reports nothing. *)
Definition tickingEnv : Env :=
  let e := sampleEnv (λ _ _, None) in
  mkEnv (λ n, mkTime (Z.of_nat n * lastDitchTelemetryPoll) (Some (Z.of_nat n * lastDitchTelemetryPoll)))
    (e_hget e) (e_hgetall e) (e_write e) (e_inhib e) (e_acks e) (e_quiesce e) (e_exchange e) (e_boot_id e)
    (e_call e) (e_ready e) (e_ctx e) (e_irq e) (e_rand e) (e_uptime e).

Lemma telemetry_wait_ends_witness :
  let w := newService newConfig (mkClient true true) tickingEnv in
  (awaitFreshTelemetryForLastDitch w).1 = TeleDeadline ∧
  let '(r, w') := awaitFreshTelemetryForLastDitch w in
  r ≠ TeleFuel ∧ telemetry_post (cbBatteryCharge (ld w)) (auxVoltageMv (ld w)) (ld w) r w'.
Proof.
  intros w. split; [vm_compute; reflexivity|]. apply (telemetry_wait_ends w).
  intros i. unfold elapsed. cbn [w env newService tickingEnv e_now wall mono tick].
  assert (0 < lastDitchTelemetryPoll) by done. split; [lia|]. nia.
Defined.
