(* ===== verification/ActionFacts.v ===== *)
(** * Guards and actions of the service

    The functional behaviour of the command guards, the modem wait, the
    automatic last-ditch mode and the explicit hibernation requests of
    [internal/service/service.go] and [hibernate_request.go]. *)

From S2P Require Import Prelude GoInt GoTime HibTimer Scheduler Fsm Inhibitor LastDitch GoFloat.
From S2P Require Import ClockProto Systemd ClockClient SvcState SvcGuards SvcActions Issuing.
From S2P Require Import SvcFacts IssuingFacts WakeFacts.

(** ** Priorities *)

Definition rank (target : string) : Z :=
  if one_of target [TargetHibernateManual; TargetHibernateFor] then 3
  else if target =s TargetHibernate then 2
  else if target =s TargetHibernateTimer then 1
  else 0.

Definition targets : list string :=
  [TargetRun; TargetSuspend; TargetReboot; TargetHibernate; TargetHibernateManual; TargetHibernateTimer;
   TargetHibernateFor].

(** Among the power targets, the guard of a new command is a comparison in a
    total preorder: the explicit hibernations rank above the automatic one,
    that above the timer's, and suspend, reboot and run are at the bottom; a
    command goes through exactly when it is "run" or does not rank below the
    target in progress. *)
Theorem priority_preorder (new : string) (explicit : bool) (secs : Z) (d : FSMData) :
  new ∈ targets → TargetPowerState d ∈ targets →
  IsPowerCommandHigherPriority' (PowerCommandPayload new explicit secs) d = true ↔
  new = TargetRun ∨ rank (TargetPowerState d) ≤ rank new.
Proof.
  unfold IsPowerCommandHigherPriority'. cbn [targetPowerStateFromContext]. generalize (TargetPowerState d).
  intros cur Hn Hc. apply list_elem_of_In in Hn, Hc. cbn in Hn, Hc.
  repeat (destruct Hn as [<-|Hn]; [|]); try done;
    repeat (destruct Hc as [<-|Hc]; [|]); try done;
    (split; intros H;
      [first [left; reflexivity | right; vm_compute; discriminate | exfalso; vm_compute in H; discriminate]
      |first [reflexivity | exfalso; destruct H as [H|H]; [discriminate H | vm_compute in H; by apply H]]]).
Qed.

Lemma priority_preorder_witness :
  IsPowerCommandHigherPriority' (PowerCommandPayload TargetSuspend false 0)
    ((newData newConfig) <| TargetPowerState := TargetHibernate |>) = false ∧
  ¬ (TargetSuspend = TargetRun ∨ rank TargetHibernate ≤ rank TargetSuspend).
Proof.
  split; [reflexivity|]. intros H.
  assert (H1 : TargetSuspend ∈ targets) by (apply list_elem_of_In; cbn; auto).
  assert (H2 : TargetPowerState ((newData newConfig) <| TargetPowerState := TargetHibernate |>) ∈ targets)
    by (apply list_elem_of_In; cbn; auto 10).
  apply (proj2 (priority_preorder TargetSuspend false 0 ((newData newConfig) <| TargetPowerState := TargetHibernate |>)
    H1 H2)) in H.
  discriminate H.
Defined.

(** ** The modem wait *)

(** An inhibitor the modem service holds. *)
Definition byModem (inh : Inhibitor) : bool := Who inh =s "librescoot-modem".

Lemma modemOthers_fold hib l acc :
  fold_left (λ acc inh,
    if (Typ inh =s TypeSuspendOnly) && hib then acc
    else if (Typ inh =s TypeBlock) || (Typ inh =s TypeSuspendOnly) then
      if Who inh =s "librescoot-modem" then (true, acc.2) else (acc.1, true)
    else acc) l acc
  = (acc.1 || existsb (λ i, blocks hib i && byModem i) l,
     acc.2 || existsb (λ i, blocks hib i && negb (byModem i)) l).
Proof.
  revert acc. induction l as [|i l IH]; intros [m o]; cbn [fold_left existsb fst snd].
  { by rewrite !orb_false_r. }
  rewrite IH. change (blocks hib i) with
    (if (Typ i =s TypeSuspendOnly) && hib then false else (Typ i =s TypeBlock) || (Typ i =s TypeSuspendOnly)).
  destruct ((Typ i =s TypeSuspendOnly) && hib); [done|].
  destruct ((Typ i =s TypeBlock) || (Typ i =s TypeSuspendOnly)); [|done].
  change (byModem i) with (Who i =s "librescoot-modem"). destruct (Who i =s "librescoot-modem"); cbn; by rewrite ?orb_true_r.
Qed.

(** The modem wait skips exactly the situations in which the modem is the
    only thing in the way: some inhibitor blocks the target, and every
    inhibitor that blocks it is held by the modem service.  In particular the
    inhibitor manager then does report a blocker. *)
Theorem only_modem_blocks (target : string) (v : InhibitorView) :
  (onlyModem target (iv_list v) = true ↔
     (∃ inh, inh ∈ iv_list v ∧ blocks (IsHibernatePath target) inh = true) ∧
     ∀ inh, inh ∈ iv_list v → blocks (IsHibernatePath target) inh = true → Who inh = "librescoot-modem") ∧
  (onlyModem target (iv_list v) = true → iv_blocking v target = true).
Proof.
  assert (H : onlyModem target (iv_list v) = true ↔
     (∃ inh, inh ∈ iv_list v ∧ blocks (IsHibernatePath target) inh = true) ∧
     ∀ inh, inh ∈ iv_list v → blocks (IsHibernatePath target) inh = true → Who inh = "librescoot-modem").
  { unfold onlyModem, modemOthers. rewrite modemOthers_fold. cbn [fst snd orb].
    rewrite andb_true_iff, negb_true_iff, <- not_true_iff_false, !existsb_elem. unfold byModem. split.
    - intros [(i & Hi & Hb) Hn]. apply andb_true_iff in Hb as [Hb _]. split; [by exists i|].
      intros j Hj Hbj. destruct (String.eqb_spec (Who j) "librescoot-modem") as [|Hne]; [done|].
      exfalso. apply Hn. exists j. rewrite Hbj. split; [done|]. cbn. by apply negb_true_iff, String.eqb_neq.
    - intros [(i & Hi & Hb) Hall]. split.
      + exists i. rewrite Hb, (Hall i Hi Hb). done.
      + intros (j & Hj & Hbj). apply andb_true_iff in Hbj as [Hb' Hm]. by rewrite (Hall j Hj Hb') in Hm. }
  split; [exact H|]. intros Ho. apply H in Ho as [(i & Hi & Hb) _]. rewrite iv_law, existsb_elem. by exists i.
Qed.

(** ** The automatic last-ditch mode *)

Lemma begin_run w :
  beginAutomaticLastDitch w =
    (tt, w <| data := (data w)
           <| LastDitchFallbackTarget := if AutomaticLastDitch (data w) then LastDitchFallbackTarget (data w)
                                         else TargetPowerState (data w) |>
           <| AutomaticLastDitch := true |> <| TargetPowerState := TargetHibernate |>
           <| HibernateForWakeSeconds := 0 |> |> <| flags := (flags w) <| wakeTimerArmed := false |> |>).
Proof.
  destruct w as [c d]. destruct d. unfold beginAutomaticLastDitch, set_data, setArmed, set_flags, modify, gets, mbind, ST_bind, skip, mret, ST_ret. cbn.
  by destruct (AutomaticLastDitch).
Qed.

(** [n] triggers with changes of the default state in between. *)
Definition ditch (ts : list (option string)) : ST World unit :=
  fold_left (λ m t, m;; match t with
                        | None => beginAutomaticLastDitch
                        | Some t => OnLastDitchDefaultStateChanged' (PowerCommandPayload t false 0)
                        end) ts beginAutomaticLastDitch.

(** The target the mode must give back. *)
Definition owed (t : string) (ts : list (option string)) : string :=
  fold_left (λ acc t, default acc t) ts t.

(** The part of the state a request and the mode write. *)
Definition req (w : World) :=
  (TargetPowerState (data w), AutomaticLastDitch (data w), LastDitchFallbackTarget (data w),
   HibernateForWakeSeconds (data w), wakeTimerArmed (flags w)).

Lemma ditch_run ts w u w' :
  AutomaticLastDitch (data w) = false → ditch ts w = (u, w') →
  req w' = (TargetHibernate, true, owed (TargetPowerState (data w)) ts, 0, false) ∧ trace w' = trace w ∧
  cfg w' = cfg w.
Proof.
  intros Ha. unfold ditch, owed. revert u w'. induction ts as [|t ts IH] using rev_ind; intros u w'.
  { cbn [fold_left]. rewrite begin_run. intros [= <- <-]. unfold req. cbn. by rewrite Ha. }
  rewrite !fold_left_app. cbn [fold_left]. intros H. minv H. destruct (IH _ _ E) as (Hq & Ht & Hc).
  injection Hq as Q1 Q2 Q3 Q4 Q5.
  destruct t as [t|]; cbn [default].
  - injection H as <- <-. unfold req. cbn. by rewrite Q1, Q2, Q4, Q5.
  - rewrite begin_run in H. injection H as <- <-. unfold req. cbn. by rewrite Q2, Q3.
Qed.

(** The frame of the small writers: the request view, the flags, the
    configuration and the environment. *)
Definition req_view (w : World) := (req w, HibernateRequestID (data w), VehicleState (data w), flags w, cfg w).

Lemma req_HGet h f : keeps req_view (HGet h f). Proof. done. Qed.
Lemma req_publish h l : keeps req_view (publish h l). Proof. done. Qed.
Lemma req_LPush h l : keeps req_view (LPush h l). Proof. done. Qed.
Lemma req_HasBlocking t : keeps req_view (HasBlocking t). Proof. done. Qed.
Lemma req_Send i p : keeps req_view (Send i p). Proof. done. Qed.
Lemma req_setIssued b : keeps req_view (setIssued b). Proof. done. Qed.
Lemma req_modem b : keeps req_view (set_data (λ d, d <| ModemDisabled := b |>)). Proof. done. Qed.
#[local] Hint Resolve req_HGet req_publish req_LPush req_HasBlocking req_Send req_setIssued req_modem : frame.

Lemma req_enableModem : keeps (λ w, (req_view w, LowPowerStateIssued (data w))) enableModem.
Proof. unfold enableModem, pushModemCommand. keeps_tac. Qed.
Lemma silent_enableModem : emits silent enableModem.
Proof. unfold enableModem, pushModemCommand, set_data. emits_tac. Qed.
Lemma req_setStatus s r : keeps req_view (setHibernateStatus s r).
Proof. unfold setHibernateStatus. keeps_tac. Qed.
#[local] Hint Resolve req_setStatus : frame.
Lemma req_explicit t : keeps req_view (explicitHibernateState t).
Proof. unfold explicitHibernateState, hasOnlyModemBlockingInhibitors, Inhibitors, or_else. keeps_tac. Qed.

Lemma emits_setIssued Q b : emits Q (setIssued b).
Proof. by apply emits_silent. Qed.

Lemma since_emits Q {A} (m : ST World A) w a w' :
  emits Q m → m w = (a, w') → Forall (λ o, Q o = true) (since w w').
Proof. intros Hm E. destruct (emits_adds _ _ _ _ _ Hm E) as [l Hl]. rewrite (since_adds _ _ _ _ Hl). apply Hl. Qed.

(** C21: the automatic last-ditch mode gives back what it took.  Entered from any
    target, with any number of repeated triggers and changes of the default
    state, its cancellation restores the original target, or the last default
    state chosen meanwhile (or the configured default if that is empty), leaves
    no mode, no fallback, no timed wake-up and no armed wake timer behind, and
    asks the machine exactly once to look at the vehicle again. *)
Theorem lastditch_restores (ts : list (option string)) (w : World) :
  AutomaticLastDitch (data w) = false →
  let w1 := (ditch ts w).2 in
  let w2 := (OnLastDitchDisabled' w1).2 in
  AutomaticLastDitch (data w1) = true ∧ TargetPowerState (data w1) = TargetHibernate ∧
  TargetPowerState (data w2) = (let t := owed (TargetPowerState (data w)) ts in
                                if t =s "" then DefaultState (cfg w) else t) ∧
  AutomaticLastDitch (data w2) = false ∧ LastDitchFallbackTarget (data w2) = "" ∧
  HibernateForWakeSeconds (data w2) = 0 ∧ wakeTimerArmed (flags w2) = false ∧
  LowPowerStateIssued (data w2) = false ∧
  ∃ v, sent (since w w2) = [mkEvent EvVehicleStateChanged (VehicleStatePayload v)].
Proof.
  intros Ha. destruct (ditch ts w) as [u w1] eqn:E1. cbn [snd].
  destruct (ditch_run ts w u w1 Ha E1) as (Q1 & T1 & C1). injection Q1 as R1 R2 R3 R4 R5.
  destruct (OnLastDitchDisabled' w1) as [u' w2] eqn:E2. cbn [snd].
  unfold OnLastDitchDisabled' in E2. minv E2.
  assert (Q : req_view w6 = ((if LastDitchFallbackTarget (data w1) =s "" then DefaultState (cfg w1)
     else LastDitchFallbackTarget (data w1), false, "", 0, false), HibernateRequestID (data w1),
     VehicleState (data w1), (flags w1) <| wakeTimerArmed := false |>, cfg w1)
     ∧ LowPowerStateIssued (data w6) = false ∧ trace w6 = trace w1).
  { injection E as _ <-. injection E0 as _ <-. injection E3 as _ <-. injection E4 as _ <-. by injection E5 as _ <-. }
  destruct Q as (Q & I6 & T6).
  apply (keeps_inv _ _ _ _ _ req_enableModem) in E6 as K. destruct (emits_adds _ _ _ _ _ silent_enableModem E6) as [l A].
  pose proof (f_equal fst K) as K1. pose proof (f_equal snd K) as K2. cbn [fst snd] in K1, K2. injection E7 as <- <-. injection E2 as _ <-.
  set (a5 := e_hget (env w7) (tick w7) "vehicle" "state").
  set (ev := mkEvent EvVehicleStateChanged (VehicleStatePayload (default (VehicleState (data w7)) (nonempty a5)))).
  rewrite R3, C1 in Q.
  rewrite Q in K1. injection K1 as P1 P2 P3 P4 P5 _ _ P6 P7.
  do 2 (split; [done|]). split; [exact P1|]. split; [exact P2|]. split; [exact P3|]. split; [exact P4|].
  split; [exact P5|]. split; [cbn; congruence|].
  eexists. rewrite (since_adds (λ _, true) _ _ (l ++ [ORead "vehicle" "state" a5; OSend ev])).
  - rewrite sent_app, (sent_silent l) by apply A. reflexivity.
  - split; [|by apply Forall_true]. destruct A as [A _].
    change ((trace w7 ++ [ORead "vehicle" "state" a5]) ++ [OSend ev] = trace w ++ l ++ [ORead "vehicle" "state" a5; OSend ev]).
    by rewrite A, T6, T1, <- !app_assoc.
Qed.

Lemma lastditch_restores_witness :
  let w := sampleService (λ _ _, None) in
  AutomaticLastDitch (data w) = false ∧
  TargetPowerState (data (OnLastDitchDisabled' (ditch [None; Some TargetReboot; None] w).2).2) = TargetReboot.
Proof.
  intros w. split; [reflexivity|].
  exact (proj1 (proj2 (proj2 (lastditch_restores [None; Some TargetReboot; None] w eq_refl)))).
Defined.

(** ** Explicit hibernation *)

(** Every inhibitor that blocks the target, and there is one, is the modem's. *)
Definition modemAlone (target : string) (v : InhibitorView) : Prop :=
  (∃ inh, inh ∈ iv_list v ∧ blocks (IsHibernatePath target) inh = true) ∧
  ∀ inh, inh ∈ iv_list v → blocks (IsHibernatePath target) inh = true → Who inh = "librescoot-modem".

(** What the environment answers to the three questions of a request: the live
    vehicle state, the inhibitors, and the inhibitors looked at again. *)
Definition vehicleNow (w : World) : option string := e_hget (env w) (tick w) "vehicle" "state".
Definition inhibitorsNow (w : World) : InhibitorView := e_inhib (env w) (S (tick w)).
Definition inhibitorsAgain (w : World) : InhibitorView := e_inhib (env w) (S (S (tick w))).

(** The inputs that refuse an explicit request, with the reason given. *)
Inductive Refused (target : string) (w : World) : string → Prop :=
| Refused_unreadable : vehicleNow w = None → Refused target w "cannot read vehicle state"
| Refused_vehicle v :
    vehicleNow w = Some v → v ≠ "stand-by" → v ≠ "parked" →
    Refused target w ("vehicle must be parked or in stand-by (is " +:+ v +:+ ")")
| Refused_inhibited :
    vehicleNow w = Some "parked" →
    (∃ inh, inh ∈ iv_list (inhibitorsNow w) ∧ blocks (IsHibernatePath target) inh = true) →
    ¬ modemAlone target (inhibitorsAgain w) →
    Refused target w "vehicle preparation blocked by power inhibitor".

(** The inputs that let it through, with the vehicle state it goes on with. *)
Inductive Eligible (target : string) (w : World) : string → Prop :=
| Eligible_standby : vehicleNow w = Some "stand-by" → Eligible target w "stand-by"
| Eligible_parked :
    vehicleNow w = Some "parked" →
    (¬ ∃ inh, inh ∈ iv_list (inhibitorsNow w) ∧ blocks (IsHibernatePath target) inh = true) ∨
      modemAlone target (inhibitorsAgain w) →
    Eligible target w "parked".

(** A request that did not go through leaves nothing behind. *)
Definition closedRequest (w : World) : Prop :=
  TargetPowerState (data w) = TargetRun ∧ HibernateRequestID (data w) = "" ∧
  hibernatePreparationTimer (flags w) = None ∧ HibernateForWakeSeconds (data w) = 0.

(** The publication of a status with its reason. *)
Definition statusReport (status reason : string) (ok : bool) : Obs :=
  OPublish "power-manager" [("hibernate-status", status); ("hibernate-error", reason)] ok.

Lemma Refused_not_Eligible target w err st : Refused target w err → Eligible target w st → False.
Proof.
  intros [H|v H H1 H2|H H1 H2] [H'|H' H'']; rewrite H in H'; try congruence.
  by destruct H''.
Qed.

Lemma view_blocking v target :
  iv_blocking v target = true ↔ ∃ inh, inh ∈ iv_list v ∧ blocks (IsHibernatePath target) inh = true.
Proof. by rewrite iv_law, existsb_elem. Qed.

Lemma explicit_outcome target w r w' :
  explicitHibernateState target w = (r, w') →
  core w' = core w ∧ (∃ l, adds silent w w' l) ∧
  match r with inl err => Refused target w err | inr st => Eligible target w st end.
Proof.
  intros H. split; [by eapply keeps_inv; [apply core_explicit|]|].
  split; [by eapply emits_adds; [apply emits_explicit; auto with frame|]|].
  unfold explicitHibernateState, HGet, HasBlocking, hasOnlyModemBlockingInhibitors, Inhibitors, or_else, ask, emit,
    modify, mbind, ST_bind, mret, ST_ret in H. cbn in H.
  destruct (e_hget (env w) (tick w) "vehicle" "state") as [v|] eqn:Ev; cbn in H; [|simplify_eq; by constructor].
  destruct (String.eqb_spec v "stand-by") as [->|N1]; cbn in H; [simplify_eq; by constructor|].
  destruct (String.eqb_spec v "parked") as [->|N2]; cbn in H; [|simplify_eq; by eapply Refused_vehicle].
  pose proof (view_blocking (inhibitorsNow w) target) as Hv. unfold inhibitorsNow in Hv.
  destruct (iv_blocking _ target) eqn:Eb in H; rewrite Eb in Hv; cbn in H.
  2: { simplify_eq. constructor; [done|]. left. intros Hi. by apply Hv in Hi. }
  pose proof (proj1 (only_modem_blocks target (inhibitorsAgain w))) as Hm. unfold inhibitorsAgain in Hm.
  destruct (onlyModem _ _) eqn:Em in H; rewrite Em in Hm; cbn in H; simplify_eq.
  - constructor; [done|]. right. by apply Hm.
  - constructor; [done|by apply Hv|]. intros Ha. by apply Hm in Ha.
Qed.

(** What an explicit request leaves when it is closed. *)
Lemma clearHibernateRequest_spec status reason w u w' :
  clearHibernateRequest status reason w = (u, w') →
  TargetPowerState (data w') = TargetPowerState (data w) ∧ HibernateRequestID (data w') = "" ∧
  HibernateForWakeSeconds (data w') = 0 ∧ wakeTimerArmed (flags w') = false ∧
  hibernatePreparationTimer (flags w') = None ∧ cfg w' = cfg w ∧ ∃ l, adds silent w w' l.
Proof.
  intros H. assert (Hl : ∃ l, adds silent w w' l).
  { eapply emits_adds; [|exact H].
    unfold clearHibernateRequest, stopHibernatePreparationTimer, setWakeSeconds, setArmed, set_flags, set_data,
      setHibernateStatus, get_st. emits_tac. }
  unfold clearHibernateRequest in H. minv H.
  assert (K1 : (data w1, cfg w1, hibernatePreparationTimer (flags w1)) =
    ((data w) <| HibernateRequestID := "" |>, cfg w, None)).
  { assert (K0 : (data w0, cfg w0, hibernatePreparationTimer (flags w0)) = (data w, cfg w, None))
      by by injection E as _ <-.
    injection K0 as D0 C0 H0. rewrite <- D0, <- C0, <- H0.
    destruct (String.eqb_spec (HibernateRequestID (data w0)) "") as [Hid|_]; cbn [negb] in E0; cbv iota in E0; minv E0.
    - injection E0 as _ <-. cbn. rewrite <- Hid. by destruct (data w0).
    - unfold setHibernateStatus in E0. minv E0. injection E3 as _ <-. injection E4 as _ <-.
      injection E5 as _ <-. by injection E0 as _ <-. }
  assert (K2 : (data w2, cfg w2, hibernatePreparationTimer (flags w2)) = (data w1, cfg w1, hibernatePreparationTimer (flags w1))).
  { destruct (_ || _) in E1; minv E1; [injection E1 as _ <-; by injection E3 as _ <-|by injection E1 as _ <-]. }
  injection E2 as _ <-. injection H as _ <-. rewrite K1 in K2. injection K2 as D2 C2 H2.
  cbn. rewrite D2, C2, H2. by repeat split.
Qed.

(** A request that is pending is closed with its status published. *)
Lemma clearHibernateRequest_reports status reason w u w' :
  clearHibernateRequest status reason w = (u, w') → HibernateRequestID (data w) ≠ "" →
  ∃ l ok, adds silent w w' l ∧ statusReport status reason ok ∈ l.
Proof.
  intros H Hid. unfold clearHibernateRequest in H. minv H. injection E as _ <-.
  cbn [data] in E0. apply String.eqb_neq in Hid. rewrite Hid in E0. cbn [negb] in E0. cbv iota in E0.
  assert (A0 : ∃ l ok, adds silent w w1 l ∧ statusReport status reason ok ∈ l).
  { unfold setHibernateStatus in E0. minv E0. injection E as _ <-. injection E3 as _ <-. injection E4 as _ <-.
    injection E0 as _ <-. eexists [_; _], _. split; [split; [by cbn; rewrite <- app_assoc|by repeat constructor]|].
    right. by left. }
  destruct A0 as (l & ok & A & Hin).
  injection E2 as _ <-. injection H as _ <-.
  destruct (emits_adds silent _ _ _ _
    (ltac:(emits_tac) : emits silent (when (0 <? HibernateForWakeSeconds (data w1)) || wakeTimerArmed (flags w1) do
      (publish "power-manager" [("wake-timer-seconds", "0")];; skip))) E1) as [l' B].
  exists (l ++ l'), ok. split; [by eapply adds_trans|]. rewrite elem_of_app. by left.
Qed.

Lemma acceptCommand_spec target secs w u w' :
  acceptCommand target secs w = (u, w') →
  TargetPowerState (data w') = target ∧ HibernateRequestID (data w') = "" ∧
  AutomaticLastDitch (data w') = false ∧ LastDitchFallbackTarget (data w') = "" ∧
  HibernateForWakeSeconds (data w') = (if target =s TargetHibernateFor then secs else 0) ∧
  wakeTimerArmed (flags w') = false ∧ hibernatePreparationTimer (flags w') = None ∧
  cfg w' = cfg w ∧ ∃ l, adds silent w w' l.
Proof.
  intros H. unfold acceptCommand in H. minv H.
  apply clearHibernateRequest_spec in E as (K1 & K2 & K3 & K4 & K5 & K6 & [l A]).
  injection E0 as _ <-. injection E1 as _ <-. 
  match goal with E : (if _ then _ else _) ?w1 = _ |- _ =>
    assert (V : req_view w3 = req_view w1 ∧ ∃ l, adds silent w1 w3 l);
    [destruct (target =s TargetRun) in E;
       [pose proof (keeps_inv _ _ _ _ _ req_enableModem E) as Hk; split; [exact (f_equal fst Hk)|];
        by eapply emits_adds; [apply silent_enableModem|]
       |minv E; injection E as _ <-; split; [done|]; exists []; by apply adds_nil]|]
  end.
  destruct V as [V [l2 A2]]. injection V as V1 V2 V3 V4 V5 V6 V7 V8 V9.
  injection E3 as _ <-. injection H as _ <-. cbn in *.
  repeat split; try congruence. exists (l ++ l2).
  destruct A as [A FA], A2 as [A2 FA2]. split; [cbn; cbn in A2; by rewrite A2, A, app_assoc|by apply Forall_app].
Qed.

(** The announcement of a request. *)
Definition announcement (state id : string) (ok : bool) : Obs :=
  OPublish "power-manager"
    [("hibernate-request-id", id);
     ("hibernate-status", if state =s "parked" then "preparing-vehicle" else "preparing-power");
     ("hibernate-error", "")] ok.

(** What follows the announcement of an accepted request: the order to prepare
    the vehicle, or the wake-up of the machine when there is nothing to prepare. *)
Definition prepareOrder (id : string) (ok : bool) : Obs := OPush "scooter:state" ("prepare-hibernate:" +:+ id) ok.

Lemma prepareExplicit_spec state w r w' :
  prepareExplicitHibernate state w = (r, w') → state = "stand-by" ∨ state = "parked" →
  let id := e_rand (env w) (tick w) in
  data w' = (data w) <| HibernateRequestID := id |> ∧ cfg w' = cfg w ∧
  wakeTimerArmed (flags w') = wakeTimerArmed (flags w) ∧
  match r with
  | None =>
      hibernatePreparationTimer (flags w') =
        (if state =s "parked" then Some id else hibernatePreparationTimer (flags w)) ∧
      adds silent w w' (announcement state id true :: if state =s "parked" then [prepareOrder id true] else [])
  | Some err =>
      adds silent w w' [announcement state id false] ∨
      (state = "parked" ∧ adds silent w w' [announcement state id true; prepareOrder id false])
  end.
Proof.
  intros H Hst.
  unfold prepareExplicitHibernate, LPush, publish, ask, emit, set_flags, set_data, modify, mbind, ST_bind, mret, ST_ret in H.
  cbn in H. destruct (e_write (env w) (S (tick w))) eqn:E1; cbn in H.
  2: { injection H as <- <-. repeat split; [done..|]. left. split; [done|by repeat constructor]. }
  destruct Hst as [-> | ->]; cbn in H.
  - injection H as <- <-. repeat split; by repeat constructor.
  - destruct (e_write _ _) eqn:E2 in H; cbn in H; injection H as <- <-; do 3 (split; [done|]).
    + split; [done|]. split; [cbn; by rewrite <- app_assoc|by repeat constructor].
    + right. split; [done|]. split; [cbn; by rewrite <- app_assoc|by repeat constructor].
Qed.

Lemma silent_since w w' l :
  adds silent w w' l → Forall (λ o, uncommanded o = true) (since w w') ∧ sent (since w w') = [].
Proof.
  intros Hl. rewrite (since_adds _ _ _ _ Hl). destruct Hl as [_ Hl]. split; [|by apply sent_silent].
  eapply Forall_impl; [exact Hl|apply silent_uncommanded].
Qed.

(** An action that may still send one event after silent work. *)
Lemma since_send (b : bool) ev w w1 w' l :
  adds silent w w1 l → trace w' = trace w1 ++ (if b then [OSend ev] else []) →
  since w w' = l ++ (if b then [OSend ev] else []) ∧
  Forall (λ o, uncommanded o = true) (since w w') ∧ sent (since w w') = (if b then [ev] else []).
Proof.
  intros [A F] T.
  assert (Hs : since w w' = l ++ if b then [OSend ev] else []).
  { apply (since_adds (λ _, true)). split; [by rewrite T, A, <- app_assoc|by apply Forall_true]. }
  rewrite Hs, sent_app, (sent_silent _ F). split; [done|]. split; [|by destruct b].
  apply Forall_app. split; [eapply Forall_impl; [exact F|apply silent_uncommanded]|].
  destruct b; by repeat constructor.
Qed.

Lemma setHibernateStatus_run status reason w u w' :
  setHibernateStatus status reason w = (u, w') →
  data w' = data w ∧ flags w' = flags w ∧ cfg w' = cfg w ∧
  ∃ ok, adds silent w w' [statusReport status reason ok].
Proof.
  unfold setHibernateStatus. intros H. minv H. injection E as _ <-. injection H as _ <-.
  repeat split. eexists. by repeat constructor.
Qed.

Lemma env_acceptCommand target secs : keeps env (acceptCommand target secs).
Proof.
  unfold acceptCommand, clearHibernateRequest, stopHibernatePreparationTimer, setHibernateStatus, setWakeSeconds,
    setArmed, setTarget, clearAutomaticLastDitch, enableModem, pushModemCommand, set_flags, set_data, get_st.
  keeps_tac.
Qed.

Lemma clearHibernateRequest_closing status reason w u w' :
  clearHibernateRequest status reason w = (u, w') →
  ∃ l, adds silent w w' l ∧
    (HibernateRequestID (data w) ≠ "" → ∃ reason' ok, statusReport status reason' ok ∈ l).
Proof.
  intros H. destruct (decide (HibernateRequestID (data w) = "")) as [Hid|Hid].
  - apply clearHibernateRequest_spec in H as (_ & _ & _ & _ & _ & _ & l & A). by exists l.
  - destruct (clearHibernateRequest_reports _ _ _ _ _ H Hid) as (l & ok & A & Hin). exists l. eauto.
Qed.

(** How an explicit request that was let through with the vehicle in [state]
    fails: the announcement, or the order to prepare the vehicle, was not
    written; the request is closed with the status "failed". *)
Lemma prepare_failed state err w w1 u w2 u' w' :
  state = "stand-by" ∨ state = "parked" → prepareExplicitHibernate state w = (Some err, w1) →
  clearHibernateRequest "failed" err w1 = (u, w2) → setTarget TargetRun w2 = (u', w') →
  let id := e_rand (env w) (tick w) in
  closedRequest w' ∧ wakeTimerArmed (flags w') = false ∧ cfg w' = cfg w ∧
  ∃ m l, adds silent w w' (m ++ l) ∧
    (m = [announcement state id false] ∨
     state = "parked" ∧ m = [announcement state id true; prepareOrder id false]) ∧
    (id ≠ "" → ∃ reason ok, statusReport "failed" reason ok ∈ l).
Proof.
  intros Hst E1 E2 H id. destruct (prepareExplicit_spec _ _ _ _ E1 Hst) as (D & C & _ & Hok).
  destruct (clearHibernateRequest_closing _ _ _ _ _ E2) as (l & A & Hrep).
  apply clearHibernateRequest_spec in E2 as (T1 & T2 & T3 & T4 & T5 & T6 & _).
  assert (V : (data w', flags w', cfg w', trace w') =
              ((data w2) <| TargetPowerState := TargetRun |>, flags w2, cfg w2, trace w2)) by by injection H as _ <-.
  injection V as V1 V2 V3 V4. unfold closedRequest. rewrite V1, V2. cbn.
  split; [by repeat split|]. split; [done|]. split; [congruence|].
  assert (R : ∀ m, adds silent w w1 m → adds silent w w' (m ++ l)).
  { intros m Am. eapply adds_trans; [exact Am|]. destruct A as [T F]. split; [by rewrite V4|done]. }
  rewrite D in Hrep. cbn in Hrep.
  destruct Hok as [Am|[-> Am]]; eexists _, l; (split; [by apply R, Am|auto]).
Qed.

(** The outcomes of an explicit request for [target] that took the service from
    [w] to [w']. *)
Inductive Outcome (target : string) (secs : Z) (w w' : World) : Prop :=
| Outcome_rejected err ok l :
    Refused target w err →
    since w w' = l ++ [statusReport "rejected" err ok] →
    closedRequest w' → sent (since w w') = [] → Outcome target secs w w'
| Outcome_failed state n id m l l' :
    Eligible target w state → id = e_rand (env w) n →
    since w w' = l ++ m ++ l' →
    (m = [announcement state id false] ∨
     state = "parked" ∧ m = [announcement state id true; prepareOrder id false]) →
    (id ≠ "" → ∃ reason ok, statusReport "failed" reason ok ∈ l') →
    closedRequest w' → sent (since w w') = [] → Outcome target secs w w'
| Outcome_accepted state n id l l' :
    Eligible target w state → id = e_rand (env w) n →
    since w w' = l ++ announcement state id true :: l' →
    l' = (if state =s "parked" then [prepareOrder id true]
          else [OSend (mkEvent EvVehicleStateChanged (VehicleStatePayload "stand-by"))]) →
    TargetPowerState (data w') = target →
    HibernateForWakeSeconds (data w') = (if target =s TargetHibernateFor then secs else 0) →
    AutomaticLastDitch (data w') = false → VehicleState (data w') = state →
    HibernateRequestID (data w') = id →
    hibernatePreparationTimer (flags w') = (if state =s "parked" then Some id else None) →
    sent (since w w') = (if state =s "stand-by" then [mkEvent EvVehicleStateChanged (VehicleStatePayload state)] else []) →
    Outcome target secs w w'.

(** C20: the outcome of an explicit hibernation request on every branch, decided
    by what Redis and the inhibitors answer in this very action.  A request is
    refused exactly when the vehicle state cannot be read, is neither stand-by
    nor parked, or is parked while an inhibitor blocks the target and a second
    look does not find the modem's alone; then the last thing done is to publish
    the status "rejected" with that reason.  Otherwise the fresh request id is
    announced with its preparation status.  When that write, or the order to
    prepare a parked vehicle, fails, the status "failed" is published for the
    request.  In both cases the target is run, no request, timer or wake-up is
    left, and nothing is sent.  When the writes succeed, the target and the
    wake-up duration are the requested ones, an automatic last-ditch is over,
    the id is stored, the preparation timer runs for it exactly when the vehicle
    must first be prepared, and only a vehicle in stand-by is reported to the
    machine at once. *)
Theorem explicit_request_outcome (target : string) (secs : Z) (w : World) :
  let w' := (OnPowerCommand' (PowerCommandPayload target true secs) w).2 in
  wakeTimerArmed (flags w') = false ∧ cfg w' = cfg w ∧
  Forall (λ o, uncommanded o = true) (since w w') ∧
  Outcome target secs w w' ∧ ∀ err state, Refused target w err → ¬ Eligible target w state.
Proof.
  pose proof (λ err st, Refused_not_Eligible target w err st) as Hx.
  destruct (OnPowerCommand' _ w) as [u w'] eqn:H. cbn [snd]. cbn [OnPowerCommand'] in H. minv H.
  destruct (explicit_outcome _ _ _ _ E) as (C0 & [l0 A0] & Hr).
  pose proof (f_equal (λ c, c.1.1.1.1.1.1.1.1) C0) as C0c. pose proof (f_equal snd C0) as C0e. cbn in C0c, C0e.
  destruct a as [err|state]; minv H.
  - apply clearHibernateRequest_spec in E0 as (K1 & K2 & K3 & K4 & K5 & K6 & [l1 A1]).
    injection E1 as _ <-. destruct (setHibernateStatus_run _ _ _ _ _ H) as (D & F & C & ok & A2).
    assert (A : adds silent w w' ((l0 ++ l1) ++ [statusReport "rejected" err ok])).
    { eapply adds_trans; [eapply adds_trans; [exact A0|exact A1]|exact A2]. }
    destruct (silent_since _ _ _ A) as [Fu Fs]. rewrite F, C. cbn.
    split; [done|]. split; [congruence|]. split; [done|].
    split; [|exact Hx]. eapply Outcome_rejected; [exact Hr|by apply (since_adds silent)| |done].
    unfold closedRequest. rewrite D, F. by repeat split.
  - assert (Hst : state = "stand-by" ∨ state = "parked") by (inversion Hr; auto).
    pose proof (keeps_inv _ _ _ _ _ (env_acceptCommand _ _) E0) as Ev. rewrite C0e in Ev.
    apply acceptCommand_spec in E0 as (K1 & K2 & K3 & _ & K5 & K6 & K7 & K8 & [l1 A1]). injection E1 as _ <-.
    assert (A01 : adds silent w w1 (l0 ++ l1)) by by eapply adds_trans.
    lazymatch type of E2 with _ = (?r, _) => destruct r as [err|] end; minv H.
    + destruct (prepare_failed _ _ _ _ _ _ _ _ Hst E2 E0 H) as (Hc & Har & Hcfg & m & l & Am & Hm & Hrep).
      cbn [env cfg tick] in Hm, Hrep, Hcfg. rewrite Ev in Hm, Hrep.
      assert (A := adds_trans _ _ _ _ _ _ A01 Am). destruct (silent_since _ _ _ A) as [Fu Fs].
      split; [done|]. split; [congruence|]. split; [done|].
      split; [|exact Hx]. by eapply Outcome_failed; [exact Hr|reflexivity|by apply (since_adds silent)|..].
    + destruct (prepareExplicit_spec _ _ _ _ E2 Hst) as (D2 & C2 & Ar2 & Ht & Ha).
      cbn [env data cfg flags tick] in D2, C2, Ar2, Ht, Ha. rewrite Ev in D2, Ht, Ha.
      set (ev := mkEvent EvVehicleStateChanged (VehicleStatePayload state)).
      assert (V : (data w', flags w', cfg w', trace w') =
                  (data w3, flags w3, cfg w3, trace w3 ++ if state =s "stand-by" then [OSend ev] else [])).
      { destruct (state =s "stand-by"); minv H; injection H as _ <-; [done|by rewrite app_nil_r]. }
      injection V as V1 V2 V3 V4.
      destruct (since_send _ _ _ _ _ _ (adds_trans _ _ _ _ _ _ A01 Ha) V4) as (Hs & Fu & Fs).
      split; [congruence|]. split; [congruence|]. split; [done|].
      split; [|exact Hx]. eapply Outcome_accepted; [exact Hr|reflexivity|rewrite Hs, <- app_assoc; reflexivity|..];
        rewrite ?V1, ?V2, ?D2, ?Ht, ?K7; cbn; try congruence; try done. by destruct Hst as [-> | ->].
Qed.
