(* ===== verification/ClockGuard.v ===== *)
(** * Calendar trust

    The clock guard and the plausibility tests of
    [internal/service/service.go]: when may a wall-clock reading drive a
    calendar decision?  Durations are nanoseconds; the files the code reads are
    inputs ([None] when unreadable). *)

From S2P Require Import Prelude GoInt GoTime GoFloat GoText GoDuration ClockProto SvcState.

(** ** clockGuard *)

Definition mark (wall : Time) (bootElapsed : Z) (g : ClockGuard) : ClockGuard :=
  mkGuard true (Round0 wall) bootElapsed.

Definition valid (wall : Time) (bootElapsed : Z) (g : ClockGuard) : bool :=
  if negb (trusted g) then false
  else
    let expected := Add (gWall g) (i64 (bootElapsed - gBoot g)) in
    negb (Before (Add (Round0 wall) clockGuardSlack) expected).

(** [bootElapsed] on the text of /proc/uptime.  The conversion of the product
    to an [int64] truncates; the kernel prints no value outside its range. *)
Definition parseUptime (data : string) : option Z :=
  match Fields data with
  | [] => None
  | f :: _ => secs ← ParseFloat f; Some (i64 (trunc (fmul secs (of_Z Second))))
  end.

Definition bootElapsed : ST World (option Z) :=
  data ← ask e_uptime;
  mret (match data with Some data => parseUptime data | None => None end).

(** ** Plausibility *)

Definition clockPlausible (now floor : Time) : bool :=
  if IsZero floor then true else negb (Before now floor).

Definition calendarClockPlausible (now build : Time) (quality : Quality) : bool :=
  clockPlausible now build && QExternal quality && ((QSource quality =s "ntp") || (QSource quality =s "gps")).

Definition laterOf (a b : Time) : Time := if After a b then a else b.

(** [time.Unix(secs, 0)]. *)
Definition loadBuildTimestamp (file : option string) : Time :=
  match file with
  | None => zeroTime
  | Some data =>
      match ParseInt 64 (TrimSpace data) with
      | None => zeroTime
      | Some secs => if secs <=? 0 then zeroTime else mkTime (secs * Second) None
      end
  end.

(** ** Chrony tracking *)

(** The pair (refid, leap). *)
Definition parseChronyTracking (out : string) : string * string :=
  fold_left (λ acc line,
    match Cut line 58 with
    | None => acc
    | Some (key, value) =>
        let k := TrimSpace key in
        if k =s "Reference ID" then
          match Fields (TrimSpace value) with f :: _ => (f, acc.2) | [] => acc end
        else if k =s "Leap status" then (acc.1, TrimSpace value)
        else acc
    end) (Split out 10) ("", "").

(** ** The guard is a reset-proof lower bound *)

(** C39: after an anchor the wall clock is trusted exactly while it has kept
    pace with the boot-time clock (which counts suspend) up to two minutes of
    slack; before any anchor it is never trusted.  A resume that left the wall
    clock behind by more than the slack is always detected. *)
Theorem clockGuard_spec (anchor now : Time) (boot0 boot : Z) (g : ClockGuard) :
  is_i64 (boot - boot0) →
  (valid now boot (mark anchor boot0 g) = true ↔
     (boot - boot0) - (wall now - wall anchor) ≤ clockGuardSlack) ∧
  (trusted g = false → valid now boot g = false).
Proof.
  intros H. split; [|by unfold valid; intros ->].
  unfold valid, mark. cbn [trusted gWall gBoot negb]. rewrite i64_id by done.
  unfold Before, readings, Add, Round0. cbn. rewrite negb_true_iff, Z.ltb_ge. lia.
Qed.

Lemma clockGuard_spec_witness :
  valid (mkTime (10 * Hour) (Some 5)) (9 * Hour) (mark (mkTime (9 * Hour) (Some 3)) Hour (mkGuard false zeroTime 0)) = false.
Proof.
  destruct (clockGuard_spec (mkTime (9 * Hour) (Some 3)) (mkTime (10 * Hour) (Some 5)) Hour (9 * Hour)
    (mkGuard false zeroTime 0) ltac:(tlia)) as [H _].
  apply not_true_iff_false. intros Hv. apply H in Hv. cbn in Hv. unfold clockGuardSlack in Hv. tlia.
Defined.

Example tracking_sample :
  parseChronyTracking ("Reference ID    : C0A80001 (gw)" +:+ String (chr 10) "Leap status     : Normal") = ("C0A80001", "Normal").
Proof. vm_compute. reflexivity. Qed.

Example uptime_sample : parseUptime ("12345.67 23456.78" +:+ String (chr 10) "") = Some 12345670000000.
Proof. vm_compute. reflexivity. Qed.
