(* ===== verification/Handlers.v ===== *)
(** * Watchers, commands and settings

    The Redis callbacks, the settings, the scheduler and timer callbacks and
    the start-up sequence of [internal/service/service.go] and
    [hibernate_request.go].  These run outside the machine's goroutine: they
    send events and never write the machine's data (see
    [handlers_data]). *)

From S2P Require Import Prelude GoInt GoTime GoDuration HibTimer Scheduler SchedulerFacts Fsm.
From S2P Require Import Inhibitor LastDitch GoFloat ClockProto Systemd ClockClient SvcState.
From S2P Require Import SvcGuards SvcActions Issuing SvcFacts ClockGuard.

(** The cron library. *)
Class Cron := {
  Schedule : Type;
  ParseStandard : string → option Schedule;
  Next : Schedule → Time → Time;
  engineAccepts : string → bool;
}.

Definition sendEligibility : ST World unit := Send EvPowerEligibilityChanged NoPayload.

Definition sendLastDitchCheck : ST World unit :=
  sendEligibility;;
  t ← evalLastDitch;
  l ← gets ld;
  when t && lastDitchVehicleStandby l do
    Send EvLastDitchCheck (PowerCommandPayload TargetHibernate false 0).

(** ** Small queries *)

Definition wakeTimerMaxSeconds (w : World) : Z :=
  if wakeTimerMaxSecondsOver (settings w) =? 0 then WakeTimerMaxSeconds (cfg w)
  else wakeTimerMaxSecondsOver (settings w).

Definition wakeTimerAckTimeout (w : World) : Z :=
  if wakeTimerAckTimeoutOver (settings w) =? 0 then WakeTimerAckTimeout (cfg w)
  else wakeTimerAckTimeoutOver (settings w).

Definition isValidDefaultState (state : string) : bool :=
  one_of state [TargetRun; TargetSuspend; TargetHibernate; TargetHibernateManual; TargetHibernateTimer;
                TargetReboot].

Definition clockValid : ST World bool :=
  boot ← bootElapsed;
  match boot with
  | None => mret false
  | Some b => now ← Now; g ← gets guard; mret (valid now b g)
  end.

(** ** Scheduler *)

(** The [onFire] callback: the marker file, then the event. *)
Definition scheduledFire (wakeSeconds : Z) : ST World unit :=
  if wakeSeconds =? 0 then skip
  else emit OMarker;; Send EvPowerHibernateFor (PowerCommandPayload TargetHibernateFor false wakeSeconds).

Fixpoint fireAll (l : list Z) : ST World unit :=
  match l with
  | [] => skip
  | s :: l => scheduledFire s;; fireAll l
  end.

Section cron.
Context `{Cron}.

Definition runScheduler (o : sched_op) : ST World unit :=
  w ← get_st;
  let r := sched_step ParseStandard Next engineAccepts (sched w) o in
  modify (λ w, w <| sched := r.1 |>);;
  fireAll r.2.

(** ** Redis watchers *)

Definition onVehicleStateChanged (vehicleState : string) : ST World unit :=
  set_ld (λ l, l <| lastDitchVehicleStandby := (vehicleState =s "stand-by") |>);;
  Send EvVehicleStateChanged (VehicleStatePayload vehicleState);;
  now ← Now;
  ok ← clockValid;
  w ← get_st;
  runScheduler (OVehicle vehicleState now ok (wakeTimerMaxSeconds w));;
  sendLastDitchCheck.

Definition onBatteryStateChanged (slot newState : string) : ST World unit :=
  (if newState =s "active" then Send EvBatteryBecameActive (BatteryStatePayload slot newState)
   else Send EvBatteryBecameInactive (BatteryStatePayload slot newState));;
  sendEligibility.

Definition onBatteryPresentChanged (slot v : string) : ST World unit :=
  set_ld (setBatteryPresent slot (parseBool v));; sendLastDitchCheck.

Definition onBatteryChargeChanged (slot v : string) : ST World unit :=
  set_ld (setBatteryCharge slot (parseChargeOrUnknown v));; sendLastDitchCheck.

Definition onCBBatteryPresentChanged (v : string) : ST World unit :=
  set_ld (λ l, l <| cbBatteryPresent := parseBool v |>);; sendLastDitchCheck.

Definition onCBBatteryChargeChanged (v : string) : ST World unit :=
  set_ld (λ l, l <| cbBatteryCharge := parseChargeOrUnknown v |>);; sendLastDitchCheck.

Definition onAuxVoltageChanged (v : string) : ST World unit :=
  set_ld (setAuxVoltageLocked (parseNonNegativeInt v));; sendLastDitchCheck.

(** ** Commands *)

Definition onHibernatePreparationResult (value : string) : ST World unit :=
  match Cut value 58 with
  | Some (id, reason) => Send EvHibernatePreparationFailed (HibernatePreparationResult id reason)
  | None => skip
  end.

(** The last [switch] of [onPowerCommand]: event and target. *)
Definition commandEvent (command : string) : option (EventID * string) :=
  if command =s "run" then Some (EvPowerRun, command)
  else if command =s "suspend" then Some (EvPowerSuspend, command)
  else if one_of command ["hibernate"; "hibernate-manual"] then Some (EvExplicitHibernate, TargetHibernateManual)
  else if command =s "hibernate-auto" then Some (EvPowerHibernate, TargetHibernate)
  else if command =s "hibernate-timer" then Some (EvPowerHibernateTimer, command)
  else if command =s "reboot" then Some (EvPowerReboot, command)
  else None.

(** The duration of a [hibernate-for] command, clamped to the cap. *)
Definition hibernateForSeconds (raw : string) (max : Z) : option Z :=
  match ParseUint 32 raw with
  | None => None
  | Some secs => if secs =? 0 then None else Some (if max <? secs then max else secs)
  end.

Definition onPowerCommand (command : string) : ST World unit :=
  match CutPrefix command "hibernate-preparation-failed:" with
  | Some id => onHibernatePreparationResult (id +:+ ":vehicle rejected hibernation preparation")
  | None =>
      match CutPrefix command "hibernate-for:" with
      | Some raw =>
          w ← get_st;
          match hibernateForSeconds raw (wakeTimerMaxSeconds w) with
          | None => skip
          | Some secs => Send EvExplicitHibernate (PowerCommandPayload TargetHibernateFor true (u32 secs))
          end
      | None =>
          if command =s "hibernate-cancel" then
            publish "power-manager" [("wake-timer-seconds", "0")];;
            Send EvPowerRun (PowerCommandPayload TargetRun false 0)
          else match commandEvent command with
          | None => skip
          | Some (id, target) =>
              Send id (PowerCommandPayload target (bool_decide (id = EvExplicitHibernate)) 0)
          end
      end
  end.

Definition onInhibitorsChanged : ST World unit :=
  publishInhibitors;; Send EvInhibitorsChanged NoPayload.

(** [setGovernor]: without the error that its caller drops. *)
Definition setGovernor (governor : string) : ST World unit :=
  ok ← ask e_write;
  emit (OGovernor governor ok);;
  when (ok : bool) do (publish "system" [("cpu:governor", governor)];; skip).

Definition onGovernorCommand (governor : string) : ST World unit :=
  when one_of governor ["ondemand"; "powersave"; "performance"] do setGovernor governor.

Definition onPowerStateSent (value : string) : ST World unit :=
  if negb (value =s "suspending") then skip
  else set_flags (λ f, f <| suspendQuiesceAcks := true |>).

(** The buffered channel of capacity one: the newest value wins.  [false] is
    an error. *)
Definition onWakeTimerAckSeconds (value : string) : ST World bool :=
  match ParseUint 32 value with
  | None => mret false
  | Some seconds => set_flags (λ f, f <| wakeTimerAcks := Some seconds |>);; mret true
  end.

(** The callback of the hibernation timer, when the timer calls it. *)
Definition hibernationTimerExpired : ST World unit :=
  Send EvHibernationTimerExpired (PowerCommandPayload TargetHibernateTimer false 0).

(** ** Settings *)

(** [SetTimerValue] may start [onTimer] at once. *)
Definition onHibernationTimerSetting (value : string) : ST World unit :=
  match ParseInt 32 value with
  | None => skip
  | Some v =>
      now ← Now;
      t ← gets htimer;
      let '(t', immediate) := SetTimerValue now v t in
      modify (λ w, w <| htimer := t' |>);;
      when immediate && onTimer t' do hibernationTimerExpired
  end.

Definition onDefaultStateSetting (value : string) : ST World unit :=
  c ← gets cfg;
  if negb (isValidDefaultState value) then skip
  else if DefaultState c =s value then skip
  else
    modify (λ w, w <| cfg := (cfg w) <| DefaultState := value |> |>);;
    if value =s TargetRun then Send EvPowerRun (PowerCommandPayload TargetRun false 0)
    else
      Send EvDefaultStateChanged (PowerCommandPayload value false 0);;
      r ← HGet "vehicle" "state";
      match nonempty r with
      | Some v => Send EvVehicleStateChanged (VehicleStatePayload v)
      | None => skip
      end.

Definition onWakeTimerMaxSecondsSetting (value : string) : ST World unit :=
  match ParseUint 32 value with
  | None => skip
  | Some v => if v <? 60 then skip else set_settings (λ s, s <| wakeTimerMaxSecondsOver := u32 v |>)
  end.

Definition onWakeTimerAckTimeoutSetting (value : string) : ST World unit :=
  match ParseDuration value with
  | None => skip
  | Some d => if d <? Second then skip else set_settings (λ s, s <| wakeTimerAckTimeoutOver := d |>)
  end.

Definition onScheduledHibernateEnabledSetting (value : string) : ST World unit :=
  runScheduler (OSetEnabled (value =s "true")).

Definition onScheduledHibernateCronSetting (value : string) : ST World unit :=
  now ← Now; runScheduler (OSetCron now value).

Definition onScheduledHibernateDurationSetting (value : string) : ST World unit :=
  if value =s "" then runScheduler (OSetDuration 0)
  else match ParseDuration value with
  | None => skip
  | Some d => if (0 <? d) && (d <? Second) then skip else runScheduler (OSetDuration d)
  end.

Definition onLastDitchHibernateEnabledSetting (value : string) : ST World unit :=
  l ← gets ld;
  let '((changed, enabled), l') := setLastDitchHibernateEnabled value l in
  set_ld (λ _, l');;
  if negb changed then skip
  else if (enabled : bool) then sendLastDitchCheck
  else Send EvLastDitchDisabled NoPayload.

Definition onSuspendWhenOnlineSetting (value : string) : ST World unit :=
  set_settings (λ s, s <| suspendWhenOnline := (value =s "true") |>);; sendEligibility.

(** ** Timers *)

(** The closure of the preparation timer, which captured its request. *)
Definition preparationTimerFires : ST World unit :=
  f ← gets flags;
  match hibernatePreparationTimer f with
  | Some id => Send EvHibernatePreparationFailed (HibernatePreparationResult id "vehicle preparation timed out")
  | None => skip
  end.

(** One round of [pollForTimeSync]. *)
Definition checkTimeSync : ST World unit :=
  x ← ask e_exchange;
  boot ← ask e_boot_id;
  match currentClockQuality x boot with
  | None => skip
  | Some q =>
      now ← Now;
      w ← get_st;
      if negb (calendarClockPlausible now (clockFloor w) q) then skip
      else
        b ← bootElapsed;
        match b with
        | None => skip
        | Some b =>
            modify (λ w, w <| guard := mark now b (guard w) |>);;
            n1 ← Now; n2 ← Now; n3 ← Now;
            ok ← clockValid;
            runScheduler (OSync true n1 n2 n3 ok (wakeTimerMaxSeconds w))
        end
  end.

(** ** Everything that runs beside the machine *)

(** The [settings] watcher of [Run]. *)
Definition onSetting (field value : string) : ST World unit :=
  if field =s "pm.hibernation-timer" then onHibernationTimerSetting value
  else if field =s "pm.default-state" then onDefaultStateSetting value
  else if field =s "pm.suspend-when-online" then onSuspendWhenOnlineSetting value
  else if field =s "pm.last-ditch-hibernate-enabled" then onLastDitchHibernateEnabledSetting value
  else if field =s "pm.wake-timer-max-seconds" then onWakeTimerMaxSecondsSetting value
  else if field =s "pm.wake-timer-ack-timeout" then onWakeTimerAckTimeoutSetting value
  else if field =s "pm.scheduled-hibernate-enabled" then onScheduledHibernateEnabledSetting value
  else if field =s "pm.scheduled-hibernate-cron" then onScheduledHibernateCronSetting value
  else if field =s "pm.scheduled-hibernate-duration" then onScheduledHibernateDurationSetting value
  else skip.

(** The field callbacks of the two battery watchers. *)
Definition onBattery (slot field value : string) : ST World unit :=
  if field =s "state" then onBatteryStateChanged slot value
  else if field =s "present" then onBatteryPresentChanged slot value
  else if field =s "charge" then onBatteryChargeChanged slot value
  else skip.

Inductive Handler :=
| HVehicle (state : string)
| HBattery (slot field value : string)
| HCBPresent (v : string)
| HCBCharge (v : string)
| HAux (v : string)
| HPower (command : string)
| HGovernor (governor : string)
| HInhibitors
| HSetting (field value : string)
| HPowerStateSent (value : string)
| HWakeAck (value : string)
| HHibernationTimer
| HPreparationTimer
| HScheduler (o : sched_op)
| HTimeSync
| HLastDitchRecheck
| HDelayRemoval.

(** The scheduler asks for the cap with the callback [maxSeconds]. *)
Definition with_cap (cap : Z) (o : sched_op) : sched_op :=
  match o with
  | OFire now ok _ => OFire now ok cap
  | OVehicle st now ok _ => OVehicle st now ok cap
  | ODispatch now ok _ => ODispatch now ok cap
  | OCatchUp g now ok _ => OCatchUp g now ok cap
  | OSync b n1 n2 n3 ok _ => OSync b n1 n2 n3 ok cap
  | OJump w m n2 n3 n4 ok _ => OJump w m n2 n3 n4 ok cap
  | o => o
  end.

Definition run_handler (h : Handler) : ST World unit :=
  match h with
  | HVehicle s => onVehicleStateChanged s
  | HBattery slot f v => onBattery slot f v
  | HCBPresent v => onCBBatteryPresentChanged v
  | HCBCharge v => onCBBatteryChargeChanged v
  | HAux v => onAuxVoltageChanged v
  | HPower c => onPowerCommand c
  | HGovernor g => onGovernorCommand g
  | HInhibitors => onInhibitorsChanged
  | HSetting f v => onSetting f v
  | HPowerStateSent v => onPowerStateSent v
  | HWakeAck v => onWakeTimerAckSeconds v;; skip
  | HHibernationTimer => hibernationTimerExpired
  | HPreparationTimer => preparationTimerFires
  | HScheduler o => w ← get_st; runScheduler (with_cap (wakeTimerMaxSeconds w) o)
  | HTimeSync => checkTimeSync
  | HLastDitchRecheck => sendLastDitchCheck
  | HDelayRemoval => delayRemovalFires
  end.

(** ** Start-up *)

(** A successful, non-empty reading is applied. *)
Definition seed (hash field : string) (apply : string → ST World unit) : ST World unit :=
  r ← HGet hash field;
  match nonempty r with Some v => apply v | None => skip end.

(** The initial readings of [Run]. *)
Definition seedInputs (buildTimestamp : option string) : ST World unit :=
  modify (λ w, w <| clockFloor := loadBuildTimestamp buildTimestamp |>);;
  seed "vehicle" "state" (λ v,
    set_data (λ d, d <| VehicleState := v |>);;
    set_ld (λ l, l <| lastDitchVehicleStandby := (v =s "stand-by") |>));;
  seed "battery:0" "state" (λ v, set_data (λ d, d <| Battery0State := v |>));;
  seed "battery:1" "state" (λ v, set_data (λ d, d <| Battery1State := v |>));;
  set_data (λ d, if (Battery0State d =s "active") || (Battery1State d =s "active")
                 then d <| BatteryState := "active" |> else d);;
  now ← Now;
  set_ld (λ l, l <| lastDitchGraceUntil := Add now lastDitchHibernateBootGrace |>);;
  seed "battery:0" "present" (λ v, set_ld (λ l, l <| battery0Present := parseBool v |>));;
  seed "battery:1" "present" (λ v, set_ld (λ l, l <| battery1Present := parseBool v |>));;
  now ← Now;
  set_settings (λ s, s <| remoteAccessGraceUntil := Add now remoteAccessConnectGrace |>);;
  seed "battery:0" "charge" (λ v, set_ld (λ l, l <| battery0Charge := parseChargeOrUnknown v |>));;
  seed "battery:1" "charge" (λ v, set_ld (λ l, l <| battery1Charge := parseChargeOrUnknown v |>));;
  seed "cb-battery" "present" (λ v, set_ld (λ l, l <| cbBatteryPresent := parseBool v |>));;
  seed "cb-battery" "charge" (λ v, set_ld (λ l, l <| cbBatteryCharge := parseChargeOrUnknown v |>));;
  seed "aux-battery" "voltage" (λ v, set_ld (λ l, l <| auxVoltageMv := parseNonNegativeInt v |>));;
  seed "settings" "pm.last-ditch-hibernate-enabled" (λ v,
    set_ld (λ l, (setLastDitchHibernateEnabled v l).2));;
  seed "settings" "pm.default-state" (λ v,
    if isValidDefaultState v then
      modify (λ w, w <| cfg := (cfg w) <| DefaultState := v |> |>);;
      set_data (λ d, d <| TargetPowerState := v |>)
    else skip).

(** [readAndClearScheduledHibernateMarker]: the answers of [Stat] ([None] is an
    error other than a missing file) and [Remove]; presence and success. *)
Record MarkerFile := mkMarker { m_stat : option bool; m_removed : bool }.

Definition readAndClearScheduledHibernateMarker (m : MarkerFile) : bool * bool :=
  match m_stat m with
  | None => (false, false)
  | Some false => (false, true)
  | Some true => (true, m_removed m)
  end.

Fixpoint enableWakeupSources (ports : list string) : ST World unit :=
  match ports with
  | [] => skip
  | port :: ports => ok ← ask e_write; emit (OWakeupSource port ok);; enableWakeupSources ports
  end.

(** The scheduler, from its construction to the cooldown of this boot. *)
Definition startScheduler (marker : MarkerFile) : ST World unit :=
  now ← Now;
  modify (λ w, w <| sched := Start now (sched w) |>);;
  let '(present, ok) := readAndClearScheduledHibernateMarker marker in
  when present && ok do
    (now ← Now; modify (λ w, w <| sched := SuppressScheduledFiresFor now FireCooldown (sched w) |>)).

(** From the start of the machine to the first evaluation. *)
Definition startMachine : ST World unit :=
  publishFSMState InitialState;;
  d ← gets data;
  (when negb (VehicleState d =s "ready-to-drive") do resetHibernationTimer true);;
  c ← gets cfg;
  when negb (DefaultState c =s TargetRun) do
    Send EvVehicleStateChanged (VehicleStatePayload (VehicleState d)).

(** [Run] up to the event loop; [false] when it returns an error. *)
Definition startup (buildTimestamp : option string) (marker : MarkerFile) : ST World bool :=
  recoverClockPreparation;;
  ok ← publish "power-manager" [("hibernate-request-id", ""); ("hibernate-status", "idle");
                                ("hibernate-error", "")];
  if negb ok then mret false
  else
    seedInputs buildTimestamp;;
    modify (λ w, w <| htimer := NewTimer (HibernationTimer (cfg w)) |>);;
    startScheduler marker;;
    c ← gets cfg;
    enableWakeupSources (WakeupSources c);;
    startMachine;;
    mret true.

(** What [Run] stops when its context ends: the request's timer and the
    hibernation timer; the connections it closes have no state here. *)
Definition shutdown : ST World unit :=
  stopHibernatePreparationTimer;;
  modify (λ w, w <| htimer := Close (htimer w) |>).
End cron.

(** ** Frames *)

Section handler_frames.
Context `{Cron}.
#[local] Ltac prims := unfold set_ld, set_settings, set_flags, publish, LPush, Send, HGet, emit, ask.

Lemma data_set_ld f : keeps data (set_ld f). Proof. done. Qed.
Lemma data_set_settings f : keeps data (set_settings f). Proof. done. Qed.
Lemma data_set_flags f : keeps data (set_flags f). Proof. done. Qed.
Lemma data_Send i p : keeps data (Send i p). Proof. done. Qed.
Lemma data_publish h l : keeps data (publish h l). Proof. done. Qed.
Lemma data_HGet h f : keeps data (HGet h f). Proof. done. Qed.
Lemma data_ask {A} (f : Env → nat → A) : keeps data (ask f). Proof. done. Qed.
Lemma data_emit o : keeps data (emit o). Proof. done. Qed.
#[local] Hint Resolve data_set_ld data_set_settings data_set_flags data_Send data_publish data_HGet
  data_ask data_emit : frame.

Lemma data_evalLastDitch : keeps data evalLastDitch.
Proof. unfold evalLastDitch, Now. keeps_tac. Qed.
#[local] Hint Resolve data_evalLastDitch : frame.
Lemma data_sendLastDitchCheck : keeps data sendLastDitchCheck.
Proof. unfold sendLastDitchCheck, sendEligibility. keeps_tac. Qed.
Lemma data_fireAll l : keeps data (fireAll l).
Proof. induction l as [|s l IH]; cbn [fireAll]; unfold scheduledFire; keeps_tac. Qed.
#[local] Hint Resolve data_sendLastDitchCheck data_fireAll : frame.
Lemma data_runScheduler o : keeps data (runScheduler o).
Proof. unfold runScheduler, get_st. keeps_tac. Qed.
Lemma data_bootElapsed : keeps data bootElapsed.
Proof. unfold bootElapsed. keeps_tac. Qed.
#[local] Hint Resolve data_bootElapsed : frame.
Lemma data_clockValid : keeps data clockValid.
Proof. unfold clockValid, Now. keeps_tac. Qed.
#[local] Hint Resolve data_runScheduler data_clockValid : frame.

Lemma handlers_data (h : Handler) (w : World) : data (run_handler h w).2 = data w.
Proof.
  revert w. change (keeps data (run_handler h)).
  destruct h; cbn [run_handler];
    unfold onVehicleStateChanged, onBattery, onBatteryStateChanged, onBatteryPresentChanged,
      onBatteryChargeChanged, onCBBatteryPresentChanged, onCBBatteryChargeChanged, onAuxVoltageChanged,
      onPowerCommand, onHibernatePreparationResult, onGovernorCommand, setGovernor, onInhibitorsChanged,
      publishInhibitors, Inhibitors, onSetting, onHibernationTimerSetting, hibernationTimerExpired,
      onDefaultStateSetting, onSuspendWhenOnlineSetting, onLastDitchHibernateEnabledSetting,
      onWakeTimerMaxSecondsSetting, onWakeTimerAckTimeoutSetting, onScheduledHibernateEnabledSetting,
      onScheduledHibernateCronSetting, onScheduledHibernateDurationSetting, onPowerStateSent,
      onWakeTimerAckSeconds, preparationTimerFires, checkTimeSync, delayRemovalFires, sendEligibility,
      get_st, Now; keeps_tac.
Qed.
End handler_frames.
