(* ===== verification/HandlerFacts.v ===== *)
(** * What the watchers send

    Every event that reaches the machine's queue is well formed, whatever text
    Redis delivers. *)

From S2P Require Import Prelude GoInt GoTime GoDuration HibTimer Scheduler SchedulerFacts Fsm.
From S2P Require Import Inhibitor LastDitch GoFloat ClockProto Systemd ClockClient SvcState.
From S2P Require Import SvcGuards SvcActions Issuing SvcFacts IssuingFacts ClockGuard Handlers.

Section facts.
Context `{Cron}.
Context (b : bool).
Local Abbreviation Q := (obs_ok b).

Lemma emits_set_settings f : emits Q (set_settings f).
Proof. by apply emits_silent. Qed.
Lemma emits_modify_cfg f : emits Q (modify (λ w, w <| cfg := f w |>)).
Proof. by apply emits_silent. Qed.
Lemma emits_evalLastDitch : emits Q evalLastDitch.
Proof. unfold evalLastDitch, Now. emits_tac. Qed.
#[local] Hint Resolve emits_set_settings emits_evalLastDitch : frame.
Lemma emits_sendLastDitchCheck : emits Q sendLastDitchCheck.
Proof. unfold sendLastDitchCheck, sendEligibility. emits_tac. Qed.
Lemma emits_fireAll l : emits Q (fireAll l).
Proof. induction l as [|s l IH]; cbn [fireAll]; unfold scheduledFire; emits_tac. Qed.
#[local] Hint Resolve emits_sendLastDitchCheck emits_fireAll : frame.
Lemma emits_runScheduler o : emits Q (runScheduler o).
Proof. unfold runScheduler, get_st. emits_tac. Qed.
Lemma emits_bootElapsed : emits Q bootElapsed.
Proof. unfold bootElapsed. emits_tac. Qed.
#[local] Hint Resolve emits_bootElapsed : frame.
Lemma emits_clockValid : emits Q clockValid.
Proof. unfold clockValid, Now. emits_tac. Qed.
#[local] Hint Resolve emits_runScheduler emits_clockValid : frame.

Lemma commandEvent_wf command id target :
  commandEvent command = Some (id, target) →
  Q (OSend (mkEvent id (PowerCommandPayload target (bool_decide (id = EvExplicitHibernate)) 0))) = true.
Proof.
  unfold commandEvent. repeat (split_if; [intros [= <- <-]; bools|]); try done;
    match goal with Hc : (command =s _) = true |- _ => apply streq_true in Hc as -> end; done.
Qed.
#[local] Hint Resolve commandEvent_wf : frame.

Lemma commandEvent_untimed command id target :
  commandEvent command = Some (id, target) → (target =s TargetHibernateFor) = false.
Proof.
  unfold commandEvent. repeat (split_if; [intros [= <- <-]|]); try done;
    match goal with Hc : (command =s _) = true |- _ => apply streq_true in Hc as -> end; done.
Qed.

Lemma emits_onPowerCommand command : emits Q (onPowerCommand command).
Proof.
  unfold onPowerCommand, onHibernatePreparationResult, get_st.
  destruct (CutPrefix command "hibernate-preparation-failed:"); [emits_tac|].
  destruct (CutPrefix command "hibernate-for:"); [emits_tac|].
  destruct (command =s "hibernate-cancel"); [emits_tac|].
  destruct (commandEvent command) as [[id target]|] eqn:E; [|emits_tac].
  apply emits_emit. by apply commandEvent_wf in E.
Qed.

Lemma defaultState_wf value :
  isValidDefaultState value = true → (value =s TargetRun) = false →
  Q (OSend (mkEvent EvDefaultStateChanged (PowerCommandPayload value false 0))) = true.
Proof.
  unfold isValidDefaultState, one_of. cbn. intros H1 H2.
  destruct (value =s TargetRun); [done|]. cbn in H1. by rewrite H1.
Qed.

Lemma emits_onDefaultState value : emits Q (onDefaultStateSetting value).
Proof.
  unfold onDefaultStateSetting. apply emits_bind; [apply emits_gets|]. intros c.
  destruct (isValidDefaultState value) eqn:E1; cbn [negb]; cbv iota; [|emits_tac].
  destruct (_ =s _); [emits_tac|]. apply emits_bind; [by apply emits_silent|]. intros _.
  destruct (value =s TargetRun) eqn:E2; [emits_tac|].
  apply emits_bind; [apply emits_emit; by apply defaultState_wf|]. intros _. emits_tac.
Qed.
#[local] Hint Resolve emits_onPowerCommand emits_onDefaultState : frame.

(** Whatever runs beside the machine sends only well-formed events and never
    commands logind. *)
Lemma run_handler_emits h : emits Q (run_handler h).
Proof.
  destruct h; cbn [run_handler]; try solve [auto with frame nocore];
    unfold onVehicleStateChanged, onBattery, onBatteryStateChanged, onBatteryPresentChanged,
      onBatteryChargeChanged, onCBBatteryPresentChanged, onCBBatteryChargeChanged, onAuxVoltageChanged,
      onGovernorCommand, setGovernor, onInhibitorsChanged, publishInhibitors, Inhibitors, onSetting,
      onHibernationTimerSetting, hibernationTimerExpired,
      onSuspendWhenOnlineSetting, onLastDitchHibernateEnabledSetting,
      onWakeTimerMaxSecondsSetting, onWakeTimerAckTimeoutSetting, onScheduledHibernateEnabledSetting,
      onScheduledHibernateCronSetting, onScheduledHibernateDurationSetting, onPowerStateSent,
      onWakeTimerAckSeconds, preparationTimerFires, checkTimeSync, delayRemovalFires, sendEligibility,
      get_st, Now; emits_tac.
Qed.

Lemma emits_seed h f k : (∀ v, emits Q (k v)) → emits Q (seed h f k).
Proof. intros Hk. unfold seed. emits_tac. Qed.

Lemma emits_wakeupSources ports : emits Q (enableWakeupSources ports).
Proof. induction ports as [|p ports IH]; cbn [enableWakeupSources]; emits_tac. Qed.
#[local] Hint Resolve emits_wakeupSources : frame.

Lemma startup_emits ts m : emits Q (startup ts m).
Proof.
  unfold startup, startScheduler, startMachine, seedInputs, publishFSMState, resetHibernationTimer, Now.
  repeat first [apply emits_seed; intros ? | emits_step];
    try solve [by apply emits_silent | apply emits_recover, obs_ok_lenient | auto with frame nocore | reflexivity].
Qed.
End facts.

(** ** Power commands *)

Definition is_send (o : Obs) : bool := match o with OSend _ => true | _ => false end.
Definition sends (l : list Obs) : list Obs := List.filter is_send l.

Lemma ParseUint_u32 raw v : ParseUint 32 raw = Some v → is_u32 v.
Proof. intros H. apply ParseUint_range in H. unfold is_u32. lia. Qed.

Lemma hibernateForSeconds_range raw max secs :
  1 ≤ max → hibernateForSeconds raw max = Some secs → 1 ≤ secs ≤ max ∧ is_u32 secs.
Proof.
  intros Hm. unfold hibernateForSeconds. destruct (ParseUint 32 raw) as [v|] eqn:E; [|done].
  apply ParseUint_u32 in E. unfold is_u32 in *. destruct (Z.eqb_spec v 0); [done|].
  intros [= <-]. destruct (Z.ltb_spec max v); lia.
Qed.

(** C31: any text on the power-command list yields at most one event, and a
    well-formed one; a timed hibernation it requests is explicit and lasts
    between one second and the cap in force; commands that are not understood
    (or ask for zero seconds, or more than 32 bits) send nothing. *)
Theorem onPowerCommand_spec (command : string) (w : World) :
  1 ≤ wakeTimerMaxSeconds w →
  let w' := (onPowerCommand command w).2 in
  (length (sends (since w w')) ≤ 1)%nat ∧
  (∀ e, OSend e ∈ since w w' → wf_event e = true) ∧
  (∀ id t x secs, OSend (mkEvent id (PowerCommandPayload t x secs)) ∈ since w w' →
     if t =s TargetHibernateFor then id = EvExplicitHibernate ∧ x = true ∧ 1 ≤ secs ≤ wakeTimerMaxSeconds w
     else secs = 0).
Proof.
  intros Hmax w'.
  assert (Hs : ∃ l, adds (obs_ok false) w w' l ∧ (length (sends l) ≤ 1)%nat ∧
    ∀ id t x secs, OSend (mkEvent id (PowerCommandPayload t x secs)) ∈ l →
     if t =s TargetHibernateFor then id = EvExplicitHibernate ∧ x = true ∧ 1 ≤ secs ≤ wakeTimerMaxSeconds w
     else secs = 0).
  { pose proof (emits_onPowerCommand false command w) as [l [Hl Fl]]. exists l. split; [done|].
    revert Hl. unfold onPowerCommand, onHibernatePreparationResult, publish, Send, emit, modify, ask.
    destruct (CutPrefix command "hibernate-preparation-failed:").
    { destruct (Cut _ 58) as [[id reason]|]; cbn; intros Hl;
        [apply app_inv_head in Hl as <-|rewrite <- (app_nil_r (trace w)) in Hl at 1; apply app_inv_head in Hl as <-].
      - split; [done|]. intros ???? Hin%list_elem_of_singleton. done.
      - split; [cbn; lia|]. intros ???? Hin%elem_of_nil. done. }
    destruct (CutPrefix command "hibernate-for:") as [raw|].
    { rewrite get_st_bind. destruct (hibernateForSeconds raw _) as [secs|] eqn:Es; cbn; intros Hl;
        [apply app_inv_head in Hl as <-|rewrite <- (app_nil_r (trace w)) in Hl at 1; apply app_inv_head in Hl as <-].
      - apply hibernateForSeconds_range in Es as [Hr Hu]; [|done].
        split; [done|]. intros ???? Hin%list_elem_of_singleton. injection Hin as -> -> -> ->.
        by rewrite (u32_id secs Hu).
      - split; [cbn; lia|]. intros ???? Hin%elem_of_nil. done. }
    destruct (command =s "hibernate-cancel").
    { unfold mbind, ST_bind, mret, ST_ret. cbn. rewrite <- app_assoc. intros Hl. apply app_inv_head in Hl as <-. split; [done|].
      intros ???? Hin. cbn in Hin. apply elem_of_cons in Hin as [Hin|Hin%list_elem_of_singleton]; [done|].
      injection Hin as -> -> -> ->. done. }
    destruct (commandEvent command) as [[id target]|] eqn:E; cbn; intros Hl;
      [apply app_inv_head in Hl as <-|rewrite <- (app_nil_r (trace w)) in Hl at 1; apply app_inv_head in Hl as <-].
    - split; [done|]. intros ???? Hin%list_elem_of_singleton. injection Hin as -> -> -> ->.
      by rewrite (commandEvent_untimed _ _ _ E).
    - split; [cbn; lia|]. intros ???? Hin%elem_of_nil. done. }
  destruct Hs as (l & Hl & H1 & H2). rewrite (since_adds _ _ _ _ Hl). split; [done|]. split; [|done].
  intros e He. destruct Hl as [_ Hf]. rewrite Forall_forall in Hf. by apply Hf in He.
Qed.

Lemma onPowerCommand_spec_witness :
  let w := sampleService (λ _ _, None) in
  let w' := (onPowerCommand "hibernate-for:99999999" w).2 in
  since w w' = [OSend (mkEvent EvExplicitHibernate (PowerCommandPayload TargetHibernateFor true 604800))] ∧
  (length (sends (since w w')) ≤ 1)%nat.
Proof.
  intros w w'. split; [vm_compute; reflexivity|].
  apply (onPowerCommand_spec "hibernate-for:99999999" w). vm_compute. discriminate.
Defined.
