(* ===== verification/Machine.v ===== *)
(** * The service as a state machine

    [librefsm] delivers an event to the table of [internal/fsm/definition.go]
    and calls the service back.  The library is third-party: it is the class
    [LibreFSM], whose law is its documented rule.  The transitions of the
    current state for the event are tried in declaration order, the guards of
    one from left to right, and the first whose guards all hold is taken: exit
    action, transition action, entry action of the destination; without one
    the event is dropped.  Two points the service does not depend on are left
    open: whether a self-transition runs exit and entry actions, and whether
    the state-change callback comes before or after the entry action. *)

From S2P Require Import Prelude GoInt GoTime GoDuration HibTimer Scheduler SchedulerFacts Fsm.
From S2P Require Import Inhibitor LastDitch GoFloat ClockProto Systemd ClockClient SvcState.
From S2P Require Import SvcGuards SvcActions Issuing SvcFacts IssuingFacts ClockGuard Handlers.

(** ** Delivery *)

Fixpoint guards_pass (gs : list Guard) (c : Payload) : ST World bool :=
  match gs with
  | [] => mret true
  | g :: gs =>
      b ← eval_guard g c;
      if (b : bool) then guards_pass gs c else mret false
  end.

Fixpoint first_enabled (ts : list Transition) (c : Payload) : ST World (option Transition) :=
  match ts with
  | [] => mret None
  | t :: ts =>
      b ← guards_pass (guards t) c;
      if (b : bool) then mret (Some t) else first_enabled ts c
  end.

Record Policy := mkPolicy { reenters : bool; notifyFirst : bool }.

Definition enter (s : StateID) (c : Payload) : ST World unit :=
  match onEnter (state_decl 0 0 s) with Some en => run_entry en c | None => skip end.

Definition leave (s : StateID) : ST World unit :=
  when hasExit (state_decl 0 0 s) do ExitIssuingLowPower'.

Definition act (a : option Action) (c : Payload) : ST World unit :=
  match a with Some a => run_action a c | None => skip end.

(** Taking a transition. *)
Definition take_transition (p : Policy) (t : Transition) (c : Payload) : ST World StateID :=
  let moves := negb (bool_decide (src t = dst t)) || reenters p in
  (when moves do leave (src t));;
  act (action t) c;;
  (when notifyFirst p do publishFSMState (dst t));;
  (when moves do enter (dst t) c);;
  (when negb (notifyFirst p) do publishFSMState (dst t));;
  mret (dst t).

Definition deliver_spec (p : Policy) (s : StateID) (e : Event) : ST World StateID :=
  r ← first_enabled (candidates s (evID e)) (evPayload e);
  match r with
  | None => mret s
  | Some t => take_transition p t (evPayload e)
  end.

Class LibreFSM := {
  deliver : StateID → Event → ST World StateID;
  fsm_policy : Policy;
  deliver_law : ∀ s e w, deliver s e w = deliver_spec fsm_policy s e w;
}.

(** The law can hold. *)
Definition specFSM (p : Policy) : LibreFSM :=
  {| deliver := deliver_spec p; fsm_policy := p; deliver_law := λ _ _ _, eq_refl |}.

(** ** Runs *)

(** The timeout of a state delivers its event without a payload. *)
Definition timeout_event (c : Config) (s : StateID) (e : Event) : Prop :=
  ∃ d, timeout (state_decl (PreSuspendDelay c) (SuspendImminentDelay c) s) = Some (d, evID e) ∧
       evPayload e = NoPayload.

Section machine.
Context `{Cron} `{LibreFSM}.

(** A step delivers an event that was sent before (the queue may reorder,
    repeat or drop) or a timeout of the current state, or runs one of the
    callbacks beside the machine. *)
Inductive mstep : StateID * World → StateID * World → Prop :=
| step_event s w e s' w' :
    OSend e ∈ trace w ∨ timeout_event (cfg w) s e →
    deliver s e w = (s', w') →
    mstep (s, w) (s', w')
| step_handler s w h u w' :
    run_handler h w = (u, w') →
    mstep (s, w) (s, w').

Inductive reachable : StateID * World → Prop :=
| reach_start c cl e ts m w' :
    startup ts m (newService c cl e) = (true, w') →
    reachable (InitialState, w')
| reach_step m m' : reachable m → mstep m m' → reachable m'.
End machine.
