(* ===== verification/Runs.v ===== *)
(** * Executable runs

    A simulator for the machine of [Machine]: a script of deliveries, timeouts
    and callbacks is executed step by step, and every state it passes through
    is [reachable].  Concrete runs in the development are scripts. *)

From S2P Require Import Prelude GoInt GoTime HibTimer Scheduler Fsm Inhibitor LastDitch GoFloat.
From S2P Require Import ClockProto Systemd ClockClient SvcState SvcGuards SvcActions Issuing.
From S2P Require Import SvcFacts IssuingFacts ClockGuard Handlers Machine.

Section runs.
Context `{Cron} `{LibreFSM}.

Inductive Cmd :=
| Deliver (n : nat)      (* the [n]-th event sent so far, from 0 *)
| DeliverLast            (* the event sent last *)
| Elapse                 (* the timeout of the current state *)
| Beside (h : Handler).  (* a callback beside the machine *)

Definition deliver_to (m : StateID * World) (e : option Event) : StateID * World :=
  match e with Some e => deliver m.1 e m.2 | None => m end.

Definition timeout_of (m : StateID * World) : option Event :=
  match timeout (state_decl (PreSuspendDelay (cfg m.2)) (SuspendImminentDelay (cfg m.2)) m.1) with
  | Some (_, id) => Some (mkEvent id NoPayload)
  | None => None
  end.

Definition exec1 (m : StateID * World) (c : Cmd) : StateID * World :=
  match c with
  | Deliver n => deliver_to m (sent (trace m.2) !! n)
  | DeliverLast => deliver_to m (last (sent (trace m.2)))
  | Elapse => deliver_to m (timeout_of m)
  | Beside h => (m.1, (run_handler h m.2).2)
  end.

Definition exec (script : list Cmd) (m : StateID * World) : StateID * World := fold_left exec1 script m.

Lemma exec1_mstep m c : exec1 m c = m ∨ mstep m (exec1 m c).
Proof.
  destruct m as [s w]. assert (Hd : ∀ e, OSend e ∈ trace w ∨ timeout_event (cfg w) s e →
    mstep (s, w) (deliver s e w)).
  { intros e He. destruct (deliver s e w) as [s' w'] eqn:E. by econstructor. }
  destruct c as [n| | |h]; cbn.
  - destruct (sent (trace w) !! n) as [e|] eqn:E; [|by left]. right. apply Hd. left.
    by eapply sent_elem, list_elem_of_lookup_2.
  - destruct (last (sent (trace w))) as [e|] eqn:E; [|by left]. right. apply Hd. left.
    rewrite last_lookup in E. by eapply sent_elem, list_elem_of_lookup_2.
  - unfold timeout_of; cbn [fst snd]. destruct (timeout _) as [[d id]|] eqn:E; [|by left].
    right. apply Hd. right. by exists d.
  - right. destruct (run_handler h w) as [u w'] eqn:E. by econstructor.
Qed.

Lemma exec1_reachable m c : reachable m → reachable (exec1 m c).
Proof. destruct (exec1_mstep m c) as [-> |]; [done|]. by econstructor. Qed.

Lemma exec_reachable script m : reachable m → reachable (exec script m).
Proof. unfold exec. revert m. induction script; cbn; auto using exec1_reachable. Qed.

Lemma exec_rtc script m : rtc mstep m (exec script m).
Proof.
  unfold exec. revert m. induction script as [|c script IH]; cbn; intros m; [apply rtc_refl|].
  destruct (exec1_mstep m c) as [E|E]; [rewrite E; apply IH|]. eapply rtc_l; [exact E|apply IH].
Qed.

(** No marker was left behind. *)
Definition noMarker : MarkerFile := mkMarker (Some false) true.

(** A run from a start-up without a build timestamp or a marker. *)
Definition start (w : World) : StateID * World := (InitialState, (startup None noMarker w).2).

Lemma start_reachable c cl e :
  (startup None noMarker (newService c cl e)).1 = true → reachable (start (newService c cl e)).
Proof.
  intros E. unfold start. destruct (startup _ _ _) as [ok w'] eqn:Es. cbn in E. subst ok.
  by eapply reach_start.
Qed.
End runs.

(** ** Sample worlds *)

(** A cron library without a schedule. *)
Definition noCron : Cron := Build_Cron unit (λ _, None) (λ _ t, t) (λ _, false).
Definition sampleFSM : LibreFSM := specFSM (mkPolicy true true).

(** The service of [sleepyEnv]: a vehicle in stand-by, no battery, no
    inhibitor, a coordinator that grants a preparation. *)
Definition sleepyStart : StateID * World := start (newService newConfig (mkClient true true) sleepyEnv).

(** From start-up to the inhibitor gate: the default state is suspend, and the
    two countdowns elapse. *)
Definition suspendScript : list (Cmd) := [DeliverLast; Elapse; Elapse].
Definition suspendRun : StateID * World := @exec noCron sampleFSM suspendScript sleepyStart.

(** The run stopped inside the second countdown. *)
Definition countdownRun : StateID * World := @exec noCron sampleFSM [DeliverLast; Elapse] sleepyStart.

(** The same for an automatic hibernation command. *)
Definition hibernateScript : list (Cmd) := [Beside (HPower "hibernate-auto"); DeliverLast; Elapse].
Definition hibernateRun : StateID * World := @exec noCron sampleFSM hibernateScript sleepyStart.

Lemma sleepyStart_reachable : @reachable noCron sampleFSM sleepyStart.
Proof. apply start_reachable. vm_compute. reflexivity. Qed.

Lemma suspendRun_reachable : @reachable noCron sampleFSM suspendRun.
Proof. apply exec_reachable, sleepyStart_reachable. Qed.

Lemma hibernateRun_reachable : @reachable noCron sampleFSM hibernateRun.
Proof. apply exec_reachable, sleepyStart_reachable. Qed.

Lemma countdownRun_reachable : @reachable noCron sampleFSM countdownRun.
Proof. apply exec_reachable, sleepyStart_reachable. Qed.

(** The last event of a run is delivered. *)
Definition issue (m : StateID * World) : StateID * World := @exec1 noCron sampleFSM m DeliverLast.

Lemma issue_mstep m : (issue m).1 ≠ m.1 → @mstep noCron sampleFSM m (issue m).
Proof. intros Hn. destruct (@exec1_mstep noCron sampleFSM m DeliverLast) as [E|E]; [|exact E]. unfold issue in Hn. by rewrite E in Hn. Qed.
