(* ===== verification/MachineFacts.v ===== *)
(** * Invariants and safety of the machine

    What holds in every reachable state, whatever the environment answers and
    in whatever order events and callbacks arrive. *)

From S2P Require Import Prelude GoInt GoTime GoDuration HibTimer Scheduler SchedulerFacts Fsm.
From S2P Require Import Inhibitor LastDitch GoFloat ClockProto Systemd ClockClient SvcState.
From S2P Require Import SvcGuards SvcActions Issuing SvcFacts IssuingFacts ClockGuard Handlers.
From S2P Require Import HandlerFacts Machine Runs.

(** ** Guards *)

Lemma guards_pass_core gs c : keeps core (guards_pass gs c).
Proof. induction gs as [|g gs IH]; cbn [guards_pass]; keeps_tac. Qed.

Lemma guards_pass_true gs c w w' g :
  guards_pass gs c w = (true, w') → g ∈ gs →
  ∃ w1 w2, eval_guard g c w1 = (true, w2) ∧ core w1 = core w.
Proof.
  revert w. induction gs as [|g0 gs IH]; intros w Hg Hin; [by apply elem_of_nil in Hin|].
  cbn [guards_pass] in Hg. minv Hg. destruct a; minv Hg; [|done].
  apply (keeps_inv core) in E as Hc; [|apply eval_guard_core].
  apply elem_of_cons in Hin as [->|Hin]; [eauto|].
  destruct (IH _ Hg Hin) as (w1 & w2 & He & Hw). exists w1, w2. split; [done|congruence].
Qed.

Lemma first_enabled_core ts c : keeps core (first_enabled ts c).
Proof. induction ts as [|t ts IH]; cbn [first_enabled]; keeps_tac. apply guards_pass_core. Qed.

(** A transition that is taken comes from the table and all its guards held in
    a state with the same core. *)
Lemma first_enabled_some ts c w t w' :
  first_enabled ts c w = (Some t, w') →
  t ∈ ts ∧ ∀ g, g ∈ guards t → ∃ w1 w2, eval_guard g c w1 = (true, w2) ∧ core w1 = core w.
Proof.
  revert w. induction ts as [|t0 ts IH]; intros w Hf; cbn [first_enabled] in Hf; minv Hf; [done|].
  destruct a; minv Hf.
  - injection Hf as -> <-. split; [by left|]. intros g Hg. by eapply guards_pass_true.
  - apply (keeps_inv core) in E; [|apply guards_pass_core]. destruct (IH _ Hf) as [Hin Hg].
    split; [by right|]. intros g Hg'. destruct (Hg g Hg') as (w1 & w2 & He & Hw).
    exists w1, w2. split; [done|congruence].
Qed.

Lemma emits_guards_pass Q gs c : lenient Q → emits Q (guards_pass gs c).
Proof. intros HQ. induction gs as [|g gs IH]; cbn [guards_pass]; emits_tac. Qed.
Lemma emits_first_enabled Q ts c : lenient Q → emits Q (first_enabled ts c).
Proof.
  intros HQ. pose proof (emits_guards_pass Q). induction ts as [|t ts IH]; cbn [first_enabled]; emits_tac.
Qed.

(** ** What the guards imply *)

Lemma CanEnter_true c w w' :
  CanEnterLowPowerState' c w = (true, w') →
  let target := targetPowerStateFromContext c (data w) in
  let vehicle := vehicleStateFromContext c (data w) in
  target ≠ TargetRun ∧
  (vehicle = "stand-by" ∨ (target = TargetReboot ∧ vehicle = "shutting-down")).
Proof.
  intros Hc. unfold CanEnterLowPowerState' in Hc. minv Hc. cbv zeta in Hc |- *.
  destruct (String.eqb_spec (targetPowerStateFromContext c (data w)) TargetRun); minv Hc; [done|].
  split; [done|].
  destruct (String.eqb_spec (targetPowerStateFromContext c (data w)) TargetReboot); minv Hc.
  - injection Hc as Hc _. rewrite negb_true_iff, andb_false_iff, !negb_false_iff, !streq_true in Hc.
    destruct Hc; auto.
  - destruct (String.eqb_spec (vehicleStateFromContext c (data w)) "stand-by"); [auto|].
    cbn [negb] in Hc. minv Hc. done.
Qed.

(** The part of the data the invariants speak about. *)
Definition tva (w : World) := (TargetPowerState (data w), VehicleState (data w), AutomaticLastDitch (data w)).

Lemma core_tva w w' : core w' = core w → tva w' = tva w.
Proof. intros H. injection H as _ H _ _ _ _ _ _ _. unfold tva. by rewrite H. Qed.

(** ** What the actions do to it *)

Section tva.
Lemma tva_core {A} (m : ST World A) : keeps core m → keeps tva m.
Proof. intros H w. apply core_tva, H. Qed.

Lemma tva_HGet h f : keeps tva (HGet h f). Proof. done. Qed.
Lemma tva_publish h l : keeps tva (publish h l). Proof. done. Qed.
Lemma tva_setStatus s r : keeps tva (setHibernateStatus s r). Proof. done. Qed.
Lemma tva_Send i p : keeps tva (Send i p). Proof. done. Qed.
Lemma tva_ask {A} (f : Env → nat → A) : keeps tva (ask f). Proof. done. Qed.
Lemma tva_emit o : keeps tva (emit o). Proof. done. Qed.
Lemma tva_HasBlocking t : keeps tva (HasBlocking t). Proof. done. Qed.
Lemma tva_set_flags f : keeps tva (set_flags f). Proof. done. Qed.
Lemma tva_set_ld f : keeps tva (set_ld f). Proof. done. Qed.
Lemma tva_setIssued b : keeps tva (setIssued b). Proof. done. Qed.
Lemma tva_coordinator r : keeps tva (coordinator r). Proof. done. Qed.
Lemma tva_publishFSM s : keeps tva (publishFSMState s). Proof. done. Qed.
#[local] Hint Resolve tva_HGet tva_publish tva_setStatus tva_Send tva_ask tva_emit tva_HasBlocking
  tva_set_flags tva_set_ld tva_setIssued tva_coordinator : frame.

Lemma tva_enableModem : keeps tva enableModem.
Proof. unfold enableModem, pushModemCommand, LPush. keeps_tac. Qed.
Lemma tva_disableModem : keeps tva disableModem.
Proof. unfold disableModem, pushModemCommand, LPush. keeps_tac. Qed.
Lemma tva_clearRequest s r : keeps tva (clearHibernateRequest s r).
Proof. unfold clearHibernateRequest, stopHibernatePreparationTimer, get_st. keeps_tac. Qed.
Lemma tva_follow o n : keeps tva (followReadyToDrive o n).
Proof. unfold followReadyToDrive, resetHibernationTimer, Now. keeps_tac. Qed.
Lemma tva_prepare s : keeps tva (prepareExplicitHibernate s).
Proof. unfold prepareExplicitHibernate, LPush. keeps_tac. Qed.
Lemma tva_ShouldCancel c : keeps tva (ShouldCancelLowPower' c).
Proof. apply tva_core, core_ShouldCancel. Qed.
#[local] Hint Resolve tva_enableModem tva_disableModem tva_clearRequest tva_follow tva_prepare
  tva_ShouldCancel : frame.

Lemma tva_OnWakeup c : keeps tva (OnWakeup' c).
Proof. unfold OnWakeup', publishWakeupSource, publishState. keeps_tac. Qed.
Lemma tva_OnBattery c : keeps tva (OnBatteryStateChanged' c).
Proof.
  unfold OnBatteryStateChanged'. keeps_tac. intros w. unfold batteryUpdate, tva. cbn.
  by repeat split_if.
Qed.
Lemma tva_cancel c : keeps tva (cancelIneligibleLowPower c).
Proof. unfold cancelIneligibleLowPower. keeps_tac. Qed.
#[local] Hint Resolve tva_cancel : frame.
Lemma tva_EnterLPI : keeps tva EnterLowPowerImminent'.
Proof. unfold EnterLowPowerImminent'. keeps_tac. Qed.
Lemma tva_onlyModem t : keeps tva (hasOnlyModemBlockingInhibitors t).
Proof. done. Qed.
#[local] Hint Resolve tva_onlyModem : frame.
Lemma tva_EnterWaiting c : keeps tva (EnterWaitingInhibitors' c).
Proof. unfold EnterWaitingInhibitors'. keeps_tac. Qed.

Lemma tva_refreshBattery : keeps tva refreshBatteryStateFromRedis.
Proof.
  unfold refreshBatteryStateFromRedis. keeps_tac. intros w. unfold tva. cbn. by repeat split_if.
Qed.
Lemma tva_telemetry n a x d : keeps tva (telemetry_loop n a x d).
Proof. revert a x d. induction n as [|n IH]; intros; cbn [telemetry_loop]; unfold Now; keeps_tac. Qed.
#[local] Hint Resolve tva_refreshBattery tva_telemetry : frame.
Lemma tva_handleWakeup : keeps tva handleWakeupAfterSuspend.
Proof.
  unfold handleWakeupAfterSuspend, awaitFreshTelemetryForLastDitch, restoreDelayInhibitor, get_st, Now.
  keeps_tac.
Qed.
Lemma tva_awaitWake : keeps tva awaitWakeSource.
Proof. unfold awaitWakeSource, waitForWakeTimer, SendRun, setArmed, get_st. keeps_tac. Qed.
Lemma tva_abort : keeps tva abortToRun.
Proof. unfold abortToRun, SendRun. keeps_tac. Qed.
Lemma tva_liveVehicle : keeps tva liveVehicleInStandby.
Proof. apply tva_core, core_liveVehicle. Qed.
Lemma tva_recover : keeps tva recoverClockPreparation.
Proof. apply tva_core, core_recover. Qed.
#[local] Hint Resolve tva_handleWakeup tva_awaitWake tva_abort tva_liveVehicle tva_recover : frame.
Lemma tva_EnterIssuing c : keeps tva (EnterIssuingLowPower' c).
Proof.
  unfold EnterIssuingLowPower', issueCommand, announceSuspend, commitSuspend, commitPoweroff, admitSuspend,
    get_st. keeps_tac.
Qed.

(** No entry action changes the target, the vehicle state or the
    provenance. *)
Lemma tva_run_entry en c : keeps tva (run_entry en c).
Proof.
  destruct en; cbn [run_entry]; try done; auto using tva_EnterLPI, tva_EnterWaiting.
  apply keeps_bind; [apply tva_EnterIssuing|done].
Qed.
End tva.
#[export] Hint Resolve tva_enableModem tva_disableModem tva_clearRequest tva_follow tva_prepare tva_publish
  tva_setStatus tva_Send tva_HGet tva_OnWakeup tva_OnBattery tva_run_entry tva_publishFSM : frame.

(** ** The actions that do change it *)

Lemma setTarget_tva t w u w' : setTarget t w = (u, w') → tva w' = (t, (tva w).1.2, (tva w).2).
Proof. intros H. by injection H as _ <-. Qed.
Lemma clearAuto_tva w u w' : clearAutomaticLastDitch w = (u, w') → tva w' = ((tva w).1, false).
Proof. intros H. by injection H as _ <-. Qed.

Lemma tva_setWake n : keeps tva (setWakeSeconds n). Proof. done. Qed.
Lemma tva_setArmed b : keeps tva (setArmed b). Proof. done. Qed.
#[export] Hint Resolve tva_setWake tva_setArmed tva_setIssued tva_set_flags : frame.

(** Turn every run of a [tva]-preserving step into an equation. *)
Ltac tva_steps :=
  repeat match goal with
  | E : setTarget _ _ = _ |- _ => apply setTarget_tva in E
  | E : clearAutomaticLastDitch _ = _ |- _ => apply clearAuto_tva in E
  | E : ?m ?w = (?a, ?w') |- _ =>
      lazymatch type of w with World =>
        apply (keeps_inv tva) in E; [|solve [keeps_tac]] end
  end.

Lemma acceptCommand_tva t n w u w' :
  acceptCommand t n w = (u, w') → tva w' = (t, VehicleState (data w), false).
Proof. intros H. unfold acceptCommand in H. minv H. tva_steps. by rewrite H, E3, E2, E1, E0, E. Qed.

Lemma resetToDefault_tva w u w' :
  resetToDefault w = (u, w') → tva w' = (DefaultState (cfg w), VehicleState (data w), false).
Proof. intros H. unfold resetToDefault in H. minv H. tva_steps. by rewrite H, E0, E. Qed.

Lemma tva_explicit t : keeps tva (explicitHibernateState t).
Proof. apply tva_core, core_explicit. Qed.
#[export] Hint Resolve tva_explicit : frame.

(** A command that is not explicit sets its target; an explicit one sets it,
    or falls back to run. *)
Lemma OnPowerCommand_tva t x n w u w' :
  OnPowerCommand' (PowerCommandPayload t x n) w = (u, w') →
  if x then (tva w').1.1 = t ∧ (tva w').2 = false ∨
            (tva w').1.1 = TargetRun ∧ ((tva w').2 = false ∨ (tva w').2 = (tva w).2)
  else tva w' = (t, VehicleState (data w), false).
Proof.
  intros H. unfold OnPowerCommand' in H. destruct x; [|by apply acceptCommand_tva in H].
  minv H. destruct a as [err|st]; minv H.
  - tva_steps. right. rewrite H, E1, E0, E. auto.
  - apply acceptCommand_tva in E0. injection E1 as _ E1.
    assert (T2 : (tva w2).1.1 = t ∧ (tva w2).2 = false).
    { rewrite <- E1. unfold tva in E0 |- *. cbn. by injection E0 as -> _ ->. }
    apply (keeps_inv tva) in E2; [|auto with frame]. destruct a1 as [e|]; minv H.
    + tva_steps. right. rewrite H, E3, E2. destruct T2. auto.
    + left. assert (tva w' = tva w3) as ->; [|by rewrite E2].
      apply (keeps_inv tva) in H; [done|]. destruct (_ =s _); [done|apply keeps_skip].
Qed.

Lemma OnVehicleState_tva s w u w' :
  OnVehicleStateChanged' (VehicleStatePayload s) w = (u, w') →
  (tva w').1.2 = s ∧
  (s = "stand-by" → tva w' = ((tva w).1.1, s, (tva w).2)) ∧
  ((tva w').2 = false ∨ (tva w').2 = (tva w).2 ∧ ((tva w').1.1 = (tva w).1.1 ∨ (tva w').1.1 = TargetRun)).
Proof.
  intros H. unfold OnVehicleStateChanged' in H. cbv zeta in H. minv H.
  assert (T0 : tva w0 = ((tva w).1.1, s, (tva w).2)) by by injection E as _ <-. clear E.
  assert (T1 : (s = "stand-by" → tva w1 = tva w0) ∧
    (tva w1 = tva w0 ∨ tva w1 = (TargetRun, (tva w0).1.2, (tva w0).2))).
  { destruct (String.eqb_spec s "stand-by").
    - apply (keeps_inv tva) in E0; [auto|]. unfold stopHibernatePreparationTimer. keeps_tac.
    - split; [done|]. destruct (_ && _); [|minv E0; injection E0 as _ <-; auto].
      minv E0. tva_steps. right. by rewrite E0, E. }
  apply (keeps_inv tva) in E1; [|auto with frame].
  destruct ((_ && _) || _) eqn:Er.
  - destruct (String.eqb_spec s "stand-by") as [->|Hs].
    { cbn in Er. by rewrite andb_false_r in Er. }
    apply resetToDefault_tva in H. rewrite H.
    assert (VehicleState (data w2) = s) as ->.
    { change ((tva w2).1.2 = s). rewrite E1. destruct T1 as [_ [->| ->]]; by rewrite T0. }
    split; [done|]. split; [done|]. by left.
  - minv H. injection H as _ <-. rewrite E1. destruct T1 as [Hs [T1|T1]]; rewrite T1, T0; cbn [fst snd].
    + split; [done|]. split; [done|]. auto.
    + split; [done|]. split; [|auto]. intros Hst. specialize (Hs Hst). by rewrite T1, T0 in Hs.
Qed.

Lemma OnVehicleLeft_tva c w u w' : OnVehicleLeftLowPowerState' c w = (u, w') → (tva w').2 = false.
Proof.
  intros H. unfold OnVehicleLeftLowPowerState' in H. minv H. apply resetToDefault_tva in H. by rewrite H.
Qed.

Lemma OnLastDitchDisabled_tva w u w' : OnLastDitchDisabled' w = (u, w') → (tva w').2 = false.
Proof.
  intros H. unfold OnLastDitchDisabled' in H. cbv zeta in H. minv H. tva_steps.
  by rewrite H, E5, E4, E3, E2.
Qed.

Lemma OnLowPowerCancelled_tva w u w' : OnLowPowerCancelled' w = (u, w') → (tva w').2 = false.
Proof.
  intros H. unfold OnLowPowerCancelled' in H. minv H. destruct (AutomaticLastDitch (data w0)) eqn:Ea; minv H.
  - by apply OnLastDitchDisabled_tva in H.
  - tva_steps. rewrite H. by unfold tva.
Qed.

Lemma beginLastDitch_tva w u w' : beginAutomaticLastDitch w = (u, w') → tva w' = (TargetHibernate, (tva w).1.2, true).
Proof.
  intros H. unfold beginAutomaticLastDitch in H. minv H. tva_steps. rewrite H.
  injection E0 as _ <-. by rewrite <- E.
Qed.

Lemma OnDefaultState_tva t x n w u w' :
  OnDefaultStateChanged' (PowerCommandPayload t x n) w = (u, w') → (tva w').2 = false.
Proof. intros H. unfold OnDefaultStateChanged' in H. minv H. tva_steps. by rewrite H, E1, E0. Qed.

Lemma OnPrepFailed_tva c w u w' :
  OnHibernatePreparationFailed' c w = (u, w') →
  (tva w').2 = (tva w).2 ∧ ((tva w').1.1 = (tva w).1.1 ∨ (tva w').1.1 = TargetRun).
Proof.
  intros H. unfold OnHibernatePreparationFailed' in H. minv H.
  destruct c; try (minv H; injection H as _ <-; by auto).
  destruct (_ || _); minv H; [injection H as _ <-; by auto|]. tva_steps. rewrite H, E. auto.
Qed.

(** ** The invariant *)

Definition suspending (s : StateID) : bool :=
  match s with StatePreSuspend | StateSuspendImminent => true | _ => false end.

(** Past the countdowns. *)
Definition committed (s : StateID) : bool :=
  match s with StateWaitingInhibitors | StateIssuingLowPower | StateSuspended => true | _ => false end.

(** [v] is the vehicle state the machine knows. *)
Record intent_ok (s : StateID) (t v : string) (auto : bool) : Prop := {
  in_suspending : suspending s = true → t = TargetSuspend;
  in_low_power : s = StateLowPowerImminent → IsHibernatePath t = true ∨ v ≠ "stand-by";
  in_committed : committed s = true → t ≠ TargetRun ∨ v ≠ "stand-by";
  in_auto : auto = true → t = TargetHibernate ∨ (s = StateRunning ∧ t = TargetRun);
}.

Definition intent_inv (s : StateID) (w : World) : Prop :=
  intent_ok s (tva w).1.1 (tva w).1.2 (tva w).2.

Definition sends_wf (w : World) : Prop := Forall (λ o, match o with OSend e => wf_event e = true | _ => True end) (trace w).

Record Inv (s : StateID) (w : World) : Prop := { inv_intent : intent_inv s w; inv_sends : sends_wf w }.

(** What the table guarantees about a transition, by its action. *)
Definition shape (t : Transition) : bool :=
  let g x := guarded_by t x in
  let to s := bool_decide (dst t = s) in
  let from s := bool_decide (src t = s) in
  match action t with
  | None => (from StatePreSuspend && to StateSuspendImminent) || (committed (src t) && committed (dst t))
  | Some OnSuspendImminentTimeout => preparing (src t) && to StateWaitingInhibitors
  | Some OnDisableModem => committed (src t) && committed (dst t)
  | Some OnPowerCommand =>
      to StateRunning ||
      (negb (bool_decide (on t = EvExplicitHibernate)) && negb (bool_decide (on t = EvDefaultStateChanged)) &&
       match event_targets (on t) with
       | Some [x] => (suspending (dst t) && (x =s TargetSuspend)) || (to StateLowPowerImminent && IsHibernatePath x)
       | _ => false
       end)
  | Some OnVehicleStateChanged =>
      from StateRunning && bool_decide (on t = EvVehicleStateChanged) &&
      (to StateRunning || (to StatePreSuspend && g CanEnterLowPowerState && g IsTargetSuspend)
       || (to StateLowPowerImminent && g CanEnterLowPowerState && g IsTargetHibernate))
  | Some OnBatteryStateChanged =>
      (bool_decide (on t = EvBatteryBecameActive) || bool_decide (on t = EvBatteryBecameInactive)) &&
      (to StateRunning || (committed (src t) && committed (dst t)) || (to StatePreSuspend && g IsTargetSuspend))
  | Some OnWakeup =>
      (bool_decide (on t = EvWakeup) || bool_decide (on t = EvWakeupRTC)) &&
      (to StateRunning || (suspending (dst t) && g IsTargetSuspend)
       || (to StateLowPowerImminent && g IsTargetHibernate))
  | Some OnLastDitchTriggered | Some OnLastDitchWakeup => to StateLowPowerImminent
  | Some OnLastDitchDefaultStateChanged => bool_decide (src t = dst t)
  | Some OnVehicleLeftLowPowerState | Some OnLowPowerCancelled | Some OnLastDitchDisabled
  | Some OnDefaultStateChanged | Some OnHibernatePreparationFailed => to StateRunning
  end.

Lemma table_shape t : t ∈ NewDefinition → shape t = true.
Proof. revert t. refine (table_forall (λ t, shape t = true) _). vm_compute. reflexivity. Qed.

Lemma running_ok v t auto : (auto = true → t = TargetHibernate ∨ t = TargetRun) → intent_ok StateRunning t v auto.
Proof. intros H. split; [done..|]. intros Ha. destruct (H Ha); auto. Qed.

Lemma hibernate_not_suspend t : IsHibernatePath t = true → t ≠ TargetSuspend.
Proof. intros H ->. done. Qed.

(** An invariant survives every step that keeps the intent and stays among the
    committed states. *)
Lemma committed_ok s s' t v auto :
  committed s' = true → s' ≠ StateRunning →
  (committed s = true ∨ suspending s = true ∨ s = StateLowPowerImminent) →
  intent_ok s t v auto → intent_ok s' t v auto.
Proof.
  intros Hc Hn Hs [H1 H2 H3 H4]. split.
  - by destruct s'.
  - intros ->. done.
  - intros _. destruct Hs as [Hs|[Hs| ->]].
    + auto.
    + left. by rewrite (H1 Hs).
    + destruct (H2 eq_refl) as [Hh|Hv]; [left; by intros ->|by right].
  - intros Ha. destruct (H4 Ha) as [?|[-> _]]; [by left|]. by destruct Hs as [|[|]].
Qed.

(** The other steps that keep the intent. *)
Lemma return_ok s t v auto : intent_ok s t v auto → intent_ok StateRunning t v auto.
Proof. intros Hi. apply running_ok. intros Ha. destruct (in_auto _ _ _ _ Hi Ha) as [?|[_ ?]]; auto. Qed.

Lemma suspending_ok s s' t v auto :
  suspending s' = true → t = TargetSuspend → intent_ok s t v auto → intent_ok s' t v auto.
Proof.
  intros Hs -> Hi. split; [done|by intros ->|by destruct s'|].
  intros Ha. by destruct (in_auto _ _ _ _ Hi Ha) as [?|[_ ?]].
Qed.

Lemma low_power_ok s t v auto :
  IsHibernatePath t = true → intent_ok s t v auto → intent_ok StateLowPowerImminent t v auto.
Proof.
  intros Ht Hi. split; [done|by left|done|].
  intros Ha. destruct (in_auto _ _ _ _ Hi Ha) as [?|[_ ->]]; [by left|done].
Qed.

Lemma recommit_ok s s' t v auto :
  committed s = true → committed s' = true → intent_ok s t v auto → intent_ok s' t v auto.
Proof. intros H1 H2. apply committed_ok; [done|by intros ->|by left]. Qed.

(** What a guard says about the data, given the intent at that point. *)
Definition holds_at (g : Guard) (c : Payload) (w : World) : Prop :=
  ∃ w1 w2, eval_guard g c w1 = (true, w2) ∧ tva w1 = tva w.

Lemma holds_target_suspend c w :
  holds_at IsTargetSuspend c w → (∀ t x n, c ≠ PowerCommandPayload t x n) → (tva w).1.1 = TargetSuspend.
Proof.
  intros (w1 & w2 & He & Ht) Hc. change ((IsTargetSuspend' c (data w1), w1) = (true, w2)) in He.
  injection He as He _. unfold IsTargetSuspend' in He.
  apply streq_true in He. rewrite <- Ht. destruct c; try done. by destruct (Hc TargetState Explicit WakeSeconds).
Qed.

Lemma holds_target_hibernate c w :
  holds_at IsTargetHibernate c w → (∀ t x n, c ≠ PowerCommandPayload t x n) → IsHibernatePath (tva w).1.1 = true.
Proof.
  intros (w1 & w2 & He & Ht) Hc. change ((IsTargetHibernate' c (data w1), w1) = (true, w2)) in He.
  injection He as He _. change (IsHibernatePath (targetPowerStateFromContext c (data w1)) = true) in He.
  rewrite <- Ht.
  destruct c; try done. by destruct (Hc TargetState Explicit WakeSeconds).
Qed.

Lemma holds_can_enter s w :
  holds_at CanEnterLowPowerState (VehicleStatePayload s) w →
  s = "stand-by" ∨ (tva w).1.1 = TargetReboot.
Proof.
  intros (w1 & w2 & He & Ht). cbn [eval_guard] in He. apply CanEnter_true in He. cbn in He.
  rewrite <- Ht. destruct He as [_ [?|[? _]]]; auto.
Qed.

Lemma guarded_holds t g c w :
  (∀ g, g ∈ guards t → holds_at g c w) → guarded_by t g = true → holds_at g c w.
Proof. intros H Hg. apply H. by apply bool_decide_eq_true in Hg. Qed.

Lemma intent_of w w' s : tva w' = tva w → intent_inv s w → intent_inv s w'.
Proof. unfold intent_inv. by intros ->. Qed.

Lemma wf_vehicle c : wf_event (mkEvent EvVehicleStateChanged c) = true → ∃ s, c = VehicleStatePayload s.
Proof. destruct c; try done. eauto. Qed.

Lemma wf_no_command id c t x n :
  event_targets id = None → wf_event (mkEvent id c) = true → c ≠ PowerCommandPayload t x n.
Proof. intros He Hw ->. unfold wf_event in Hw. cbn in Hw. by rewrite He in Hw. Qed.

(** The vehicle action. *)
Lemma vehicle_intent t c w u w' :
  on t = EvVehicleStateChanged → src t = StateRunning → wf_event (mkEvent (on t) c) = true →
  (∀ g, g ∈ guards t → holds_at g c w) → intent_inv (src t) w →
  dst t = StateRunning ∨
  (dst t = StatePreSuspend ∧ guarded_by t CanEnterLowPowerState = true ∧ guarded_by t IsTargetSuspend = true) ∨
  (dst t = StateLowPowerImminent ∧ guarded_by t CanEnterLowPowerState = true ∧ guarded_by t IsTargetHibernate = true) →
  OnVehicleStateChanged' c w = (u, w') → intent_inv (dst t) w'.
Proof.
  intros Hon Hsrc Hwf Hg Hi Hd Hr. rewrite Hon in Hwf. apply wf_vehicle in Hwf as [s ->].
  apply OnVehicleState_tva in Hr as (Hv & Hst & Ha). unfold intent_inv in *. rewrite Hsrc in Hi.
  pose proof (in_auto _ _ _ _ Hi) as Hauto. destruct Hd as [->|[(-> & H1 & H2)|(-> & H1 & H2)]].
  - apply running_ok. intros Hau. destruct Ha as [Ha|(Ha & [Ht|Ht])]; [congruence| |auto].
    rewrite Ht. rewrite Ha in Hau. destruct (Hauto Hau) as [?|[_ ?]]; auto.
  - apply (guarded_holds _ _ _ _ Hg) in H1, H2. apply holds_target_suspend in H2; [|done].
    apply holds_can_enter in H1 as [->|H1]; [|rewrite H2 in H1; done].
    rewrite (Hst eq_refl). cbn [fst snd]. split; try done. intros Hau.
    destruct (Hauto Hau) as [Ht|[_ Ht]]; by rewrite Ht in H2.
  - apply (guarded_holds _ _ _ _ Hg) in H1, H2. apply holds_target_hibernate in H2; [|done].
    apply holds_can_enter in H1 as [->|H1].
    + rewrite (Hst eq_refl). cbn [fst snd]. split; try done; [by left|]. intros Hau.
      destruct (Hauto Hau) as [?|[_ Ht]]; [by left|]. by rewrite Ht in H2.
    + assert (Hna : (tva w).2 = false).
      { destruct (tva w).2; [|done]. destruct (Hauto eq_refl) as [Ht|[_ Ht]]; by rewrite Ht in H1. }
      destruct (decide (s = "stand-by")) as [->|Hs].
      * rewrite (Hst eq_refl). cbn [fst snd]. split; try done; [by left|]. by rewrite Hna.
      * rewrite Hv. split; try done; [by right|]. intros Hau. destruct Ha as [Ha|[Ha _]]; congruence.
Qed.

(** The command action. *)
Lemma command_intent t c w u w' :
  wf_event (mkEvent (on t) c) = true → intent_inv (src t) w →
  dst t = StateRunning ∨
  ((negb (bool_decide (on t = EvExplicitHibernate)) = true ∧ negb (bool_decide (on t = EvDefaultStateChanged)) = true) ∧
   match event_targets (on t) with
   | Some [x] => (suspending (dst t) && (x =s TargetSuspend)) ||
                 (bool_decide (dst t = StateLowPowerImminent) && IsHibernatePath x)
   | _ => false
   end = true) →
  OnPowerCommand' c w = (u, w') → intent_inv (dst t) w'.
Proof.
  intros Hwf Hi Hd Hr. pose proof (in_auto _ _ _ _ Hi) as Ha. unfold intent_inv in *.
  assert (Hcases : (∃ tg x n, c = PowerCommandPayload tg x n) ∨ tva w' = tva w).
  { destruct c; eauto; right; by injection Hr as _ <-. }
  destruct Hd as [->|[[H1 _] H2]].
  - destruct Hcases as [(tg & x & n & ->)| ->].
    + apply OnPowerCommand_tva in Hr. destruct x.
      * apply running_ok. intros Hau. destruct Hr as [[_ Hr]|[Ht _]]; [congruence|auto].
      * rewrite Hr. by apply running_ok.
    + apply running_ok. intros Hau. destruct (Ha Hau) as [?|[_ ?]]; auto.
  - destruct (event_targets (on t)) as [[|x [|]]|] eqn:Et; try done.
    rewrite negb_true_iff, bool_decide_eq_false in H1.
    unfold wf_event in Hwf. cbn [evID evPayload] in Hwf. rewrite Et in Hwf. destruct c; try done.
    rewrite bool_decide_eq_false_2 in Hwf by done. apply andb_true_iff in Hwf as [Hx He].
    destruct Explicit; [done|]. apply one_of_spec, list_elem_of_singleton in Hx as ->.
    apply OnPowerCommand_tva in Hr. rewrite Hr. cbn [fst snd].
    rewrite orb_true_iff, !andb_true_iff, bool_decide_eq_true in H2. destruct H2 as [[H2 Hx]|[-> Hx]].
    + apply streq_true in Hx as ->. split; try done; [by intros E; rewrite E in H2|by intros; destruct (dst t)].
    + split; try done. by left.
Qed.

(** Every transition of the table preserves the intent invariant. *)
Lemma not_command t c :
  wf_event (mkEvent (on t) c) = true →
  on t ∈ [EvWakeup; EvWakeupRTC; EvBatteryBecameActive; EvBatteryBecameInactive] →
  ∀ x e n, c ≠ PowerCommandPayload x e n.
Proof.
  intros Hwf Hon x e n. eapply wf_no_command; [|exact Hwf].
  rewrite !elem_of_cons, elem_of_nil in Hon. by destruct Hon as [->|[->|[->|[->|[]]]]].
Qed.

Lemma wakeup_intent t c w u w' :
  action t = Some OnWakeup → shape t = true → wf_event (mkEvent (on t) c) = true →
  (∀ g, g ∈ guards t → holds_at g c w) → intent_inv (src t) w →
  run_action OnWakeup c w = (u, w') → intent_inv (dst t) w'.
Proof.
  intros Ha Hs Hwf Hg Hi Hr. unfold shape in Hs. rewrite Ha in Hs. cbn [run_action] in Hr.
  rewrite andb_true_iff, !orb_true_iff, !andb_true_iff, !bool_decide_eq_true in Hs. destruct Hs as [Hon Hd].
  apply (keeps_inv tva) in Hr; [|apply tva_OnWakeup]. unfold intent_inv in *. rewrite Hr.
  assert (Hc := not_command _ _ Hwf ltac:(destruct Hon as [-> | ->]; set_solver)).
  destruct Hd as [[->|[H1 H2]]|[-> H2]]; [by eapply return_ok|..]; apply (guarded_holds _ _ _ _ Hg) in H2.
  - eapply suspending_ok; [done|by apply holds_target_suspend in H2|done].
  - eapply low_power_ok; [by apply holds_target_hibernate in H2|done].
Qed.

Lemma battery_intent t c w u w' :
  action t = Some OnBatteryStateChanged → shape t = true → wf_event (mkEvent (on t) c) = true →
  (∀ g, g ∈ guards t → holds_at g c w) → intent_inv (src t) w →
  run_action OnBatteryStateChanged c w = (u, w') → intent_inv (dst t) w'.
Proof.
  intros Ha Hs Hwf Hg Hi Hr. unfold shape in Hs. rewrite Ha in Hs. cbn [run_action] in Hr.
  rewrite andb_true_iff, !orb_true_iff, !andb_true_iff, !bool_decide_eq_true in Hs. destruct Hs as [Hon Hd].
  apply (keeps_inv tva) in Hr; [|apply tva_OnBattery]. unfold intent_inv in *. rewrite Hr.
  destruct Hd as [[->|[H1 H2]]|[-> H2]]; [by eapply return_ok|by apply (recommit_ok _ _ _ _ _ H1 H2)|].
  assert (Hc := not_command _ _ Hwf ltac:(destruct Hon as [-> | ->]; set_solver)).
  apply (guarded_holds _ _ _ _ Hg) in H2.
  eapply suspending_ok; [done|by apply holds_target_suspend in H2|done].
Qed.

Lemma transition_intent t c w u w' :
  t ∈ NewDefinition → wf_event (mkEvent (on t) c) = true →
  (∀ g, g ∈ guards t → holds_at g c w) → intent_inv (src t) w →
  act (action t) c w = (u, w') → intent_inv (dst t) w'.
Proof.
  intros Ht Hwf Hg Hi Hr. pose proof (table_shape t Ht) as Hsh. pose proof Hsh as Hs. unfold shape in Hs.
  destruct (action t) as [a|] eqn:Hact; cbn [act] in Hr.
  2: { injection Hr as _ <-. rewrite !orb_true_iff, !andb_true_iff, !bool_decide_eq_true in Hs.
       unfold intent_inv in *. destruct Hs as [[H1 ->]|[H1 H2]]; [|by apply (recommit_ok _ _ _ _ _ H1 H2)].
       rewrite H1 in Hi. eapply suspending_ok; [done|by apply (in_suspending _ _ _ _ Hi)|exact Hi]. }
  destruct a; try (by eapply wakeup_intent); try (by eapply battery_intent); cbn [run_action] in Hr;
    repeat first [rewrite orb_true_iff in Hs | rewrite andb_true_iff in Hs | rewrite bool_decide_eq_true in Hs].
  - (* OnSuspendImminentTimeout *)
    injection Hr as _ <-. destruct Hs as [H1 ->]. unfold intent_inv in *.
    eapply committed_ok; [done|done| |exact Hi]. destruct (src t); auto.
  - rewrite Hs. apply OnLowPowerCancelled_tva in Hr. apply running_ok. congruence.
  - (* OnDisableModem *)
    apply (keeps_inv tva) in Hr; [|apply tva_disableModem]. unfold intent_inv in *. rewrite Hr.
    destruct Hs as [H1 H2]. by apply (recommit_ok _ _ _ _ _ H1 H2).
  - eapply vehicle_intent; try done; destruct Hs as [[H1 H2] [[H3|[[H3 H4] H5]]|[[H3 H4] H5]]]; auto.
  - rewrite Hs. apply OnVehicleLeft_tva in Hr. apply running_ok. congruence.
  - (* OnPowerCommand *)
    by eapply command_intent.
  - rewrite Hs. apply OnPrepFailed_tva in Hr as [Ha Htt]. apply running_ok. rewrite Ha. intros Hau.
    pose proof (in_auto _ _ _ _ Hi Hau) as [?|[_ ?]]; destruct Htt; intuition congruence.
  - rewrite Hs. apply beginLastDitch_tva in Hr. unfold intent_inv. rewrite Hr. cbn. split; try done; auto.
  - rewrite Hs. unfold OnLastDitchWakeup' in Hr. minv Hr. apply beginLastDitch_tva in Hr.
    unfold intent_inv. rewrite Hr. cbn. split; try done; auto.
  - rewrite Hs. apply OnLastDitchDisabled_tva in Hr. apply running_ok. congruence.
  - rewrite <- Hs. eapply intent_of; [|exact Hi]. destruct c; cbn in Hr; by injection Hr as _ <-.
  - rewrite Hs. destruct c; try (injection Hr as _ <-; by eapply return_ok).
    apply OnDefaultState_tva in Hr. apply running_ok. congruence.
Qed.

(** ** Steps *)

Lemma sends_wf_grow b {A} (m : ST World A) w a w' :
  emits (obs_ok b) m → m w = (a, w') → sends_wf w → sends_wf w'.
Proof.
  intros Hm E Hw. destruct (emits_adds _ _ _ _ _ Hm E) as [l [Hl Fl]]. unfold sends_wf. rewrite Hl.
  apply Forall_app. split; [exact Hw|]. eapply Forall_impl; [exact Fl|]. by intros [].
Qed.

Lemma sends_wf_elem w e : sends_wf w → OSend e ∈ trace w → wf_event e = true.
Proof. unfold sends_wf. rewrite Forall_forall. intros H He. apply (H _ He). Qed.

Lemma timeout_wf c s e : timeout_event c s e → wf_event e = true ∧ evPayload e = NoPayload.
Proof.
  intros (d & Ht & Hp). split; [|done]. destruct e as [id p]. cbn in *. subst p.
  destruct s; cbn in Ht; by simplify_eq.
Qed.

Lemma emits_leave b s : emits (obs_ok b) (leave s).
Proof. unfold leave. destruct (hasExit _); [by apply emits_silent|apply emits_skip]. Qed.

Lemma emits_act b a c : emits (obs_ok b) (act a c).
Proof. destruct a; cbn [act]; [apply run_action_emits|apply emits_skip]. Qed.

Lemma emits_publishFSM b s : emits (obs_ok b) (publishFSMState s).
Proof. unfold publishFSMState. emits_tac. Qed.

Lemma emits_enter s c : emits (obs_ok (bool_decide (s = StateIssuingLowPower))) (enter s c).
Proof.
  destruct s; unfold enter; cbn [state_decl onEnter]; try apply emits_skip; apply run_entry_emits.
Qed.

Lemma emits_take b p t c :
  b = bool_decide (dst t = StateIssuingLowPower) → emits (obs_ok b) (take_transition p t c).
Proof.
  intros ->. unfold take_transition. cbv zeta.
  pose proof (emits_enter (dst t) c). emits_tac;
    first [apply emits_leave | apply emits_act | apply emits_publishFSM | done].
Qed.

Lemma deliver_emits p s e : emits (obs_ok true) (deliver_spec p s e).
Proof.
  unfold deliver_spec. apply emits_bind; [apply emits_first_enabled, obs_ok_lenient|].
  intros [t|]; [|apply emits_ret]. eapply emits_mono; [|by apply emits_take].
  intros o. destruct (bool_decide _); [done|apply obs_ok_mono].
Qed.

(** The pieces of a delivery that takes a transition. *)
Lemma deliver_inv p s e w s' w' :
  deliver_spec p s e w = (s', w') →
  (s' = s ∧ core w' = core w ∧ ∃ l, adds silent w w' l) ∨
  ∃ t w0, t ∈ NewDefinition ∧ src t = s ∧ on t = evID e ∧ s' = dst t ∧ core w0 = core w ∧
    (∃ l, adds silent w w0 l) ∧ (∀ g, g ∈ guards t → holds_at g (evPayload e) w0) ∧
    (∀ g, g ∈ guards t → ∃ w1 w2, eval_guard g (evPayload e) w1 = (true, w2) ∧ core w1 = core w) ∧
    take_transition p t (evPayload e) w0 = (s', w').
Proof.
  intros Hd. unfold deliver_spec in Hd. minv Hd.
  apply (keeps_inv core) in E as Hc; [|apply first_enabled_core].
  assert (∃ l, adds silent w w0 l) as Hl.
  { eapply emits_adds; [apply emits_first_enabled, silent_lenient|exact E]. }
  destruct a as [t|]; minv Hd.
  - right. apply first_enabled_some in E as [Ht Hg]. apply candidates_spec in Ht as (Ht & Hs & Ho).
    assert (s' = dst t) as ->.
    { pose proof Hd as Hd'. unfold take_transition in Hd'. cbv zeta in Hd'. minv Hd'. by injection Hd'. }
    exists t, w0. do 4 (split; [done|]). split; [done|]. split; [done|]. split; [|done].
    intros g Hin. destruct (Hg g Hin) as (w1 & w2 & He & Hw). exists w1, w2. split; [done|].
    apply core_tva. congruence.
  - left. injection Hd as <- <-. auto.
Qed.

Lemma tva_leave s : keeps tva (leave s).
Proof. by destruct s. Qed.
Lemma tva_enter s c : keeps tva (enter s c).
Proof. destruct s; unfold enter; cbn [state_decl onEnter]; keeps_tac. Qed.
#[local] Hint Resolve tva_leave tva_enter : frame.

Lemma take_intent p t c w s' w' :
  t ∈ NewDefinition → wf_event (mkEvent (on t) c) = true → (∀ g, g ∈ guards t → holds_at g c w) →
  intent_inv (src t) w → take_transition p t c w = (s', w') → intent_inv (dst t) w'.
Proof.
  intros Ht Hwf Hg Hi Hk. unfold take_transition in Hk. cbv zeta in Hk. minv Hk. injection Hk as _ <-.
  assert (T0 : tva w0 = tva w).
  { apply (keeps_inv tva) in E; [done|]. keeps_tac. }
  assert (T1 : intent_inv (dst t) w1).
  { eapply transition_intent; [done|done| |eapply intent_of; [exact T0|exact Hi]|exact E0].
    intros g Hin. destruct (Hg g Hin) as (u1 & u2 & He & Hu). exists u1, u2. split; [done|congruence]. }
  apply (keeps_inv tva) in E1; [|destruct (notifyFirst p); [done|apply keeps_skip]].
  apply (keeps_inv tva) in E2; [|keeps_tac].
  apply (keeps_inv tva) in E3; [|destruct (negb (notifyFirst p)); [done|apply keeps_skip]].
  eapply intent_of; [|exact T1]. congruence.
Qed.

(** ** Start-up *)

Definition autoOf (w : World) : bool := AutomaticLastDitch (data w).

Lemma auto_seed h f k : (∀ v, keeps autoOf (k v)) → keeps autoOf (seed h f k).
Proof. intros Hk. unfold seed, HGet, emit, ask, modify. apply keeps_bind; [done|]. intros r. by destruct (nonempty r). Qed.

Lemma auto_wakeupSources ports : keeps autoOf (enableWakeupSources ports).
Proof.
  induction ports as [|p ports IH]; [done|]. cbn [enableWakeupSources]. apply keeps_bind; [done|intros ok].
  apply keeps_bind; [done|intros _; exact IH].
Qed.
#[local] Hint Resolve auto_wakeupSources : frame.

Lemma startup_auto `{Cron} ts m : keeps autoOf (startup ts m).
Proof.
  unfold startup, startScheduler, startMachine, seedInputs, Now, publishFSMState, resetHibernationTimer.
  repeat first [apply auto_seed; intros ? | keeps_step]; try solve [intros ?; reflexivity | apply auto_wakeupSources].
  - intros w. pose proof (core_recover w) as Hc. cbv beta in Hc. injection Hc as _ Hc _ _ _ _ _ _ _.
    unfold autoOf. by rewrite Hc.
  - intros w. unfold autoOf. cbn. by split_if.
Qed.

(** ** Reachable states *)

Section reachable.
Context `{Cron} `{LibreFSM}.

Lemma step_inv s w s' w' : Inv s w → mstep (s, w) (s', w') → Inv s' w'.
Proof.
  intros [Hi Hw] Hst. inversion Hst as [? ? e ? ? He Hd|? ? h u ? Hr]; subst.
  - assert (Hwf : wf_event e = true).
    { destruct He as [He|He]; [by eapply sends_wf_elem|by apply timeout_wf in He as [? _]]. }
    rewrite deliver_law in Hd. split; [|by eapply sends_wf_grow; [apply deliver_emits|exact Hd|]].
    apply deliver_inv in Hd as [(-> & Hc & _)|(t & w0 & Ht & <- & Ho & -> & Hc & _ & Hg & _ & Hk)].
    + eapply intent_of; [by apply core_tva|exact Hi].
    + eapply take_intent; [done| |exact Hg| |exact Hk].
      * rewrite Ho. by destruct e.
      * eapply intent_of; [by apply core_tva|exact Hi].
  - split; [|by eapply sends_wf_grow; [apply (run_handler_emits false)|exact Hr|]].
    eapply intent_of; [|exact Hi]. pose proof (handlers_data h w) as Hd. rewrite Hr in Hd. cbn in Hd.
    unfold tva. by rewrite Hd.
Qed.

Lemma reachable_inv s w : reachable (s, w) → Inv s w.
Proof.
  intros Hr. remember (s, w) as m eqn:Em. revert s w Em.
  induction Hr as [c cl e ts m w' Hs|[s0 w0] [s1 w1] Hr IH Hst]; intros s w [= <- <-].
  - split.
    + apply running_ok. intros Ha. exfalso.
      apply (keeps_inv autoOf) in Hs; [|apply startup_auto]. unfold autoOf in Hs. cbn in Ha, Hs. congruence.
    + eapply sends_wf_grow; [apply (startup_emits false)|exact Hs|]. unfold sends_wf. by cbn.
  - eapply step_inv; [by apply IH|exact Hst].
Qed.

(** C3: what the machine is about to do is always what it was asked to do.  In
    every reachable state, whatever the environment answered and however
    events, timeouts, watchers, settings and timers interleaved: the suspend
    countdowns run only for the suspend target; the low-power countdown runs
    for a hibernate or reboot target, and the inhibitor wait and the issuing
    state not for the target run, except that all three may go on with another
    target while the vehicle is known not to be in stand-by; an automatic
    last-ditch is a plain hibernate, except that in [Running] a rejected request
    may have set its target to run; and every event that was sent is well
    formed. *)
Theorem machine_invariant (s : StateID) (w : World) :
  reachable (s, w) →
  (s = StatePreSuspend ∨ s = StateSuspendImminent → TargetPowerState (data w) = TargetSuspend) ∧
  (s = StateLowPowerImminent →
     IsHibernatePath (TargetPowerState (data w)) = true ∨ VehicleState (data w) ≠ "stand-by") ∧
  (s = StateWaitingInhibitors ∨ s = StateIssuingLowPower ∨ s = StateSuspended →
     TargetPowerState (data w) ≠ TargetRun ∨ VehicleState (data w) ≠ "stand-by") ∧
  (AutomaticLastDitch (data w) = true →
     TargetPowerState (data w) = TargetHibernate ∨
     (s = StateRunning ∧ TargetPowerState (data w) = TargetRun)) ∧
  (∀ e, OSend e ∈ trace w → wf_event e = true).
Proof.
  intros Hr. apply reachable_inv in Hr as [[H1 H2 H3 H4] H5].
  split; [by intros [-> | ->]; apply H1|]. split; [done|].
  split; [by intros [->|[->| ->]]; apply H3|]. split; [done|].
  intros e. by apply sends_wf_elem.
Qed.
End reachable.

Lemma machine_invariant_witness :
  countdownRun.1 = StateSuspendImminent ∧
  TargetPowerState (data countdownRun.2) = TargetSuspend.
Proof.
  split; [vm_compute; reflexivity|].
  apply (@machine_invariant noCron sampleFSM countdownRun.1 countdownRun.2).
  - rewrite <- surjective_pairing. exact countdownRun_reachable.
  - right. vm_compute. reflexivity.
Defined.
