(* ===== verification/MachineSafety.v ===== *)
(** * Safety of every reachable step

    The entry-level facts of [IssuingFacts], carried to the whole machine: only
    a delivery that enters the issuing state can command logind, and what has
    happened before it in the same step. *)

From S2P Require Import Prelude GoInt GoTime GoDuration HibTimer Scheduler SchedulerFacts Fsm.
From S2P Require Import Inhibitor LastDitch GoFloat ClockProto Systemd ClockClient SvcState.
From S2P Require Import SvcGuards SvcActions Issuing SvcFacts IssuingFacts ClockGuard Handlers.
From S2P Require Import HandlerFacts Machine Runs MachineFacts.

(** How the table enters the issuing state. *)
Definition issuing_entry (t : Transition) : bool :=
  negb (bool_decide (dst t = StateIssuingLowPower)) ||
  (bool_decide (src t = StateWaitingInhibitors) && bool_decide (action t = None) &&
   (bool_decide (on t = EvInhibitorsChanged) || bool_decide (on t = EvInhibitorWaitTimeout))) ||
  (bool_decide (src t = StateIssuingLowPower) && bool_decide (guards t = [IsAutomaticLastDitch]) &&
   bool_decide (action t = Some OnLastDitchDefaultStateChanged)).

Lemma table_issuing_entry t :
  t ∈ NewDefinition → dst t = StateIssuingLowPower →
  (src t = StateWaitingInhibitors ∧ action t = None ∧ event_targets (on t) = None ∧
     (on t = EvInhibitorsChanged ∨ on t = EvInhibitorWaitTimeout)) ∨
  (src t = StateIssuingLowPower ∧ guards t = [IsAutomaticLastDitch] ∧
     action t = Some OnLastDitchDefaultStateChanged).
Proof.
  intros Ht Hd. assert (H : issuing_entry t = true).
  { revert t Ht Hd. enough (∀ t, t ∈ NewDefinition → issuing_entry t = true) by eauto.
    refine (table_forall (λ t, issuing_entry t = true) _). vm_compute. reflexivity. }
  unfold issuing_entry in H. rewrite bool_decide_eq_true_2 in H by done. cbn [negb orb] in H.
  rewrite !orb_true_iff, !andb_true_iff, !orb_true_iff, !bool_decide_eq_true in H.
  destruct H as [[[H1 H2] H3]|[[H1 H2] H3]]; [left|by right].
  repeat split; try done. by destruct H3 as [-> | ->].
Qed.

(** The part of the state the entry reads, without the fallback target. *)
Definition entry_view (w : World) :=
  (cfg w, TargetPowerState (data w), VehicleState (data w), Battery0State (data w), Battery1State (data w),
   HibernateForWakeSeconds (data w), AutomaticLastDitch (data w), settings w, wakeTimerArmed (flags w)).

Lemma core_entry_view w w' : core w' = core w → entry_view w' = entry_view w.
Proof. intros H. injection H as Hc Hd Hs Hf _ _ _ _ _. unfold entry_view. by rewrite Hc, Hd, Hs, Hf. Qed.

(** An entry of the issuing state inside a transition. *)
Lemma take_entry p t c w s' w' :
  t ∈ NewDefinition → dst t = StateIssuingLowPower → take_transition p t c w = (s', w') →
  (src t = dst t ∧ ∃ l, adds silent w w' l) ∨
  ∃ wi r wo l1 l2,
    adds silent w wi l1 ∧ entry_view wi = entry_view w ∧
    (action t = None → data wi = data w) ∧
    EnterIssuingLowPower' c wi = (r, wo) ∧ adds silent wo w' l2 ∧ ld w' = ld wo ∧ core w' = core wo.
Proof.
  intros Ht Hd Hk. unfold take_transition in Hk. cbv zeta in Hk. minv Hk. injection Hk as _ <-.
  assert (H1 : trace w0 = trace w ∧ data w0 = data w ∧ entry_view w0 = entry_view w).
  { unfold leave in E. repeat split_if; by injection E as _ <-. }
  assert (H2 : trace w1 = trace w0 ∧ (action t = None → data w1 = data w0) ∧ entry_view w1 = entry_view w0).
  { destruct (table_issuing_entry t Ht Hd) as [(_ & Ha & _)|(_ & _ & Ha)]; rewrite Ha in E0 |- *; cbn in E0.
    - by injection E0 as _ <-.
    - destruct c; injection E0 as _ <-; by repeat split. }
  assert (Hpub : ∀ (b : bool) (s : StateID) (wa : World) (a : unit) (wb : World), (when b do publishFSMState s) wa = (a, wb) →
    core wb = core wa ∧ ld wb = ld wa ∧ ∃ l, adds silent wa wb l).
  { intros b s wa a' wb He. destruct b; [|injection He as _ <-; split; [done|split; [done|]]; exists []; by apply adds_nil].
    injection He as _ <-. split; [done|]. split; [done|]. eexists [_]. split; [done|by repeat constructor]. }
  apply Hpub in E1 as (C2 & L2 & l2 & T2). apply Hpub in E3 as (C4 & L4 & l4 & T4).
  destruct H1 as (T0 & D0 & V0), H2 as (T1 & D1 & V1).
  assert (T12 : adds silent w w2 l2).
  { destruct T2 as [T2 F2]. split; [by rewrite T2, T1, T0|done]. }
  destruct (negb _ || _) eqn:Hm.
  - right. unfold enter in E2. rewrite Hd in E2. cbn [state_decl onEnter run_entry] in E2. minv E2.
    injection E2 as _ <-. eexists w2, _, _, l2, l4. split; [done|].
    split; [rewrite (core_entry_view _ _ C2); congruence|]. split; [|split; [eassumption|by split]].
    intros Ha. injection C2 as _ C2 _ _ _ _ _ _ _. rewrite C2. specialize (D1 Ha). congruence.
  - left. apply orb_false_iff in Hm as [Hm _]. apply negb_false_iff, bool_decide_eq_true in Hm.
    split; [done|]. injection E2 as _ <-. eexists. by eapply adds_trans.
Qed.

Lemma since_sandwich w wi wo w' l1 l2 :
  adds silent w wi l1 → adds silent wo w' l2 → grows (λ _, true) wi wo →
  since w w' = l1 ++ since wi wo ++ l2.
Proof.
  intros [T1 _] [T2 _] (l & T & F). rewrite (since_adds (λ _, true) wi wo l) by done.
  apply (since_adds (λ _, true)). split; [by rewrite T2, T, T1, <- !app_assoc|by apply Forall_true].
Qed.

Lemma entry_grows c w r w' : EnterIssuingLowPower' c w = (r, w') → grows (λ _, true) w w'.
Proof. intros H. eapply steps_inv; [|exact H]. eapply emits_mono; [|apply emits_EnterIssuing]. done. Qed.

Lemma elem_of_sandwich l1 l l2 o :
  silent o = false → Forall (λ o, silent o = true) l1 → Forall (λ o, silent o = true) l2 →
  o ∈ l1 ++ l ++ l2 → o ∈ l.
Proof.
  rewrite !Forall_forall, !elem_of_app. intros Hs F1 F2 [H|[H|H]]; [apply F1 in H|done|apply F2 in H]; congruence.
Qed.

Section safety.
Context `{Cron} `{LibreFSM}.

(** A step that commands logind enters the issuing state. *)
Lemma command_step s w s' w' o :
  Inv s w → mstep (s, w) (s', w') → o ∈ since w w' → uncommanded o = false →
  ∃ t e wi r wo l1 l2,
    t ∈ NewDefinition ∧ src t = s ∧ on t = evID e ∧ s' = StateIssuingLowPower ∧ dst t = StateIssuingLowPower ∧
    wf_event e = true ∧
    (∀ g, g ∈ guards t → ∃ w1 w2, eval_guard g (evPayload e) w1 = (true, w2) ∧ core w1 = core w) ∧
    entry_view wi = entry_view w ∧ (action t = None → data wi = data w ∧ settings wi = settings w) ∧
    EnterIssuingLowPower' (evPayload e) wi = (r, wo) ∧ ld w' = ld wo ∧
    since w w' = l1 ++ since wi wo ++ l2 ∧ o ∈ since wi wo ∧
    Forall (λ o, silent o = true) (l1 ++ l2).
Proof.
  intros [Hi Hw] Hst Hin Ho.
  assert (Hno : ∀ l, adds (obs_ok false) w w' l → False) by (intros l Hl; by eapply no_command).
  inversion Hst as [? ? e ? ? He Hd|? ? h u ? Hr]; subst.
  2: { exfalso. destruct (emits_adds _ _ _ _ _ (run_handler_emits false h) Hr). by eapply Hno. }
  assert (Hwf : wf_event e = true).
  { destruct He as [He|He]; [by eapply sends_wf_elem|by apply timeout_wf in He as [? _]]. }
  rewrite deliver_law in Hd.
  apply deliver_inv in Hd as [(-> & _ & l & Hl)|(t & w0 & Ht & Hs & Hon & -> & Hc & [l0 A0] & _ & Hg & Hk)].
  { exfalso. eapply Hno, adds_weaken; [apply silent_quiet|exact Hl]. }
  destruct (decide (dst t = StateIssuingLowPower)) as [Hd|Hd].
  2: { exfalso. destruct (emits_adds (obs_ok false) _ _ _ _ (emits_take false _ _ _ ltac:(by rewrite bool_decide_eq_false_2)) Hk) as [l Hl].
       eapply Hno, adds_trans; [eapply adds_weaken; [apply silent_quiet|exact A0]|exact Hl]. }
  destruct (take_entry _ _ _ _ _ _ Ht Hd Hk) as [[_ [l Hl]]|(wi & r & wo & l1 & l2 & A1 & V1 & D1 & He1 & A2 & L2 & _)].
  { exfalso. eapply Hno, adds_weaken; [apply silent_quiet|]. by eapply adds_trans. }
  pose proof (adds_trans _ _ _ _ _ _ A0 A1) as A01.
  pose proof (since_sandwich _ _ _ _ _ _ A01 A2 (entry_grows _ _ _ _ He1)) as Hs'.
  exists t, e, wi, r, wo, (l0 ++ l1), l2. do 3 (split; [done|]). split; [by rewrite Hd|]. do 3 (split; [done|]).
  pose proof (core_entry_view _ _ Hc) as V0.
  split; [congruence|]. split.
  { intros Ha. injection Hc as _ Hcd Hcs _ _ _ _ _ _. injection V1 as _ _ _ _ _ _ _ Vs _.
    rewrite (D1 Ha). split; congruence. }
  split; [done|]. split; [done|]. split; [done|].
  destruct A01 as [_ F01], A2 as [_ F2]. split; [|by apply Forall_app].
  rewrite Hs' in Hin. eapply elem_of_sandwich; [|exact F01|exact F2|exact Hin]. by destruct o.
Qed.

(** C1: suspend safety.  Whenever any step of any run asks logind to sleep, the
    machine has just entered the issuing state with the target suspend, it is
    not a dry run, and within this very step, in this order: the inhibitor
    manager reported nothing that blocks, the live vehicle state read
    stand-by, "suspending" was announced and confirmed to have reached the
    nRF52, the vehicle state read stand-by again, the eligibility was
    re-checked on live values (stand-by, neither battery slot present nor
    active, remote access no reason to stay awake) and the clock coordinator
    admitted the suspend.  Nothing else is commanded in the step. *)
Theorem suspend_safety (s : StateID) (w : World) (s' : StateID) (w' : World) (res : SuspendResult) :
  reachable (s, w) → mstep (s, w) (s', w') → OSuspend res ∈ since w w' →
  s' = StateIssuingLowPower ∧ TargetPowerState (data w) = TargetSuspend ∧ DryRun (cfg w) = false ∧
  ∃ before after v1 v2 ok el w0,
    since w w' = before ++ [OSuspend res] ++ after ∧
    suspend_protocol v1 v2 ok el `sublist_of` before ∧
    liveStandby v1 (VehicleState (data w)) = true ∧ liveStandby v2 (VehicleState (data w)) = true ∧
    eligible w0 el ∧ data w0 = data w ∧ settings w0 = settings w ∧
    Forall (λ o, uncommanded o = true) (before ++ after).
Proof.
  intros Hr Hst Hin. apply reachable_inv in Hr.
  destruct (command_step _ _ _ _ _ Hr Hst Hin eq_refl) as
    (t & e & wi & r & wo & l1 & l2 & Ht & Hsrc & Hon & -> & Hd & Hwf & Hg & V & Hda & He & _ & Hs & Hin' & F).
  pose proof (issuing_suspend_target _ _ _ _ _ He Hin') as Htg.
  injection V as Vc Vt Vv _ _ _ Va _ _.
  split; [done|]. split; [congruence|].
  destruct (table_issuing_entry t Ht Hd) as [(Hsw & Hact & _ & Hev)|(Hsi & Hgu & _)].
  - destruct (Hda Hact) as [Hda1 Hda2]. assert (Hp : evPayload e = NoPayload).
    { destruct e as [id pl]. cbn in *. subst id. by destruct Hev as [Hev|Hev]; rewrite Hev in Hwf; destruct pl. }
    assert (Ha : AutomaticLastDitch (data w) = false).
    { destruct (AutomaticLastDitch (data w)) eqn:Ea; [|done]. destruct (in_auto _ _ _ _ (inv_intent _ _ Hr) Ea) as [Hx|[Hx _]].
      - cbn in Hx. rewrite <- Vt, Htg in Hx. done.
      - by rewrite Hx in Hsrc; rewrite Hsrc in Hsw. }
    rewrite Hp in He. rewrite <- Hda1 in Ha.
    destruct (issuing_suspend _ _ _ _ Ha He Hin') as (Hdry & before & after & v1 & v2 & ok & el & Hs' & Hsub & Hv1 & Hv2 & Hel & Fc).
    split; [congruence|]. exists (l1 ++ before), (after ++ l2), v1, v2, ok, el, wi.
    rewrite Vv in Hv1, Hv2. apply Forall_app in F as [F1 F2]. apply Forall_app in Fc as [Fb Fa].
    split; [by rewrite Hs, Hs', <- !app_assoc|]. split; [by apply sublist_inserts_l|].
    do 5 (split; [done|]). rewrite !Forall_app. repeat split; try done; (eapply Forall_impl; [eassumption|apply silent_uncommanded]).
  - exfalso. destruct (Hg IsAutomaticLastDitch) as (w1 & w2 & Hev & Hc); [rewrite Hgu; by left|].
    cbn in Hev. injection Hev as Hev _. injection Hc as _ Hc _ _ _ _ _ _ _. rewrite Hc in Hev.
    destruct (in_auto _ _ _ _ (inv_intent _ _ Hr) Hev) as [Hx|[Hx _]].
    + cbn in Hx. rewrite <- Vt, Htg in Hx. done.
    + rewrite Hx in Hsrc. congruence.
Qed.

(** C2: poweroff and reboot safety.  Whenever any step of any run asks logind
    for a poweroff or a reboot, the machine has just entered the issuing state
    and the command is the one of the target; it is not a dry run; within this
    very step the inhibitor manager has reported that nothing blocks this
    target; a timed hibernation has its wake source confirmed, by an
    acknowledgement of exactly the requested duration or earlier in the same
    round; an automatic last-ditch poweroff has been re-validated on inputs
    re-read from Redis; and nothing else is commanded or sent. *)
Theorem poweroff_safety (s : StateID) (w : World) (s' : StateID) (w' : World) (cmd : string) (ok : bool) :
  reachable (s, w) → mstep (s, w) (s', w') → OIssue cmd ok ∈ since w w' →
  s' = StateIssuingLowPower ∧ powerCommand (TargetPowerState (data w)) = Some cmd ∧ cmd ≠ "suspend" ∧
  DryRun (cfg w) = false ∧
  ∃ before after post,
    since w w' = before ++ [OGate (TargetPowerState (data w)) false] ++ after ++ [OIssue cmd ok] ++ post ∧
    Forall (λ o, silent o = true) (before ++ after ++ post) ∧
    (wakeNeeded w = true →
       wakeTimerArmed (flags w) = true ∨ OWakeAck (HibernateForWakeSeconds (data w)) true ∈ before) ∧
    (cmd = "poweroff" → AutomaticLastDitch (data w) = true → emergency w').
Proof.
  intros Hr Hst Hin. apply reachable_inv in Hr.
  destruct (command_step _ _ _ _ _ Hr Hst Hin eq_refl) as
    (t & e & wi & r & wo & l1 & l2 & Ht & Hsrc & Hon & -> & Hd & Hwf & Hg & V & _ & He & Hld & Hs & Hin' & F).
  destruct (issuing_poweroff _ _ _ _ _ _ He Hin') as
    (Hcmd & Hne & Hdry & before & after & Hs' & Fs & Hwake & Hem).
  injection V as Vc Vt Vv _ _ Vsec Va _ Varm. rewrite Vt in Hcmd, Hs'.
  split; [done|]. split; [done|]. split; [done|]. split; [congruence|].
  exists (l1 ++ before), after, l2. apply Forall_app in F as [F1 F2]. apply Forall_app in Fs as [Fb Fa].
  split; [by rewrite Hs, Hs', <- !app_assoc|]. split; [by rewrite !Forall_app|]. split.
  - intros Hn. unfold wakeNeeded in *. rewrite Vt, Vsec, Varm in Hwake.
    destruct (Hwake Hn) as [?|?]; [by left|right]. rewrite elem_of_app. auto.
  - intros Hc Ha. rewrite <- Va in Ha. destruct (Hem Hc Ha) as [now Hn]. exists now. by rewrite Hld.
Qed.
End safety.

(** A reachable sample run that has just been carried into the issuing state. *)
Lemma sample_step m :
  @reachable noCron sampleFSM m → (issue m).1 ≠ m.1 →
  @reachable noCron sampleFSM (m.1, m.2) ∧ @mstep noCron sampleFSM (m.1, m.2) ((issue m).1, (issue m).2).
Proof. intros Hr Hn. rewrite <- !surjective_pairing. split; [done|by apply issue_mstep]. Qed.

Lemma suspend_safety_witness :
  OSuspend Resumed ∈ since suspendRun.2 (issue suspendRun).2 ∧
  TargetPowerState (data suspendRun.2) = TargetSuspend.
Proof.
  assert (Hin : OSuspend Resumed ∈ since suspendRun.2 (issue suspendRun).2)
    by (apply list_elem_of_In; vm_compute; tauto).
  split; [exact Hin|].
  destruct (sample_step suspendRun suspendRun_reachable) as [Hr Hs]; [by vm_compute|].
  exact (proj1 (proj2 (@suspend_safety noCron sampleFSM _ _ _ _ _ Hr Hs Hin))).
Defined.

Lemma poweroff_safety_witness :
  OIssue "poweroff" true ∈ since hibernateRun.2 (issue hibernateRun).2 ∧
  powerCommand (TargetPowerState (data hibernateRun.2)) = Some "poweroff".
Proof.
  assert (Hin : OIssue "poweroff" true ∈ since hibernateRun.2 (issue hibernateRun).2)
    by (apply list_elem_of_In; vm_compute; tauto).
  split; [exact Hin|].
  destruct (sample_step hibernateRun hibernateRun_reachable) as [Hr Hs]; [by vm_compute|].
  exact (proj1 (proj2 (@poweroff_safety noCron sampleFSM _ _ _ _ _ _ Hr Hs Hin))).
Defined.
