(* ===== verification/Liveness.v ===== *)
(** * Progress of the machine

    The machine cannot be stranded.  [StateSuspended] is never entered, a
    command "run" brings the machine back from every reachable state, and an
    entry of the issuing state that neither powers off nor stops has sent the
    event that leaves it again. *)

From S2P Require Import Prelude GoInt GoTime GoDuration HibTimer Scheduler SchedulerFacts Fsm.
From S2P Require Import Inhibitor LastDitch GoFloat ClockProto Systemd ClockClient SvcState.
From S2P Require Import SvcGuards SvcActions Issuing SvcFacts IssuingFacts WakeFacts ActionFacts.
From S2P Require Import ClockGuard Handlers HandlerFacts Machine Runs MachineFacts MachineSafety.

(** ** Delivery leaves a state *)

(** The guards hold whatever the environment answers. *)
Definition passes (gs : list Guard) (c : Payload) (w : World) : Prop :=
  ∀ w1, core w1 = core w → (guards_pass gs c w1).1 = true.

Lemma first_enabled_passes ts c w t :
  t ∈ ts → passes (guards t) c w → ∃ t', (first_enabled ts c w).1 = Some t' ∧ t' ∈ ts.
Proof.
  revert w. induction ts as [|t0 ts IH]; intros w Hin Hp; [by apply elem_of_nil in Hin|].
  cbn [first_enabled]. rewrite run_bind. destruct (guards_pass _ _ w) as [b w1] eqn:E. cbn [fst snd].
  destruct b; [exists t0; split; [done|by left]|].
  apply (keeps_inv core) in E as Hc; [|apply guards_pass_core].
  apply elem_of_cons in Hin as [->|Hin].
  - pose proof (Hp w eq_refl) as Ht. by rewrite E in Ht.
  - destruct (IH w1 Hin) as (t' & Ht & Hin'); [intros w2 H2; apply Hp; congruence|].
    exists t'. split; [done|by right].
Qed.

Lemma take_dst p t c w : (take_transition p t c w).1 = dst t.
Proof.
  destruct (take_transition p t c w) as [s' w'] eqn:E. unfold take_transition in E. cbv zeta in E.
  minv E. by injection E as <- _.
Qed.

(** An event with a transition that always passes is never dropped. *)
Lemma deliver_moves p s e w t :
  t ∈ candidates s (evID e) → passes (guards t) (evPayload e) w →
  ∃ t', t' ∈ candidates s (evID e) ∧ (deliver_spec p s e w).1 = dst t'.
Proof.
  intros Ht Hp. destruct (first_enabled_passes _ _ _ _ Ht Hp) as (t' & Hf & Hin).
  exists t'. split; [done|]. unfold deliver_spec. rewrite run_bind.
  destruct (first_enabled _ _ w) as [r w1]. cbn [fst snd] in *. subst r. apply take_dst.
Qed.

Lemma deliver_only p s e t w :
  candidates s (evID e) = [t] → guards t = [] → deliver_spec p s e w = take_transition p t (evPayload e) w.
Proof. intros Hs Hg. unfold deliver_spec. rewrite Hs. cbn [first_enabled]. by rewrite Hg. Qed.

Lemma passes_nil c w : passes [] c w.
Proof. by intros ? _. Qed.

Lemma passes_data g c (f : FSMData → bool) w :
  eval_guard g c = gets (λ w, f (data w)) → f (data w) = true → passes [g] c w.
Proof.
  intros Hg Hf w1 Hc. injection Hc as _ Hd _ _ _ _ _ _ _. cbn [guards_pass]. rewrite run_bind, Hg.
  cbn. by rewrite Hd, Hf.
Qed.

(** ** The suspended state *)

Lemma table_suspended t :
  t ∈ NewDefinition → dst t = StateSuspended → src t = StateSuspended ∨ on t = EvLowPowerIssued.
Proof. revert t. refine (table_forall _ _). vm_compute. reflexivity. Qed.

(** The only transition of a state for "run". *)
Definition runBack (s : StateID) : Transition := mkT s EvPowerRun StateRunning [] (Some OnPowerCommand).

Lemma candidates_run s : s ≠ StateSuspended → candidates s EvPowerRun = [runBack s].
Proof. by destruct s. Qed.

(** A service at rest: nothing is asked for any more. *)
Record at_rest (w : World) : Prop := {
  rest_target : TargetPowerState (data w) = TargetRun;
  rest_request : HibernateRequestID (data w) = "";
  rest_auto : AutomaticLastDitch (data w) = false;
  rest_fallback : LastDitchFallbackTarget (data w) = "";
  rest_wake : HibernateForWakeSeconds (data w) = 0;
  rest_armed : wakeTimerArmed (flags w) = false;
  rest_timer : hibernatePreparationTimer (flags w) = None;
}.

Lemma at_rest_of w w' : data w' = data w → flags w' = flags w → at_rest w → at_rest w'.
Proof. intros Hd Hf []. by split; rewrite ?Hd, ?Hf. Qed.

Lemma publishFSM_frame (b : bool) s w u w' :
  (when b do publishFSMState s) w = (u, w') → data w' = data w ∧ flags w' = flags w ∧ env w' = env w.
Proof. destruct b; intros H; by injection H as _ <-. Qed.

Lemma take_run p s n w s' w' :
  take_transition p (runBack s) (PowerCommandPayload TargetRun false n) w = (s', w') →
  s' = StateRunning ∧ at_rest w'.
Proof.
  intros Hk. unfold take_transition in Hk. cbv zeta in Hk. minv Hk. injection Hk as <- <-. split; [done|].
  apply publishFSM_frame in E1 as (D1 & F1 & _), E3 as (D3 & F3 & _).
  assert (D2 : data w3 = data w2 ∧ flags w3 = flags w2) by (destruct (_ || _) in E2; by injection E2 as _ <-).
  destruct D2 as [D2 F2].
  apply (at_rest_of w1); [congruence|congruence|].
  apply acceptCommand_spec in E0 as (A1 & A2 & A3 & A4 & A5 & A6 & A7 & _). by split.
Qed.

(** ** What an entry leaves in the queue *)

(** The step sends exactly [es]. *)
Definition says (w w' : World) (es : list Event) : Prop :=
  ∃ l, trace w' = trace w ++ l ∧ sent l = es.

Lemma says_trans w1 w2 w3 es1 es2 : says w1 w2 es1 → says w2 w3 es2 → says w1 w3 (es1 ++ es2).
Proof.
  intros (l1 & T1 & <-) (l2 & T2 & <-). exists (l1 ++ l2). by rewrite T2, T1, app_assoc, sent_app.
Qed.

Lemma says_then w1 w2 w3 es : says w1 w2 [] → says w2 w3 es → says w1 w3 es.
Proof. apply (says_trans _ _ _ []). Qed.

Lemma says_since w w' es : says w w' es → sent (since w w') = es.
Proof. intros (l & T & <-). rewrite (since_adds (λ _, true) w w' l); [done|]. split; [done|by apply Forall_true]. Qed.

Lemma says_same w w' : trace w' = trace w → says w w' [].
Proof. intros T. exists []. by rewrite app_nil_r. Qed.

Lemma says_silent {A} (m : ST World A) w a w' : emits silent m → m w = (a, w') → says w w' [].
Proof.
  intros Hm E. destruct (emits_adds _ _ _ _ _ Hm E) as (l & T & F). exists l. split; [done|by apply sent_silent].
Qed.

Lemma says_Send id p w u w' : Send id p w = (u, w') → says w w' [mkEvent id p].
Proof. intros H. exists [OSend (mkEvent id p)]. by injection H as _ <-. Qed.

(** The silent prefix of a computation is dropped from a [says] goal. *)
Ltac quietly E := eapply says_then; [eapply says_silent; [|exact E]|].

Definition runEvent : Event := mkEvent EvPowerRun (PowerCommandPayload TargetRun false 0).

Lemma abortToRun_says w u w' : abortToRun w = (u, w') → says w w' [runEvent].
Proof.
  intros H. unfold abortToRun in H. minv H. quietly E; [apply silent_enableModem|]. by eapply says_Send.
Qed.

Lemma handleWakeup_says w u w' :
  handleWakeupAfterSuspend w = (u, w') →
  ∃ reason, says w w' [mkEvent (wakeEvent reason) (WakeupPayload reason)].
Proof.
  intros H. unfold handleWakeupAfterSuspend in H. minv H. eexists.
  quietly E; [unfold Now; emits_tac|]. quietly E0; [by apply emits_silent|].
  quietly E1; [emits_tac|]. quietly E2; [by apply emits_silent|]. quietly E3; [apply emits_refresh|].
  quietly E4; [destruct (_ && _); emits_tac; apply emits_await|].
  quietly E5; [unfold restoreDelayInhibitor, set_flags; emits_tac|]. by eapply says_Send.
Qed.

(** ** The outcome of the issuing entry *)

(** The event leaves the issuing state for good, given the target and the mode
    of the service. *)
Definition releasing (w : World) (e : Event) : Prop :=
  match evID e with
  | EvLateBlockingInhibitor | EvPowerRun | EvWakeup | EvWakeupRTC => True
  | EvSuspendCancelled => TargetPowerState (data w) = TargetSuspend ∧ evPayload e = NoPayload
  | EvLastDitchDisabled => AutomaticLastDitch (data w) = true
  | _ => False
  end.

Lemma releasing_tva w w' e : tva w' = tva w → releasing w e → releasing w' e.
Proof. unfold releasing. intros [= -> _ ->]. done. Qed.

(** The transition each of these events is sure of. *)
Definition releaser (id : EventID) : Transition :=
  match id with
  | EvLateBlockingInhibitor => mkT StateIssuingLowPower id StateWaitingInhibitors [] None
  | EvPowerRun => runBack StateIssuingLowPower
  | EvSuspendCancelled => mkT StateIssuingLowPower id StateRunning [IsTargetSuspend] (Some OnLowPowerCancelled)
  | EvLastDitchDisabled => mkT StateIssuingLowPower id StateRunning [IsAutomaticLastDitch] (Some OnLastDitchDisabled)
  | _ => mkT StateIssuingLowPower id StateRunning [] (Some OnWakeup)
  end.

Definition release_events : list EventID :=
  [EvLateBlockingInhibitor; EvPowerRun; EvWakeup; EvWakeupRTC; EvSuspendCancelled; EvLastDitchDisabled].

Lemma releaser_candidate id : id ∈ release_events → releaser id ∈ candidates StateIssuingLowPower id.
Proof. rewrite !list_elem_of_In. cbn [release_events In]. intros H. repeat destruct H as [<-|H]; try done; vm_compute; tauto. Qed.

Lemma release_table t :
  t ∈ NewDefinition → src t = StateIssuingLowPower → on t ∈ release_events → dst t ≠ StateIssuingLowPower.
Proof. revert t. refine (table_forall _ _). vm_compute. reflexivity. Qed.

Lemma releaser_passes w e : releasing w e → passes (guards (releaser (evID e))) (evPayload e) w.
Proof.
  destruct e as [id pl]. unfold releasing. cbn [evID evPayload].
  destruct id; try done; intros Hr; try apply passes_nil.
  - destruct Hr as [Ht ->]. by apply (passes_data IsTargetSuspend NoPayload (IsTargetSuspend' NoPayload)), streq_true.
  - by apply (passes_data IsAutomaticLastDitch pl AutomaticLastDitch).
Qed.

Lemma releasing_events w e : releasing w e → evID e ∈ release_events.
Proof. destruct e as [id pl]. unfold releasing. cbn. destruct id; try done; intros _; set_solver. Qed.

Lemma releasing_leaves p w e :
  releasing w e → (deliver_spec p StateIssuingLowPower e w).1 ≠ StateIssuingLowPower.
Proof.
  intros Hr. pose proof (releasing_events w e Hr) as Hid.
  destruct (deliver_moves p _ e w _ (releaser_candidate _ Hid) (releaser_passes w e Hr)) as (t & Ht & ->).
  apply candidates_spec in Ht as (Ht & Hs & Ho). apply release_table; [done|done|by rewrite Ho].
Qed.

Lemma cancel_says c w x w' :
  cancelIneligibleLowPower c w = (x, w') →
  tva w' = tva w ∧
  if x then ∃ e, says w w' [e] ∧ releasing w e else says w w' [].
Proof.
  intros H. split; [eapply keeps_inv; [apply tva_cancel|exact H]|]. unfold cancelIneligibleLowPower in H. minv H.
  assert (Hs : says w w0 []) by (eapply says_silent; [|exact E]; auto with frame).
  apply (keeps_inv core) in E as Hc; [|auto with frame]. injection Hc as _ Hd _ _ _ _ _ _ _.
  destruct a; cbn [negb] in H; cbv iota in H; minv H; [|by injection H as <- <-].
  injection H as <- <-.
  assert (Hd1 : AutomaticLastDitch (data w1) = AutomaticLastDitch (data w) ∧ says w0 w1 []).
  { injection E0 as _ <-. split; [by rewrite <- Hd|by apply says_same]. }
  destruct Hd1 as [Ha H1]. rewrite Ha in E1. destruct (AutomaticLastDitch (data w)) eqn:Hauto; eexists;
    (split; [eapply says_then; [exact Hs|]; eapply says_then; [exact H1|]; by eapply says_Send|]); [done|].
  split; [|done]. unfold ShouldCancelLowPower' in E. minv E. rewrite Hauto in E. cbv iota in E.
  destruct (String.eqb_spec (TargetPowerState (data w)) TargetSuspend); [done|]. by minv E.
Qed.

Lemma awaitWake_says w x w' :
  awaitWakeSource w = (x, w') → if x then says w w' [] else says w w' [runEvent].
Proof.
  intros H. destruct x.
  { apply awaitWakeSource_spec in H as [_ (l & [T F] & _)]. exists l. split; [done|by apply sent_silent]. }
  unfold awaitWakeSource in H. minv H. destruct (_ && _) in H; minv H; [|done].
  destruct a0; cbn [negb] in H; cbv iota in H; minv H; [done|]. injection H as <-.
  quietly E; [auto with frame|]. quietly E0; [unfold waitForWakeTimer, get_st, set_flags; emits_tac|].
  apply clearHibernateRequest_spec in E1 as (_ & _ & _ & _ & _ & _ & l & T & F).
  eapply says_then; [exists l; split; [exact T|by apply sent_silent]|]. by eapply says_Send.
Qed.

Lemma announce_says w x w' :
  announceSuspend w = (x, w') → says w w' (if x then [] else [runEvent]).
Proof.
  intros H. unfold announceSuspend in H. minv H. quietly E; [unfold liveVehicleInStandby; emits_tac|].
  destruct a; cbn [negb] in H; cbv iota in H; minv H.
  - quietly E0; [by apply emits_silent|]. quietly E1; [emits_tac|]. quietly E2; [emits_tac|].
    quietly E3; [emits_tac|]. 
    destruct a1; cbn [negb] in H; cbv iota in H; minv H; injection H as <- <-; [by apply says_same|].
    by eapply abortToRun_says.
  - injection H as <- <-. quietly E0; [by apply emits_silent|]. by eapply abortToRun_says.
Qed.

Definition stopping (w : World) : Prop := ∃ n, e_ctx (env w) n = true.

(** An event that leaves the state is in the queue, or the service stops. *)
Definition released (w w' : World) : Prop :=
  (∃ e, says w w' [e] ∧ releasing w' e) ∨ (says w w' [] ∧ stopping w').

Lemma released_then w1 w2 w3 : says w1 w2 [] → released w2 w3 → released w1 w3.
Proof.
  intros H1 [(e & H2 & Hr)|[H2 Hs]]; [left; exists e|right]; (split; [|done]); by eapply says_then.
Qed.

(** Drop the next silent step from the front. *)
Ltac hush :=
  lazymatch goal with
  | |- released ?w _ =>
      match goal with E : ?m w = (_, _) |- _ =>
        eapply released_then; [eapply says_silent; [|exact E]; solve [by apply emits_silent | emits_tac]|clear E] end
  end.

Lemma released_run w w' : says w w' [runEvent] → released w w'.
Proof. intros H. left. by exists runEvent. Qed.

Lemma released_abort w u w' : (setIssued false;; abortToRun) w = (u, w') → released w w'.
Proof.
  intros H. minv H. apply released_run. quietly E; [by apply emits_silent|]. by eapply abortToRun_says.
Qed.

Lemma commitSuspend_says c w u w' : commitSuspend c w = (u, w') → released w w'.
Proof.
  intros H. unfold commitSuspend in H. minv H.
  eapply released_then; [eapply says_silent; [|exact E]; unfold liveVehicleInStandby; emits_tac|].
  destruct a; cbn [negb] in H; cbv iota in H; [|by eapply released_abort]. minv H.
  apply cancel_says in E0 as [V Hc]. destruct a; minv H.
  { injection H as _ <-. destruct Hc as (e & Hs & Hr). left. exists e. split; [done|]. by eapply releasing_tva. }
  eapply released_then; [exact Hc|].
  eapply released_then; [eapply says_silent; [|exact E0]; unfold admitSuspend; pose proof (emits_recover silent silent_lenient); emits_tac|].
  destruct a as [q|]; [|by eapply released_abort]. clear E0. minv H. hush.
  apply (released_then _ w4); [exists [OSuspend a]; by injection E1 as _ <-|clear E1].
  destruct (bool_decide (a = Resumed)); minv H.
  - hush. apply handleWakeup_says in H as [reason H]. left. eexists. split; [exact H|].
    unfold releasing, wakeEvent. cbn [evID]. by destruct (_ =s _).
  - hush. hush. match goal with Ea : ask e_ctx ?wa = (?s, _) |- _ =>
      assert (Ha : e_ctx (env wa) (tick wa) = s) by (by injection Ea); injection Ea as _ <-; destruct s; minv H end.
    + injection H as _ <-. right. split; [by apply says_same|]. by eexists.
    + apply abortToRun_says in H. eapply released_then; [|by apply released_run]. by apply says_same.
Qed.

(** Nothing was sent although the machine stays: the command is out, there is
    nothing to do, or the service stops. *)
Definition spent (w w' : World) : Prop :=
  says w w' [] ∧
  (stopping w' ∨ (∃ cmd ok, OIssue cmd ok ∈ since w w') ∨
   (DryRun (cfg w) = true ∧ TargetPowerState (data w) ≠ TargetSuspend) ∨
   powerCommand (TargetPowerState (data w)) = None).

Lemma spent_then w1 w2 w3 :
  cfg w2 = cfg w1 → TargetPowerState (data w2) = TargetPowerState (data w1) →
  says w1 w2 [] → spent w2 w3 → spent w1 w3.
Proof.
  intros Hc Ht H1 [H2 Hs]. split; [by eapply says_then|]. rewrite Hc, Ht in Hs.
  destruct Hs as [Hs|[(cmd & ok & Hin)|Hs]]; [by left| |by right; right].
  right. left. exists cmd, ok. destruct H1 as (l1 & T1 & _), H2 as (l2 & T2 & _).
  rewrite (since_adds (λ _, true) _ _ l2) in Hin by (split; [done|by apply Forall_true]).
  rewrite (since_adds (λ _, true) _ _ (l1 ++ l2)).
  - apply elem_of_app. by right.
  - split; [by rewrite T2, T1, app_assoc|by apply Forall_true].
Qed.

Lemma commitPoweroff_says c cmd w r w' :
  commitPoweroff c cmd w = (r, w') →
  (∃ e, says w w' [e] ∧ releasing w' e) ∨ (says w w' [] ∧ ∃ ok, OIssue cmd ok ∈ since w w').
Proof.
  intros H. unfold commitPoweroff in H. minv H.
  assert (Hx : tva w0 = tva w ∧ if a then ∃ e, says w w0 [e] ∧ releasing w e else says w w0 []).
  { destruct (cmd =s "poweroff"); [by apply cancel_says in E|]. rewrite run_ret in E. injection E as <- <-.
    split; [done|by apply says_same]. }
  destruct Hx as [V Hx]. destruct a; minv H.
  { injection H as _ <-. left. destruct Hx as (e & Hs & Hr). exists e. split; [done|]. by eapply releasing_tva. }
  right. assert (T : trace w' = trace w0 ++ [OIssue cmd a]).
  { injection E0 as _ <-. injection E1 as _ <-. destruct a; cbn [negb] in H; cbv iota in H; minv H.
    - by injection H as _ <-.
    - injection H as _ <-. by injection E0 as _ <-. }
  destruct Hx as (l & Tl & Sl). rewrite Tl in T. split.
  - exists (l ++ [OIssue cmd a]). split; [by rewrite T, app_assoc|]. by rewrite sent_app, Sl.
  - exists a. rewrite (since_adds (λ _, true) _ _ (l ++ [OIssue cmd a])).
    + apply elem_of_app. right. by left.
    + split; [by rewrite T, app_assoc|by apply Forall_true].
Qed.

Lemma issueCommand_says c cmd w r w' :
  issueCommand c cmd w = (r, w') → released w w' ∨ spent w w'.
Proof.
  intros H. unfold issueCommand in H. minv H.
  assert (H1 : cfg w1 = cfg w ∧ TargetPowerState (data w1) = TargetPowerState (data w) ∧ says w w1 []).
  { assert (H0 : cfg w0 = cfg w ∧ TargetPowerState (data w0) = TargetPowerState (data w) ∧ says w w0 [])
      by (injection E as _ <-; split; [done|split; [done|by apply says_same]]).
    destruct H0 as (C0 & T0 & S0).
    assert (K : core w1 = core w0) by (eapply keeps_inv; [|exact E0]; keeps_tac).
    injection K as Kc Kd _ _ _ _ _ _ _. split; [congruence|]. split; [congruence|].
    eapply says_then; [exact S0|]. eapply says_silent; [|exact E0]. emits_tac. }
  destruct H1 as (C1 & T1 & S1). clear E E0.
  destruct (cmd =s "suspend"); minv H.
  - left. eapply released_then; [exact S1|]. injection H as _ <-. apply announce_says in E.
    lazymatch type of E with says _ _ (if ?b then _ else _) => destruct b end.
    2: { minv E0. injection E0 as _ <-. by apply released_run. }
    eapply released_then; [exact E|]. by eapply commitSuspend_says.
  - apply commitPoweroff_says in H as [(e & Hs & Hr)|[Hs [ok Hin]]].
    + left. eapply released_then; [exact S1|]. left. by exists e.
    + right. eapply spent_then; [done|done|exact S1|]. split; [done|]. right. left. eauto.
Qed.

Lemma EnterIssuing_says c w r w' :
  EnterIssuingLowPower' c w = (r, w') → released w w' ∨ spent w w'.
Proof.
  intros H. unfold EnterIssuingLowPower' in H. minv H. pose proof E as Ec. apply cancel_says in E as [V Hc].
  destruct a; minv H.
  { injection H as _ <-. left. left. destruct Hc as (e & Hs & Hr). exists e. split; [done|]. by eapply releasing_tva. }
  apply cancel_spec in Ec as (K & _). injection K as Kc Kd _ _ _ _ _ _ _.
  pose proof (awaitWake_says _ _ _ E) as Hw. apply awaitWakeSource_spec in E.
  destruct a; cbn [negb] in H; cbv iota in H; minv H.
  2: { injection H as _ <-. left. eapply released_then; [exact Hc|]. by apply released_run. }
  destruct E as [Kb _]. injection Kb as Kc1 Kd1 _ _ _.
  assert (Hcw : cfg w1 = cfg w) by congruence.
  assert (Htw : TargetPowerState (data w1) = TargetPowerState (data w)) by congruence.
  assert (Hsw : says w w1 []) by by eapply says_then.
  assert (Hl : ∀ wn, released w1 wn ∨ spent w1 wn → released w wn ∨ spent w wn).
  { intros wn [Hr|Hs]; [left; by eapply released_then|right; by eapply spent_then]. }
  apply Hl. destruct (DryRun (cfg w1)) eqn:Hdry; minv H.
  { injection H as _ <-. destruct (String.eqb_spec (TargetPowerState (data w1)) "suspend") as [Ht|Ht].
    - left. left. eexists. split; [by eapply says_Send|done].
    - minv E. injection E as _ <-. right. split; [by apply says_same|]. auto. }
  destruct (powerCommand _) as [cmd|] eqn:Hcmd; minv H.
  2: { injection H as _ <-. right. split; [by apply says_same|]. auto. }
  assert (Hb : says w1 w2 []) by (eapply says_silent; [|exact E]; emits_tac).
  apply HasBlocking_spec in E as Hb'. destruct a; cbv iota in H; minv H.
  { injection H as _ <-. left. eapply released_then; [exact Hb|]. left. eexists. split; [by eapply says_Send|done]. }
  apply issueCommand_says in H as [Hr|Hs]; [left; by eapply released_then|right].
  eapply spent_then; [| |exact Hb|exact Hs]; [by injection E as _ <-|by destruct Hb' as (_ & -> & _)].
Qed.

Section progress.
Context `{Cron} `{LibreFSM}.

Lemma delivered_wf s w e :
  reachable (s, w) → OSend e ∈ trace w ∨ timeout_event (cfg w) s e → wf_event e = true.
Proof.
  intros Hr [He|He]; [|by apply timeout_wf in He as [? _]].
  apply reachable_inv in Hr. eapply sends_wf_elem; [apply Hr|done].
Qed.

(** [StateSuspended] is never entered: its documented way in is the event
    [EvLowPowerIssued], which nothing sends.  A resume is handled inside the
    issuing state. *)
Lemma suspended_excluded (s : StateID) (w : World) : reachable (s, w) → s ≠ StateSuspended.
Proof.
  intros Hr. remember (s, w) as m eqn:Em. revert s w Em.
  induction Hr as [c cl e ts m w' Hs|[s0 w0] [s1 w1] Hr IH Hst]; intros s w [= <- <-]; [done|].
  specialize (IH _ _ eq_refl). inversion Hst as [? ? e ? ? He Hd|]; subst; [|done].
  apply delivered_wf in He as Hwf; [|done]. rewrite deliver_law in Hd.
  apply deliver_inv in Hd as [(-> & _)|(t & w2 & Ht & <- & Ho & -> & _)]; [done|].
  intros Hd. destruct (table_suspended t Ht Hd) as [|Hon]; [done|].
  rewrite Ho in Hon. destruct e as [id pl]. cbn in Hon. subst id. by destruct pl.
Qed.

(** C13: "run" always works.  The commands "run" and "hibernate-cancel" send one
    event; whenever the machine gets to deliver it, in whatever reachable state
    the service is by then, the machine is back in [Running] with no target, no
    pending request or its timer, no automatic last-ditch and no timed wake-up
    left. *)
Theorem run_returns (command : string) (w : World) :
  command ∈ ["run"; "hibernate-cancel"] →
  ∃ e, sent (since w (run_handler (HPower command) w).2) = [e] ∧
    ∀ s2 w2, reachable (s2, w2) → 
      (deliver s2 e w2).1 = StateRunning ∧ at_rest (deliver s2 e w2).2.
Proof.
  intros Hc. set (ev := mkEvent EvPowerRun (PowerCommandPayload TargetRun false 0)). exists ev. split.
  - apply list_elem_of_In in Hc. destruct Hc as [<-|[<-|[]]].
    + by rewrite (since_adds (λ _, true) w _ [OSend ev]) by (split; [done|by apply Forall_true]).
    + set (pub := OPublish "power-manager" [("wake-timer-seconds", "0")] (e_write (env w) (tick w))).
      rewrite (since_adds (λ _, true) w _ [pub; OSend ev]); [done|]. split; [|by apply Forall_true].
      change ((trace w ++ [pub]) ++ [OSend ev] = trace w ++ [pub; OSend ev]). by rewrite <- app_assoc.
  - intros s2 w2 Hr. pose proof (candidates_run _ (suspended_excluded _ _ Hr)) as Hs.
    rewrite deliver_law, (deliver_only fsm_policy s2 ev (runBack s2) w2 Hs eq_refl). cbn [evPayload ev].
    destruct (take_transition _ _ _ w2) as [s' w'] eqn:E. by eapply take_run.
Qed.

(** What a step that enters the issuing state is made of. *)
Lemma entering s w w' :
  reachable (s, w) → mstep (s, w) (StateIssuingLowPower, w') → s ≠ StateIssuingLowPower →
  ∃ c wi r wo, says w wi [] ∧ cfg wi = cfg w ∧ TargetPowerState (data wi) = TargetPowerState (data w) ∧
    EnterIssuingLowPower' c wi = (r, wo) ∧ says wo w' [] ∧ core w' = core wo.
Proof.
  intros Hr Hst Hn. inversion Hst as [? ? e ? ? He Hd|]; subst; [|done]. rewrite deliver_law in Hd.
  apply deliver_inv in Hd as [(<- & _)|(t & w0 & Ht & Hs & Ho & Hdst & Hc & [l0 [T0 F0]] & _ & _ & Hk)]; [done|].
  apply take_entry in Hk as [[Hsd _]|(wi & r & wo & l1 & l2 & [T1 F1] & V & _ & He1 & [T2 F2] & _ & C2)];
    [congruence| |done|done].
  injection Hc as Hc Hd _ _ _ _ _ _ _. injection V as Vc Vt _ _ _ _ _ _ _.
  exists (evPayload e), wi, r, wo. split; [|split; [congruence|split; [congruence|split; [done|split; [|done]]]]].
  - exists (l0 ++ l1). split; [by rewrite T1, T0, app_assoc|]. apply sent_silent, Forall_app. by split.
  - exists l2. split; [done|by apply sent_silent].
Qed.

(** C4: how the issuing state is left.  Whenever a step enters it, either that
    very step has sent exactly one event, and delivering that event, after any
    callbacks that run meanwhile and whatever the environment answers by then,
    leaves the state again; or nothing was sent, and then a poweroff or reboot
    was issued (one that fails does leave the machine there), the service is
    stopping, it is a dry run with a target other than suspend, or the target
    has no command. *)
Theorem issuing_progress (s : StateID) (w w' : World) :
  reachable (s, w) → mstep (s, w) (StateIssuingLowPower, w') → s ≠ StateIssuingLowPower →
  (∃ e, sent (since w w') = [e] ∧
     ∀ hs : list Handler,
       (deliver StateIssuingLowPower e (fold_left (λ w h, (run_handler h w).2) hs w')).1 ≠ StateIssuingLowPower) ∨
  (sent (since w w') = [] ∧
     ((∃ cmd ok, OIssue cmd ok ∈ since w w') ∨ stopping w' ∨
      (DryRun (cfg w) = true ∧ TargetPowerState (data w) ≠ TargetSuspend) ∨
      powerCommand (TargetPowerState (data w)) = None)).
Proof.
  intros Hr Hst Hn. destruct (entering s w w' Hr Hst Hn) as (c & wi & r & wo & S1 & C1 & T1 & He & S2 & C2).
  apply EnterIssuing_says in He. injection C2 as C2 D2 _ _ _ _ _ _ E2.
  assert (Hst' : stopping wo → stopping w') by (unfold stopping; by rewrite E2).
  destruct He as [[(e & Hs & Hre)|[Hs Hsp]]|Hs].
  - left. exists e. split; [apply says_since; eapply says_then; [exact S1|]; exact (says_trans _ _ _ [e] [] Hs S2)|].
    intros hs. rewrite deliver_law. apply releasing_leaves. eapply releasing_tva; [|exact Hre]. symmetry.
    assert (Hh : data (fold_left (λ w h, (run_handler h w).2) hs w') = data wo).
    { rewrite <- D2. clear. revert w'. induction hs as [|h hs IH]; intros w'; [done|]. cbn [fold_left].
      by rewrite IH, handlers_data. }
    unfold tva. by rewrite Hh.
  - right. split; [apply says_since; eapply says_then; [exact S1|]; eapply says_then; [exact Hs|exact S2]|]. auto.
  - right. apply (spent_then w) in Hs as [Hs Hsp]; [|done|done|done].
    split; [apply says_since; exact (says_trans _ _ _ [] [] Hs S2)|].
    destruct Hsp as [Hsp|[(cmd & ok & Hin)|Hsp]]; [auto| |auto].
    left. exists cmd, ok. destruct Hs as (l1 & Tl1 & _), S2 as (l2 & Tl2 & _).
    rewrite (since_adds (λ _, true) _ _ l1) in Hin by (split; [done|by apply Forall_true]).
    rewrite (since_adds (λ _, true) _ _ (l1 ++ l2)); [apply elem_of_app; by left|].
    split; [by rewrite Tl2, Tl1, app_assoc|by apply Forall_true].
Qed.
End progress.

Lemma run_returns_witness :
  "hibernate-cancel" ∈ ["run"; "hibernate-cancel"] ∧ @reachable noCron sampleFSM (hibernateRun.1, hibernateRun.2) ∧
  ∃ e, sent (since hibernateRun.2 (@run_handler noCron (HPower "hibernate-cancel") hibernateRun.2).2) = [e] ∧
    (@deliver sampleFSM hibernateRun.1 e hibernateRun.2).1 = StateRunning.
Proof.
  assert (Hc : "hibernate-cancel" ∈ ["run"; "hibernate-cancel"]) by (apply list_elem_of_In; cbn; tauto).
  assert (Hr : @reachable noCron sampleFSM (hibernateRun.1, hibernateRun.2))
    by (rewrite <- surjective_pairing; exact hibernateRun_reachable).
  split; [exact Hc|]. split; [exact Hr|].
  destruct (@run_returns noCron sampleFSM "hibernate-cancel" hibernateRun.2 Hc) as (e & Hs & Hd).
  exists e. split; [exact Hs|]. exact (proj1 (Hd _ _ Hr)).
Defined.

Lemma issuing_progress_witness :
  (issue suspendRun).1 = StateIssuingLowPower ∧ suspendRun.1 ≠ StateIssuingLowPower ∧
  ∃ e, sent (since suspendRun.2 (issue suspendRun).2) = [e] ∧
    (@deliver sampleFSM StateIssuingLowPower e (issue suspendRun).2).1 ≠ StateIssuingLowPower.
Proof.
  assert (H1 : (issue suspendRun).1 = StateIssuingLowPower) by (vm_compute; reflexivity).
  assert (H2 : suspendRun.1 ≠ StateIssuingLowPower) by (vm_compute; discriminate).
  split; [exact H1|]. split; [exact H2|].
  destruct (sample_step suspendRun suspendRun_reachable) as [Hr Hs]; [by rewrite H1; apply not_eq_sym|].
  rewrite H1 in Hs.
  destruct (@issuing_progress noCron sampleFSM _ _ _ Hr Hs H2) as [(e & Hse & Hd)|[Hse _]].
  - exists e. split; [exact Hse|exact (Hd [])].
  - exfalso. revert Hse. vm_compute. discriminate.
Defined.
