(* ===== verification/Typing.v ===== *)
(** * The types of the service's state

    Go's types bound what the fields may hold: unsigned and signed widths, the
    named power targets, the clamped charges.  [typed] states the domain of
    every field whose value comes from outside or from arithmetic, and every
    callback, guard, action and entry preserves it. *)

From S2P Require Import Prelude GoInt GoTime GoDuration HibTimer Scheduler SchedulerFacts Fsm.
From S2P Require Import Inhibitor LastDitch GoFloat ClockProto Systemd ClockClient SvcState.
From S2P Require Import SvcGuards SvcActions Issuing SvcFacts IssuingFacts WakeFacts ActionFacts.
From S2P Require Import ClockGuard Handlers HandlerFacts Machine Runs MachineFacts MachineSafety.

(** ** Domains *)

(** The power targets; a default state is one without a timed wake-up. *)
Definition is_target (t : string) : Prop := t ∈ targets.
Definition is_default (t : string) : Prop := isValidDefaultState t = true.

Definition charge_ok (c : Z) : Prop := - 1 ≤ c ≤ 100.
Definition voltage_ok (v : Z) : Prop := - 1 ≤ v < 2 ^ 63.
Definition positive_u32 (n : Z) : Prop := 1 ≤ n < 2 ^ 32.

Definition payload_typed (p : Payload) : Prop :=
  match p with
  | PowerCommandPayload t _ n => is_target t ∧ is_u32 n ∧ (t = TargetHibernateFor → 1 ≤ n)
  | _ => True
  end.

Definition obs_typed (o : Obs) : Prop :=
  match o with OSend e => payload_typed (evPayload e) | _ => True end.

Record cfg_typed (c : Config) : Prop := {
  tc_cap : positive_u32 (WakeTimerMaxSeconds c);
  tc_default : is_default (DefaultState c);
  tc_timer : 0 ≤ HibernationTimer c;
}.

Record data_typed (d : FSMData) : Prop := {
  td_target : is_target (TargetPowerState d);
  td_fallback : LastDitchFallbackTarget d = "" ∨ is_target (LastDitchFallbackTarget d);
  td_wake : is_u32 (HibernateForWakeSeconds d);
}.

Record ld_typed (l : LastDitch) : Prop := {
  tl_cbb : charge_ok (cbBatteryCharge l);
  tl_b0 : charge_ok (battery0Charge l);
  tl_b1 : charge_ok (battery1Charge l);
  tl_aux : voltage_ok (auxVoltageMv l);
}.

Record settings_typed (s : Settings) : Prop := {
  ts_cap : wakeTimerMaxSecondsOver s = 0 ∨ 60 ≤ wakeTimerMaxSecondsOver s < 2 ^ 32;
  ts_ack : wakeTimerAckTimeoutOver s = 0 ∨ Second ≤ wakeTimerAckTimeoutOver s < 2 ^ 63;
}.

Definition flags_typed (f : Flags) : Prop := ∀ v, wakeTimerAcks f = Some v → is_u32 v.

Record typed (w : World) : Prop := {
  t_cfg : cfg_typed (cfg w);
  t_data : data_typed (data w);
  t_ld : ld_typed (ld w);
  t_settings : settings_typed (settings w);
  t_flags : flags_typed (flags w);
  t_timer : timer_ok (htimer w);
  t_trace : Forall obs_typed (trace w);
}.

(** ** Preservation *)

Definition typ {A} (m : ST World A) : Prop := steps (λ w w', typed w → typed w') m.

#[local] Instance typ_preorder : PreOrder (λ w w' : World, typed w → typed w').
Proof. split; [intros w Hw; exact Hw|]. intros x y z H1 H2 Hx. exact (H2 (H1 Hx)). Qed.

Lemma typ_ret {A} (a : A) : typ (mret a).
Proof. by intros ?. Qed.
Lemma typ_skip : typ skip.
Proof. by intros ?. Qed.
Lemma typ_bind {A B} (m : ST World A) (k : A → ST World B) : typ m → (∀ a, typ (k a)) → typ (m ≫= k).
Proof. apply steps_bind. apply _. Qed.
(** What is read from a typed state is known to be typed. *)
Lemma typ_gets {A B} (f : World → A) (k : A → ST World B) : (∀ w, typed w → typ (k (f w))) → typ (gets f ≫= k).
Proof. intros Hk w Hw. rewrite gets_bind. by apply Hk. Qed.
Lemma typ_get_st {B} (k : World → ST World B) : (∀ w, typed w → typ (k w)) → typ (get_st ≫= k).
Proof. intros Hk w Hw. rewrite get_st_bind. by apply Hk. Qed.
Lemma typ_gets_end {A} (f : World → A) : typ (gets f).
Proof. by intros ?. Qed.
Lemma typ_ask {A} (f : Env → nat → A) : typ (ask f).
Proof. by intros ? []. Qed.
Lemma typ_emit o : obs_typed o → typ (emit o).
Proof. intros Ho w []. split; try done. cbn. apply Forall_app. split; [done|by constructor]. Qed.
Lemma typ_Send id p : payload_typed p → typ (Send id p).
Proof. intros Hp. by apply (typ_emit (OSend (mkEvent id p))). Qed.

Lemma typ_set_data f : (∀ d, data_typed d → data_typed (f d)) → typ (set_data f).
Proof. intros Hf w []. split; try done. by apply Hf. Qed.
Lemma typ_set_ld f : (∀ l, ld_typed l → ld_typed (f l)) → typ (set_ld f).
Proof. intros Hf w []. split; try done. by apply Hf. Qed.
Lemma typ_set_settings f : (∀ s, settings_typed s → settings_typed (f s)) → typ (set_settings f).
Proof. intros Hf w []. split; try done. by apply Hf. Qed.
Lemma typ_set_flags f : (∀ x, flags_typed x → flags_typed (f x)) → typ (set_flags f).
Proof. intros Hf w []. split; try done. by apply Hf. Qed.
Lemma typ_timer f : (∀ w, typed w → timer_ok (f w)) → typ (modify (λ w, w <| htimer := f w |>)).
Proof. intros Hf w Hw. pose proof (Hf w Hw). destruct Hw. by split. Qed.
Lemma typ_sched f : typ (modify (λ w, w <| sched := f w |>)).
Proof. by intros ? []. Qed.
Lemma typ_guard f : typ (modify (λ w, w <| guard := f w |>)).
Proof. by intros ? []. Qed.
Lemma typ_floor f : typ (modify (λ w, w <| clockFloor := f w |>)).
Proof. by intros ? []. Qed.
Lemma typ_default v : is_default v → typ (modify (λ w, w <| cfg := (cfg w) <| DefaultState := v |> |>)).
Proof. intros Hv w [[Hc _ Ht] ? ? ? ? ? ?]. split; [by split|done..]. Qed.

Create HintDb typing.
#[export] Hint Resolve typ_ret typ_skip typ_ask typ_emit typ_gets_end typ_sched typ_guard typ_floor : typing.

(** Follow a computation; updates that do not touch a typed field, and those
    whose new value is known to be typed, are settled on the spot. *)
Ltac typ_value := fail.
Ltac typ_record H :=
  first [exact H | solve [auto with typing] | solve [intros ? [=]]
        | destruct H; constructor; first [assumption | typ_value | by auto with typing]].

Ltac typ_leaf := let H := fresh in intros ? H; typ_record H.
Ltac typ_step :=
  lazymatch goal with
  | |- typ (mbind _ (gets _)) => apply typ_gets; intros ? ?
  | |- typ (mbind _ get_st) => apply typ_get_st; intros ? ?
  | |- typ (mbind _ _) => apply typ_bind; [|intros ?]
  | |- typ (set_data _) => apply typ_set_data; solve [typ_leaf]
  | |- typ (set_flags _) => apply typ_set_flags; solve [typ_leaf]
  | |- typ (set_ld _) => apply typ_set_ld; solve [typ_leaf]
  | |- typ (set_settings _) => apply typ_set_settings; solve [typ_leaf]
  | |- typ (Send _ _) => apply typ_Send; try first [done | solve [auto with typing]]
  | |- typ (emit _) => by apply typ_emit
  | |- typ (HGet _ _) => unfold HGet
  | |- typ (HGetAll _) => unfold HGetAll
  | |- typ (publish _ _) => unfold publish
  | |- typ (LPush _ _) => unfold LPush
  | |- typ (HasBlocking _) => unfold HasBlocking
  | |- typ (coordinator _) => unfold coordinator
  | |- typ Now => unfold Now
  | |- typ Inhibitors => unfold Inhibitors
  | |- typ (if ?b then _ else _) => destruct b eqn:?
  | |- typ (match ?x with _ => _ end) => destruct x eqn:?
  end.
Ltac typ_tac := repeat first [typ_step | progress cbv zeta]; try solve [auto with typing nocore].

(** ** Parsed values *)

Lemma parseCharge_ok v : charge_ok (parseChargeOrUnknown v).
Proof. unfold parseChargeOrUnknown, charge_ok. destruct (Atoi _); [|lia]. repeat split_if; bools; lia. Qed.

Lemma parseNonNegative_ok v : voltage_ok (parseNonNegativeInt v).
Proof.
  unfold parseNonNegativeInt, voltage_ok. destruct (Atoi _) as [n|] eqn:E; [|tlia].
  apply ParseInt_range in E; [|done]. unfold intSize in E. split_if; bools; tlia.
Qed.

Ltac typ_value ::= first [apply parseCharge_ok | apply parseNonNegative_ok].

Lemma default_target t : is_default t → is_target t.
Proof.
  unfold is_default, isValidDefaultState. rewrite one_of_spec. unfold is_target, targets. set_solver.
Qed.

(** ** The last-ditch inputs *)

Lemma ld_trigger now l : ld_typed l → ld_typed (lastDitchTriggeredLocked now l).2.
Proof. intros []. unfold lastDitchTriggeredLocked. by repeat split_if. Qed.

Lemma ld_aux mv l : voltage_ok mv → ld_typed l → ld_typed (setAuxVoltageLocked mv l).
Proof. intros Hv []. unfold setAuxVoltageLocked. by repeat split_if. Qed.

Lemma ld_applies r f l : (∀ v l, ld_typed l → ld_typed (f v l)) → ld_typed l → ld_typed (applies r f l).
Proof. intros Hf Hl. unfold applies. destruct r; [split_if; auto|done]. Qed.

Lemma ld_set_present slot b l : ld_typed l → ld_typed (setBatteryPresent slot b l).
Proof. intros []. unfold setBatteryPresent. by repeat split_if. Qed.

Lemma ld_set_charge slot v l : ld_typed l → ld_typed (setBatteryCharge slot (parseChargeOrUnknown v) l).
Proof. intros []. pose proof (parseCharge_ok v). unfold setBatteryCharge. by repeat split_if. Qed.

Lemma ld_enabled v l : ld_typed l → ld_typed (setLastDitchHibernateEnabled v l).2.
Proof. intros []. unfold setLastDitchHibernateEnabled. by destruct (parseSettingBool v). Qed.

#[export] Hint Resolve parseCharge_ok parseNonNegative_ok ld_trigger ld_aux ld_applies ld_set_present
  ld_set_charge ld_enabled : typing.

Lemma ld_readings r l : ld_typed l → ld_typed (applyReadings r l).
Proof.
  intros Hl. unfold applyReadings.
  repeat (apply ld_applies; [intros v l' H; typ_record H|]).  done.
Qed.
#[export] Hint Resolve ld_readings : typing.

Lemma typ_applies r f : (∀ v l, ld_typed l → ld_typed (f v l)) → typ (set_ld (applies r f)).
Proof. intros Hf. apply typ_set_ld. intros l. by apply ld_applies. Qed.

(** ** Guards *)

Lemma typ_evalLastDitch : typ evalLastDitch.
Proof.
  unfold evalLastDitch. typ_tac. apply typ_set_ld. intros ? _.
  match goal with Hw : typed ?w, E : lastDitchTriggeredLocked ?n _ = (?b, ?l) |- _ =>
    change l with (b, l).2; rewrite <- E; apply ld_trigger, Hw end.
Qed.

Lemma typ_IsLastDitchTriggered : typ IsLastDitchTriggered'.
Proof.
  unfold IsLastDitchTriggered', refreshLastDitchInputs. pose proof typ_evalLastDitch. typ_tac.
Qed.
#[export] Hint Resolve typ_evalLastDitch typ_IsLastDitchTriggered : typing.

Lemma typ_CanEnter c : typ (CanEnterLowPowerState' c).
Proof.
  unfold CanEnterLowPowerState', or_else, liveBatteryPresent, liveBatteryActive, suspendBlockedWhileOnline.
  typ_tac.
Qed.
#[export] Hint Resolve typ_CanEnter : typing.

Lemma typ_ShouldCancel c : typ (ShouldCancelLowPower' c).
Proof. unfold ShouldCancelLowPower', and_then, liveVehicleInStandby. typ_tac. Qed.
Lemma typ_setStatus s r : typ (setHibernateStatus s r).
Proof. unfold setHibernateStatus. typ_tac. Qed.
#[export] Hint Resolve typ_ShouldCancel typ_setStatus : typing.
Lemma typ_explicit t : typ (explicitHibernateState t).
Proof. unfold explicitHibernateState, or_else, hasOnlyModemBlockingInhibitors. typ_tac. Qed.
#[export] Hint Resolve typ_explicit : typing.

Lemma eval_guard_typ g c : typ (eval_guard g c).
Proof.
  destruct g; cbn [eval_guard]; unfold CanAcceptExplicitHibernate', HasNoBlockingInhibitors',
    HasOnlyModemInhibitors', CanProceedPastModemWait', hasOnlyModemBlockingInhibitors; typ_tac.
Qed.
#[export] Hint Resolve eval_guard_typ : typing.

(** ** Actions *)

Lemma typ_disableModem : typ disableModem.
Proof. unfold disableModem, pushModemCommand. typ_tac. Qed.
Lemma typ_enableModem : typ enableModem.
Proof. unfold enableModem, pushModemCommand. typ_tac. Qed.
Lemma typ_setIssued b : typ (setIssued b).
Proof. unfold setIssued. typ_tac. Qed.
Lemma typ_setArmed b : typ (setArmed b).
Proof. unfold setArmed. typ_tac. Qed.
Lemma typ_setTarget t : is_target t → typ (setTarget t).
Proof. intros Ht. unfold setTarget. typ_tac. Qed.
Lemma typ_setWake n : is_u32 n → typ (setWakeSeconds n).
Proof. intros Hn. unfold setWakeSeconds. typ_tac. Qed.
Lemma typ_clearAuto : typ clearAutomaticLastDitch.
Proof. unfold clearAutomaticLastDitch. apply typ_set_data. intros d []. split; try done. by left. Qed.
Lemma typ_resetTimer b : typ (resetHibernationTimer b).
Proof. unfold resetHibernationTimer. typ_tac. apply typ_timer. intros w []. by apply ResetTimer_ok. Qed.
#[export] Hint Resolve typ_disableModem typ_enableModem typ_setIssued typ_setArmed typ_clearAuto
  typ_resetTimer : typing.

Lemma is_u32_0 : is_u32 0.
Proof. done. Qed.
Lemma target_run : is_target TargetRun.
Proof. unfold is_target, targets. set_solver. Qed.
Lemma target_hibernate : is_target TargetHibernate.
Proof. unfold is_target, targets. set_solver. Qed.
#[export] Hint Resolve typ_setTarget typ_setWake is_u32_0 target_run target_hibernate : typing.

Lemma typ_clearRequest s r : typ (clearHibernateRequest s r).
Proof. unfold clearHibernateRequest, stopHibernatePreparationTimer. typ_tac. Qed.
Lemma typ_prepare s : typ (prepareExplicitHibernate s).
Proof. unfold prepareExplicitHibernate. typ_tac. Qed.
Lemma typ_beginLastDitch : typ beginAutomaticLastDitch.
Proof.
  unfold beginAutomaticLastDitch. typ_tac; apply typ_set_data; intros d []; split; cbn; auto with typing.
Qed.
#[export] Hint Resolve typ_clearRequest typ_prepare typ_beginLastDitch : typing.

Lemma typ_OnWakeup c : typ (OnWakeup' c).
Proof. unfold OnWakeup', publishWakeupSource, publishState. typ_tac. Qed.

Lemma fallback_target w :
  typed w →
  is_target (if LastDitchFallbackTarget (data w) =s "" then DefaultState (cfg w) else LastDitchFallbackTarget (data w)).
Proof.
  intros [Hc Hd _ _ _ _ _]. destruct (String.eqb_spec (LastDitchFallbackTarget (data w)) "") as [E|E].
  - apply default_target, Hc.
  - by destruct (td_fallback _ Hd).
Qed.
#[export] Hint Resolve typ_OnWakeup fallback_target : typing.

Lemma typ_OnLastDitchDisabled : typ OnLastDitchDisabled'.
Proof. unfold OnLastDitchDisabled'. typ_tac. Qed.
Lemma typ_resetToDefault : typ resetToDefault.
Proof.
  unfold resetToDefault. typ_tac. apply typ_setTarget, default_target.
  match goal with H : typed _ |- _ => apply H end.
Qed.
Lemma typ_follow o n : typ (followReadyToDrive o n).
Proof. unfold followReadyToDrive. typ_tac. Qed.
Lemma typ_acceptCommand t n : is_target t → is_u32 n → typ (acceptCommand t n).
Proof. 
  intros Ht Hn. unfold acceptCommand.
  assert (is_u32 (if t =s TargetHibernateFor then n else 0)) by by split_if. typ_tac.
Qed.
#[export] Hint Resolve typ_OnLastDitchDisabled typ_resetToDefault typ_follow typ_acceptCommand : typing.

(** An action gets the payload of a delivered event. *)
Lemma run_action_typ a c : payload_typed c → typ (run_action a c).
Proof.
  intros Hc. destruct a; cbn [run_action]; try solve [auto with typing nocore].
  all: unfold OnLowPowerCancelled', OnVehicleStateChanged', OnVehicleLeftLowPowerState', OnBatteryStateChanged',
    OnPowerCommand', OnHibernatePreparationFailed', OnLastDitchTriggered', OnLastDitchWakeup',
    OnLastDitchDefaultStateChanged', OnDefaultStateChanged', stopHibernatePreparationTimer.
  all: destruct c; try destruct Hc as (Ht & Hn & _); typ_tac.
  apply typ_set_data. intros d []. unfold batteryUpdate. by repeat split_if.
Qed.
#[export] Hint Resolve run_action_typ : typing.

(** ** Entries *)

Lemma typ_cancel c : typ (cancelIneligibleLowPower c).
Proof. unfold cancelIneligibleLowPower. typ_tac. Qed.
Lemma payload_plain t x : is_target t → t ≠ TargetHibernateFor → payload_typed (PowerCommandPayload t x 0).
Proof. by repeat split. Qed.
Lemma payload_run x : payload_typed (PowerCommandPayload TargetRun x 0).
Proof. apply payload_plain; [apply target_run|done]. Qed.
Lemma payload_hibernate x : payload_typed (PowerCommandPayload TargetHibernate x 0).
Proof. apply payload_plain; [apply target_hibernate|done]. Qed.
Lemma payload_timer x : payload_typed (PowerCommandPayload TargetHibernateTimer x 0).
Proof. apply payload_plain; [unfold is_target, targets; set_solver|done]. Qed.
#[export] Hint Resolve payload_run payload_hibernate payload_timer : typing.

Lemma payload_default t x : is_default t → payload_typed (PowerCommandPayload t x 0).
Proof. intros Ht. apply payload_plain; [by apply default_target|]. by intros ->. Qed.

Lemma typ_SendRun : typ SendRun.
Proof. apply typ_Send, payload_run. Qed.
#[export] Hint Resolve typ_cancel typ_SendRun : typing.

Lemma typ_awaitWake : typ awaitWakeSource.
Proof.
  unfold awaitWakeSource, waitForWakeTimer. typ_tac.
Qed.
Lemma typ_restore : typ restoreDelayInhibitor.
Proof. unfold restoreDelayInhibitor. typ_tac. Qed.
#[export] Hint Resolve typ_awaitWake typ_restore : typing.

(** The telemetry wait stores what it has read, or what was there before. *)
Lemma typ_telemetry n preC preA d :
  charge_ok preC → voltage_ok preA → typ (telemetry_loop n preC preA d).
Proof.
  intros Hc Ha. induction n as [|n IH]; cbn [telemetry_loop]; [apply typ_ret|].
  assert (Hset : ∀ rc ra, typ (set_ld (λ l, setAuxVoltageLocked
    match nonempty ra with Some v => parseNonNegativeInt v | None => preA end
    (l <| cbBatteryCharge := match nonempty rc with Some v => parseChargeOrUnknown v | None => preC end |>)))).
  { intros rc ra. apply typ_set_ld. intros l []. apply ld_aux; [destruct (nonempty ra); auto with typing|].
    split; try done. cbn [cbBatteryCharge]. destruct (nonempty rc); [apply parseCharge_ok|done]. }
  do 2 (apply typ_bind; [unfold HGet; typ_tac|intros ?]). cbv zeta.
  destruct (_ || _); [apply typ_bind; [apply Hset|intros; apply typ_ret]|].
  apply typ_bind; [apply typ_ask|intros now].
  destruct (negb _); [apply typ_bind; [apply Hset|intros; apply typ_ret]|].
  apply typ_bind; [apply typ_ask|intros []]; [apply typ_ret|exact IH].
Qed.

Lemma typ_await : typ awaitFreshTelemetryForLastDitch.
Proof.
  unfold awaitFreshTelemetryForLastDitch. apply typ_gets. intros w []. apply typ_bind; [apply typ_ask|].
  intros now. apply typ_telemetry; by destruct t_ld0.
Qed.
#[export] Hint Resolve typ_await : typing.

Lemma typ_handleWakeup : typ handleWakeupAfterSuspend.
Proof.
  unfold handleWakeupAfterSuspend, refreshBatteryStateFromRedis. typ_tac.
  - apply typ_set_data. intros d []. by repeat split_if.
  - apply typ_applies. intros v l H. typ_record H.
  - apply typ_applies. intros v l H. typ_record H.
  - apply typ_applies. intros v l H. typ_record H.
  - apply typ_applies. intros v l H. typ_record H.
Qed.
#[export] Hint Resolve typ_handleWakeup : typing.

Lemma typ_recover : typ recoverClockPreparation.
Proof. unfold recoverClockPreparation. typ_tac. Qed.
#[export] Hint Resolve typ_recover : typing.
Lemma typ_admit : typ admitSuspend.
Proof. unfold admitSuspend. typ_tac. Qed.
Lemma typ_abort : typ abortToRun.
Proof. unfold abortToRun. typ_tac. Qed.
#[export] Hint Resolve typ_admit typ_abort : typing.
Lemma typ_announce : typ announceSuspend.
Proof. unfold announceSuspend, liveVehicleInStandby. typ_tac. Qed.
Lemma typ_commitSuspend c : typ (commitSuspend c).
Proof. unfold commitSuspend, liveVehicleInStandby. typ_tac. Qed.
Lemma typ_commitPoweroff c cmd : typ (commitPoweroff c cmd).
Proof. unfold commitPoweroff. typ_tac. Qed.
#[export] Hint Resolve typ_announce typ_commitSuspend typ_commitPoweroff : typing.
Lemma typ_EnterIssuing c : typ (EnterIssuingLowPower' c).
Proof. unfold EnterIssuingLowPower', issueCommand. typ_tac. Qed.
#[export] Hint Resolve typ_EnterIssuing : typing.

Lemma run_entry_typ en c : typ (run_entry en c).
Proof.
  destruct en; cbn [run_entry]; unfold EnterLowPowerImminent', EnterWaitingInhibitors',
    hasOnlyModemBlockingInhibitors; typ_tac.
Qed.
#[export] Hint Resolve run_entry_typ : typing.

(** ** Delivery *)

Lemma typ_guards_pass gs c : typ (guards_pass gs c).
Proof. induction gs as [|g gs IH]; cbn [guards_pass]; typ_tac. Qed.
Lemma typ_first_enabled ts c : typ (first_enabled ts c).
Proof. pose proof typ_guards_pass. induction ts as [|t ts IH]; cbn [first_enabled]; typ_tac. Qed.
Lemma typ_publishFSM s : typ (publishFSMState s).
Proof. unfold publishFSMState. typ_tac. Qed.
#[export] Hint Resolve typ_first_enabled typ_publishFSM : typing.

Lemma typ_take p t c : payload_typed c → typ (take_transition p t c).
Proof. intros Hc. unfold take_transition, leave, act, enter, ExitIssuingLowPower'. typ_tac. Qed.

Lemma typ_deliver p s e : payload_typed (evPayload e) → typ (deliver_spec p s e).
Proof. intros Hc. unfold deliver_spec. pose proof (typ_take p). typ_tac. Qed.

(** ** Callbacks *)

Lemma cap_positive w : typed w → positive_u32 (wakeTimerMaxSeconds w).
Proof.
  intros [[Hc _ _] _ _ [Hs _] _ _ _]. unfold wakeTimerMaxSeconds, positive_u32 in *. split_if; bools; lia.
Qed.

Lemma typ_sendCheck : typ sendLastDitchCheck.
Proof. unfold sendLastDitchCheck, sendEligibility. typ_tac. Qed.

Lemma typ_fireAll cap l : Forall (cap_ok cap) l → typ (fireAll l).
Proof.
  induction 1 as [|n l [Hn _] _ IH]; cbn [fireAll]; unfold scheduledFire; typ_tac.
  split; [unfold is_target, targets; set_solver|]. unfold is_u32. lia.
Qed.
#[export] Hint Resolve typ_sendCheck : typing.

Section callbacks.
Context `{Cron}.

Lemma typ_runScheduler o : is_u32 (op_cap o) → typ (runScheduler o).
Proof.
  intros Ho. unfold runScheduler. typ_tac. eapply typ_fireAll, step_cap. exact Ho.
Qed.

Lemma with_cap_u32 w o : typed w → is_u32 (op_cap (with_cap (wakeTimerMaxSeconds w) o)).
Proof.
  intros Hw. apply cap_positive in Hw. unfold positive_u32, is_u32 in *. destruct o; cbn; lia.
Qed.

Lemma cap_u32 w : typed w → is_u32 (wakeTimerMaxSeconds w).
Proof. intros Hw. apply cap_positive in Hw. unfold positive_u32, is_u32 in *. lia. Qed.

Lemma typ_bootElapsed : typ bootElapsed.
Proof. unfold bootElapsed. typ_tac. Qed.
#[local] Hint Resolve typ_bootElapsed : typing.
Lemma typ_clockValid : typ clockValid.
Proof. unfold clockValid. typ_tac. Qed.
#[local] Hint Resolve typ_runScheduler with_cap_u32 typ_clockValid : typing.

Lemma payload_hibernate_for n : positive_u32 n → payload_typed (PowerCommandPayload TargetHibernateFor true (u32 n)).
Proof.
  intros Hn. unfold positive_u32 in Hn. rewrite u32_id by (unfold is_u32; lia).
  split; [unfold is_target, targets; set_solver|]. unfold is_u32. lia.
Qed.

Lemma commandEvent_target command id target :
  commandEvent command = Some (id, target) → payload_typed (PowerCommandPayload target (bool_decide (id = EvExplicitHibernate)) 0).
Proof.
  intros E. split; [|split; [done|]].
  - revert E. unfold commandEvent. repeat (split_if; [intros [= <- <-]; bools|]); try done;
      try match goal with Hc : (command =s _) = true |- _ => apply streq_true in Hc as -> end;
      unfold is_target, targets; set_solver.
  - intros ->. apply commandEvent_untimed in E. done.
Qed.

Lemma typ_onPowerCommand command : typ (onPowerCommand command).
Proof.
  unfold onPowerCommand, onHibernatePreparationResult.
  destruct (CutPrefix command "hibernate-preparation-failed:"); [typ_tac|].
  destruct (CutPrefix command "hibernate-for:"); [|].
  - typ_tac. apply payload_hibernate_for.
    match goal with Hw : typed _, Es : hibernateForSeconds _ _ = Some _ |- _ =>
      apply cap_positive in Hw; apply hibernateForSeconds_range in Es; unfold positive_u32, is_u32 in *; lia end.
  - typ_tac. by eapply commandEvent_target.
Qed.
#[local] Hint Resolve typ_onPowerCommand : typing.

Lemma typ_onSetting f v : typ (onSetting f v).
Proof.
  unfold onSetting, onHibernationTimerSetting, onDefaultStateSetting, onSuspendWhenOnlineSetting,
    onLastDitchHibernateEnabledSetting, onWakeTimerMaxSecondsSetting, onWakeTimerAckTimeoutSetting,
    onScheduledHibernateEnabledSetting, onScheduledHibernateCronSetting, onScheduledHibernateDurationSetting,
    hibernationTimerExpired, sendEligibility.
  typ_tac.
  - apply typ_timer. intros _ _. change t with (t, b).1.
    match goal with E : SetTimerValue _ _ _ = _, Hw : typed _ |- _ => rewrite <- E; apply SetTimerValue_ok, Hw end.
    match goal with E : ParseInt _ _ = _ |- _ => apply ParseInt_range in E; lia end.
  - by apply typ_default, negb_false_iff.
  - apply payload_default. by apply negb_false_iff.
  - apply typ_set_ld. intros _ _.
    match goal with E : setLastDitchHibernateEnabled _ _ = (_, ?l), Hw : typed _ |- _ =>
      apply (f_equal snd) in E; cbn [snd] in E; rewrite <- E;
      apply ld_enabled, Hw end.
  - match goal with E : ParseUint _ _ = _ |- _ => apply ParseUint_u32 in E as Hz end. bools.
    apply typ_set_settings. intros st [Hc Ha]. split; cbn; [|done]. rewrite u32_id by done. unfold is_u32 in Hz. lia.
  - match goal with E : ParseDuration _ = _ |- _ => apply ParseDuration_range in E as Hz end. bools.
    apply typ_set_settings. intros st [Hc Ha]. split; cbn; [done|]. tlia.
Qed.
#[local] Hint Resolve typ_onSetting : typing.

Lemma run_handler_typ h : typ (run_handler h).
Proof.
  destruct h; cbn [run_handler]; unfold onVehicleStateChanged, onBattery, onBatteryStateChanged,
    onBatteryPresentChanged, onBatteryChargeChanged, onCBBatteryPresentChanged, onCBBatteryChargeChanged,
    onAuxVoltageChanged, onGovernorCommand, setGovernor, onInhibitorsChanged, publishInhibitors, onPowerStateSent,
    onWakeTimerAckSeconds, hibernationTimerExpired, preparationTimerFires, checkTimeSync, delayRemovalFires,
    sendEligibility; typ_tac.
  - by apply typ_runScheduler, cap_u32.
  - match goal with E : ParseUint _ _ = _ |- _ => apply ParseUint_u32 in E as Hz end.
    apply typ_set_flags. by intros f _ ? [= <-].
  - by apply typ_runScheduler, cap_u32.
Qed.

(** ** Start-up *)

Lemma typ_seed h f k : (∀ v, typ (k v)) → typ (seed h f k).
Proof. intros Hk. unfold seed. typ_tac. Qed.

Lemma typ_seedInputs ts : typ (seedInputs ts).
Proof.
  unfold seedInputs.
  repeat first [apply typ_seed; intros ? | typ_step]; auto with typing nocore.
  - apply typ_set_data. intros d []. by split_if.
  - by apply typ_default.
  - apply typ_set_data. intros d []. split; [by apply default_target|done..].
Qed.

Lemma typ_wakeupSources ports : typ (enableWakeupSources ports).
Proof. induction ports as [|p ports IH]; cbn [enableWakeupSources]; typ_tac. Qed.

Lemma typ_startup ts m : typ (startup ts m).
Proof.
  unfold startup, startScheduler, startMachine. pose proof (typ_seedInputs ts). pose proof typ_wakeupSources. typ_tac.
  apply typ_timer. intros w [[_ _ Ht] _ _ _ _ _ _]. by apply NewTimer_ok.
Qed.
End callbacks.

Lemma newService_typed c cl e : cfg_typed c → typed (newService c cl e).
Proof.
  intros Hc. split; try done.
  - split; cbn; [apply default_target, Hc|by left|done].
  - split; cbn; unfold charge_ok, voltage_ok; tlia.
  - apply NewTimer_ok, Hc.
Qed.

(** ** Every reachable state *)

Section reachable.
Context `{Cron} `{LibreFSM}.

Lemma mstep_typed s w s' w' : mstep (s, w) (s', w') → typed w → typed w'.
Proof.
  intros Hst Hw. inversion Hst as [? ? e ? ? He Hd|? ? h u ? Hr]; subst.
  - assert (Hp : payload_typed (evPayload e)).
    { destruct He as [He|He]; [|by apply timeout_wf in He as [_ ->]].
      pose proof (t_trace _ Hw) as Ht. rewrite Forall_forall in Ht. exact (Ht _ He). }
    rewrite deliver_law in Hd. pose proof (typ_deliver fsm_policy s e Hp w) as Ht. rewrite Hd in Ht. by apply Ht.
  - pose proof (run_handler_typ h w) as Ht. rewrite Hr in Ht. by apply Ht.
Qed.

Lemma run_typed m m' : rtc mstep m m' → typed m.2 → typed m'.2.
Proof. induction 1 as [|[s w] [s' w'] m Hst _ IH]; [done|]. intros Hw. by apply IH, (mstep_typed s w s' w'). Qed.

(** From a typed configuration on. *)
Lemma reachable_typed c cl e ts m w0 s w :
  cfg_typed c → startup ts m (newService c cl e) = (true, w0) → rtc mstep (InitialState, w0) (s, w) → typed w.
Proof.
  intros Hc Hs Hr. apply (run_typed _ _ Hr). pose proof (typ_startup ts m _ (newService_typed c cl e Hc)) as Ht.
  by rewrite Hs in Ht.
Qed.

(** C12: types are preserved.  A service built from a valid configuration stays
    well typed through every start-up and every run of events, timeouts and
    callbacks: the target is always one of the seven power targets and the
    default state a valid one, durations, acknowledgements and charges stay in
    their widths and ranges, settings are unset or within their documented
    limits, the hibernation timer keeps its invariant, and no event in the
    queue asks for a timed hibernation of zero seconds.  So the wake-up cap is
    always positive, and the issuing state meets no target it has no command
    for, except "run". *)
Theorem state_typed (c : Config) (cl : Client) (e : Env) (ts : option string) (m : MarkerFile) (w0 : World)
    (s : StateID) (w : World) :
  cfg_typed c → startup ts m (newService c cl e) = (true, w0) → rtc mstep (InitialState, w0) (s, w) →
  typed w ∧ positive_u32 (wakeTimerMaxSeconds w) ∧
  (powerCommand (TargetPowerState (data w)) = None → TargetPowerState (data w) = TargetRun).
Proof.
  intros Hc Hs Hr. assert (Hw : typed w) by by eapply reachable_typed. split; [done|]. split; [by apply cap_positive|].
  pose proof (td_target _ (t_data _ Hw)) as Ht. intros Hn. apply list_elem_of_In in Ht. cbn in Ht.
  repeat destruct Ht as [Ht|Ht]; try done; by rewrite <- Ht in Hn.
Qed.
End reachable.

Lemma state_typed_witness :
  cfg_typed newConfig ∧ typed hibernateRun.2 ∧ positive_u32 (wakeTimerMaxSeconds hibernateRun.2).
Proof.
  assert (Hc : cfg_typed newConfig) by (split; [unfold positive_u32; cbn; lia|reflexivity|cbn; tlia]).
  split; [exact Hc|].
  destruct (startup None noMarker (newService newConfig (mkClient true true) sleepyEnv)) as [ok w0] eqn:Es.
  assert (Hok : ok = true) by (change ok with (fst (ok, w0)); rewrite <- Es; vm_compute; reflexivity).
  rewrite Hok in Es.
  assert (Hm : sleepyStart = (InitialState, w0)) by (unfold sleepyStart, start; rewrite Es; reflexivity).
  assert (Hr : rtc (@mstep noCron sampleFSM) (InitialState, w0) (hibernateRun.1, hibernateRun.2)).
  { rewrite <- surjective_pairing, <- Hm. apply exec_rtc. }
  destruct (@state_typed noCron sampleFSM _ _ _ _ _ _ _ _ Hc Es Hr) as (H1 & H2 & _). exact (conj H1 H2).
Defined.
