(* ===== verification/CommandLine.v ===== *)
(** * The command lines of the two programs

    [internal/config/config.go] and [cmd/pm-service/main.go]: the flags of the
    service, its start with the outcomes of the calls that can fail, and what a
    command line can make of the configuration.  The flags of
    [cmd/clock-coordinator/main.go] give [Daemon.RunIO] its first fields. *)

From S2P Require Import Prelude GoInt GoTime GoFloat GoText GoDuration GoFlag HibTimer Scheduler SchedulerFacts.
From S2P Require Import Fsm Inhibitor LastDitch ClockProto Systemd ClockClient SvcState SvcGuards SvcActions.
From S2P Require Import Issuing SvcFacts IssuingFacts WakeFacts ActionFacts ClockGuard Handlers HandlerFacts.
From S2P Require Import Machine Runs MachineFacts MachineSafety Typing Daemon.

(** ** The service *)

Definition RegisterFlags : list (Flag Config) :=
  [StringVar "redis-host" (λ v c, c <| RedisHost := v |>);
   IntVar "redis-port" (λ v c, c <| RedisPort := v |>);
   DurationVar "pre-suspend-delay" (λ v c, c <| PreSuspendDelay := v |>);
   DurationVar "suspend-imminent-delay" (λ v c, c <| SuspendImminentDelay := v |>);
   DurationVar "inhibitor-duration" (λ v c, c <| InhibitorDuration := v |>);
   DurationVar "hibernation-timer" (λ v c, c <| HibernationTimer := v |>);
   StringVar "socket-path" (λ v c, c <| SocketPath := v |>);
   BoolVar "dry-run" (λ v c, c <| DryRun := v |>);
   StringVar "default-state" (λ v c, c <| DefaultState := v |>)].

(** The variables of [main] that flags write. *)
Record Options := mkOptions { showVersion : bool; config : Config }.
#[export] Instance eta_Options : Eta Options := λ o, mkOptions (showVersion o) (config o).

Definition onConfig (f : Flag Config) : Flag Options :=
  mkFlag (fl_name f) (fl_bool f) (λ v o, (λ c, o <| config := c |>) <$> fl_set f v (config o)).

Definition mainFlags : list (Flag Options) :=
  BoolVar "version" (λ v o, o <| showVersion := v |>) :: map onConfig RegisterFlags.

(** [NewManager]: an existing socket is removed first. *)
Record SocketIO := mkSocketIO { so_exists : bool; so_removed : bool; so_listen : bool }.

Definition openSocket (io : SocketIO) : bool :=
  if so_exists io && negb (so_removed io) then false else so_listen io.

(** What the calls of [New] and [Run] answer. *)
Record MainIO := mkMainIO {
  mi_redis : bool;
  mi_bus : bool;
  mi_match : bool;
  mi_socket : SocketIO;
  mi_env : Env;
  mi_build : option string;
  mi_marker : MarkerFile;
  mi_watchers : bool;      (* every watcher starts *)
  mi_notify : NotifyIO;
}.

(** [service.New]. *)
Definition New (c : Config) (io : MainIO) : option World :=
  if negb (mi_redis io) then None
  else if negb (openSocket (mi_socket io)) then None
  else Some (newService c (NewClient (mi_bus io) (mi_match io)) (mi_env io)).

Inductive MainEnd :=
| MainVersion
| MainExit (status : Z)
| MainServes (w : World).

(** Everything up to the wait for the end of the context. *)
Definition main (args : list string) (io : MainIO) : MainEnd :=
  match Parse mainFlags (mkOptions false newConfig) args with
  | HelpWanted => MainExit 0
  | ParseError => MainExit 2
  | ParsedFlags o _ =>
      if showVersion o then MainVersion
      else match New (config o) io with
      | None => MainExit 1
      | Some w =>
          let '(ok, w) := startup (mi_build io) (mi_marker io) w in
          if negb ok || negb (mi_watchers io) then MainExit 1
          else match NotifyReady (mi_notify io) with
          | Some _ => MainExit 1
          | None => MainServes w
          end
      end
  end.

(** ** The coordinator *)

Record DaemonOptions := mkDaemonOptions { runDir : string; refclockDir : string; waitFor : Z }.
#[export] Instance eta_DaemonOptions : Eta DaemonOptions := λ o,
  mkDaemonOptions (runDir o) (refclockDir o) (waitFor o).

Definition daemonFlags : list (Flag DaemonOptions) :=
  [StringVar "run-dir" (λ v o, o <| runDir := v |>);
   StringVar "refclock-dir" (λ v o, o <| refclockDir := v |>);
   DurationVar "wait" (λ v o, o <| waitFor := v |>)].

Definition defaultDaemonOptions : DaemonOptions :=
  mkDaemonOptions "/run/clock-coordinator" "/run/chrony" 0.

(** The exit status, or the outcome of [run] with the parsed flags; [io] has
    the rest of its inputs. *)
Definition daemonRun (flock : option nat → nat → bool) (args : list string) (io : RunIO) (p : nat)
    (owner : option nat) : (Z + RunResult) * option nat :=
  match Parse daemonFlags defaultDaemonOptions args with
  | HelpWanted => (inl 0, owner)
  | ParseError => (inl 2, owner)
  | ParsedFlags o rest =>
      let '(r, owner) :=
        runStart flock (mkRun (Z.of_nat (length rest)) (waitFor o) (r_euid io) (r_mkdir io) (r_lstat io) (r_lock io))
          p owner in
      (inr r, owner)
  end.

(** ** One flag at a time *)

Lemma Parse_named {C} (flags : list (Flag C)) c a rest name v f c' :
  splitArgument a = Named name (Some v) → Lookup flags name = Some f → fl_set f v c = Some c' →
  Parse flags c (a :: rest) = Parse flags c' rest.
Proof. intros Ha Hf Hs. cbn [Parse]. rewrite Ha, Hf. destruct (fl_bool f); cbn; by rewrite Hs. Qed.

(** What every flag keeps, a command line keeps. *)
Lemma Lookup_elem {C} (flags : list (Flag C)) name f : Lookup flags name = Some f → f ∈ flags.
Proof.
  induction flags as [|g flags IH]; cbn; [done|]. destruct (_ =s _).
  - intros [= <-]. constructor.
  - intros H. constructor. by apply IH.
Qed.

Lemma Parse_invariant {C} (flags : list (Flag C)) (P : C → Prop) args :
  (∀ f v c c', f ∈ flags → P c → fl_set f v c = Some c' → P c') →
  ∀ c c' rest, P c → Parse flags c args = ParsedFlags c' rest → P c'.
Proof.
  intros Hf. remember (length args) as n eqn:Hn. revert args Hn.
  induction (lt_wf n) as [n _ IH]. intros [|a args] Hn c c' rest Hc; cbn [Parse]; [by intros [= <-]|]. subst n.
  assert (Hgo : ∀ f v l, f ∈ flags → (length l ≤ length args)%nat →
    match fl_set f v c with Some c1 => Parse flags c1 l | None => ParseError end = ParsedFlags c' rest → P c').
  { intros f v l Hin Hl. destruct (fl_set f v c) as [c1|] eqn:E; [|done].
    apply (IH (length l) ltac:(cbn; lia) l eq_refl). by eapply Hf. }
  destruct (splitArgument a) as [| | |name value]; try (by intros [= <-]).
  destruct (Lookup flags name) as [f|] eqn:El; [|by destruct (one_of _ _)]. apply Lookup_elem in El.
  destruct (fl_bool f); [by apply Hgo|].
  destruct value as [v|]; [by apply Hgo|]. destruct args as [|v args]; [done|]. apply Hgo; [done|cbn; lia].
Qed.

(** ** Any configuration can be given on the command line *)

Definition commandLine (c : Config) : list string :=
  ["-redis-host=" +:+ RedisHost c;
   "--redis-port=" +:+ FormatInt (RedisPort c);
   "-pre-suspend-delay=" +:+ formatNs (PreSuspendDelay c);
   "-suspend-imminent-delay=" +:+ formatNs (SuspendImminentDelay c);
   "-inhibitor-duration=" +:+ formatNs (InhibitorDuration c);
   "-hibernation-timer=" +:+ formatNs (HibernationTimer c);
   "-socket-path=" +:+ SocketPath c;
   "-dry-run=" +:+ (if DryRun c then "true" else "false");
   "-default-state=" +:+ DefaultState c].

(** The Go types of the fields that flags set, and the fields that none sets. *)
Definition is_int (z : Z) : Prop := - 2 ^ 31 ≤ z < 2 ^ 31.

Record flag_typed (c : Config) : Prop := {
  fl_port : is_int (RedisPort c);
  fl_pre : is_i64 (PreSuspendDelay c);
  fl_imminent : is_i64 (SuspendImminentDelay c);
  fl_inhibitor : is_i64 (InhibitorDuration c);
  fl_timer : is_i64 (HibernationTimer c);
}.

Definition unflagged (c d : Config) : Prop :=
  WakeTimerMaxSeconds c = WakeTimerMaxSeconds d ∧ WakeTimerAckTimeout c = WakeTimerAckTimeout d ∧
  WakeupSources c = WakeupSources d.

Lemma Config_ext (c d : Config) :
  unflagged c d → RedisHost c = RedisHost d → RedisPort c = RedisPort d → PreSuspendDelay c = PreSuspendDelay d →
  SuspendImminentDelay c = SuspendImminentDelay d → InhibitorDuration c = InhibitorDuration d →
  HibernationTimer c = HibernationTimer d → SocketPath c = SocketPath d → DryRun c = DryRun d →
  DefaultState c = DefaultState d → c = d.
Proof. unfold unflagged. destruct c, d; cbn. intros (? & ? & ?). congruence. Qed.

(** A flag of the configuration, given with its value. *)
Lemma Parse_config {A} (read : string → option A) put x name a v c b rest :
  splitArgument a = Named name (Some v) → Lookup mainFlags name = Some (onConfig (valueFlag name read put)) →
  read v = Some x →
  Parse mainFlags (mkOptions b c) (a :: rest) = Parse mainFlags (mkOptions b (put x c)) rest.
Proof. intros Ha Hl Hr. eapply Parse_named; [exact Ha|exact Hl|]. cbn. by rewrite Hr. Qed.

Lemma Parse_dry_run c b v rest :
  Parse mainFlags (mkOptions b c) (("-dry-run=" +:+ (if v : bool then "true" else "false")) :: rest) =
  Parse mainFlags (mkOptions b (c <| DryRun := v |>)) rest.
Proof. eapply Parse_named; [reflexivity|reflexivity|]. by destruct v. Qed.

Local Ltac set_flag x :=
  etrans; [eapply (Parse_config _ _ x); [reflexivity|reflexivity|]|].

(** C33: every configuration whose fields have the types of the flags, and that
    differs from the default one only where there is a flag (there is none for
    the cap and the timeout of the wake timer and for the wake-up sources), can
    be given on the command line, and is what the service then starts with: the
    parser reads back strings of any bytes, 32-bit integers and durations of
    64 bits. *)
Theorem flags_roundtrip (c : Config) :
  flag_typed c → unflagged c newConfig →
  Parse mainFlags (mkOptions false newConfig) (commandLine c) = ParsedFlags (mkOptions false c) [].
Proof.
  intros [Hp H1 H2 H3 H4] Hu. unfold commandLine.
  set_flag (RedisHost c); [done|].
  set_flag (RedisPort c); [apply ParseInt0_FormatInt; unfold is_int, intSize in *; lia|].
  set_flag (PreSuspendDelay c); [by apply ParseDuration_ns|].
  set_flag (SuspendImminentDelay c); [by apply ParseDuration_ns|].
  set_flag (InhibitorDuration c); [by apply ParseDuration_ns|].
  set_flag (HibernationTimer c); [by apply ParseDuration_ns|].
  set_flag (SocketPath c); [done|]. rewrite Parse_dry_run. set_flag (DefaultState c); [done|].
  cbn [Parse]. f_equal. f_equal. apply Config_ext; try done.
  destruct Hu as (Ha & Hb & Hc). by split_and!; symmetry.
Qed.

(** ** What a command line can make of the configuration *)

Lemma RegisterFlags_keep f v c c' :
  f ∈ RegisterFlags → flag_typed c ∧ unflagged c newConfig → fl_set f v c = Some c' →
  flag_typed c' ∧ unflagged c' newConfig.
Proof.
  intros Hf [Ht Hu] Hs. apply list_elem_of_In in Hf. cbn in Hf.
  assert (Hk : unflagged c' newConfig) by (repeat destruct Hf as [<-|Hf]; try done; cbn in Hs; by simplify_option_eq).
  split; [|done]. destruct Ht.
  repeat destruct Hf as [<-|Hf]; try done; cbn in Hs; simplify_option_eq; split; cbn; try done;
    match goal with
    | H : ParseInt0 _ _ = Some _ |- _ => by apply ParseInt0_range in H
    | H : ParseDuration _ = Some _ |- _ => by apply ParseDuration_range in H
    end.
Qed.

Lemma onConfig_keep (P : Config → Prop) :
  (∀ f v c c', f ∈ RegisterFlags → P c → fl_set f v c = Some c' → P c') →
  ∀ f v o o', f ∈ mainFlags → P (config o) → fl_set f v o = Some o' → P (config o').
Proof.
  intros Hk f v o o' Hf Ho Hs. unfold mainFlags in Hf. apply elem_of_cons in Hf as [->|Hf].
  - cbn in Hs. by simplify_option_eq.
  - apply list_elem_of_fmap in Hf as (g & -> & Hg). cbn in Hs. simplify_option_eq. by eapply Hk.
Qed.

Lemma new_flag_typed : flag_typed newConfig ∧ unflagged newConfig newConfig.
Proof. split; [|done]. split; cbn; unfold is_int; tlia. Qed.

(** Whatever the arguments are, the fields have their Go types, and the cap of
    the wake timer, its acknowledgement timeout and the wake-up sources are the
    compiled ones. *)
Lemma command_line_config args o rest :
  Parse mainFlags (mkOptions false newConfig) args = ParsedFlags o rest →
  flag_typed (config o) ∧ unflagged (config o) newConfig.
Proof.
  apply (Parse_invariant mainFlags (λ o, flag_typed (config o) ∧ unflagged (config o) newConfig)).
  - apply (onConfig_keep (λ c, flag_typed c ∧ unflagged c newConfig)). apply RegisterFlags_keep.
  - apply new_flag_typed.
Qed.

Section start.
Context `{Cron} `{LibreFSM}.

(** The service that a command line starts is well typed in every
    reachable state, whatever the arguments, the host and the environment do,
    provided the two values that no flag checks are sensible: the default state
    is one of the documented ones and the hibernation timer is not negative. *)
Theorem service_typed (args : list string) (io : MainIO) (o : Options) (rest : list string) (w0 : World)
    (s : StateID) (w : World) :
  Parse mainFlags (mkOptions false newConfig) args = ParsedFlags o rest → main args io = MainServes w0 →
  is_default (DefaultState (config o)) → 0 ≤ HibernationTimer (config o) →
  rtc mstep (InitialState, w0) (s, w) →
  typed w ∧ positive_u32 (wakeTimerMaxSeconds w).
Proof.
  intros Hp Hm Hd Ht Hr. destruct (command_line_config _ _ _ Hp) as (_ & Hcap & _ & _).
  assert (Hc : cfg_typed (config o)) by (split; [rewrite Hcap; unfold positive_u32; cbn; lia|done|done]).
  unfold main in Hm. rewrite Hp in Hm. destruct (showVersion o); [done|]. unfold New in Hm.
  destruct (negb (mi_redis io)); [done|]. destruct (negb (openSocket _)); [done|].
  destruct (startup _ _ _) as [ok w1] eqn:Es. destruct ok, (mi_watchers io); try done. cbn in Hm.
  destruct (NotifyReady _); [done|]. injection Hm as ->.
  assert (Hw : typed w) by by eapply reachable_typed. split; [done|by apply cap_positive].
Qed.
End start.

(** ** Sample starts *)

(** A host where every call succeeds; the vehicle of [sleepyEnv]. *)
Definition sampleHost : MainIO :=
  mkMainIO true true true (mkSocketIO false true true) sleepyEnv None noMarker true (mkNotify "" None None None).

Definition served (args : list string) : World :=
  match main args sampleHost with MainServes w => w | _ => sleepyStart.2 end.

Definition sampleArgs : list string := ["-dry-run"; "-default-state"; "hibernate"; "x"].

Lemma flags_roundtrip_witness :
  let c := newConfig <| RedisPort := -1 |> <| HibernationTimer := 90 * Minute |> <| DefaultState := "reboot" |> in
  Parse mainFlags (mkOptions false newConfig) (commandLine c) = ParsedFlags (mkOptions false c) [].
Proof. apply flags_roundtrip; [split; cbn; unfold is_int; tlia|done]. Defined.

Lemma service_typed_witness :
  let m := @exec noCron sampleFSM suspendScript (InitialState, served sampleArgs) in
  typed m.2 ∧ positive_u32 (wakeTimerMaxSeconds m.2).
Proof.
  intros m.
  assert (Hm : main sampleArgs sampleHost = MainServes (served sampleArgs)) by (vm_compute; reflexivity).
  pose proof (@exec_rtc noCron sampleFSM suspendScript (InitialState, served sampleArgs)) as Hr. fold m in Hr.
  rewrite (surjective_pairing m) in Hr.
  apply (@service_typed noCron sampleFSM sampleArgs sampleHost
    (mkOptions false (newConfig <| DryRun := true |> <| DefaultState := "hibernate" |>)) ["x"]
    (served sampleArgs) m.1 m.2 eq_refl Hm eq_refl ltac:(cbn; tlia) Hr).
Defined.

(** The flag for the default state takes any text, unlike the setting:
    with the target of a timed hibernation, which carries no interval here, the
    vehicle powers off in stand-by without a wake-up timer. *)
Theorem default_state_flag_unchecked :
  let w0 := served ["-default-state=hibernate-for"] in
  let m := @exec noCron sampleFSM [DeliverLast; Elapse; DeliverLast] (InitialState, w0) in
  main ["-default-state=hibernate-for"] sampleHost = MainServes w0 ∧
  rtc (@mstep noCron sampleFSM) (InitialState, w0) m ∧
  isValidDefaultState "hibernate-for" = false ∧ HibernateForWakeSeconds (data m.2) = 0 ∧
  wakeTimerArmed (flags m.2) = false ∧ OIssue "poweroff" true ∈ trace m.2.
Proof.
  cbv zeta. split; [vm_compute; reflexivity|]. split; [apply exec_rtc|].
  split; [reflexivity|]. split; [vm_compute; reflexivity|]. split; [vm_compute; reflexivity|].
  apply list_elem_of_In. vm_compute. repeat first [by left|right].
Qed.
